(* ===== verification/_CoqProject ===== *)
-Q . S2P
Prelude.v
Json.v
Domain.v
Bolt.v
Fsm.v
Crypto.v
Store.v
Repo.v
Authorization.v
StoreTheory.v
RateLimit.v
Http.v
Service.v
ServiceTheory.v
Cluster.v
ClusterTheory.v
Buffer.v
Broker.v
Encryption.v
Middleware.v
MiddlewareTheory.v
Webhook.v
WebhookTheory.v
Events.v
EventsTheory.v
AuthHandler.v
ApiDto.v
Api.v
Server.v
Governance.v
Bootstrap.v
BootstrapTheory.v
ApiTheory.v
ApiSpec.v
LoginTheory.v
ServerTheory.v
BoltTheory.v
Client.v
ClientTheory.v
Oidc.v
OidcTheory.v
Proxy.v
ProxyTheory.v
Recovery.v
RecoveryTheory.v
Replay.v
ReplayTheory.v
RaftTls.v
RaftTlsTheory.v
TlsReload.v
Migrate.v
ClientRun.v
Keygen.v
Transport.v
Startup.v
StartupTheory.v
