(* ===== verification/Prelude.v ===== *)
(** * gohookbridge: a verified model of the webhook relay

    gohookbridge receives webhooks on public channels and relays them to clients
    behind firewalls over Server-Sent Events.  Its nodes share one replicated
    key-value store (hashicorp/raft over bbolt), an embedded message broker with a
    replay buffer per channel, and an administration API.  This library models the
    Go code under src/ as executable definitions and proves what makes each part,
    and their composition, correct.  Definitions keep the names of the code.

    ** Layers

    1. Foundations.  This file: errors and results ([goerr], [res]), machine
       integers ([wrap64], [wrapu64]), package strings, struct assignment
       ([x <| f := v |>]).  Json.v: encoding/json, as codecs built from the struct
       tags with the law that a well-formed value is read back ([JsonLaw]).
       Crypto.v: base64, hex, entropy, UUIDs, and the primitives (AES-GCM, SHA-256,
       HMAC, HKDF, bcrypt, JSON text) as classes with their documented laws; the NaCl
       box is a class of Encryption.v.
    2. Data.  Domain.v: internal/domain, the entities, legacy migration and
       configuration resolution.  Repo.v: internal/domain/repository.go, the
       repository as a class, which the services are written against.
    3. Storage.  Bolt.v: internal/repository/bolt.go over bbolt (class [Bolt] with
       [BoltLaws]).  Fsm.v: fsm.go, every raft command, snapshot and restore, and
       the abstract machine of key writes they refine.  Store.v: cryptokeeper.go,
       the repository half of raft.go, migrate.go; raft is an oracle that says for
       each submission whether this node leads and what became of the entry.
       StoreTheory.v: sealing is transparent, a write is what the next read returns.
       BoltTheory.v: the log store refines a finite map from indices to entries.
    4. Cluster.  Cluster.v: raft_discovery.go and the membership half of raft.go;
       ClusterTheory.v: one node seeds a deployment, reconciliation converges.
       Recovery.v: the first half of NewServer, up to the raft store, with the
       generation fencing and the single-node collapse; RecoveryTheory.v: a recovery
       leaves one quorum.  Transport.v: the address the raft transport advertises.
       RaftTls.v: raft_tls.go and the dial of raft_streamlayer.go, on a host whose
       system calls fail one by one; RaftTlsTheory.v: the certificate a node serves
       is current, kept over restarts, and what a torn renewal does.  TlsReload.v:
       pkg/tlsreload.  Bootstrap.v and BootstrapTheory.v: the bootstrap file, from
       secret resolution to the replicated command, all or nothing.  Migrate.v: the
       bootstrap file made of deprecated environment variables.  Startup.v: the second
       half of NewServer, up to the session key, and the options of the embedded NATS
       server; StartupTheory.v: what a restart keeps.
    5. Services.  Authorization.v: internal/service/authorization.go, permissions as
       an equivalence with a declarative grant relation.  RateLimit.v: ratelimit.go,
       sliding windows, login throttle, bans, with bounds over whole histories.
       Http.v: the part of net/http and net the handlers use, and client addresses.
       Service.v, ServiceTheory.v: sessions, tokens, channels, authentication mode.
    6. Events.  Buffer.v: pkg/nats/buffer.go down to slots and slices of a shared
       heap, refining a bounded queue.  Broker.v: pkg/nats/broker.go, subscribers,
       fan-out, replay and their interleavings.  Encryption.v: pkg/crypto,
       pkg/encryption and service/publish.go.
    7. Requests.  Middleware.v, Webhook.v, Events.v, AuthHandler.v, ApiDto.v, Api.v,
       Oidc.v: internal/handler, each handler whole, on one shared state [World].
       Server.v: the routers of both listeners in internal/server/server.go.  The
       files named ...Theory.v, Governance.v and ApiSpec.v hold their theorems.
    8. The other commands.  Client.v: internal/client/client.go, from an event of the
       stream to the saved files, the forwarded request and the command; ClientRun.v:
       the command line, the client's identifier and the subscription; Keygen.v: the key
       file and the keygen command; Replay.v: the replayer of GitHub deliveries.  Proxy.v: internal/proxy, the encrypting relay,
       and pkg/urlutil.  ClientTheory.v, ReplayTheory.v and ProxyTheory.v hold the
       theorems, end to end with the webhook route.

    ** How the parts meet

    A service is parametric in its repository ([Repository], [RepositoryLaws]);
    Governance.v shows that the raft store is an instance, and ApiTheory.v lifts the
    handlers' theorems to it.  Handlers run on [World] (service, broker, limiters,
    caches); middlewares are guards composed in the routers' order, so that
    ServerTheory.v can speak of every request to a listener.  Concurrency is explicit
    where the code is concurrent: event streams (Events.v) and subscriptions
    (Broker.v) are programs of atomic steps with an inductive step relation, and
    check-then-act handlers are split at their reads (ApiSpec.v).  The commands meet
    where one produces what the other consumes: ClientTheory.v feeds the client what
    the webhook route published, ProxyTheory.v puts the proxy before both, Recovery.v
    hands the raft store to Startup.v, and Startup.v the session key to the routers.

    ** What the theorems show

    - Safety of the whole server: any request that changes the stored configuration
      carries a valid session of a permitted user; the public listener never does;
      every history of API requests keeps an administrator or another way to log in;
      one webhook POST publishes at most one event, only for an admitted, unbanned,
      unthrottled, authentic request, and never in the clear on an encrypted channel.
    - Refinement and equivalence: raft commands against the machine of key writes,
      the ring buffer against a bounded queue, permission checks against the grant
      relation, cookies against signed unexpired sessions.
    - Round trips: channels, configuration and secrets at rest; snapshots; payload
      envelopes; access tokens; what a producer sends, through the proxy, the server
      and the client, to the target.
    - Restarts: a started node starts again with the same session key, certificate and
      configuration; a recovered cluster has one quorum.
    - Bounds: requests per window, login guesses, retained bytes, client queues.
    - Termination: a stream whose client is gone ends and frees its slot.
    - What the code does not promise, as theorems about concrete runs: usernames are
      not unique, concurrent deletions may lock everybody out, forwarding may loop, a
      refused bootstrap is reported as applied, a moved address blocks membership.

    ** Bounds and fuel

    Loops that are not structural recurse on fuel.  [delete_range] (Bolt.v) runs over
    the uint64 interval it deletes, with the interval's length as fuel, and
    [evict_loop] (Buffer.v) over the live slots of the ring, with their number; the
    lemmas about them are stated for the fuel the callers pass.  The polls
    [resolve_loop] (Recovery.v), [poll_secret] (RaftTls.v) and [poll_session_secret]
    (Startup.v) answer within the timeout over the interval, which is proved
    ([resolveAdvertiseAddr_ends], [poll_secret_ends], [poll_session_secret_ends]).
    [node] (MiddlewareTheory.v) bounds a chain of forwarded requests, [replayHooks]
    (Replay.v) counts the turns of a loop that never ends, and [dial_loop]
    (RaftTls.v) the attempts of the code itself.  Everything else is structural.
    Go's int is 64 bits wide and wraps ([wrap64]); log indexes are uint64 ([wrapu64]).

    ** Parameters

    Code outside src/ is a parameter: bbolt ([Bolt]), raft ([RaftEnv], [Membership],
    [RaftDisk]), NATS delivery (the steps of Broker.v), cryptography ([Crypto], [Box]),
    x509 and goca ([Pki]), JSON text ([JsonText], [JsonDecoder]), addresses and URLs
    ([Net], [Dns], [HostPort], [Url], [UrlParse], [UrlQuery], [UrlScheme]), chi's
    matcher ([Mux]), the struct validator ([Validator]), the OIDC provider and
    go-oidc ([OidcNet], [Verifier]), go-github ([GHOp]), the order of a map iteration
    ([MapOrder], [MapRange]), and the text libraries of the client ([Titler],
    [MapDecode], [RawText], [Scripts]).  Laws assumed of them are classes named
    ...Laws; each has a concrete instance, used by the witnesses.

    ** Not modelled

    - src/dagger, the build pipeline, most of it generated by Dagger: it runs
      containers and is no part of the program.
    - internal/app and cmd: flag declarations, the logger and the application table;
      the flags are arguments of the definitions that read them.
    - internal/web: embedded assets behind a file server.
    - The run loop of internal/server/server.go, its listeners, signals and shutdown,
      selfsignal_unix.go, and the construction of the Kubernetes client (k8s.go beside
      the read of spec.replicas): calls of the operating system and of client-go.
    - The start, connection and shutdown of the embedded NATS server; listeners and
      connections of raft_streamlayer.go; raft's tuning by a floating-point multiplier.
    - The SSE library and the health endpoint of the client.
    - Log lines, and the test helpers of internal/repository. *)

From Stdlib Require Export ZArith Lia Ascii String.
From stdpp Require Export base tactics list strings gmap fin_maps option pretty sorting.

Set Default Goal Selector "!".

(** ** Errors and results *)

(** The sentinel errors of internal/domain/errors.go; every other error of the
    code is [KOther].  A Go error that wraps a sentinel with [%w] keeps it.
    [KPanic] marks a run-time panic, which no [errors.Is] test matches. *)
Inductive errkind := KNotFound | KAlreadyExists | KInvalidArgument | KOther | KPanic.

#[export] Instance errkind_eq_dec : EqDecision errkind.
Proof. solve_decision. Defined.

Record goerr := mkErr { err_is : errkind; err_msg : string }.

#[export] Instance goerr_eq_dec : EqDecision goerr.
Proof. solve_decision. Defined.

Definition errors_Is (e : goerr) (k : errkind) : bool := bool_decide (err_is e = k).

Definition errorf (msg : string) : goerr := mkErr KOther msg.

(** A Go result pair [(x, err)]: the code never uses [x] when [err != nil]. *)
Inductive res (A : Type) := Ok (a : A) | Err (e : goerr).
Arguments Ok {A} a.
Arguments Err {A} e.

Declare Scope res_scope.
Delimit Scope res_scope with res.

Definition res_bind {A B} (r : res A) (k : A -> res B) : res B :=
  match r with Ok a => k a | Err e => Err e end.

Notation "'let?' x := r 'in' k" := (res_bind r (fun x => k))
  (at level 10, x pattern, r at level 200, k at level 200) : res_scope.

Lemma res_bind_Ok {A C} (r : res A) (f : A -> res C) c : res_bind r f = Ok c -> exists a, r = Ok a /\ f a = Ok c.
Proof. destruct r; [eauto|done]. Qed.

Definition is_ok {A} (r : res A) : bool := match r with Ok _ => true | Err _ => false end.

Fixpoint res_map {A B} (f : A -> res B) (l : list A) : res (list B) :=
  match l with
  | [] => Ok []
  | x :: l' => res_bind (f x) (fun y => res_bind (res_map f l') (fun ys => Ok (y :: ys)))
  end.

(** A result triple known by its error component. *)
Lemma ok_pair {A} (x : A * res unit) : x.2 = Ok tt -> x = (x.1, Ok tt).
Proof. by destruct x as [a y]; simpl; intros ->. Qed.
Lemma ok_triple {A B} (x : A * B * res unit) : x.2 = Ok tt -> x = (x.1.1, x.1.2, Ok tt).
Proof. by destruct x as [[a b] y]; simpl; intros ->. Qed.

(** ** Machine integers and durations *)

Definition two63 : Z := 9223372036854775808.
Definition two64 : Z := 18446744073709551616.

(** Go's int, int64 and time.Duration: two's complement on 64 bits. *)
Definition int64_range (z : Z) : bool := bool_decide (- two63 <= z < two63)%Z.
Definition wrap64 (z : Z) : Z := ((z + two63) mod two64 - two63)%Z.
Definition wrapu64 (z : Z) : Z := (z mod two64)%Z.

Definition second : Z := 1000000000.
Definition minute : Z := (60 * second)%Z.

(** time.Duration(n) * time.Second *)
Definition seconds (n : Z) : Z := wrap64 (n * second).

(** A time.Time is its number of nanoseconds since Go's zero time, so the zero
    value of the struct is 0.  [Sub] saturates at the range of a Duration. *)
Definition time_IsZero (t : Z) : bool := bool_decide (t = 0%Z).
Definition time_Sub (a b : Z) : Z := Z.max (- two63) (Z.min (two63 - 1) (a - b)).
Definition time_Add (t d : Z) : Z := (t + d)%Z.
Definition time_After (a b : Z) : bool := bool_decide (b < a)%Z.
Definition time_Before (a b : Z) : bool := bool_decide (a < b)%Z.

Lemma wrap64_id z : int64_range z = true -> wrap64 z = z.
Proof.
  unfold int64_range, wrap64. intros H%bool_decide_eq_true.
  unfold two63, two64 in *. rewrite Z.mod_small; lia.
Qed.

Lemma wrap64_range z : int64_range (wrap64 z) = true.
Proof.
  apply bool_decide_eq_true. unfold wrap64.
  pose proof (Z.mod_pos_bound (z + two63) two64 ltac:(reflexivity)).
  unfold two63, two64 in *. lia.
Qed.

Lemma seconds_small n : (0 <= n <= 9223372036)%Z -> seconds n = (n * second)%Z.
Proof.
  intros ?. apply wrap64_id, bool_decide_eq_true. unfold second, two63. lia.
Qed.

(** ** Strings: the functions of package strings the code calls *)

(** Byte strings are Rocq strings (one [ascii] per byte). *)

Definition HasPrefix (s p : string) : bool := String.prefix p s.

Fixpoint drop_str (n : nat) (s : string) : string :=
  match n, s with
  | S n', String _ s' => drop_str n' s'
  | _, _ => s
  end.

Fixpoint take_str (n : nat) (s : string) : string :=
  match n, s with
  | S n', String c s' => String c (take_str n' s')
  | _, _ => EmptyString
  end.

Definition TrimPrefix (s p : string) : string :=
  if HasPrefix s p then drop_str (String.length p) s else s.

Definition HasSuffix (s p : string) : bool :=
  (String.length p <=? String.length s)%nat &&
  String.eqb (drop_str (String.length s - String.length p) s) p.

Definition TrimSuffix (s p : string) : string :=
  if HasSuffix s p then take_str (String.length s - String.length p) s else s.

Fixpoint Contains (s sub : string) : bool :=
  String.prefix sub s || match s with EmptyString => false | String _ s' => Contains s' sub end.

(** strings.Split(s, sep) for a one-byte separator. *)
Fixpoint Split (s : string) (sep : ascii) : list string :=
  match s with
  | EmptyString => [EmptyString]
  | String c s' =>
      if bool_decide (c = sep) then EmptyString :: Split s' sep
      else match Split s' sep with
           | [] => [String c EmptyString]
           | w :: ws => String c w :: ws
           end
  end.

(** strings.SplitN(s, sep, 2) as the pair of its two parts, [None] when the
    separator does not occur (the code then sees a one-element slice). *)
Fixpoint Cut (s : string) (sep : ascii) : option (string * string) :=
  match s with
  | EmptyString => None
  | String c s' =>
      if bool_decide (c = sep) then Some (EmptyString, s')
      else match Cut s' sep with
           | Some (a, b) => Some (String c a, b)
           | None => None
           end
  end.

Fixpoint Join (l : list string) (sep : string) : string :=
  match l with
  | [] => EmptyString
  | [w] => w
  | w :: ws => w +:+ sep +:+ Join ws sep
  end.

Definition lower_ascii (c : ascii) : ascii :=
  let n := Ascii.nat_of_ascii c in
  if (65 <=? n)%nat && (n <=? 90)%nat then Ascii.ascii_of_nat (n + 32) else c.

Fixpoint ToLower (s : string) : string :=
  match s with
  | EmptyString => EmptyString
  | String c s' => String (lower_ascii c) (ToLower s')
  end.

Definition is_space_ascii (c : ascii) : bool :=
  let n := Ascii.nat_of_ascii c in
  ((9 <=? n)%nat && (n <=? 13)%nat) || (n =? 32)%nat.

Fixpoint TrimLeftSpace (s : string) : string :=
  match s with
  | String c s' => if is_space_ascii c then TrimLeftSpace s' else s
  | EmptyString => EmptyString
  end.

Fixpoint TrimRightSpace (s : string) : string :=
  match s with
  | EmptyString => EmptyString
  | String c s' =>
      match TrimRightSpace s' with
      | EmptyString => if is_space_ascii c then EmptyString else String c EmptyString
      | t => String c t
      end
  end.

Definition TrimSpace (s : string) : string := TrimRightSpace (TrimLeftSpace s).

(** Decimal text of an integer (strconv.Itoa, [%d]). *)
Definition Itoa (z : Z) : string := pretty z.

Fixpoint all_str (p : ascii -> bool) (s : string) : bool :=
  match s with EmptyString => true | String c s' => p c && all_str p s' end.

Lemma all_str_app p a b : all_str p (a +:+ b) = all_str p a && all_str p b.
Proof.
  induction a as [|c a IH]; [done|]. change (String c a +:+ b) with (String c (a +:+ b)). cbn. by rewrite IH, andb_assoc.
Qed.

(** ** Slices *)

Definition contains_str (l : list string) (x : string) : bool := bool_decide (x ∈ l).

(** [for _, x := range l { if p(x) { return true } } return false] *)
Definition any {A} (p : A -> bool) (l : list A) : bool := existsb p l.

Lemma any_true {A} (p : A -> bool) (l : list A) : any p l = true <-> exists x, x ∈ l /\ p x = true.
Proof.
  unfold any. rewrite existsb_exists. setoid_rewrite list_elem_of_In. done.
Qed.

Lemma any_false {A} (p : A -> bool) (l : list A) : any p l = false <-> forall x, x ∈ l -> p x = false.
Proof.
  rewrite <- not_true_iff_false, any_true. split.
  - intros H x Hx. destruct (p x) eqn:E; [|done]. exfalso. eauto.
  - intros H (x & Hx & E). rewrite (H x Hx) in E. done.
Qed.

Lemma contains_str_true l x : contains_str l x = true <-> x ∈ l.
Proof. apply bool_decide_eq_true. Qed.

(** ** Automation *)

(** Boolean conditions of the code as propositions. *)
Create Rewrite HintDb gobool.
#[export] Hint Rewrite andb_true_iff orb_true_iff negb_true_iff andb_false_iff orb_false_iff
  negb_false_iff bool_decide_eq_true bool_decide_eq_false contains_str_true
  String.eqb_eq String.eqb_neq @any_true @any_false : gobool.

Ltac gobool := autorewrite with gobool in *.

(** [lia] with division and modulo by constants. *)
Ltac dlia := Z.to_euclidean_division_equations; lia.

(** Case analysis on every [match]/[if], with the trivial cases closed. *)
Ltac go_cases := repeat (case_match; try done).

(** ** Generic list facts *)

Lemma filter_length_le {A} (P : A -> Prop) `{!∀ x, Decision (P x)} (l : list A) :
  length (filter P l) <= length l.
Proof. induction l as [|x l IH]; simpl; [lia|]. rewrite filter_cons. case_decide; simpl; lia. Qed.

Lemma filter_idemp_impl {A} (P Q : A -> Prop) `{!∀ x, Decision (P x), !∀ x, Decision (Q x)} (l : list A) :
  (forall x, P x -> Q x) -> filter P (filter Q l) = filter P l.
Proof.
  intros HPQ. induction l as [|x l IH]; [done|].
  rewrite !filter_cons. destruct (decide (Q x)).
  - rewrite filter_cons, IH. done.
  - rewrite IH. destruct (decide (P x)); [exfalso; eauto | done].
Qed.

Lemma filter_none {A} (P : A -> Prop) `{!∀ x, Decision (P x)} (l : list A) :
  (forall x, x ∈ l -> ~ P x) -> filter P l = [].
Proof.
  induction l as [|x l IH]; intros Hn; [done|].
  rewrite filter_cons, decide_False by (apply Hn; left).
  apply IH. intros y Hy. apply Hn. by right.
Qed.

Lemma filter_iff_elem {A} (P Q : A -> Prop) `{!∀ x, Decision (P x), !∀ x, Decision (Q x)} (l : list A) :
  (forall x, x ∈ l -> P x <-> Q x) -> filter P l = filter Q l.
Proof.
  induction l as [|x l IH]; intros Hpq; [done|]. rewrite !filter_cons, IH by (intros y Hy; apply Hpq; by right).
  specialize (Hpq x ltac:(left)). repeat case_decide; tauto.
Qed.

(** ** String facts *)

Lemma prefix_app (p s : string) : String.prefix p (p +:+ s) = true.
Proof. induction p as [|c p IH]; simpl; [by destruct s|]. destruct (Ascii.ascii_dec c c); done. Qed.

Lemma prefix_spec (p s : string) : String.prefix p s = true <-> exists t, s = p +:+ t.
Proof.
  split.
  - revert s. induction p as [|c p IH]; intros s H; [by exists s|].
    destruct s as [|d s]; simpl in H; [done|].
    destruct (Ascii.ascii_dec c d) as [->|]; [|done].
    destruct (IH _ H) as [t ->]. by exists t.
  - intros [t ->]. apply prefix_app.
Qed.

Lemma drop_str_app (p s : string) : drop_str (String.length p) (p +:+ s) = s.
Proof. induction p as [|c p IH]; simpl; [by destruct s | done]. Qed.

Lemma str_app_assoc (a b c : string) : (a +:+ b) +:+ c = a +:+ (b +:+ c).
Proof. induction a as [|x a IH]; [done|]. exact (f_equal (String x) IH). Qed.

Lemma str_app_nil_r (a : string) : a +:+ EmptyString = a.
Proof. induction a as [|x a IH]; [done|]. exact (f_equal (String x) IH). Qed.

Lemma str_app_inj (p s t : string) : p +:+ s = p +:+ t -> s = t.
Proof. induction p as [|c p IH]; [done|]. intros [= H]. auto. Qed.

Lemma str_length_app (a b : string) : String.length (a +:+ b) = String.length a + String.length b.
Proof. induction a as [|c a IH]; [done|]. exact (f_equal S IH). Qed.

Lemma str_app_inj_r (a b s : string) : a +:+ s = b +:+ s -> a = b.
Proof.
  revert b. induction a as [|c a IH]; intros [|d b] Heq.
  - done.
  - apply (f_equal String.length) in Heq. rewrite !str_length_app in Heq. simpl in Heq. lia.
  - apply (f_equal String.length) in Heq. rewrite !str_length_app in Heq. simpl in Heq. lia.
  - injection Heq as -> Heq. f_equal. by apply IH.
Qed.

(** A key built between a fixed prefix and a fixed suffix determines its middle. *)
Lemma between_inj (p s a b : string) : p +:+ a +:+ s = p +:+ b +:+ s -> a = b.
Proof. intros H%str_app_inj. by apply str_app_inj_r in H. Qed.

Lemma TrimPrefix_app (p s : string) : TrimPrefix (p +:+ s) p = s.
Proof. unfold TrimPrefix, HasPrefix. by rewrite prefix_app, drop_str_app. Qed.

(** Distinct images tell elements apart. *)
Lemma NoDup_map_inj {A C} (f : A -> C) (l : list A) x y : NoDup (map f l) -> x ∈ l -> y ∈ l -> f x = f y -> x = y.
Proof.
  intros Hnd [i Hi]%list_elem_of_lookup [k Hk]%list_elem_of_lookup Heq. assert (i = k) as ->; [|congruence].
  eapply (NoDup_lookup _ _ _ (f x) Hnd); rewrite list_lookup_fmap; [by rewrite Hi | by rewrite Hk, Heq].
Qed.

Lemma Forall2_map_eq {A B C} (R : A -> B -> Prop) (f : A -> C) (g : B -> C) l k :
  Forall2 R l k -> (forall x y, R x y -> g y = f x) -> map g k = map f l.
Proof. intros Hl Hr. induction Hl as [|x y l k Hxy _ IH]; [done|]. simpl. by rewrite IH, (Hr _ _ Hxy). Qed.

(** The bytes of a string. *)
Fixpoint elem_str (c : ascii) (s : string) : bool :=
  match s with
  | EmptyString => false
  | String d s' => bool_decide (c = d) || elem_str c s'
  end.

Lemma elem_str_app c (a b : string) : elem_str c (a +:+ b) = elem_str c a || elem_str c b.
Proof. induction a as [|d a IH]; simpl; [done|]. by rewrite IH, orb_assoc. Qed.

Lemma Cut_app (a b : string) sep :
  elem_str sep a = false -> Cut (a +:+ String sep b) sep = Some (a, b).
Proof.
  induction a as [|c a IH]; simpl.
  - intros _. by rewrite bool_decide_true.
  - intros [Hc Ha]%orb_false_iff. apply bool_decide_eq_false in Hc.
    rewrite bool_decide_false by congruence. by rewrite IH.
Qed.

Lemma Cut_spec s sep a b : Cut s sep = Some (a, b) -> s = a +:+ String sep b /\ elem_str sep a = false.
Proof.
  revert a b. induction s as [|c s IH]; intros a b; simpl; [done|].
  case_bool_decide as Hc.
  - intros [= <- <-]. by subst.
  - destruct (Cut s sep) as [[a' b']|] eqn:E; [|done]. intros [= <- <-].
    destruct (IH _ _ eq_refl) as [-> Ha]. split; [done|]. simpl.
    rewrite Ha, bool_decide_false by congruence. done.
Qed.

(** ** Struct assignment *)

(** [x <| f := v |>] is the struct [x] with its field [f] assigned: the setter
    is derived from the eta-expansion of the record ([Eta]). *)
Class Eta (R : Type) := eta_of : R -> R.
Class Setter {R T : Type} (proj : R -> T) := set_fld : T -> R -> R.

Ltac derive_setter :=
  match goal with
  | |- @Setter ?R ?T ?proj =>
      let v := fresh "v" in let x := fresh "x" in
      intros v x;
      let t := eval hnf in (eta_of x) in
      let t := eval pattern (proj x) in t in
      match t with ?f _ => let u := eval cbv beta in (f v) in exact u end
  end.

#[export] Hint Extern 1 (Setter _) => derive_setter : typeclass_instances.

Notation "x <| f := v |>" := (set_fld (proj := f) v x)
  (at level 1, f at next level, v at level 200, left associativity, format "x  <| f  :=  v |>").
Arguments set_fld {R T} proj {_} _ _ /.
