(* ===== verification/Json.v ===== *)
(** * Json: encoding/json as the code uses it

    Every record the store replicates is a JSON document.  A document is its
    syntax tree [json] (the text layer is a bijection the code never looks
    into); [jenc] is json.Marshal on a Go type and [jdec] is json.Unmarshal into
    an existing value, with Go's rules: [null] leaves the value alone, unknown
    keys are ignored, keys match case-insensitively, a later duplicate key wins,
    a type mismatch is an error.  A struct codec is a list of [field]s, one per
    Go struct tag. *)

From S2P Require Import Prelude.

(** [JTime] is the RFC 3339 text of a time.Time, kept as the instant; [JBytes] is
    the base64 text of a []byte that holds a document; [JBad] stands for bytes
    that are not a JSON text (the empty value, for one): nothing decodes it. *)
#[warnings="-register-all"]
Inductive json :=
  | JNull
  | JBool (b : bool)
  | JNum (z : Z)
  | JStr (s : string)
  | JTime (t : Z)
  | JBytes (j : json)
  | JBad
  | JArr (l : list json)
  | JObj (fs : list (string * json)).

Class JsonCodec (A : Type) := {
  jzero : A;
  jempty : A -> bool;
  jenc : A -> json;
  jdec : json -> A -> option A
}.

(** json.Unmarshal into a fresh variable. *)
Definition Unmarshal {A} `{JsonCodec A} (j : json) : option A := jdec j jzero.

#[export] Instance codec_string : JsonCodec string := {|
  jzero := EmptyString;
  jempty s := bool_decide (s = EmptyString);
  jenc := JStr;
  jdec j x := match j with JStr s => Some s | JNull => Some x | _ => None end
|}.

#[export] Instance codec_bool : JsonCodec bool := {|
  jzero := false;
  jempty b := negb b;
  jenc := JBool;
  jdec j x := match j with JBool b => Some b | JNull => Some x | _ => None end
|}.

(** int and int64: a number out of range is an UnmarshalTypeError. *)
#[export] Instance codec_int : JsonCodec Z := {|
  jzero := 0%Z;
  jempty z := bool_decide (z = 0%Z);
  jenc := JNum;
  jdec j x :=
    match j with
    | JNum z => if int64_range z then Some z else None
    | JNull => Some x
    | _ => None
    end
|}.

#[export] Instance codec_list {A} `{JsonCodec A} : JsonCodec (list A) := {|
  jzero := [];
  jempty l := match l with [] => true | _ => false end;
  jenc l := JArr (jenc <$> l);
  jdec j x :=
    match j with
    | JArr l => mapM Unmarshal l
    | JNull => Some []
    | _ => None
    end
|}.

(** A pointer: [null] is nil, anything else is decoded into a new value. *)
#[export] Instance codec_ptr {A} `{JsonCodec A} : JsonCodec (option A) := {|
  jzero := None;
  jempty o := match o with None => true | Some _ => false end;
  jenc o := match o with None => JNull | Some a => jenc a end;
  jdec j x :=
    match j with
    | JNull => Some None
    | _ => Some <$> jdec j (default jzero x)
    end
|}.

(** json.RawMessage: any document, [null] included; nil is [None]. *)
Record RawMessage := Raw { raw : option json }.
#[export] Instance codec_raw : JsonCodec RawMessage := {|
  jzero := Raw None;
  jempty r := match raw r with None => true | Some _ => false end;
  jenc r := default JNull (raw r);
  jdec j _ := Some (Raw (Some j))
|}.

(** []byte holding a document: base64 text, [null] for nil. *)
Record Bytes := mkBytes { bytes_of : option json }.
#[export] Instance codec_bytes : JsonCodec Bytes := {|
  jzero := mkBytes None;
  jempty r := match bytes_of r with None => true | Some _ => false end;
  jenc r := match bytes_of r with None => JNull | Some j => JBytes j end;
  jdec j _ := match j with JBytes j => Some (mkBytes (Some j)) | JNull => Some (mkBytes None) | _ => None end
|}.

(** The bytes themselves: nil and the empty value are no JSON text. *)
Definition doc (o : option json) : json := default JBad o.

(** map[string][]byte, in the order of the document. *)
Record BytesMap := mkBytesMap { bytes_map : list (string * json) }.
#[export] Instance codec_bytes_map : JsonCodec BytesMap := {|
  jzero := mkBytesMap [];
  jempty m := match bytes_map m with [] => true | _ => false end;
  jenc m := JObj (prod_map id JBytes <$> bytes_map m);
  jdec j x :=
    match j with
    | JObj kvs => mkBytesMap <$> mapM (fun kv => b ← Unmarshal (A := Bytes) kv.2; Some (kv.1, doc (bytes_of b))) kvs
    | JNull => Some (mkBytesMap [])
    | _ => None
    end
|}.

(** time.Time *)
Record Time := mkTime { instant : Z }.
#[export] Instance codec_time : JsonCodec Time := {|
  jzero := mkTime 0;
  jempty _ := false;
  jenc t := JTime (instant t);
  jdec j x := match j with JTime t => Some (mkTime t) | JNull => Some x | _ => None end
|}.

(** ** Structs *)

(** [f_copy] is the struct assignment [x.f = a.f]. *)
Record field (A : Type) := Field {
  f_name : string;
  f_enc : A -> option json;
  f_dec : json -> A -> option A;
  f_copy : A -> A -> A
}.
Arguments Field {A}. Arguments f_name {A}. Arguments f_enc {A}. Arguments f_dec {A}. Arguments f_copy {A}.

Definition fld_gen {A T} `{JsonCodec T} (omit : bool) (name : string) (get : A -> T) (set : T -> A -> A)
  : field A :=
  Field name
    (fun a => if omit && jempty (get a) then None else Some (jenc (get a)))
    (fun j x => (fun t => set t x) <$> jdec j (get x))
    (fun a x => set (get a) x).

(** [`json:"name"`] and [`json:"name,omitempty"`]. *)
Abbreviation fld := (fld_gen false).
Abbreviation fld_omit := (fld_gen true).

Definition find_field {A} (fs : list (field A)) (k : string) : option (field A) :=
  match list_find (fun f => f_name f = k) fs with
  | Some (_, f) => Some f
  | None => snd <$> list_find (fun f => ToLower (f_name f) = ToLower k) fs
  end.

Fixpoint dec_fields {A} (fs : list (field A)) (kvs : list (string * json)) (x : A) : option A :=
  match kvs with
  | [] => Some x
  | (k, j) :: kvs' =>
      match find_field fs k with
      | None => dec_fields fs kvs' x
      | Some f => match f_dec f j x with None => None | Some x' => dec_fields fs kvs' x' end
      end
  end.

Fixpoint enc_fields {A} (fs : list (field A)) (a : A) : list (string * json) :=
  match fs with
  | [] => []
  | f :: fs' =>
      match f_enc f a with
      | None => enc_fields fs' a
      | Some j => (f_name f, j) :: enc_fields fs' a
      end
  end.

Definition struct_codec {A} (zero : A) (fs : list (field A)) : JsonCodec A := {|
  jzero := zero;
  jempty _ := false;
  jenc a := JObj (enc_fields fs a);
  jdec j x :=
    match j with
    | JObj kvs => dec_fields fs kvs x
    | JNull => Some x
    | _ => None
    end
|}.

(** ** Round trips *)

(** What a codec promises to the code that stores values through it: a
    well-formed value is read back as it was written.  [jwf] is true for every
    value whose integers fit their machine width. *)
Class JsonLaw (A : Type) `{JsonCodec A} := {
  jwf : A -> Prop;
  jdec_enc : forall a, jwf a -> jdec (jenc a) jzero = Some a;
  jempty_zero : forall a, jempty a = true -> a = jzero
}.

#[export] Instance law_string : JsonLaw string.
Proof.
  refine {| jwf _ := True |}; simpl; try done. by intros a ?%bool_decide_eq_true.
Defined.

#[export] Instance law_bool : JsonLaw bool.
Proof. refine {| jwf _ := True |}; simpl; try done. by intros []. Defined.

#[export] Instance law_int : JsonLaw Z.
Proof.
  refine {| jwf z := int64_range z = true |}; simpl; try done.
  - by intros a ->.
  - by intros a ?%bool_decide_eq_true.
Defined.

Lemma mapM_roundtrip {A B} (f : A -> B) (g : B -> option A) (l : list A) :
  Forall (fun a => g (f a) = Some a) l -> mapM g (f <$> l) = Some l.
Proof. intros Hl. induction Hl as [|a l Ha _ IH]; [done|]. cbn. by rewrite Ha, IH. Qed.

#[export] Instance law_list {A} `{JsonLaw A} : JsonLaw (list A).
Proof.
  refine {| jwf l := Forall jwf l |}; simpl; try done.
  - intros l Hl. apply (mapM_roundtrip jenc Unmarshal). eapply Forall_impl; [exact Hl|]. intros a. apply jdec_enc.
  - by intros [].
Defined.

Lemma Unmarshal_jenc {A} `{JsonLaw A} (a : A) : jwf a -> Unmarshal (jenc a) = Some a.
Proof. apply jdec_enc. Qed.

(** One field of a struct round trip: [x] still has the zero value there. *)
Definition field_ok {A} (f : field A) (a x : A) : Prop :=
  match f_enc f a with
  | Some j => f_dec f j x = Some (f_copy f a x)
  | None => f_copy f a x = x
  end.

Lemma fld_ok {A T} `{JsonLaw T} omit name (get : A -> T) set (a x : A) :
  get x = jzero -> set (get x) x = x -> jwf (get a) -> field_ok (fld_gen omit name get set) a x.
Proof.
  intros Hx Hs Hwf. unfold field_ok, fld_gen; simpl.
  destruct (omit && jempty (get a)) eqn:E.
  - apply andb_true_iff in E as [_ E]. apply jempty_zero in E. by rewrite E, <- Hx.
  - by rewrite Hx, jdec_enc.
Qed.

Lemma dec_enc_step {A} (fs : list (field A)) f fs' a x :
  find_field fs (f_name f) = Some f -> field_ok f a x ->
  dec_fields fs (enc_fields (f :: fs') a) x = dec_fields fs (enc_fields fs' a) (f_copy f a x).
Proof.
  intros Hf Hok. simpl. unfold field_ok in Hok.
  destruct (f_enc f a); simpl; [by rewrite Hf, Hok | by rewrite Hok].
Qed.

(** Proves a struct round trip field by field, keeping the record under
    construction in normal form. *)
Ltac json_norm :=
  match goal with
  | |- dec_fields ?fs ?k ?x = ?r =>
      let x' := eval hnf in x in
      let x'' := eval cbn in x' in change (dec_fields fs k x'' = r)
  end.

Ltac json_wf :=
  cbn [jwf law_string law_bool law_int];
  match goal with
  | |- True => exact I
  | H : ?P |- ?P => exact H
  | _ => solve [auto]
  end.

Ltac json_struct :=
  match goal with
  | |- dec_fields ?fs (enc_fields _ ?a) ?x = ?r =>
      let l := eval hnf in fs in change (dec_fields fs (enc_fields l a) x = r)
  end;
  json_norm;
  repeat (rewrite dec_enc_step;
    [ json_norm
    | reflexivity
    | apply fld_ok; [reflexivity | reflexivity | json_wf] ]).

(** ** Invariants of decoding *)

Lemma find_field_elem {A} (fs : list (field A)) k f : find_field fs k = Some f -> f ∈ fs.
Proof.
  unfold find_field. destruct (list_find (fun f => f_name f = k) fs) as [[i g]|] eqn:E.
  - intros [= <-]. apply list_find_Some in E as (E & _). by eapply list_elem_of_lookup_2.
  - destruct (list_find (fun f => ToLower (f_name f) = ToLower k) fs) as [[i g]|] eqn:E2; cbn; [|discriminate]. intros Hfg. injection Hfg as <-.
    apply list_find_Some in E2 as (E2 & _). by eapply list_elem_of_lookup_2.
Qed.

(** A predicate every field assignment keeps holds of whatever was decoded. *)
Lemma dec_fields_inv {A} (P : A -> Prop) (fs : list (field A)) kvs x x' :
  (forall f, f ∈ fs -> forall j y y', P y -> f_dec f j y = Some y' -> P y') ->
  P x -> dec_fields fs kvs x = Some x' -> P x'.
Proof.
  intros Hf. revert x. induction kvs as [|[k j] kvs IH]; intros x Hx; simpl; [by intros [= <-]|].
  destruct (find_field fs k) as [f|] eqn:Ef; [|by apply IH].
  destruct (f_dec f j x) as [y|] eqn:Ey; [|done]. apply IH.
  eapply Hf; [|exact Hx|exact Ey]. by eapply find_field_elem.
Qed.

Lemma jdec_int_range j x v : int64_range x = true -> jdec (A := Z) j x = Some v -> int64_range v = true.
Proof.
  intros Hx. destruct j as [|b|z|s|t|d| |l|l]; cbn [jdec codec_int]; intros Hj; try discriminate.
  - by injection Hj as <-.
  - destruct (int64_range z) eqn:E; [|discriminate]. by injection Hj as <-.
Qed.
