(* ===== verification/Domain.v ===== *)
(** * Domain: the entities of internal/domain

    The records of types.go and config.go with their JSON codecs (one [field]
    per struct tag), the legacy-schema migration, and the merge of a channel
    with the global defaults. *)

From S2P Require Import Prelude Json.

(** ** types.go *)

Record ChannelAccessToken := mkToken {
  tok_ID : string; tok_Name : string; tok_TokenHash : string; tok_Scope : string; tok_CreatedAt : string }.
#[export] Instance eta_token : Eta ChannelAccessToken := fun x =>
  mkToken (tok_ID x) (tok_Name x) (tok_TokenHash x) (tok_Scope x) (tok_CreatedAt x).
#[export] Instance token_eq_dec : EqDecision ChannelAccessToken.
Proof. solve_decision. Defined.

Definition token_zero : ChannelAccessToken := mkToken "" "" "" "" "".
Definition token_fields : list (field ChannelAccessToken) := [
  fld "id" tok_ID (set_fld tok_ID);
  fld "name" tok_Name (set_fld tok_Name);
  fld "token_hash" tok_TokenHash (set_fld tok_TokenHash);
  fld "scope" tok_Scope (set_fld tok_Scope);
  fld "created_at" tok_CreatedAt (set_fld tok_CreatedAt) ].
#[export] Instance codec_token : JsonCodec ChannelAccessToken := struct_codec token_zero token_fields.

Record Channel := mkChannel {
  ch_ID : string;
  ch_Description : string;
  ch_CreatedBy : string;
  ch_WebhookSecret : string;
  ch_AllowedIPs : list string;
  ch_MaxBodySize : Z;
  ch_MessageTTLSeconds : Z;
  ch_EncryptionMode : string;
  ch_EncryptionKey : string;
  ch_EncryptionPublicKey : string;
  ch_EncryptionPrivateKey : string;
  ch_EncryptionPubKeys : list string;
  ch_AccessMode : string;
  ch_AccessTokens : list ChannelAccessToken;
  ch_WebhookSignatures : list string;
  ch_EncryptionEnabled : bool }.
#[export] Instance eta_channel : Eta Channel := fun x =>
  mkChannel (ch_ID x) (ch_Description x) (ch_CreatedBy x) (ch_WebhookSecret x) (ch_AllowedIPs x)
    (ch_MaxBodySize x) (ch_MessageTTLSeconds x) (ch_EncryptionMode x) (ch_EncryptionKey x)
    (ch_EncryptionPublicKey x) (ch_EncryptionPrivateKey x) (ch_EncryptionPubKeys x) (ch_AccessMode x)
    (ch_AccessTokens x) (ch_WebhookSignatures x) (ch_EncryptionEnabled x).
#[export] Instance channel_eq_dec : EqDecision Channel.
Proof. solve_decision. Defined.

Definition channel_zero : Channel := mkChannel "" "" "" "" [] 0 0 "" "" "" "" [] "" [] [] false.
Definition channel_fields : list (field Channel) := [
  fld "id" ch_ID (set_fld ch_ID);
  fld_omit "description" ch_Description (set_fld ch_Description);
  fld_omit "created_by" ch_CreatedBy (set_fld ch_CreatedBy);
  fld_omit "webhook_secret" ch_WebhookSecret (set_fld ch_WebhookSecret);
  fld_omit "allowed_ips" ch_AllowedIPs (set_fld ch_AllowedIPs);
  fld_omit "max_body_size" ch_MaxBodySize (set_fld ch_MaxBodySize);
  fld_omit "message_ttl_seconds" ch_MessageTTLSeconds (set_fld ch_MessageTTLSeconds);
  fld_omit "encryption_mode" ch_EncryptionMode (set_fld ch_EncryptionMode);
  fld_omit "encryption_key" ch_EncryptionKey (set_fld ch_EncryptionKey);
  fld_omit "encryption_public_key" ch_EncryptionPublicKey (set_fld ch_EncryptionPublicKey);
  fld_omit "encryption_private_key" ch_EncryptionPrivateKey (set_fld ch_EncryptionPrivateKey);
  fld_omit "encryption_public_keys" ch_EncryptionPubKeys (set_fld ch_EncryptionPubKeys);
  fld_omit "access_mode" ch_AccessMode (set_fld ch_AccessMode);
  fld_omit "access_tokens" ch_AccessTokens (set_fld ch_AccessTokens);
  fld_omit "webhook_signatures" ch_WebhookSignatures (set_fld ch_WebhookSignatures);
  fld_omit "encryption_enabled" ch_EncryptionEnabled (set_fld ch_EncryptionEnabled) ].
#[export] Instance codec_channel : JsonCodec Channel := struct_codec channel_zero channel_fields.

(** The "channelid" validation of init: [^[a-zA-Z0-9][a-zA-Z0-9_-]*$]. *)
Definition is_alnum (c : ascii) : bool :=
  let n := Ascii.nat_of_ascii c in
  ((48 <=? n) && (n <=? 57) || (65 <=? n) && (n <=? 90) || (97 <=? n) && (n <=? 122))%nat.

Definition channelid_match (s : string) : bool :=
  match s with
  | EmptyString => false
  | String c s' =>
      is_alnum c &&
      all_str (fun d => is_alnum d || bool_decide (d = "_"%char) || bool_decide (d = "-"%char)) s'
  end.

Record ExternalIdentity := mkExternalIdentity {
  ei_ProviderID : string; ei_Issuer : string; ei_Subject : string }.
#[export] Instance eta_ei : Eta ExternalIdentity := fun x =>
  mkExternalIdentity (ei_ProviderID x) (ei_Issuer x) (ei_Subject x).
#[export] Instance ei_eq_dec : EqDecision ExternalIdentity.
Proof. solve_decision. Defined.
Definition ei_zero : ExternalIdentity := mkExternalIdentity "" "" "".
Definition ei_fields : list (field ExternalIdentity) := [
  fld "provider_id" ei_ProviderID (set_fld ei_ProviderID);
  fld "issuer" ei_Issuer (set_fld ei_Issuer);
  fld "subject" ei_Subject (set_fld ei_Subject) ].
#[export] Instance codec_ei : JsonCodec ExternalIdentity := struct_codec ei_zero ei_fields.

Record User := mkUser {
  u_ID : string;
  u_Username : string;
  u_PasswordHash : string;
  u_OIDCSubjects : list string;
  u_ExternalIdentities : list ExternalIdentity;
  u_Roles : list string;
  u_Channels : list string }.
#[export] Instance eta_user : Eta User := fun x =>
  mkUser (u_ID x) (u_Username x) (u_PasswordHash x) (u_OIDCSubjects x) (u_ExternalIdentities x)
    (u_Roles x) (u_Channels x).
#[export] Instance user_eq_dec : EqDecision User.
Proof. solve_decision. Defined.
Definition user_zero : User := mkUser "" "" "" [] [] [] [].
Definition user_fields : list (field User) := [
  fld "id" u_ID (set_fld u_ID);
  fld "username" u_Username (set_fld u_Username);
  fld_omit "password_hash" u_PasswordHash (set_fld u_PasswordHash);
  fld_omit "oidc_subjects" u_OIDCSubjects (set_fld u_OIDCSubjects);
  fld_omit "external_identities" u_ExternalIdentities (set_fld u_ExternalIdentities);
  fld "roles" u_Roles (set_fld u_Roles);
  fld "channels" u_Channels (set_fld u_Channels) ].
#[export] Instance codec_user : JsonCodec User := struct_codec user_zero user_fields.

Record Role := mkRole { r_Name : string; r_Permissions : list string }.
#[export] Instance eta_role : Eta Role := fun x => mkRole (r_Name x) (r_Permissions x).
#[export] Instance role_eq_dec : EqDecision Role.
Proof. solve_decision. Defined.
Definition role_zero : Role := mkRole "" [].
Definition role_fields : list (field Role) := [
  fld "name" r_Name (set_fld r_Name);
  fld "permissions" r_Permissions (set_fld r_Permissions) ].
#[export] Instance codec_role : JsonCodec Role := struct_codec role_zero role_fields.

(** The Permission constants: a Permission is a string in the source. *)
Definition PermAll : string := "*".
Definition PermGlobalRead : string := "global:read".
Definition PermGlobalWrite : string := "global:write".
Definition PermUsersRead : string := "users:read".
Definition PermUsersWrite : string := "users:write".
Definition PermRBACRead : string := "rbac:read".
Definition PermRBACWrite : string := "rbac:write".
Definition PermChannelRead : string := "channel:read".
Definition PermChannelWrite : string := "channel:write".
Definition PermChannelView : string := "channel:view".

Definition DefaultRoles : list Role := [
  mkRole "admin" ["*"];
  mkRole "channel_admin" ["channel:write"; "channel:read"];
  mkRole "channel_viewer" ["channel:read"] ].

Record OIDCProvider := mkProvider {
  op_ID : string; op_Name : string; op_ClientID : string; op_ClientSecret : string;
  op_IssuerURL : string; op_Scopes : list string; op_GroupsClaim : string;
  op_AllowedEndpoints : list string; op_AllowInsecureIssuer : bool }.
#[export] Instance eta_provider : Eta OIDCProvider := fun x =>
  mkProvider (op_ID x) (op_Name x) (op_ClientID x) (op_ClientSecret x) (op_IssuerURL x) (op_Scopes x)
    (op_GroupsClaim x) (op_AllowedEndpoints x) (op_AllowInsecureIssuer x).
#[export] Instance provider_eq_dec : EqDecision OIDCProvider.
Proof. solve_decision. Defined.
Definition provider_zero : OIDCProvider := mkProvider "" "" "" "" "" [] "" [] false.
Definition provider_fields : list (field OIDCProvider) := [
  fld "id" op_ID (set_fld op_ID);
  fld "name" op_Name (set_fld op_Name);
  fld "client_id" op_ClientID (set_fld op_ClientID);
  fld "client_secret" op_ClientSecret (set_fld op_ClientSecret);
  fld "issuer_url" op_IssuerURL (set_fld op_IssuerURL);
  fld "scopes" op_Scopes (set_fld op_Scopes);
  fld "groups_claim" op_GroupsClaim (set_fld op_GroupsClaim);
  fld_omit "allowed_endpoints" op_AllowedEndpoints (set_fld op_AllowedEndpoints);
  fld_omit "allow_insecure_issuer" op_AllowInsecureIssuer (set_fld op_AllowInsecureIssuer) ].
#[export] Instance codec_provider : JsonCodec OIDCProvider := struct_codec provider_zero provider_fields.

Record RoleMapping := mkRoleMapping {
  rm_ID : string; rm_Type : string; rm_Subject : string; rm_Role : string; rm_ChannelScope : string }.
#[export] Instance eta_rm : Eta RoleMapping := fun x =>
  mkRoleMapping (rm_ID x) (rm_Type x) (rm_Subject x) (rm_Role x) (rm_ChannelScope x).
#[export] Instance rm_eq_dec : EqDecision RoleMapping.
Proof. solve_decision. Defined.
Definition rm_zero : RoleMapping := mkRoleMapping "" "" "" "" "".
Definition rm_fields : list (field RoleMapping) := [
  fld "id" rm_ID (set_fld rm_ID);
  fld "type" rm_Type (set_fld rm_Type);
  fld "subject" rm_Subject (set_fld rm_Subject);
  fld "role" rm_Role (set_fld rm_Role);
  fld "channel_scope" rm_ChannelScope (set_fld rm_ChannelScope) ].
#[export] Instance codec_rm : JsonCodec RoleMapping := struct_codec rm_zero rm_fields.

Record ChannelRoleMapping := mkACL {
  acl_ID : string; acl_ChannelID : string; acl_Type : string; acl_Subject : string; acl_Role : string }.
#[export] Instance eta_acl : Eta ChannelRoleMapping := fun x =>
  mkACL (acl_ID x) (acl_ChannelID x) (acl_Type x) (acl_Subject x) (acl_Role x).
#[export] Instance acl_eq_dec : EqDecision ChannelRoleMapping.
Proof. solve_decision. Defined.
Definition acl_zero : ChannelRoleMapping := mkACL "" "" "" "" "".
Definition acl_fields : list (field ChannelRoleMapping) := [
  fld "id" acl_ID (set_fld acl_ID);
  fld "channel_id" acl_ChannelID (set_fld acl_ChannelID);
  fld "type" acl_Type (set_fld acl_Type);
  fld "subject" acl_Subject (set_fld acl_Subject);
  fld "role" acl_Role (set_fld acl_Role) ].
#[export] Instance codec_acl : JsonCodec ChannelRoleMapping := struct_codec acl_zero acl_fields.

Record ClientCursor := mkCursor { cur_Channel : string; cur_ClientID : string; cur_LastTimestampMs : Z }.
#[export] Instance eta_cursor : Eta ClientCursor := fun x =>
  mkCursor (cur_Channel x) (cur_ClientID x) (cur_LastTimestampMs x).
#[export] Instance cursor_eq_dec : EqDecision ClientCursor.
Proof. solve_decision. Defined.
Definition cursor_zero : ClientCursor := mkCursor "" "" 0.
Definition cursor_fields : list (field ClientCursor) := [
  fld "channel" cur_Channel (set_fld cur_Channel);
  fld "client_id" cur_ClientID (set_fld cur_ClientID);
  fld "last_timestamp_ms" cur_LastTimestampMs (set_fld cur_LastTimestampMs) ].
#[export] Instance codec_cursor : JsonCodec ClientCursor := struct_codec cursor_zero cursor_fields.

Record UserBinding := mkBinding { ub_UserID : string; ub_Roles : list string; ub_Channels : list string }.
#[export] Instance eta_binding : Eta UserBinding := fun x => mkBinding (ub_UserID x) (ub_Roles x) (ub_Channels x).
Definition binding_zero : UserBinding := mkBinding "" [] [].
Definition binding_fields : list (field UserBinding) := [
  fld "user_id" ub_UserID (set_fld ub_UserID);
  fld "roles" ub_Roles (set_fld ub_Roles);
  fld "channels" ub_Channels (set_fld ub_Channels) ].
#[export] Instance codec_binding : JsonCodec UserBinding := struct_codec binding_zero binding_fields.

(** MigrateChannel, on the value the pointer designates: its three [if]s in order. *)
Definition migrate_secret (p : Channel) : Channel :=
  match ch_WebhookSignatures p with
  | sig :: _ => if bool_decide (ch_WebhookSecret p = "") then p <| ch_WebhookSecret := sig |> else p
  | [] => p
  end.
Definition migrate_enabled (p : Channel) : Channel :=
  if bool_decide (ch_EncryptionMode p = "") && ch_EncryptionEnabled p
  then p <| ch_EncryptionMode := "e2e" |> else p.
Definition migrate_provider_side (p : Channel) : Channel :=
  if bool_decide (ch_EncryptionMode p = "provider_side")
  then p <| ch_EncryptionMode := "e2e" |> else p.
Definition MigrateChannel (p : Channel) : Channel :=
  migrate_provider_side (migrate_enabled (migrate_secret p)).

(** ** config.go *)

Record ServerConfig := mkServerConfig {
  sc_MaxBodySize : Z;
  sc_BehindReverseProxy : bool;
  sc_CORSOrigin : string;
  sc_Footer : string;
  sc_SessionSecret : string;
  sc_RateLimitEnabled : bool;
  sc_RateLimitRequests : Z;
  sc_RateLimitWindowSeconds : Z;
  sc_BanEnabled : bool;
  sc_BanMaxUniqueFailures : Z;
  sc_BanWindowSeconds : Z;
  sc_BanDurationSeconds : Z;
  sc_TrustedProxyCIDRs : list string;
  sc_RequireKnownChannels : bool;
  sc_LoginThrottleAttempts : Z;
  sc_LoginThrottleCooldown : Z }.
#[export] Instance eta_sc : Eta ServerConfig := fun x =>
  mkServerConfig (sc_MaxBodySize x) (sc_BehindReverseProxy x) (sc_CORSOrigin x) (sc_Footer x)
    (sc_SessionSecret x) (sc_RateLimitEnabled x) (sc_RateLimitRequests x) (sc_RateLimitWindowSeconds x)
    (sc_BanEnabled x) (sc_BanMaxUniqueFailures x) (sc_BanWindowSeconds x) (sc_BanDurationSeconds x)
    (sc_TrustedProxyCIDRs x) (sc_RequireKnownChannels x) (sc_LoginThrottleAttempts x)
    (sc_LoginThrottleCooldown x).
Definition sc_zero : ServerConfig :=
  mkServerConfig 0 false "" "" "" false 0 0 false 0 0 0 [] false 0 0.
Definition sc_fields : list (field ServerConfig) := [
  fld "max_body_size" sc_MaxBodySize (set_fld sc_MaxBodySize);
  fld "behind_reverse_proxy" sc_BehindReverseProxy (set_fld sc_BehindReverseProxy);
  fld "cors_origin" sc_CORSOrigin (set_fld sc_CORSOrigin);
  fld "footer" sc_Footer (set_fld sc_Footer);
  fld "session_secret" sc_SessionSecret (set_fld sc_SessionSecret);
  fld "rate_limit_enabled" sc_RateLimitEnabled (set_fld sc_RateLimitEnabled);
  fld "rate_limit_requests" sc_RateLimitRequests (set_fld sc_RateLimitRequests);
  fld "rate_limit_window_seconds" sc_RateLimitWindowSeconds (set_fld sc_RateLimitWindowSeconds);
  fld "ban_enabled" sc_BanEnabled (set_fld sc_BanEnabled);
  fld "ban_max_unique_failures" sc_BanMaxUniqueFailures (set_fld sc_BanMaxUniqueFailures);
  fld "ban_window_seconds" sc_BanWindowSeconds (set_fld sc_BanWindowSeconds);
  fld "ban_duration_seconds" sc_BanDurationSeconds (set_fld sc_BanDurationSeconds);
  fld "trusted_proxy_cidrs" sc_TrustedProxyCIDRs (set_fld sc_TrustedProxyCIDRs);
  fld "require_known_channels" sc_RequireKnownChannels (set_fld sc_RequireKnownChannels);
  fld "login_throttle_attempts" sc_LoginThrottleAttempts (set_fld sc_LoginThrottleAttempts);
  fld "login_throttle_cooldown_seconds" sc_LoginThrottleCooldown (set_fld sc_LoginThrottleCooldown) ].
#[export] Instance codec_sc : JsonCodec ServerConfig := struct_codec sc_zero sc_fields.

Record DefaultChannelConfig := mkDefaults {
  dc_WebhookSecret : string; dc_AllowedIPs : list string; dc_MessageTTLSeconds : Z }.
#[export] Instance eta_dc : Eta DefaultChannelConfig := fun x =>
  mkDefaults (dc_WebhookSecret x) (dc_AllowedIPs x) (dc_MessageTTLSeconds x).
Definition dc_zero : DefaultChannelConfig := mkDefaults "" [] 0.
Definition dc_fields : list (field DefaultChannelConfig) := [
  fld "webhook_secret" dc_WebhookSecret (set_fld dc_WebhookSecret);
  fld "allowed_ips" dc_AllowedIPs (set_fld dc_AllowedIPs);
  fld "message_ttl_seconds" dc_MessageTTLSeconds (set_fld dc_MessageTTLSeconds) ].
#[export] Instance codec_dc : JsonCodec DefaultChannelConfig := struct_codec dc_zero dc_fields.

Record GlobalConfig := mkGlobal { gc_Server : ServerConfig; gc_Defaults : DefaultChannelConfig }.
#[export] Instance eta_gc : Eta GlobalConfig := fun x => mkGlobal (gc_Server x) (gc_Defaults x).
Definition gc_zero : GlobalConfig := mkGlobal sc_zero dc_zero.
Definition gc_fields : list (field GlobalConfig) := [
  fld "server" gc_Server (set_fld gc_Server);
  fld "defaults" gc_Defaults (set_fld gc_Defaults) ].
#[export] Instance codec_gc : JsonCodec GlobalConfig := struct_codec gc_zero gc_fields.

Definition DefaultGlobalConfig : GlobalConfig :=
  mkGlobal
    (mkServerConfig 26214400 false "*" "" "" false 100 60 false 5 300 3600 [] false 10 300)
    dc_zero.

(** ResolveChannelConfig(p, global): the five merges of unset fields, in order. *)
Definition resolve_access (r : Channel) : Channel :=
  if bool_decide (ch_AccessMode r = "") then r <| ch_AccessMode := "public" |> else r.
Definition resolve_body (global : GlobalConfig) (r : Channel) : Channel :=
  if bool_decide (ch_MaxBodySize r = 0%Z)
  then r <| ch_MaxBodySize := sc_MaxBodySize (gc_Server global) |> else r.
Definition resolve_secret (global : GlobalConfig) (r : Channel) : Channel :=
  if bool_decide (ch_WebhookSecret r = "")
  then r <| ch_WebhookSecret := dc_WebhookSecret (gc_Defaults global) |> else r.
Definition resolve_ips (global : GlobalConfig) (r : Channel) : Channel :=
  match ch_AllowedIPs r with
  | [] => r <| ch_AllowedIPs := dc_AllowedIPs (gc_Defaults global) |>
  | _ => r
  end.
Definition resolve_ttl (global : GlobalConfig) (r : Channel) : Channel :=
  if bool_decide (ch_MessageTTLSeconds r = 0%Z) &&
     bool_decide (0 < dc_MessageTTLSeconds (gc_Defaults global))%Z
  then r <| ch_MessageTTLSeconds := dc_MessageTTLSeconds (gc_Defaults global) |> else r.
Definition ResolveChannelConfig (p : Channel) (global : GlobalConfig) : Channel :=
  resolve_ttl global (resolve_ips global (resolve_secret global (resolve_body global
    (resolve_access (MigrateChannel p))))).

(** ** auth.go *)

Record InternalUser := mkInternalUser { iu_Username : string; iu_PasswordHash : string }.
Record InternalConfig := mkInternalConfig { ic_Enabled : bool; ic_Users : list InternalUser }.
Record OIDCConfig := mkOIDCConfig { oc_Enabled : bool; oc_Providers : list OIDCProvider }.
Record AuthConfig := mkAuthConfig { ac_Internal : InternalConfig; ac_OIDC : OIDCConfig }.

(** ** Codec laws *)

(** Go ints of a stored record are in range because Go ints always are. *)
Definition channel_wf (c : Channel) : Prop :=
  int64_range (ch_MaxBodySize c) = true /\ int64_range (ch_MessageTTLSeconds c) = true.

Definition sc_wf (c : ServerConfig) : Prop :=
  int64_range (sc_MaxBodySize c) = true /\ int64_range (sc_RateLimitRequests c) = true /\
  int64_range (sc_RateLimitWindowSeconds c) = true /\ int64_range (sc_BanMaxUniqueFailures c) = true /\
  int64_range (sc_BanWindowSeconds c) = true /\ int64_range (sc_BanDurationSeconds c) = true /\
  int64_range (sc_LoginThrottleAttempts c) = true /\ int64_range (sc_LoginThrottleCooldown c) = true.

Lemma wf_list_string (l : list string) : jwf l.
Proof. apply Forall_true. done. Qed.
#[export] Hint Resolve wf_list_string : core.

Ltac solve_codec_law :=
  intros; repeat match goal with
                 | H : _ /\ _ |- _ => destruct H
                 end;
  cbn [jenc jdec jzero struct_codec]; json_struct;
  match goal with |- dec_fields _ _ ?x = Some ?a => destruct a; reflexivity end.

#[export] Instance law_token : JsonLaw ChannelAccessToken.
Proof. refine {| jwf _ := True |}; [|done]. unfold codec_token. solve_codec_law. Defined.
#[export] Instance law_ei : JsonLaw ExternalIdentity.
Proof. refine {| jwf _ := True |}; [|done]. unfold codec_ei. solve_codec_law. Defined.

Lemma wf_list_token (l : list ChannelAccessToken) : jwf l.
Proof. apply Forall_true. done. Qed.
Lemma wf_list_ei (l : list ExternalIdentity) : jwf l.
Proof. apply Forall_true. done. Qed.
#[export] Hint Resolve wf_list_token wf_list_ei : core.

#[export] Instance law_channel : JsonLaw Channel.
Proof. refine {| jwf := channel_wf |}; [|done]. unfold codec_channel, channel_wf. solve_codec_law. Defined.
#[export] Instance law_user : JsonLaw User.
Proof. refine {| jwf _ := True |}; [|done]. unfold codec_user. solve_codec_law. Defined.
#[export] Instance law_role : JsonLaw Role.
Proof. refine {| jwf _ := True |}; [|done]. unfold codec_role. solve_codec_law. Defined.
#[export] Instance law_provider : JsonLaw OIDCProvider.
Proof. refine {| jwf _ := True |}; [|done]. unfold codec_provider. solve_codec_law. Defined.
#[export] Instance law_rm : JsonLaw RoleMapping.
Proof. refine {| jwf _ := True |}; [|done]. unfold codec_rm. solve_codec_law. Defined.
#[export] Instance law_acl : JsonLaw ChannelRoleMapping.
Proof. refine {| jwf _ := True |}; [|done]. unfold codec_acl. solve_codec_law. Defined.
#[export] Instance law_cursor : JsonLaw ClientCursor.
Proof.
  refine {| jwf c := int64_range (cur_LastTimestampMs c) = true |}; [|done].
  unfold codec_cursor. solve_codec_law.
Defined.
#[export] Instance law_sc : JsonLaw ServerConfig.
Proof. refine {| jwf := sc_wf |}; [|done]. unfold codec_sc, sc_wf. solve_codec_law. Defined.
#[export] Instance law_dc : JsonLaw DefaultChannelConfig.
Proof.
  refine {| jwf c := int64_range (dc_MessageTTLSeconds c) = true |}; [|done].
  unfold codec_dc. solve_codec_law.
Defined.

(** A decoded channel is well formed. *)
Lemma Unmarshal_channel_wf j c : Unmarshal (A := Channel) j = Some c -> channel_wf c.
Proof.
  unfold Unmarshal. destruct j; try done; [by intros [= <-]|].
  apply (dec_fields_inv channel_wf channel_fields); [|by split].
  unfold channel_wf. intros f Hf j y y' [Hb Ht].
  repeat (apply elem_of_cons in Hf as [->|Hf];
    [cbn [f_dec fld_gen]; destruct (jdec j _) eqn:E; [|done]; intros [= <-]; cbn;
     split; solve [assumption | eapply jdec_int_range; [|exact E]; assumption] |]).
  by apply not_elem_of_nil in Hf.
Qed.

(** ** Migration and resolution *)

(** What one step reads and writes: enough to reason about the composition
    without opening it. *)
Ltac chan_step :=
  intros; unfold migrate_secret, migrate_enabled, migrate_provider_side, resolve_access, resolve_body,
    resolve_secret, resolve_ips, resolve_ttl;
  repeat (case_match || case_bool_decide); simpl; try done.

(** Fields no step of migration or resolution touches. *)
Record same_identity (p q : Channel) : Prop := {
  si_ID : ch_ID q = ch_ID p;
  si_Description : ch_Description q = ch_Description p;
  si_CreatedBy : ch_CreatedBy q = ch_CreatedBy p;
  si_EncryptionKey : ch_EncryptionKey q = ch_EncryptionKey p;
  si_EncryptionPublicKey : ch_EncryptionPublicKey q = ch_EncryptionPublicKey p;
  si_EncryptionPrivateKey : ch_EncryptionPrivateKey q = ch_EncryptionPrivateKey p;
  si_AccessTokens : ch_AccessTokens q = ch_AccessTokens p }.

#[export] Instance same_identity_pre : PreOrder same_identity.
Proof. split; [by constructor|]. intros p q r [] []. constructor; congruence. Qed.

Lemma MigrateChannel_identity p : same_identity p (MigrateChannel p).
Proof.
  unfold MigrateChannel. transitivity (migrate_secret p); [by constructor; chan_step|].
  transitivity (migrate_enabled (migrate_secret p)); by constructor; chan_step.
Qed.

(** A migrated channel: what every one of its readers may rely on. *)
Definition migrated (p : Channel) : Prop :=
  (ch_WebhookSecret p = "" -> forall s l, ch_WebhookSignatures p = s :: l -> s = "") /\
  (ch_EncryptionMode p = "" -> ch_EncryptionEnabled p = false) /\
  ch_EncryptionMode p <> "provider_side".

Lemma MigrateChannel_migrated p : migrated (MigrateChannel p).
Proof.
  destruct p as [????????????? ? sigs en].
  unfold migrated, MigrateChannel, migrate_secret, migrate_enabled, migrate_provider_side.
  destruct sigs as [|sig sigs], en; simpl; repeat (case_bool_decide; simpl in *); naive_solver.
Qed.

Lemma migrated_MigrateChannel p : migrated p -> MigrateChannel p = p.
Proof.
  destruct p as [????????????? ? sigs en].
  unfold migrated, MigrateChannel, migrate_secret, migrate_enabled, migrate_provider_side.
  intros (H1 & H2 & H3). destruct sigs as [|sig sigs], en; simpl in *;
    repeat (case_bool_decide; simpl in *); subst; try naive_solver.
  all: try (rewrite (H1 eq_refl _ _ eq_refl)); naive_solver.
Qed.

Lemma MigrateChannel_idemp p : MigrateChannel (MigrateChannel p) = MigrateChannel p.
Proof. apply migrated_MigrateChannel, MigrateChannel_migrated. Qed.

(** The merge in closed form, field by field, on the migrated channel [q]. *)
Definition pick {A} `{EqDecision A} (unset dflt v : A) : A := if decide (v = unset) then dflt else v.

Definition merged (q : Channel) (g : GlobalConfig) : Channel :=
  q <| ch_AccessMode := pick "" "public" (ch_AccessMode q) |>
    <| ch_MaxBodySize := pick 0%Z (sc_MaxBodySize (gc_Server g)) (ch_MaxBodySize q) |>
    <| ch_WebhookSecret := pick "" (dc_WebhookSecret (gc_Defaults g)) (ch_WebhookSecret q) |>
    <| ch_AllowedIPs := pick [] (dc_AllowedIPs (gc_Defaults g)) (ch_AllowedIPs q) |>
    <| ch_MessageTTLSeconds := pick 0%Z (Z.max 0 (dc_MessageTTLSeconds (gc_Defaults g))) (ch_MessageTTLSeconds q) |>.

Lemma ResolveChannelConfig_merged p g : ResolveChannelConfig p g = merged (MigrateChannel p) g.
Proof.
  unfold ResolveChannelConfig. generalize (MigrateChannel p) as q. clear p.
  intros [???? ips body ttl ????? mode ???].
  unfold merged, resolve_access; simpl. unfold pick at 1; simpl.
  repeat case_bool_decide; case_decide; try done; unfold resolve_body; simpl; unfold pick at 1;
    repeat case_bool_decide; case_decide; try done; unfold resolve_secret; simpl; unfold pick at 1;
    repeat case_bool_decide; case_decide; try done; unfold resolve_ips; simpl;
    destruct ips; simpl; unfold resolve_ttl, pick; simpl; repeat case_bool_decide;
    repeat case_decide; simpl; subst; try done; try (f_equal; lia).
Qed.

Lemma merged_migrated q g : migrated q -> migrated (merged q g).
Proof.
  intros (H1 & H2 & H3). unfold migrated, merged; simpl. split_and!; try done.
  unfold pick. case_decide; naive_solver.
Qed.

Lemma pick_idemp {A} `{EqDecision A} (u d v : A) : pick u d (pick u d v) = pick u d v.
Proof. unfold pick. repeat case_decide; congruence. Qed.

(** Resolution is the field-wise merge of the migrated channel with the defaults:
    resolving an already resolved channel changes nothing, and no secret key,
    identity or token field is ever rewritten by resolution. *)
Theorem ResolveChannelConfig_spec p g :
  ResolveChannelConfig p g = merged (MigrateChannel p) g /\
  same_identity p (ResolveChannelConfig p g) /\
  ResolveChannelConfig (ResolveChannelConfig p g) g = ResolveChannelConfig p g.
Proof.
  split_and!.
  - apply ResolveChannelConfig_merged.
  - rewrite ResolveChannelConfig_merged. transitivity (MigrateChannel p); [apply MigrateChannel_identity|].
    by constructor.
  - rewrite !ResolveChannelConfig_merged, (migrated_MigrateChannel (merged _ _)).
    + unfold merged; simpl. by rewrite !pick_idemp.
    + apply merged_migrated, MigrateChannel_migrated.
Qed.
