(* ===== verification/Bolt.v ===== *)
(** * Bolt: the bbolt files of internal/repository/bolt.go

    bbolt itself is third-party: [Bolt] is the part of its API the code calls
    (open check, buckets, ordered keys, commit) and [BoltLaws] what its
    documentation promises.  The log, stable and FSM helpers of bolt.go are
    written against that interface; [map_bolt] is an instance that shows the
    laws can hold. *)

From S2P Require Import Prelude Json.

Class Bolt (DB B : Type) := {
  db_begin : DB -> option goerr;                (* error of starting a transaction *)
  tx_Bucket : DB -> string -> option B;
  db_commit : DB -> string -> B -> res DB;
  bk_Get : B -> string -> option json;
  bk_Put : string -> json -> B -> res B;
  bk_Delete : string -> B -> res B;
  bk_Keys : B -> list string                    (* cursor order *)
}.

(** Byte order of keys. *)
Definition key_lt (a b : string) : Prop := String.le a b /\ a <> b.

Class BoltLaws (DB B : Type) `{Bolt DB B} := {
  commit_same : forall db n b db', db_commit db n b = Ok db' -> tx_Bucket db' n = Some b;
  commit_other : forall db n b db' m, db_commit db n b = Ok db' -> m <> n -> tx_Bucket db' m = tx_Bucket db m;
  commit_begin : forall db n b db', db_commit db n b = Ok db' -> db_begin db' = db_begin db;
  put_get : forall b k v b' k', bk_Put k v b = Ok b' -> bk_Get b' k' = if decide (k = k') then Some v else bk_Get b k';
  delete_get : forall b k b' k', bk_Delete k b = Ok b' -> bk_Get b' k' = if decide (k = k') then None else bk_Get b k';
  keys_get : forall b k, k ∈ bk_Keys b <-> is_Some (bk_Get b k);
  keys_sorted : forall b, StronglySorted key_lt (bk_Keys b)
}.

Section bolt.
Context {DB B : Type} `{Bolt DB B}.

Definition logsBucketName : string := "logs".
Definition stableBucketName : string := "stable".
Definition fsmDataBucketName : string := "fsm_data".

(** db.Update(fn) on one bucket: [fn] sees [None] when the bucket is missing;
    an error of [fn] or of the commit rolls the transaction back.  A [fn] that
    returns nil without touching the bucket commits nothing. *)
Definition db_Update (db : DB) (name : string) (fn : option B -> res (option B)) : DB * res unit :=
  match db_begin db with
  | Some e => (db, Err e)
  | None =>
      match fn (tx_Bucket db name) with
      | Err e => (db, Err e)
      | Ok None => (db, Ok tt)
      | Ok (Some b') =>
          match db_commit db name b' with
          | Ok db' => (db', Ok tt)
          | Err e => (db, Err e)
          end
      end
  end.

(** db.View(fn) on one bucket. *)
Definition db_View {A} (db : DB) (name : string) (fn : option B -> res A) : res A :=
  match db_begin db with
  | Some e => Err e
  | None => fn (tx_Bucket db name)
  end.

(** ** Index keys *)

Definition byte_of (z : Z) : ascii := Ascii.ascii_of_N (Z.to_N (z mod 256)).
Definition byte_val (c : ascii) : Z := Z.of_N (Ascii.N_of_ascii c).

(** itob: big-endian bytes of a uint64. *)
Definition itob (v : Z) : string :=
  String (byte_of (Z.shiftr v 56)) (String (byte_of (Z.shiftr v 48))
  (String (byte_of (Z.shiftr v 40)) (String (byte_of (Z.shiftr v 32))
  (String (byte_of (Z.shiftr v 24)) (String (byte_of (Z.shiftr v 16))
  (String (byte_of (Z.shiftr v 8)) (String (byte_of v) EmptyString))))))).

(** btoi: the code indexes b[0..7], a shorter slice panics. *)
Definition btoi (b : string) : option Z :=
  match b with
  | String b0 (String b1 (String b2 (String b3 (String b4 (String b5 (String b6 (String b7 _))))))) =>
      Some (Z.lor (byte_val b7) (Z.lor (Z.shiftl (byte_val b6) 8) (Z.lor (Z.shiftl (byte_val b5) 16)
           (Z.lor (Z.shiftl (byte_val b4) 24) (Z.lor (Z.shiftl (byte_val b3) 32) (Z.lor (Z.shiftl (byte_val b2) 40)
           (Z.lor (Z.shiftl (byte_val b1) 48) (Z.shiftl (byte_val b0) 56))))))))
  | _ => None
  end.

Definition btoi_res (b : string) : res Z :=
  match btoi b with Some v => Ok v | None => Err (mkErr KPanic "index out of range") end.

(** ** boltLogStore *)

(** raft.Log entries are opaque JSON documents with an index. *)
Definition FirstIndex (db : DB) : res Z :=
  db_View db logsBucketName (fun b =>
    match b with
    | None => Ok 0%Z
    | Some b => match bk_Keys b with [] => Ok 0%Z | k :: _ => btoi_res k end
    end).

Definition LastIndex (db : DB) : res Z :=
  db_View db logsBucketName (fun b =>
    match b with
    | None => Ok 0%Z
    | Some b => match last (bk_Keys b) with None => Ok 0%Z | Some k => btoi_res k end
    end).

Definition ErrLogNotFound : goerr := mkErr KOther "log not found".

Definition GetLog (db : DB) (idx : Z) : res json :=
  db_View db logsBucketName (fun b =>
    match b with
    | None => Err ErrLogNotFound
    | Some b => match bk_Get b (itob idx) with None => Err ErrLogNotFound | Some v => Ok v end
    end).

Fixpoint store_logs (logs : list (Z * json)) (b : B) : res B :=
  match logs with
  | [] => Ok b
  | (idx, v) :: logs' => match bk_Put (itob idx) v b with Ok b' => store_logs logs' b' | Err e => Err e end
  end.

Definition StoreLogs (db : DB) (logs : list (Z * json)) : DB * res unit :=
  db_Update db logsBucketName (fun b =>
    match b with
    | None => Err (errorf "logs bucket not found")
    | Some b => res_bind (store_logs logs b) (fun b' => Ok (Some b'))
    end).

Definition StoreLog (db : DB) (log : Z * json) : DB * res unit := StoreLogs db [log].

(** [for i := low; i <= high; i++] on uint64.  [fuel] bounds the iterations; the
    loop ends by itself unless [high] is the largest uint64. *)
Fixpoint delete_range (fuel : nat) (i high : Z) (b : B) : option (res B) :=
  match fuel with
  | O => None
  | S fuel' =>
      if bool_decide (i <= high)%Z then
        match bk_Delete (itob i) b with
        | Ok b' => delete_range fuel' (wrapu64 (i + 1)) high b'
        | Err e => Some (Err e)
        end
      else Some (Ok b)
  end.

Definition DeleteRange (fuel : nat) (db : DB) (low high : Z) : option (DB * res unit) :=
  match db_begin db with
  | Some e => Some (db, Err e)
  | None =>
      match tx_Bucket db logsBucketName with
      | None => Some (db, Ok tt)
      | Some b =>
          r ← delete_range fuel low high b;
          Some (db_Update db logsBucketName (fun _ => res_bind r (fun b' => Ok (Some b'))))
      end
  end.

(** ** boltStableStore *)

Definition stable_Set (db : DB) (key : string) (v : json) : DB * res unit :=
  db_Update db stableBucketName (fun b =>
    match b with
    | None => Err (errorf "stable bucket not found")
    | Some b => res_bind (bk_Put key v b) (fun b' => Ok (Some b'))
    end).

Definition stable_Get (db : DB) (key : string) : res json :=
  match db_View db stableBucketName (fun b => Ok (match b with None => None | Some b => bk_Get b key end)) with
  | Ok (Some v) => Ok v
  | _ => Err (errorf "not found")
  end.

(** A stored value is the JSON tree of its bytes; a raw byte string is [JStr]. *)
Definition SetUint64 (db : DB) (key : string) (v : Z) : DB * res unit := stable_Set db key (JStr (itob v)).

Definition GetUint64 (db : DB) (key : string) : res Z :=
  res_bind (stable_Get db key) (fun v =>
    match v with JStr s => btoi_res s | _ => Err (mkErr KPanic "index out of range") end).

(** ** FSM data access helpers *)

Definition getFSMValue (db : DB) (key : string) : res (option json) :=
  db_View db fsmDataBucketName (fun b => Ok (match b with None => None | Some b => bk_Get b key end)).

Definition bucket_missing : goerr := errorf "bucket fsm_data not found".

Definition setFSMValue (db : DB) (key : string) (v : json) : DB * res unit :=
  db_Update db fsmDataBucketName (fun b =>
    match b with
    | None => Err bucket_missing
    | Some b => res_bind (bk_Put key v b) (fun b' => Ok (Some b'))
    end).

Definition deleteFSMValue (db : DB) (key : string) : DB * res unit :=
  db_Update db fsmDataBucketName (fun b =>
    match b with
    | None => Ok None
    | Some b => res_bind (bk_Delete key b) (fun b' => Ok (Some b'))
    end).

(** The cursor loop of listFSMKeys: Seek to the first key >= prefix, then Next
    while the key carries the prefix. *)
Fixpoint seek (prefix : string) (ks : list string) : list string :=
  match ks with
  | [] => []
  | k :: ks' => if decide (String.le prefix k) then ks else seek prefix ks'
  end.

Fixpoint take_prefixed (prefix : string) (ks : list string) : list string :=
  match ks with
  | [] => []
  | k :: ks' => if HasPrefix k prefix then k :: take_prefixed prefix ks' else []
  end.

Definition listFSMKeys (db : DB) (prefix : string) : res (list string) :=
  db_View db fsmDataBucketName (fun b =>
    Ok (match b with None => [] | Some b => take_prefixed prefix (seek prefix (bk_Keys b)) end)).

(** bucket.ForEach: the pairs in cursor order. *)
Definition bk_pairs (b : B) : list (string * json) :=
  omap (fun k => v ← bk_Get b k; Some (k, v)) (bk_Keys b).

(** iterateFSM(db, fn), the callback threading an accumulator. *)
Fixpoint for_each {A} (fn : string -> json -> A -> res A) (kvs : list (string * json)) (a : A) : res A :=
  match kvs with
  | [] => Ok a
  | (k, v) :: kvs' => res_bind (fn k v a) (for_each fn kvs')
  end.

Definition iterateFSM {A} (db : DB) (fn : string -> json -> A -> res A) (a : A) : res A :=
  db_View db fsmDataBucketName (fun b =>
    match b with None => Ok a | Some b => for_each fn (bk_pairs b) a end).

(** ** Snapshot *)

(** The sink is third-party: writing, closing and cancelling may fail. *)
Record SnapshotSink := mkSink { sink_written : option json; sink_cancelled : bool; sink_closed : bool }.

(** Persist: [write_err] and [close_err] are the sink's answers.  The document is
    {"data": {key: value}}. *)
Definition Persist (db : DB) (write_err close_err : option goerr) (sink : SnapshotSink)
  : SnapshotSink * res unit :=
  let cancel := mkSink (sink_written sink) true (sink_closed sink) in
  match db_View db fsmDataBucketName (fun b => Ok (match b with None => [] | Some b => bk_pairs b end)) with
  | Err e => (cancel, Err e)
  | Ok snapshot =>
      match write_err with
      | Some e => (cancel, Err e)
      | None =>
          (mkSink (Some (JObj [("data", jenc (mkBytesMap snapshot))])) (sink_cancelled sink) true,
           match close_err with Some e => Err e | None => Ok tt end)
      end
  end.
End bolt.

(** ** Index keys: bytes, order and round trip *)

Lemma byte_val_of z : byte_val (byte_of z) = (z mod 256)%Z.
Proof.
  unfold byte_val, byte_of. pose proof (Z.mod_pos_bound z 256 ltac:(lia)).
  rewrite Ascii.N_ascii_embedding by lia. lia.
Qed.

Lemma byte_of_range z : (0 <= z mod 256 < 256)%Z.
Proof. apply Z.mod_pos_bound. lia. Qed.

(** Joining two big-endian halves is addition. *)
Lemma lor_shift_add (a b n : Z) :
  (0 <= n)%Z -> (0 <= a < 2 ^ n)%Z -> Z.lor a (Z.shiftl b n) = (a + b * 2 ^ n)%Z.
Proof.
  intros Hn Ha. rewrite <- Z.shiftl_mul_pow2 by lia.
  assert (Z.land a (Z.shiftl b n) = 0%Z) as Hd.
  { apply Z.bits_inj'. intros i Hi. rewrite Z.land_spec, Z.shiftl_spec, Z.bits_0 by lia.
    destruct (Z.lt_ge_cases i n); [rewrite (Z.testbit_neg_r b) by lia; apply andb_false_r|].
    rewrite <- (Z.mod_small a (2 ^ n)) by lia. by rewrite Z.mod_pow2_bits_high by lia. }
  by rewrite Z.add_nocarry_lxor, Z.lxor_lor by exact Hd.
Qed.

Lemma horner x0 x1 x2 x3 x4 x5 x6 x7 :
  Z.lor x7 (Z.lor (Z.shiftl x6 8) (Z.lor (Z.shiftl x5 16) (Z.lor (Z.shiftl x4 24)
    (Z.lor (Z.shiftl x3 32) (Z.lor (Z.shiftl x2 40) (Z.lor (Z.shiftl x1 48) (Z.shiftl x0 56)))))))
  = Z.lor x7 (Z.shiftl (Z.lor x6 (Z.shiftl (Z.lor x5 (Z.shiftl (Z.lor x4 (Z.shiftl (Z.lor x3
    (Z.shiftl (Z.lor x2 (Z.shiftl (Z.lor x1 (Z.shiftl x0 8)) 8)) 8)) 8)) 8)) 8)) 8).
Proof. rewrite !Z.shiftl_lor, !Z.shiftl_shiftl by lia. done. Qed.

(** The eight base-256 digits of a 64-bit number rebuild it. *)
Lemma digits_256 v : (0 <= v < two64)%Z ->
  let d (n : Z) := ((v / 256 ^ n) mod 256)%Z in
  (d 0 + (d 1 + (d 2 + (d 3 + (d 4 + (d 5 + (d 6 + d 7 * 256) * 256) * 256) * 256) * 256) * 256) * 256 = v)%Z.
Proof.
  intros Hv d. unfold d.
  assert (forall n, (0 <= n)%Z -> (v / 256 ^ (n + 1) = v / 256 ^ n / 256)%Z) as Hs.
  { intros n Hn. rewrite Z.pow_add_r, Z.div_div by lia. done. }
  assert (v / 256 ^ 0 = v)%Z as Hq0 by (change (256 ^ 0)%Z with 1%Z; apply Z.div_1_r).
  pose proof (Hs 0%Z ltac:(lia) : v / 256 ^ 1 = v / 256 ^ 0 / 256)%Z.
  pose proof (Hs 1%Z ltac:(lia) : v / 256 ^ 2 = v / 256 ^ 1 / 256)%Z.
  pose proof (Hs 2%Z ltac:(lia) : v / 256 ^ 3 = v / 256 ^ 2 / 256)%Z.
  pose proof (Hs 3%Z ltac:(lia) : v / 256 ^ 4 = v / 256 ^ 3 / 256)%Z.
  pose proof (Hs 4%Z ltac:(lia) : v / 256 ^ 5 = v / 256 ^ 4 / 256)%Z.
  pose proof (Hs 5%Z ltac:(lia) : v / 256 ^ 6 = v / 256 ^ 5 / 256)%Z.
  pose proof (Hs 6%Z ltac:(lia) : v / 256 ^ 7 = v / 256 ^ 6 / 256)%Z.
  assert (0 <= v / 256 ^ 7 < 256)%Z.
  { split; [apply Z.div_pos; lia|]. apply Z.div_lt_upper_bound; [lia|]. exact (proj2 Hv). }
  rewrite Hq0 in *. clear Hv Hs d.
  set (q1 := (v / 256 ^ 1)%Z) in *; set (q2 := (v / 256 ^ 2)%Z) in *; set (q3 := (v / 256 ^ 3)%Z) in *;
  set (q4 := (v / 256 ^ 4)%Z) in *; set (q5 := (v / 256 ^ 5)%Z) in *; set (q6 := (v / 256 ^ 6)%Z) in *;
  set (q7 := (v / 256 ^ 7)%Z) in *. clearbody q1 q2 q3 q4 q5 q6 q7.
  rewrite (Z.mod_small q7) by assumption.
  pose proof (Z.div_mod v 256 ltac:(done)); pose proof (Z.div_mod q1 256 ltac:(done));
  pose proof (Z.div_mod q2 256 ltac:(done)); pose proof (Z.div_mod q3 256 ltac:(done));
  pose proof (Z.div_mod q4 256 ltac:(done)); pose proof (Z.div_mod q5 256 ltac:(done));
  pose proof (Z.div_mod q6 256 ltac:(done)).
  generalize dependent (v mod 256)%Z. generalize dependent (q1 mod 256)%Z.
  generalize dependent (q2 mod 256)%Z. generalize dependent (q3 mod 256)%Z.
  generalize dependent (q4 mod 256)%Z. generalize dependent (q5 mod 256)%Z.
  generalize dependent (q6 mod 256)%Z. intros.
  repeat match goal with H : _ = (_ / 256)%Z |- _ => rewrite <- H in *; clear H end.
  lia.
Qed.

Lemma btoi_itob v : (0 <= v < two64)%Z -> btoi (itob v) = Some v.
Proof.
  intros Hv. unfold itob, btoi. f_equal. rewrite !byte_val_of, horner.
  rewrite !lor_shift_add; try lia; try apply byte_of_range.
  rewrite !Z.shiftr_div_pow2 by lia. pose proof (digits_256 v Hv) as H. cbv zeta beta in H.
  change (v / 256 ^ 0)%Z with (v / 1)%Z in H. rewrite Z.div_1_r in H. exact H.
Qed.

(** The key of an index orders like the index: cursor order is log order. *)
Lemma itob_inj a b : (0 <= a < two64)%Z -> (0 <= b < two64)%Z -> itob a = itob b -> a = b.
Proof. intros Ha Hb E. apply (f_equal btoi) in E. rewrite !btoi_itob in E by done. congruence. Qed.

Lemma leb_cons c d s t :
  String.leb (String c s) (String d t) =
  match (byte_val c ?= byte_val d)%Z with Lt => true | Gt => false | Eq => String.leb s t end.
Proof. unfold String.leb. simpl. unfold Ascii.compare, byte_val. rewrite N2Z.inj_compare.
  by destruct (N_of_ascii c ?= N_of_ascii d)%N. Qed.

Fixpoint big_endian (n : nat) (v : Z) : string :=
  match n with
  | O => EmptyString
  | S n' => String (byte_of (Z.shiftr v (8 * Z.of_nat n'))) (big_endian n' v)
  end.

Lemma big_endian_mod n v : big_endian n v = big_endian n (v mod 2 ^ (8 * Z.of_nat n)).
Proof.
  assert (forall m, (n <= m)%nat -> big_endian n v = big_endian n (v mod 2 ^ (8 * Z.of_nat m))) as H; [|by apply H].
  induction n as [|n IH]; intros m Hm; [done|]. cbn [big_endian]. f_equal; [|by apply IH; lia].
  unfold byte_of. do 2 f_equal. apply Z.bits_inj'. intros i Hi.
  change 256%Z with (2 ^ 8)%Z. destruct (Z.lt_ge_cases i 8).
  - rewrite !Z.mod_pow2_bits_low, !Z.shiftr_spec, Z.mod_pow2_bits_low by lia. done.
  - by rewrite !Z.mod_pow2_bits_high by lia.
Qed.

Lemma big_endian_leb n a b :
  (0 <= a < 2 ^ (8 * Z.of_nat n))%Z -> (0 <= b < 2 ^ (8 * Z.of_nat n))%Z ->
  String.leb (big_endian n a) (big_endian n b) = (a <=? b)%Z.
Proof.
  revert a b. induction n as [|n IH]; intros a b Ha Hb.
  { simpl in Ha, Hb. replace a with b by lia. symmetry. apply Z.leb_refl. }
  cbn [big_endian]. rewrite leb_cons, !byte_val_of, !Z.shiftr_div_pow2 by lia.
  set (p := (2 ^ (8 * Z.of_nat n))%Z).
  assert (0 < p)%Z as Hp by (apply Z.pow_pos_nonneg; lia).
  assert (2 ^ (8 * Z.of_nat (S n)) = 256 * p)%Z as Hpow.
  { unfold p. rewrite Nat2Z.inj_succ, Z.mul_succ_r, Z.add_comm, Z.pow_add_r by lia. done. }
  rewrite Hpow in Ha, Hb.
  rewrite !(Z.mod_small (_ / p)) by (split; [apply Z.div_pos; lia | apply Z.div_lt_upper_bound; lia]).
  pose proof (Z.div_mod a p ltac:(lia)) as Ea. pose proof (Z.div_mod b p ltac:(lia)) as Eb.
  pose proof (Z.mod_pos_bound a p Hp). pose proof (Z.mod_pos_bound b p Hp).
  case Z.compare_spec; intros Hc.
  - rewrite (big_endian_mod n a), (big_endian_mod n b), IH by done. fold p.
    apply eq_true_iff_eq. rewrite !Z.leb_le. rewrite Hc in Ea. lia.
  - symmetry. apply Z.leb_le. nia.
  - symmetry. apply Z.leb_gt. nia.
Qed.

Lemma itob_leb a b : (0 <= a < two64)%Z -> (0 <= b < two64)%Z -> String.leb (itob a) (itob b) = (a <=? b)%Z.
Proof.
  intros Ha Hb. change (itob a) with (big_endian 8 a). change (itob b) with (big_endian 8 b).
  by apply big_endian_leb.
Qed.

(** ** Prefix scans *)

Lemma byte_val_inj c d : byte_val c = byte_val d -> c = d.
Proof. unfold byte_val. intros H%N2Z.inj. by rewrite <- (Ascii.ascii_N_embedding c), H, Ascii.ascii_N_embedding. Qed.

Lemma prefix_cons c p d s : String.prefix (String c p) (String d s) = bool_decide (c = d) && String.prefix p s.
Proof. simpl. destruct (Ascii.ascii_dec c d); case_bool_decide; done. Qed.

Lemma prefix_le p k : String.prefix p k = true -> String.le p k.
Proof.
  intros [t ->]%prefix_spec. unfold String.le. apply Is_true_true.
  induction p as [|c p IH]; [by destruct t|]. change (String c p +:+ t) with (String c (p +:+ t)).
  by rewrite leb_cons, Z.compare_refl.
Qed.

(** The keys carrying a prefix form an interval that starts at the prefix. *)
Lemma prefix_interval p k k' :
  String.le p k -> String.le k k' -> String.prefix p k' = true -> String.prefix p k = true.
Proof.
  unfold String.le. rewrite !Is_true_true. revert k k'.
  induction p as [|c p IH]; intros k k' H1 H2 H3; [by destruct k|].
  destruct k' as [|d' k']; [done|]. destruct k as [|d k]; [done|].
  rewrite prefix_cons in *. gobool. destruct H3 as [<- H3].
  rewrite leb_cons in H1, H2.
  destruct (Z.compare_spec (byte_val c) (byte_val d)) as [E|E|E]; [|by rewrite (proj2 (Z.compare_gt_iff _ _) E) in H2|done].
  apply byte_val_inj in E as <-. rewrite Z.compare_refl in H2. split; [done|]. by eapply IH.
Qed.

Lemma take_prefixed_filter p ks :
  StronglySorted key_lt ks -> Forall (String.le p) ks ->
  take_prefixed p ks = filter (fun k => HasPrefix k p = true) ks.
Proof.
  intros Hs Hp. induction Hs as [|k ks Hs IH Hk]; [done|]. simpl.
  inversion Hp as [|? ? Hpk Hp']; subst. rewrite filter_cons.
  destruct (HasPrefix k p) eqn:E.
  - rewrite decide_True by done. by rewrite IH.
  - rewrite decide_False by done. symmetry. apply filter_none. intros k' Hk' Hk'p.
    unfold HasPrefix in *.
    rewrite (prefix_interval p k k') in E; try done.
    by apply (proj1 (Forall_forall _ _) Hk).
Qed.

Lemma scan_filter p ks :
  StronglySorted key_lt ks -> take_prefixed p (seek p ks) = filter (fun k => HasPrefix k p = true) ks.
Proof.
  intros Hs. induction Hs as [|k ks Hs IH Hk]; [done|]. simpl.
  case_decide as Hle.
  - apply take_prefixed_filter; [by constructor|]. constructor; [done|].
    eapply Forall_impl; [exact Hk|]. intros k' [H _]. by etransitivity.
  - rewrite filter_cons, decide_False, IH; [done|]. intros H. apply Hle, prefix_le, H.
Qed.

(** ** Laws of the helpers *)

Section laws.
Context {DB B : Type} `{!Bolt DB B} `{!BoltLaws DB B}.

(** The content of the FSM bucket, and a database whose transactions start. *)
Definition fsm_get (db : DB) (k : string) : option json := b ← tx_Bucket db fsmDataBucketName; bk_Get b k.
Definition fsm_keys (db : DB) : list string :=
  match tx_Bucket db fsmDataBucketName with Some b => bk_Keys b | None => [] end.
Definition fsm_ready (db : DB) : Prop := db_begin db = None /\ is_Some (tx_Bucket db fsmDataBucketName).

Lemma fsm_keys_elem db k : k ∈ fsm_keys db <-> is_Some (fsm_get db k).
Proof.
  unfold fsm_keys, fsm_get. destruct (tx_Bucket db fsmDataBucketName) as [b|]; simpl; [apply keys_get|].
  split; [by intros ?%not_elem_of_nil | by intros [? ?]].
Qed.

Lemma getFSMValue_ready db k : fsm_ready db -> getFSMValue db k = Ok (fsm_get db k).
Proof. unfold getFSMValue, db_View, fsm_get. by intros [-> [b ->]]. Qed.

Lemma keys_sorted_fsm db : StronglySorted key_lt (fsm_keys db).
Proof. unfold fsm_keys. destruct (tx_Bucket _ _); [apply keys_sorted | constructor]. Qed.

Lemma listFSMKeys_filter db p :
  db_begin db = None -> listFSMKeys db p = Ok (filter (fun k => HasPrefix k p = true) (fsm_keys db)).
Proof.
  unfold listFSMKeys, db_View, fsm_keys. intros ->. destruct (tx_Bucket db _); [|done].
  by rewrite scan_filter by apply keys_sorted.
Qed.

Lemma setFSMValue_get db k v db' :
  setFSMValue db k v = (db', Ok tt) ->
  fsm_ready db' /\ forall k', fsm_get db' k' = if decide (k = k') then Some v else fsm_get db k'.
Proof.
  unfold setFSMValue, db_Update, fsm_ready, fsm_get. destruct (db_begin db) eqn:Eb; [done|].
  destruct (tx_Bucket db _) as [b|]; [|done]. simpl. destruct (bk_Put k v b) as [b'|e] eqn:Ep; [|done]. simpl.
  destruct (db_commit _ _ _) as [d|e] eqn:Ec; [|done]. intros [= <-].
  rewrite (commit_begin _ _ _ _ Ec), (commit_same _ _ _ _ Ec). split; [split; [done|eauto]|].
  intros k'. simpl. by rewrite (put_get _ _ _ _ _ Ep).
Qed.
End laws.

(** ** An instance *)

(** bbolt over finite maps: a transaction commits the bucket's new map; an empty
    key is refused, as bbolt does (ErrKeyRequired). *)
Definition mapdb := gmap string (gmap string json).
Definition map_keys (b : gmap string json) : list string := merge_sort String.le (map_to_list b).*1.

#[export] Instance map_bolt : Bolt mapdb (gmap string json) := {|
  db_begin _ := None;
  tx_Bucket db n := db !! n;
  db_commit db n b := Ok (<[n := b]> db);
  bk_Get b k := b !! k;
  bk_Put k v b := if bool_decide (k = "") then Err (errorf "key required") else Ok (<[k := v]> b);
  bk_Delete k b := Ok (delete k b);
  bk_Keys := map_keys
|}.

Lemma map_keys_elem b k : k ∈ map_keys b <-> is_Some (b !! k).
Proof.
  unfold map_keys. rewrite merge_sort_Permutation, list_elem_of_fmap. split.
  - intros ([k' v] & -> & H%elem_of_map_to_list). by exists v.
  - intros [v H]. exists (k, v). by rewrite elem_of_map_to_list.
Qed.

Lemma sorted_key_lt l : NoDup l -> StronglySorted String.le l -> StronglySorted key_lt l.
Proof.
  intros Hn Hs. induction Hs as [|k l Hs IH Hk]; [constructor|].
  inversion Hn as [|? ? Hni Hn']; subst. constructor; [by apply IH|].
  apply Forall_forall. intros k' Hk'. split; [by apply (proj1 (Forall_forall _ _) Hk)|].
  by intros ->.
Qed.

#[export] Instance map_bolt_laws : BoltLaws mapdb (gmap string json).
Proof.
  split; simpl.
  - intros ???? [= <-]. apply lookup_insert_eq.
  - intros ????? [= <-] ?. by apply lookup_insert_ne.
  - done.
  - intros ????? H. case_bool_decide; [done|]. injection H as [= <-]. apply lookup_insert.
  - intros ???? [= <-]. apply lookup_delete.
  - apply map_keys_elem.
  - intros b. unfold map_keys. apply sorted_key_lt.
    + rewrite merge_sort_Permutation. apply NoDup_fst_map_to_list.
    + apply StronglySorted_merge_sort; apply _.
Qed.

(** A database with the three buckets and the given FSM data. *)
Definition db_of (m : gmap string json) : mapdb :=
  {[ logsBucketName := ∅; stableBucketName := ∅; fsmDataBucketName := m ]}.

Lemma db_of_ready m : fsm_ready (db_of m).
Proof. split; [done|]. eexists. reflexivity. Qed.
