(* ===== verification/Fsm.v ===== *)
(** * Fsm: the replicated state machine of internal/repository/fsm.go

    A raft log entry is a JSON command; [Apply] runs it in one bbolt transaction
    on the bucket fsm_data and answers an error or nil. *)

From S2P Require Import Prelude Json Domain Bolt.

(** ** Commands *)

Record fsmCommand := mkCommand { cmd_Op : string; cmd_Key : string; cmd_Value : RawMessage }.
#[export] Instance eta_cmd : Eta fsmCommand := fun x => mkCommand (cmd_Op x) (cmd_Key x) (cmd_Value x).
Definition cmd_fields : list (field fsmCommand) := [
  fld "op" cmd_Op (set_fld cmd_Op);
  fld "key" cmd_Key (set_fld cmd_Key);
  fld_omit "value" cmd_Value (set_fld cmd_Value) ].
#[export] Instance codec_cmd : JsonCodec fsmCommand := struct_codec (mkCommand "" "" (Raw None)) cmd_fields.

Record fsmKV := mkKV { kv_Key : string; kv_Value : Bytes; kv_Delete : bool }.
#[export] Instance eta_kv : Eta fsmKV := fun x => mkKV (kv_Key x) (kv_Value x) (kv_Delete x).
Definition kv_fields : list (field fsmKV) := [
  fld "key" kv_Key (set_fld kv_Key);
  fld_omit "value" kv_Value (set_fld kv_Value);
  fld_omit "delete" kv_Delete (set_fld kv_Delete) ].
#[export] Instance codec_kv : JsonCodec fsmKV := struct_codec (mkKV "" (mkBytes None) false) kv_fields.

Record fsmMultiPayload := mkMulti { mp_Entries : list fsmKV }.
#[export] Instance eta_multi : Eta fsmMultiPayload := fun x => mkMulti (mp_Entries x).
Definition multi_fields : list (field fsmMultiPayload) := [ fld "entries" mp_Entries (set_fld mp_Entries) ].
#[export] Instance codec_multi : JsonCodec fsmMultiPayload := struct_codec (mkMulti []) multi_fields.

Record fsmBootstrapUser := mkBootUser {
  bu_Username : string; bu_PasswordHash : string; bu_Password : string;
  bu_Roles : list string; bu_Channels : list string }.
#[export] Instance eta_bu : Eta fsmBootstrapUser := fun x =>
  mkBootUser (bu_Username x) (bu_PasswordHash x) (bu_Password x) (bu_Roles x) (bu_Channels x).
Definition bu_fields : list (field fsmBootstrapUser) := [
  fld "username" bu_Username (set_fld bu_Username);
  fld "password_hash" bu_PasswordHash (set_fld bu_PasswordHash);
  fld_omit "password" bu_Password (set_fld bu_Password);
  fld "roles" bu_Roles (set_fld bu_Roles);
  fld "channels" bu_Channels (set_fld bu_Channels) ].
#[export] Instance codec_bu : JsonCodec fsmBootstrapUser := struct_codec (mkBootUser "" "" "" [] []) bu_fields.

Record fsmBootstrapPayload := mkBootPayload {
  bp_Global : option GlobalConfig;
  bp_Users : list fsmBootstrapUser;
  bp_Channels : list (option Channel);          (* []*domain.Channel *)
  bp_InternalAuthEnabled : option bool;
  bp_OIDCProviders : list OIDCProvider }.
#[export] Instance eta_bp : Eta fsmBootstrapPayload := fun x =>
  mkBootPayload (bp_Global x) (bp_Users x) (bp_Channels x) (bp_InternalAuthEnabled x) (bp_OIDCProviders x).
Definition bp_zero : fsmBootstrapPayload := mkBootPayload None [] [] None [].
Definition bp_fields : list (field fsmBootstrapPayload) := [
  fld_omit "global" bp_Global (set_fld bp_Global);
  fld_omit "users" bp_Users (set_fld bp_Users);
  fld_omit "channels" bp_Channels (set_fld bp_Channels);
  fld_omit "internal_auth_enabled" bp_InternalAuthEnabled (set_fld bp_InternalAuthEnabled);
  fld_omit "oidc_providers" bp_OIDCProviders (set_fld bp_OIDCProviders) ].
#[export] Instance codec_bp : JsonCodec fsmBootstrapPayload := struct_codec bp_zero bp_fields.

(** The username index (raft.go). *)
Record usernameIndex := mkIndex { ix_UserID : string }.
#[export] Instance eta_ix : Eta usernameIndex := fun x => mkIndex (ix_UserID x).
Definition ix_fields : list (field usernameIndex) := [ fld "user_id" ix_UserID (set_fld ix_UserID) ].
#[export] Instance codec_ix : JsonCodec usernameIndex := struct_codec (mkIndex "") ix_fields.

Definition usernameIndexKey (username : string) : string := "/users/by-username/" +:+ username.
Definition usernameIndexValue (userID : string) : json := jenc (mkIndex userID).

Definition unmarshal_error : goerr := errorf "json: cannot unmarshal".

(** json.Unmarshal(data, &v) with its error. *)
Definition Unmarshal_err {A} `{JsonCodec A} (j : json) : res A :=
  match Unmarshal j with Some a => Ok a | None => Err unmarshal_error end.

Definition validateKey (key : string) : option goerr :=
  if Contains key ".." then Some (errorf "invalid key: contains '..'")
  else if HasPrefix key "/" then None
  else Some (errorf "invalid key: must start with '/'").

Record snapshotDoc := mkSnapshot { sn_Data : BytesMap }.
#[export] Instance eta_sn : Eta snapshotDoc := fun x => mkSnapshot (sn_Data x).
Definition sn_fields : list (field snapshotDoc) := [ fld "data" sn_Data (set_fld sn_Data) ].
#[export] Instance codec_sn : JsonCodec snapshotDoc := struct_codec (mkSnapshot (mkBytesMap [])) sn_fields.

Section fsm.
Context {DB B : Type} `{!Bolt DB B}.

(** The bucket callbacks of the transactions. *)

Definition bucket_required (fn : B -> res B) (b : option B) : res (option B) :=
  match b with None => Err bucket_missing | Some b => res_bind (fn b) (fun b' => Ok (Some b')) end.

Definition create_channel_tx (key : string) (value : json) (b : B) : res B :=
  match bk_Get b key with
  | Some _ => Err (mkErr KAlreadyExists (TrimPrefix (TrimSuffix key "/") "/channels/"))
  | None => bk_Put key value b
  end.

Definition create_user_tx (key : string) (value : json) (b : B) : res B :=
  match bk_Get b key with
  | Some _ => Err (mkErr KAlreadyExists (TrimPrefix (TrimSuffix key "/") "/users/"))
  | None =>
      res_bind (bk_Put key value b) (fun b1 =>
      res_bind (Unmarshal_err (A := User) value) (fun u =>
      if bool_decide (u_Username u = "") then Err (errorf "create user: username required")
      else bk_Put (usernameIndexKey (u_Username u) +:+ "/") (usernameIndexValue (u_ID u)) b1))
  end.

Fixpoint set_multi_tx (entries : list fsmKV) (b : B) : res B :=
  match entries with
  | [] => Ok b
  | e :: es =>
      res_bind (if kv_Delete e then bk_Delete (kv_Key e) b
                else bk_Put (kv_Key e) (doc (bytes_of (kv_Value e))) b) (set_multi_tx es)
  end.

Fixpoint clear_keys (ks : list string) (b : B) : res B :=
  match ks with [] => Ok b | k :: ks' => res_bind (bk_Delete k b) (clear_keys ks') end.

Definition clearBucket (b : B) : res B := clear_keys (bk_Keys b) b.

Fixpoint put_all (kvs : list (string * json)) (b : B) : res B :=
  match kvs with [] => Ok b | (k, v) :: kvs' => res_bind (bk_Put k v b) (put_all kvs') end.

(** applyBootstrap's writes, section by section. *)

Definition boot_global (g : option GlobalConfig) (b : B) : res B :=
  match g with
  | None => Ok b
  | Some g =>
      res_bind (bk_Put "/global/server/" (jenc (gc_Server g)) b)
        (bk_Put "/global/defaults/" (jenc (gc_Defaults g)))
  end.

Definition boot_user (u : fsmBootstrapUser) (b : B) : res B :=
  if bool_decide (bu_Username u = "") then Err (errorf "username required")
  else if negb (bool_decide (bu_Password u = ""))
  then Err (errorf "plaintext password must be hashed before replication")
  else if bool_decide (bu_PasswordHash u = "") then Err (errorf "password_hash required")
  else
    let user := mkUser (bu_Username u) (bu_Username u) (bu_PasswordHash u) [] [] (bu_Roles u) (bu_Channels u) in
    res_bind (bk_Put ("/users/" +:+ bu_Username u +:+ "/") (jenc user) b)
      (bk_Put (usernameIndexKey (bu_Username u) +:+ "/") (usernameIndexValue (bu_Username u))).

Definition boot_channel (p : option Channel) (b : B) : res B :=
  match p with
  | None => Err (mkErr KPanic "nil pointer dereference")
  | Some p =>
      if bool_decide (ch_ID p = "") then Err (errorf "channel ID required")
      else bk_Put ("/channels/" +:+ ch_ID p +:+ "/") (jenc p) b
  end.

Fixpoint res_fold {A} (f : A -> B -> res B) (l : list A) (b : B) : res B :=
  match l with [] => Ok b | a :: l' => res_bind (f a b) (res_fold f l') end.

Definition bootstrap_tx (p : fsmBootstrapPayload) (b : B) : res B :=
  match bk_Keys b with
  | _ :: _ => Err (errorf "cannot apply bootstrap: FSM already has data")
  | [] =>
      res_bind (boot_global (bp_Global p) b) (fun b =>
      res_bind (res_fold boot_user (bp_Users p) b) (fun b =>
      res_bind (res_fold boot_channel (bp_Channels p) b) (fun b =>
      res_bind (match bp_InternalAuthEnabled p with
                | None => Ok b
                | Some e => bk_Put "/global/auth/internal_enabled" (jenc e) b
                end) (fun b =>
      match bp_OIDCProviders p with
      | [] => Ok b
      | l => bk_Put "/global/auth/oidc_providers" (jenc l) b
      end))))
  end.

(** ** Operations *)

Definition applyCreateChannel (db : DB) (key : string) (value : json) : DB * res unit :=
  db_Update db fsmDataBucketName (bucket_required (create_channel_tx key value)).

Definition applyCreateUser (db : DB) (key : string) (value : json) : DB * res unit :=
  db_Update db fsmDataBucketName (bucket_required (create_user_tx key value)).

Fixpoint validate_entries (entries : list fsmKV) : option goerr :=
  match entries with
  | [] => None
  | e :: es => match validateKey (kv_Key e) with Some err => Some err | None => validate_entries es end
  end.

Definition applySetMulti (db : DB) (value : json) : DB * res unit :=
  match Unmarshal_err (A := fsmMultiPayload) value with
  | Err e => (db, Err e)
  | Ok payload =>
      match validate_entries (mp_Entries payload) with
      | Some e => (db, Err e)
      | None => db_Update db fsmDataBucketName (bucket_required (set_multi_tx (mp_Entries payload)))
      end
  end.

Definition applyBootstrap (db : DB) (value : json) : DB * res unit :=
  match Unmarshal_err (A := fsmBootstrapPayload) value with
  | Err e => (db, Err e)
  | Ok payload => db_Update db fsmDataBucketName (bucket_required (bootstrap_tx payload))
  end.

Definition applySet (db : DB) (key : string) (value : json) : DB * res unit :=
  db_Update db fsmDataBucketName (bucket_required (bk_Put key value)).

Definition applyDelete (db : DB) (key : string) : DB * res unit :=
  db_Update db fsmDataBucketName (fun b =>
    match b with None => Ok None | Some b => res_bind (bk_Delete key b) (fun b' => Ok (Some b')) end).

Definition clearAll (db : DB) : DB * res unit :=
  db_Update db fsmDataBucketName (fun b =>
    match b with None => Ok None | Some b => res_bind (clearBucket b) (fun b' => Ok (Some b')) end).

(** The response of a command: nil is [Ok tt]. *)
Definition FSM_Apply (db : DB) (data : json) : DB * res unit :=
  match Unmarshal_err (A := fsmCommand) data with
  | Err e => (db, Err e)
  | Ok cmd =>
      let key := cmd_Key cmd in
      let value := doc (raw (cmd_Value cmd)) in
      let op := cmd_Op cmd in
      let invalid :=
        if negb (bool_decide (op = "bootstrap")) && negb (bool_decide (op = "set-multi"))
        then validateKey key else None in
      match invalid with
      | Some e => (db, Err e)
      | None =>
          if bool_decide (op = "set") then applySet db key value
          else if bool_decide (op = "set-json") then applySet db key value
          else if bool_decide (op = "set-multi") then applySetMulti db value
          else if bool_decide (op = "delete") then applyDelete db key
          else if bool_decide (op = "create-channel") then applyCreateChannel db key value
          else if bool_decide (op = "create-user") then applyCreateUser db key value
          else if bool_decide (op = "bootstrap") then applyBootstrap db value
          else (db, Err (errorf ("unknown operation: " +:+ op)))
      end
  end.

(** Restore: [rc] is the outcome of reading the snapshot, [None] no data. *)
Definition Restore (db : DB) (rc : res (option json)) : DB * res unit :=
  match rc with
  | Err e => (db, Err e)
  | Ok None => clearAll db
  | Ok (Some data) =>
      match Unmarshal (A := snapshotDoc) data with
      | None => (db, Err (errorf "invalid snapshot data"))
      | Some snapshot =>
          db_Update db fsmDataBucketName (bucket_required (fun b =>
            res_bind (clearBucket b) (put_all (bytes_map (sn_Data snapshot)))))
      end
  end.
End fsm.

(** ** The abstract machine

    What the replicated map promises: a command that is accepted performs a list
    of key writes ([None] deletes), in order, and nothing else; a command that is
    refused changes nothing. *)

Definition fsm_state := string -> option json.
Definition write (m : fsm_state) (w : string * option json) : fsm_state :=
  fun k => if decide (w.1 = k) then w.2 else m k.
Definition writes (m : fsm_state) (ws : list (string * option json)) : fsm_state := fold_left write ws m.

Definition kv_write (e : fsmKV) : string * option json :=
  (kv_Key e, if kv_Delete e then None else Some (doc (bytes_of (kv_Value e)))).

Definition boot_user_writes (u : fsmBootstrapUser) : list (string * option json) :=
  let name := bu_Username u in
  [ ("/users/" +:+ name +:+ "/",
     Some (jenc (mkUser name name (bu_PasswordHash u) [] [] (bu_Roles u) (bu_Channels u))));
    (usernameIndexKey name +:+ "/", Some (usernameIndexValue name)) ].

Definition boot_channel_writes (p : option Channel) : list (string * option json) :=
  match p with None => [] | Some p => [("/channels/" +:+ ch_ID p +:+ "/", Some (jenc p))] end.

Definition bootstrap_writes (p : fsmBootstrapPayload) : list (string * option json) :=
  match bp_Global p with
  | None => []
  | Some g => [("/global/server/", Some (jenc (gc_Server g))); ("/global/defaults/", Some (jenc (gc_Defaults g)))]
  end ++
  (bp_Users p ≫= boot_user_writes) ++ (bp_Channels p ≫= boot_channel_writes) ++
  match bp_InternalAuthEnabled p with
  | None => [] | Some e => [("/global/auth/internal_enabled", Some (jenc e))] end ++
  match bp_OIDCProviders p with
  | [] => [] | l => [("/global/auth/oidc_providers", Some (jenc l))] end.

Definition command_writes (c : fsmCommand) : list (string * option json) :=
  let key := cmd_Key c in
  let value := doc (raw (cmd_Value c)) in
  if decide (cmd_Op c = "delete") then [(key, None)]
  else if decide (cmd_Op c = "set-multi") then
    match Unmarshal (A := fsmMultiPayload) value with Some p => kv_write <$> mp_Entries p | None => [] end
  else if decide (cmd_Op c = "bootstrap") then
    match Unmarshal (A := fsmBootstrapPayload) value with Some p => bootstrap_writes p | None => [] end
  else if decide (cmd_Op c = "create-user") then
    match Unmarshal (A := User) value with
    | Some u => [(key, Some value); (usernameIndexKey (u_Username u) +:+ "/", Some (usernameIndexValue (u_ID u)))]
    | None => []
    end
  else [(key, Some value)].

Lemma writes_app m l1 l2 : writes m (l1 ++ l2) = writes (writes m l1) l2.
Proof. apply fold_left_app. Qed.

Lemma writes_ext m m' l : (forall k, m k = m' k) -> forall k, writes m l k = writes m' l k.
Proof.
  revert m m'. induction l as [|w l IH]; intros m m' H; [done|]. simpl. apply IH.
  intros k. unfold write. by rewrite H.
Qed.

Section refinement.
Context {DB B : Type} `{!Bolt DB B} `{!BoltLaws DB B}.

(** The bucket [b'] holds [b] after the writes. *)
Definition wrote (b b' : B) (ws : list (string * option json)) : Prop :=
  forall k, bk_Get b' k = writes (bk_Get b) ws k.

Lemma wrote_nil b : wrote b b [].
Proof. by intros k. Qed.
Lemma wrote_app b1 b2 b3 l1 l2 : wrote b1 b2 l1 -> wrote b2 b3 l2 -> wrote b1 b3 (l1 ++ l2).
Proof. intros H1 H2 k. rewrite H2, writes_app. by apply writes_ext. Qed.
Lemma wrote_put k v b b' : bk_Put k v b = Ok b' -> wrote b b' [(k, Some v)].
Proof. intros H k'. by rewrite (put_get _ _ _ _ _ H). Qed.
Lemma wrote_delete k b b' : bk_Delete k b = Ok b' -> wrote b b' [(k, None)].
Proof. intros H k'. by rewrite (delete_get _ _ _ _ H). Qed.

Lemma wrote_multi es b b' : set_multi_tx es b = Ok b' -> wrote b b' (kv_write <$> es).
Proof.
  revert b. induction es as [|e es IH]; intros b; simpl; [intros [= ->]; apply wrote_nil|].
  intros (b1 & H1 & H2)%res_bind_Ok. change (?w :: ?l) with ([w] ++ l).
  eapply wrote_app; [|by apply IH]. unfold kv_write.
  destruct (kv_Delete e); [by apply wrote_delete | by apply wrote_put].
Qed.

Lemma wrote_fold {A} (f : A -> B -> res B) (ws : A -> list (string * option json)) l b b' :
  (forall a b b', f a b = Ok b' -> wrote b b' (ws a)) ->
  res_fold f l b = Ok b' -> wrote b b' (l ≫= ws).
Proof.
  intros Hf. revert b. induction l as [|a l IH]; intros b; simpl; [intros [= ->]; apply wrote_nil|].
  intros (b1 & H1 & H2)%res_bind_Ok. change (wrote b b' (ws a ++ (l ≫= ws))). eapply wrote_app; eauto.
Qed.

Lemma wrote_boot_user u b b' : boot_user u b = Ok b' -> wrote b b' (boot_user_writes u).
Proof.
  unfold boot_user. case_bool_decide; [done|]. case_bool_decide; [|done]. case_bool_decide; [done|].
  intros (b1 & Ha & Hb)%res_bind_Ok.
  unfold boot_user_writes. change [?x; ?y] with ([x] ++ [y]).
  eapply wrote_app; by apply wrote_put.
Qed.

Lemma wrote_boot_channel p b b' : boot_channel p b = Ok b' -> wrote b b' (boot_channel_writes p).
Proof. unfold boot_channel, boot_channel_writes. repeat case_match; try done. apply wrote_put. Qed.

Lemma wrote_bootstrap p b b' : bootstrap_tx p b = Ok b' -> bk_Keys b = [] /\ wrote b b' (bootstrap_writes p).
Proof.
  unfold bootstrap_tx, bootstrap_writes. destruct (bk_Keys b); [|done].
  intros (b1 & H1 & H)%res_bind_Ok. apply res_bind_Ok in H as (b2 & H2 & H).
  apply res_bind_Ok in H as (b3 & H3 & H). apply res_bind_Ok in H as (b4 & H4 & H). split; [done|].
  eapply wrote_app; [|eapply wrote_app; [|eapply wrote_app; [|eapply wrote_app]]].
  - unfold boot_global in H1. destruct (bp_Global p) as [g|]; [|injection H1 as ->; apply wrote_nil].
    apply res_bind_Ok in H1 as (b0 & Ha & Hb). change [?x; ?y] with ([x] ++ [y]).
    eapply wrote_app; by apply wrote_put.
  - eapply wrote_fold; [apply wrote_boot_user | done].
  - eapply wrote_fold; [apply wrote_boot_channel | done].
  - destruct (bp_InternalAuthEnabled p); [by apply wrote_put | injection H4 as ->; apply wrote_nil].
  - destruct (bp_OIDCProviders p); [injection H as ->; apply wrote_nil | by apply wrote_put].
Qed.

Lemma wrote_create_user k v b b' :
  create_user_tx k v b = Ok b' ->
  bk_Get b k = None /\ exists u, Unmarshal (A := User) v = Some u /\ u_Username u <> "" /\
    wrote b b' [(k, Some v); (usernameIndexKey (u_Username u) +:+ "/", Some (usernameIndexValue (u_ID u)))].
Proof.
  unfold create_user_tx, Unmarshal_err. destruct (bk_Get b k); [done|].
  intros (b1 & H1 & H)%res_bind_Ok. destruct (Unmarshal v) as [u|]; [|done]. simpl in H.
  case_bool_decide as Hu; [done|]. split; [done|]. exists u. split_and!; [done|done|].
  change [?x; ?y] with ([x] ++ [y]). eapply wrote_app; by apply wrote_put.
Qed.

(** A committed transaction. *)
Lemma db_Update_ok db (name : string) (fn : option B -> res (option B)) db' :
  db_Update db name fn = (db', Ok tt) ->
  (fn (tx_Bucket db name) = Ok None /\ db' = db) \/
  exists b', fn (tx_Bucket db name) = Ok (Some b') /\ tx_Bucket db' name = Some b' /\
    db_begin db' = db_begin db /\ forall m, m <> name -> tx_Bucket db' m = tx_Bucket db m.
Proof.
  unfold db_Update. destruct (db_begin db) eqn:Eb; [done|].
  destruct (fn _) as [[b'|]|]; [|intros [= <-]; by left|done].
  destruct (db_commit _ _ _) as [d|] eqn:Ec; [|done]. intros [= <-]. right. exists b'.
  rewrite (commit_begin _ _ _ _ Ec), (commit_same _ _ _ _ Ec). split_and!; try done.
  intros m Hm. by eapply commit_other.
Qed.

Lemma db_Update_err db (name : string) (fn : option B -> res (option B)) db' e :
  db_Update db name fn = (db', Err e) -> db' = db.
Proof. unfold db_Update. repeat case_match; congruence. Qed.

(** What an accepted transaction on the FSM bucket did. *)
Definition transacted (db db' : DB) (ws : list (string * option json)) : Prop :=
  (forall k, fsm_get db' k = writes (fsm_get db) ws k) /\
  (fsm_ready db -> fsm_ready db') /\
  forall m, m <> fsmDataBucketName -> tx_Bucket db' m = tx_Bucket db m.

Lemma transacted_required db fn db' ws :
  (forall b b', tx_Bucket db fsmDataBucketName = Some b -> fn b = Ok b' -> wrote b b' ws) ->
  db_Update db fsmDataBucketName (bucket_required fn) = (db', Ok tt) -> transacted db db' ws.
Proof.
  intros Hfn [[H _]|(b' & H & Hb & Hbeg & Ho)]%db_Update_ok; unfold bucket_required in H;
    destruct (tx_Bucket db _) as [b|] eqn:E; try done.
  - apply res_bind_Ok in H as (? & _ & [=]).
  - apply res_bind_Ok in H as (b1 & H1 & [= ->]). split_and!; [|intros [? _]; split; [congruence|eauto]|done].
    intros k. unfold fsm_get. rewrite Hb, E. simpl. by apply (Hfn b).
Qed.

Lemma transacted_optional db k db' :
  applyDelete db k = (db', Ok tt) -> fsm_ready db -> transacted db db' [(k, None)].
Proof.
  intros H [Hb [b E]]. unfold applyDelete in H.
  apply db_Update_ok in H as [[H _]|(b' & H & Hb' & Hbeg & Ho)]; rewrite E in H;
    apply res_bind_Ok in H as (b1 & H1 & H2); [done|].
  injection H2 as ->. split_and!; [|intros _; split; [congruence|eauto]|done].
  intros k'. unfold fsm_get. rewrite Hb', E. simpl. by apply (wrote_delete k b b').
Qed.
End refinement.

(** ** Theorems *)

Section theorems.
Context {DB B : Type} `{!Bolt DB B} `{!BoltLaws DB B}.

Lemma FSM_unchanged (db db' : DB) data e : FSM_Apply db data = (db', Err e) -> db' = db.
Proof.
  unfold FSM_Apply. destruct (Unmarshal_err data) as [cmd|]; [|congruence].
  case_match; [congruence|].
  unfold applySet, applySetMulti, applyDelete, applyCreateChannel, applyCreateUser, applyBootstrap.
  repeat (case_match; try congruence); eauto using db_Update_err; congruence.
Qed.

(** A command the machine refuses, whatever the reason, leaves the whole
    database untouched, multi-record commands included. *)
Theorem FSM_Apply_atomic (db db' : DB) data e : FSM_Apply db data = (db', Err e) -> db' = db.
Proof. exact (FSM_unchanged db db' data e). Qed.

Lemma FSM_transacted (db db' : DB) data cmd :
  fsm_ready db -> Unmarshal data = Some cmd -> FSM_Apply db data = (db', Ok tt) ->
  transacted db db' (command_writes cmd).
Proof.
  intros Hr Hc. unfold FSM_Apply, Unmarshal_err, command_writes. rewrite Hc. clear Hc.
  destruct (if _ && _ then _ else _); [done|].
  repeat case_bool_decide; repeat case_decide; try congruence; simplify_eq;
    unfold applySet, applyCreateChannel.
  - apply transacted_required. intros. by apply wrote_put.
  - apply transacted_required. intros. by apply wrote_put.
  - unfold applySetMulti, Unmarshal_err. destruct (Unmarshal _) as [p|]; [|done].
    destruct (validate_entries _); [done|]. apply transacted_required. intros. by apply wrote_multi.
  - intros Hd. by apply transacted_optional.
  - apply transacted_required. unfold create_channel_tx. intros b b' _. case_match; [done|]. apply wrote_put.
  - unfold applyCreateUser. intros Hd. destruct (Unmarshal (A := User) _) as [u|] eqn:Eu.
    + eapply transacted_required; [|exact Hd]. intros b b' _ (_ & u' & Hu & _ & Hw)%wrote_create_user.
      rewrite Eu in Hu. by injection Hu as <-.
    + eapply transacted_required; [|exact Hd]. intros b b' _ (_ & u' & Hu & _)%wrote_create_user. congruence.
  - unfold applyBootstrap, Unmarshal_err. destruct (Unmarshal _) as [p|]; [|done].
    apply transacted_required. intros. by apply wrote_bootstrap.
Qed.

(** C35. Refinement: a command the machine accepts performs exactly the key
    writes of the abstract machine, on the FSM bucket and nowhere else. *)
Theorem FSM_Apply_refines (db db' : DB) data cmd :
  fsm_ready db -> Unmarshal data = Some cmd -> FSM_Apply db data = (db', Ok tt) ->
  transacted db db' (command_writes cmd).
Proof. exact (FSM_transacted db db' data cmd). Qed.

(** Clearing and refilling a bucket. *)
Lemma get_clear_keys ks (b b' : B) k :
  clear_keys ks b = Ok b' -> bk_Get b' k = if decide (k ∈ ks) then None else bk_Get b k.
Proof.
  revert b. induction ks as [|k0 ks IH]; intros b.
  - intros [= ->]. by rewrite decide_False by apply not_elem_of_nil.
  - simpl. intros (b1 & Ha & Hb)%res_bind_Ok. rewrite (IH _ Hb), (delete_get _ _ _ _ Ha).
    clear IH Ha Hb.
    destruct (decide (k ∈ ks)), (decide (k0 = k)); subst;
      [rewrite decide_True; [done|by constructor].. | rewrite decide_False; [done|]].
    by intros [|]%elem_of_cons.
Qed.

Lemma get_clearBucket (b b' : B) k : clearBucket b = Ok b' -> bk_Get b' k = None.
Proof.
  intros Hc. rewrite (get_clear_keys _ _ _ _ Hc). case_decide as Hk; [done|].
  rewrite keys_get in Hk. by apply eq_None_not_Some.
Qed.

Lemma get_put_all kvs (b b' : B) k :
  NoDup kvs.*1 -> put_all kvs b = Ok b' ->
  bk_Get b' k = match list_to_map (M := gmap string json) kvs !! k with Some v => Some v | None => bk_Get b k end.
Proof.
  revert b. induction kvs as [|[k0 v] kvs IH]; intros b Hn.
  - intros [= ->]. simpl. by rewrite lookup_empty.
  - simpl in *. apply NoDup_cons in Hn as [Hni Hn]. intros (b1 & Ha & Hb)%res_bind_Ok.
    rewrite (IH _ Hn Hb), (put_get _ _ _ _ _ Ha). rewrite lookup_insert.
    case_decide; [subst|done]. by rewrite not_elem_of_list_to_map_1.
Qed.

Lemma bk_pairs_elem (b : B) k v : (k, v) ∈ bk_pairs b <-> bk_Get b k = Some v.
Proof.
  unfold bk_pairs. rewrite list_elem_of_omap. split.
  - intros (k' & _ & Hb). destruct (bk_Get b k') eqn:E; [|done]. simpl in Hb. congruence.
  - intros Hg. exists k. rewrite keys_get, Hg. eauto.
Qed.

Lemma bk_pairs_keys (b : B) : (bk_pairs b).*1 = bk_Keys b.
Proof.
  unfold bk_pairs. assert (forall k, k ∈ bk_Keys b -> is_Some (bk_Get b k)) as Hks by (intros ?; apply keys_get).
  induction (bk_Keys b) as [|k ks IH]; [done|]. simpl.
  destruct (Hks k) as [v Hv]; [by left|]. rewrite Hv. simpl. f_equal. apply IH. intros k' ?. apply Hks. by right.
Qed.

Lemma bk_keys_nodup (b : B) : NoDup (bk_Keys b).
Proof.
  pose proof (keys_sorted b) as Hs. induction Hs as [|k ks _ IH Hk]; constructor; [|done].
  intros Hin. by destruct (proj1 (Forall_forall _ _) Hk k Hin).
Qed.

Lemma bytes_map_roundtrip m : Unmarshal (jenc (mkBytesMap m)) = Some (mkBytesMap m).
Proof.
  unfold Unmarshal. cbn. induction m as [|[k v] m IH]; [done|]. cbn.
  destruct (mapM _ _); [|done]. cbn in IH |- *. congruence.
Qed.

Lemma snapshot_roundtrip m :
  Unmarshal (A := snapshotDoc) (JObj [("data", jenc (mkBytesMap m))]) = Some (mkSnapshot (mkBytesMap m)).
Proof.
  pose proof (bytes_map_roundtrip m) as Hm. unfold Unmarshal in *.
  cbn [jdec codec_sn struct_codec jzero dec_fields].
  replace (find_field sn_fields "data") with (Some (fld "data" sn_Data (set_fld sn_Data))) by reflexivity.
  cbn -[codec_bytes_map]. cbn [jzero codec_bytes_map] in Hm. by rewrite Hm.
Qed.

(** Snapshot round trip: restoring, on any node, the document a node
    persisted makes its FSM content the one of that node, whatever was there. *)
Theorem snapshot_restore (db node node' : DB) sink sink' doc' we ce :
  fsm_ready db ->
  Persist db we ce sink = (sink', Ok tt) -> sink_written sink' = Some doc' ->
  Restore node (Ok (Some doc')) = (node', Ok tt) ->
  forall k, fsm_get node' k = fsm_get db k.
Proof.
  intros [Hbeg [b Eb]]. unfold Persist, db_View. rewrite Hbeg, Eb. cbv beta iota.
  destruct we; [done|]. intros [= <- _] [= <-]. unfold Restore.
  change (JObj (prod_map id JBytes <$> bk_pairs b)) with (jenc (mkBytesMap (bk_pairs b))).
  rewrite snapshot_roundtrip. cbn [sn_Data bytes_map].
  intros [[Hn _]|(b' & Hn & Hb' & _ & _)]%db_Update_ok k; unfold bucket_required in Hn;
    destruct (tx_Bucket node _) as [b0|]; try done; apply res_bind_Ok in Hn as (b1 & Hn & [= <-]).
  apply res_bind_Ok in Hn as (bc & Hc & Hp). unfold fsm_get. rewrite Hb', Eb. simpl.
  rewrite (get_put_all _ _ _ k) by (rewrite ?bk_pairs_keys; eauto using bk_keys_nodup).
  destruct (bk_Get b k) as [v|] eqn:Ev.
  - by rewrite (elem_of_list_to_map_1 _ k v) by (rewrite ?bk_pairs_keys; eauto using bk_keys_nodup; by apply bk_pairs_elem).
  - rewrite not_elem_of_list_to_map_1; [by eapply get_clearBucket|].
    rewrite bk_pairs_keys, keys_get, Ev. by intros [? ?].
Qed.
End theorems.

(** A submitted command reads back as it was built. *)
Lemma cmd_roundtrip (cmd : fsmCommand) : Unmarshal (jenc cmd) = Some cmd.
Proof. destruct cmd as [op key [[j|]]]; reflexivity. Qed.

Lemma kv_roundtrip (e : fsmKV) : Unmarshal (jenc e) = Some e.
Proof. destruct e as [key [[j|]] []]; reflexivity. Qed.

Lemma multi_roundtrip es : Unmarshal (jenc (mkMulti es)) = Some (mkMulti es).
Proof.
  assert (mapM (Unmarshal (A := fsmKV)) (jenc <$> es) = Some es) as Hm.
  { apply (mapM_roundtrip jenc Unmarshal), Forall_true. apply kv_roundtrip. }
  transitivity (dec_fields multi_fields [("entries", jenc es)] (mkMulti [])); [reflexivity|].
  cbn [dec_fields].
  replace (find_field multi_fields "entries") with (Some (fld "entries" mp_Entries (set_fld mp_Entries)))
    by reflexivity.
  change (f_dec _ (jenc es) _) with ((fun t => mkMulti t) <$> mapM (Unmarshal (A := fsmKV)) (jenc <$> es)).
  by rewrite Hm.
Qed.

(** ** Witnesses *)

Definition demo_set : fsmCommand := mkCommand "set" "/meta/auth_epoch" (Raw (Some (JNum 4))).
Definition demo_bad : fsmCommand := mkCommand "set" "meta" (Raw (Some (JNum 4))).

Lemma FSM_Apply_atomic_witness :
  let db := db_of {[ "/meta/auth_epoch" := JNum 3 ]} in
  exists e, FSM_Apply db (jenc demo_bad) = (db, Err e) /\ (FSM_Apply db (jenc demo_bad)).1 = db.
Proof.
  intros db. assert (FSM_Apply db (jenc demo_bad) = (db, Err (errorf "invalid key: must start with '/'"))) as H
    by reflexivity.
  eexists. split; [exact H|]. apply (FSM_Apply_atomic db _ (jenc demo_bad) (errorf "invalid key: must start with '/'")).
  exact H.
Defined.

Lemma FSM_Apply_refines_witness :
  let db := db_of {[ "/meta/auth_epoch" := JNum 3 ]} in
  transacted db (FSM_Apply db (jenc demo_set)).1 [("/meta/auth_epoch", Some (JNum 4))].
Proof.
  intros db. apply (FSM_Apply_refines db (FSM_Apply db (jenc demo_set)).1 (jenc demo_set) demo_set).
  - apply db_of_ready.
  - reflexivity.
  - reflexivity.
Defined.

Lemma snapshot_restore_witness :
  let db := db_of {[ "/meta/auth_epoch" := JNum 3 ]} in
  let node := db_of {[ "/stale" := JNull ]} in
  let sink := mkSink None false false in
  exists d, sink_written (Persist db None None sink).1 = Some d /\
    forall k, fsm_get (Restore node (Ok (Some d))).1 k = fsm_get db k.
Proof.
  intros db node sink. eexists. split; [reflexivity|].
  eapply (snapshot_restore db node _ sink (Persist db None None sink).1 _ None None).
  - apply db_of_ready.
  - reflexivity.
  - reflexivity.
  - reflexivity.
Defined.
