(* ===== verification/Crypto.v ===== *)
(** * Crypto: encodings, randomness and cryptographic primitives

    base64 and hex are defined; the primitives of crypto/* and golang.org/x/crypto
    are parameters ([Crypto]) with the documented facts the code relies on
    ([CryptoLaws]); crypto/rand is an oracle.  [toy_crypto] is an instance that
    satisfies the laws, for the witnesses. *)

From S2P Require Import Prelude Json Bolt.

(** ** Bytes of a string *)

Fixpoint str_bytes (s : string) : list Z :=
  match s with EmptyString => [] | String c s' => byte_val c :: str_bytes s' end.

Lemma byte_of_val c : byte_of (byte_val c) = c.
Proof.
  apply byte_val_inj. rewrite byte_val_of. apply Z.mod_small.
  unfold byte_val. pose proof (Ascii.N_ascii_bounded c). lia.
Qed.

Lemma byte_of_is z c : (z mod 256 = byte_val c)%Z -> byte_of z = c.
Proof. intros H. apply byte_val_inj. by rewrite byte_val_of. Qed.

Lemma byte_val_bound c : (0 <= byte_val c < 256)%Z.
Proof. unfold byte_val. pose proof (Ascii.N_ascii_bounded c). lia. Qed.

(** ** base64 *)

(** encoding/base64: [url] selects RawURLEncoding (no padding, '-' and '_')
    instead of StdEncoding. *)
Definition b64_char (url : bool) (n : Z) : ascii :=
  if (n <? 26)%Z then byte_of (65 + n)
  else if (n <? 52)%Z then byte_of (97 + (n - 26))
  else if (n <? 62)%Z then byte_of (48 + (n - 52))
  else if (n =? 62)%Z then (if url then "-"%char else "+"%char)
  else (if url then "_"%char else "/"%char).

Definition b64_val (url : bool) (c : ascii) : option Z :=
  let v := byte_val c in
  if (65 <=? v)%Z && (v <=? 90)%Z then Some (v - 65)%Z
  else if (97 <=? v)%Z && (v <=? 122)%Z then Some (v - 97 + 26)%Z
  else if (48 <=? v)%Z && (v <=? 57)%Z then Some (v - 48 + 52)%Z
  else if bool_decide (c = if url then "-"%char else "+"%char) then Some 62%Z
  else if bool_decide (c = if url then "_"%char else "/"%char) then Some 63%Z
  else None.

Definition pad (url : bool) (n : nat) : string :=
  if url then EmptyString else match n with 1 => "=" | 2 => "==" | _ => EmptyString end.

Fixpoint EncodeToString (url : bool) (s : string) : string :=
  match s with
  | EmptyString => EmptyString
  | String a EmptyString =>
      let n := (byte_val a * 16)%Z in
      String (b64_char url (n / 64)) (String (b64_char url (n mod 64)) (pad url 2))
  | String a (String b EmptyString) =>
      let n := ((byte_val a * 256 + byte_val b) * 4)%Z in
      String (b64_char url (n / 4096)) (String (b64_char url ((n / 64) mod 64))
        (String (b64_char url (n mod 64)) (pad url 1)))
  | String a (String b (String c s')) =>
      let n := (byte_val a * 65536 + byte_val b * 256 + byte_val c)%Z in
      String (b64_char url (n / 262144)) (String (b64_char url ((n / 4096) mod 64))
        (String (b64_char url ((n / 64) mod 64)) (String (b64_char url (n mod 64)) (EncodeToString url s'))))
  end.

(** The decoder skips CR and LF and ignores the trailing bits of a short group. *)
Fixpoint strip_newlines (s : string) : string :=
  match s with
  | EmptyString => EmptyString
  | String c s' => if (byte_val c =? 10)%Z || (byte_val c =? 13)%Z then strip_newlines s' else String c (strip_newlines s')
  end.

Fixpoint b64_groups (url : bool) (s : string) : option string :=
  match s with
  | EmptyString => Some EmptyString
  | String c1 (String c2 r2) =>
      a ← b64_val url c1; b ← b64_val url c2;
      let one := byte_of ((a * 64 + b) / 16) in
      if String.eqb r2 (pad url 2) then Some (String one EmptyString)
      else match r2 with
           | String c3 r3 =>
               c ← b64_val url c3;
               let two := byte_of ((a * 4096 + b * 64 + c) / 4) in
               if String.eqb r3 (pad url 1) then Some (String one (String two EmptyString))
               else match r3 with
                    | String c4 r4 =>
                        d ← b64_val url c4;
                        rest ← b64_groups url r4;
                        Some (String one (String two (String (byte_of (c * 64 + d)) rest)))
                    | EmptyString => None
                    end
           | EmptyString => None
           end
  | String _ EmptyString => None
  end.

Definition DecodeString (url : bool) (s : string) : option string := b64_groups url (strip_newlines s).

(** Every sextet has a character, and the character is neither padding nor a
    newline. *)
Lemma sextet_cases (P : Z -> Prop) :
  (forall i, i ∈ Z.of_nat <$> seq 0 64 -> P i) -> forall n, (0 <= n < 64)%Z -> P n.
Proof.
  intros H n Hn. apply H, list_elem_of_fmap. exists (Z.to_nat n).
  rewrite Z2Nat.id by lia. split; [done|]. apply elem_of_seq. lia.
Qed.

Definition sextet_ok (url : bool) (n : Z) : bool :=
  bool_decide (b64_val url (b64_char url n) = Some n) &&
  negb (bool_decide (b64_char url n = "="%char)) &&
  negb ((byte_val (b64_char url n) =? 10)%Z || (byte_val (b64_char url n) =? 13)%Z) &&
  (byte_val (b64_char url n) <? 128)%Z && negb (bool_decide (b64_char url n = "."%char)).

Lemma sextet_good url n : (0 <= n < 64)%Z -> sextet_ok url n = true.
Proof.
  revert n. apply sextet_cases. apply Forall_forall.
  apply (bool_decide_unpack (Forall (fun i => sextet_ok url i = true) _)). by destruct url; vm_compute.
Qed.

Lemma b64_val_char url n : (0 <= n < 64)%Z -> b64_val url (b64_char url n) = Some n.
Proof. intros H%(sextet_good url). unfold sextet_ok in H. gobool. tauto. Qed.

Lemma b64_char_not_pad url n : (0 <= n < 64)%Z -> b64_char url n <> "="%char.
Proof. intros H%(sextet_good url). unfold sextet_ok in H. gobool. tauto. Qed.

Lemma strip_sextet url n s :
  (0 <= n < 64)%Z -> strip_newlines (String (b64_char url n) s) = String (b64_char url n) (strip_newlines s).
Proof.
  intros H%(sextet_good url). unfold sextet_ok in H. rewrite !andb_true_iff, !negb_true_iff in H.
  destruct H as [[[_ H] _] _]. cbn [strip_newlines]. by rewrite H.
Qed.

Lemma three_ind (P : string -> Prop) :
  P EmptyString -> (forall a, P (String a EmptyString)) -> (forall a b, P (String a (String b EmptyString))) ->
  (forall a b c s, P s -> P (String a (String b (String c s)))) -> forall s, P s.
Proof.
  intros H0 H1 H2 H3. fix IH 1. intros [|a [|b [|c s]]]; [done..|]. apply H3, IH.
Qed.

Ltac sextets := repeat rewrite strip_sextet by dlia; repeat rewrite b64_val_char by dlia.

Lemma eqb_cons_ne c d s t : c <> d -> String.eqb (String c s) (String d t) = false.
Proof. intros H. apply String.eqb_neq. congruence. Qed.

Lemma not_pad url n s k : (0 <= n < 64)%Z -> (k = 1 \/ k = 2)%nat -> String.eqb (String (b64_char url n) s) (pad url k) = false.
Proof.
  intros Hn Hk. unfold pad. destruct url; [done|].
  destruct Hk as [-> | ->]; apply eqb_cons_ne, b64_char_not_pad, Hn.
Qed.

Lemma base64_roundtrip url s : DecodeString url (EncodeToString url s) = Some s.
Proof.
  unfold DecodeString. induction s as [|a|a b|a b c s IH] using three_ind; [done|..].
  - cbn [EncodeToString]. pose proof (byte_val_bound a). sextets.
    replace (strip_newlines (pad url 2)) with (pad url 2) by by destruct url.
    cbn [b64_groups]. sextets. cbn [mbind option_bind].
    rewrite String.eqb_refl.
    by rewrite (byte_of_is _ a) by dlia.
  - cbn [EncodeToString]. pose proof (byte_val_bound a). pose proof (byte_val_bound b). sextets.
    replace (strip_newlines (pad url 1)) with (pad url 1) by by destruct url.
    cbn [b64_groups]. sextets. cbn [mbind option_bind].
    rewrite not_pad by dlia. sextets. cbn [mbind option_bind]. rewrite String.eqb_refl.
    by rewrite (byte_of_is _ a), (byte_of_is _ b) by dlia.
  - cbn [EncodeToString]. pose proof (byte_val_bound a). pose proof (byte_val_bound b). pose proof (byte_val_bound c).
    sextets. cbn [b64_groups]. sextets. cbn [mbind option_bind].
    rewrite not_pad by dlia. sextets. cbn [mbind option_bind].
    rewrite not_pad by dlia. sextets. cbn [mbind option_bind]. rewrite IH. cbn.
    by rewrite (byte_of_is _ a), (byte_of_is _ b), (byte_of_is _ c) by dlia.
Qed.

(** ** hex *)

Definition hex_digit (n : Z) : ascii := if (n <? 10)%Z then byte_of (48 + n) else byte_of (87 + n).

(** [%x] of a byte slice, hex.EncodeToString. *)
Fixpoint hex_encode (s : string) : string :=
  match s with
  | EmptyString => EmptyString
  | String c s' => String (hex_digit (byte_val c / 16)) (String (hex_digit (byte_val c mod 16)) (hex_encode s'))
  end.

Definition hex_val (c : ascii) : option Z :=
  let v := byte_val c in
  if (48 <=? v)%Z && (v <=? 57)%Z then Some (v - 48)%Z
  else if (97 <=? v)%Z && (v <=? 102)%Z then Some (v - 87)%Z
  else if (65 <=? v)%Z && (v <=? 70)%Z then Some (v - 55)%Z
  else None.

(** hex.DecodeString *)
Fixpoint hex_decode (s : string) : option string :=
  match s with
  | EmptyString => Some EmptyString
  | String a (String b s') =>
      x ← hex_val a; y ← hex_val b; r ← hex_decode s'; Some (String (byte_of (x * 16 + y)) r)
  | String _ EmptyString => None
  end.

Lemma hex_val_digit n : (0 <= n < 16)%Z -> hex_val (hex_digit n) = Some n.
Proof.
  intros H. assert (forall i, i ∈ Z.of_nat <$> seq 0 64 -> (i < 16)%Z -> hex_val (hex_digit i) = Some i) as Hall.
  { apply (proj1 (Forall_forall (fun i => (i < 16)%Z -> hex_val (hex_digit i) = Some i) _)). apply (bool_decide_unpack (Forall _ _)). by vm_compute. }
  apply (Hall n); [|lia]. apply list_elem_of_fmap. exists (Z.to_nat n).
  rewrite Z2Nat.id by lia. split; [done|]. apply elem_of_seq. lia.
Qed.

Lemma hex_roundtrip s : hex_decode (hex_encode s) = Some s.
Proof.
  induction s as [|c s IH]; [done|]. cbn [hex_encode hex_decode]. pose proof (byte_val_bound c).
  rewrite !hex_val_digit by dlia. cbn [mbind option_bind]. rewrite IH. cbn.
  by rewrite (byte_of_is _ c) by dlia.
Qed.

Lemma length_hex s : String.length (hex_encode s) = 2 * String.length s.
Proof. induction s as [|c s IH]; [done|]. cbn [hex_encode String.length]. rewrite IH. lia. Qed.

(** ** crypto/rand *)

(** [rnd_src pos n] is the [pos]-th answer of rand.Read for [n] bytes. *)
Record Rand := mkRand { rnd_src : nat -> nat -> option string; rnd_pos : nat }.
#[export] Instance eta_rand : Eta Rand := fun r => mkRand (rnd_src r) (rnd_pos r).

Definition rand_error : goerr := errorf "crypto/rand: read failed".

Definition rand_Read (n : nat) (r : Rand) : Rand * res string :=
  (r <| rnd_pos := S (rnd_pos r) |>,
   match rnd_src r (rnd_pos r) n with Some s => Ok s | None => Err rand_error end).

(** A successful read fills the slice. *)
Definition rand_fills (r : Rand) : Prop := forall p n s, rnd_src r p n = Some s -> String.length s = n.

Lemma rand_Read_fills n r : rand_fills r ->
  rand_fills (rand_Read n r).1 /\ forall s, (rand_Read n r).2 = Ok s -> String.length s = n.
Proof.
  intros H. split; [exact H|]. unfold rand_Read. intros s Hs. simpl in Hs.
  destruct (rnd_src r (rnd_pos r) n) eqn:E; [|done]. injection Hs as <-. by eapply H.
Qed.

Fixpoint set_byte (i : nat) (f : Z -> Z) (s : string) : string :=
  match i, s with
  | O, String c s' => String (byte_of (f (byte_val c))) s'
  | S i', String c s' => String c (set_byte i' f s')
  | _, EmptyString => EmptyString
  end.

(** The text of 16 bytes as a version 4 UUID. *)
Definition uuid_text (b : string) : string :=
  let b := set_byte 6 (fun x => Z.lor (Z.land x 15) 64) b in
  let b := set_byte 8 (fun x => Z.lor (Z.land x 63) 128) b in
  let x i j := hex_encode (take_str (j - i) (drop_str i b)) in
  x 0 4 +:+ "-" +:+ x 4 6 +:+ "-" +:+ x 6 8 +:+ "-" +:+ x 8 10 +:+ "-" +:+ hex_encode (drop_str 10 b).

Definition GenerateUUID (r : Rand) : Rand * res string :=
  let (r, b) := rand_Read 16 r in
  (r, match b with Ok b => Ok (uuid_text b) | Err e => Err (errorf ("generate uuid: " +:+ err_msg e)) end).

(** MustGenerateUUID panics when the entropy source fails. *)
Definition MustGenerateUUID (r : Rand) : Rand * res string :=
  let (r, id) := GenerateUUID r in
  (r, match id with Ok id => Ok id | Err e => Err (mkErr KPanic ("uuid: crypto/rand failed: " +:+ err_msg e)) end).

(** ** JSON text *)

(** encoding/json's text of a document; the code only relies on a printed
    document reading back, which holds for documents of ASCII strings. *)
Class JsonText := { js_text : json -> string; js_parse : string -> option json }.

Definition ascii_str (s : string) : bool := all_str (fun c => (byte_val c <? 128)%Z) s.

(** base64 text is ASCII and has no dot. *)
Definition b64_safe (c : ascii) : bool := (byte_val c <? 128)%Z && negb (bool_decide (c = "."%char)).

Lemma b64_char_safe url n : (0 <= n < 64)%Z -> b64_safe (b64_char url n) = true.
Proof. intros H%(sextet_good url). unfold sextet_ok in H. unfold b64_safe. rewrite !andb_true_iff in *. tauto. Qed.

Lemma EncodeToString_safe url s : all_str b64_safe (EncodeToString url s) = true.
Proof.
  assert (forall k, all_str b64_safe (pad url k) = true) as Hpad by (intros [|[|[|?]]]; by destruct url).
  induction s as [|a|a b|a b c s IH] using three_ind; [done|..]; cbn [EncodeToString all_str].
  - pose proof (byte_val_bound a). rewrite !b64_char_safe by dlia. apply Hpad.
  - pose proof (byte_val_bound a). pose proof (byte_val_bound b). rewrite !b64_char_safe by dlia. apply Hpad.
  - pose proof (byte_val_bound a). pose proof (byte_val_bound b). pose proof (byte_val_bound c).
    rewrite !b64_char_safe by dlia. exact IH.
Qed.

Lemma all_str_impl p q s : (forall c, p c = true -> q c = true) -> all_str p s = true -> all_str q s = true.
Proof. intros H. induction s as [|c s IH]; [done|]. simpl. rewrite !andb_true_iff. naive_solver. Qed.

Lemma EncodeToString_ascii url s : ascii_str (EncodeToString url s) = true.
Proof.
  eapply all_str_impl; [|apply EncodeToString_safe]. unfold b64_safe. intros c. rewrite andb_true_iff. tauto.
Qed.

Lemma EncodeToString_no_dot url s : elem_str "." (EncodeToString url s) = false.
Proof.
  pose proof (EncodeToString_safe url s) as H. induction (EncodeToString url s) as [|c t IH]; [done|].
  simpl in *. apply andb_true_iff in H as [Hc Ht]. unfold b64_safe in Hc. rewrite IH by done.
  apply andb_true_iff in Hc as [_ Hc]. rewrite negb_true_iff, bool_decide_eq_false in Hc.
  rewrite bool_decide_false by congruence. done.
Qed.

Lemma EncodeToString_nonempty url s : s <> "" -> EncodeToString url s <> "".
Proof. destruct s as [|a [|b [|c s]]]; done. Qed.

#[global] Arguments EncodeToString : simpl never.
#[global] Arguments DecodeString : simpl never.


Fixpoint js_plain (j : json) : bool :=
  match j with
  | JNull | JBool _ | JNum _ => true
  | JStr s => ascii_str s
  | JArr l => forallb js_plain l
  | JObj kvs => forallb (fun kv => ascii_str kv.1 && js_plain kv.2) kvs
  | JTime _ | JBytes _ | JBad => false
  end.

Class JsonTextLaws `{JsonText} := {
  parse_text : forall j, js_plain j = true -> js_parse (js_text j) = Some j;
  text_not_empty : forall j, js_text j <> ""
}.

(** A textual codec of whole trees, for the witnesses: a document is the binary
    digits of its [Countable] code. *)
Fixpoint to_tree (j : json) : gen_tree (string + Z) :=
  match j with
  | JNull => GenNode 0 []
  | JBool b => GenNode (if b then 2 else 1) []
  | JNum z => GenLeaf (inr z)
  | JStr s => GenLeaf (inl s)
  | JTime t => GenNode 3 [GenLeaf (inr t)]
  | JBytes j => GenNode 4 [to_tree j]
  | JBad => GenNode 5 []
  | JArr l => GenNode 6 (map to_tree l)
  | JObj kvs => GenNode 7 (map (fun kv => GenNode 8 [GenLeaf (inl kv.1); to_tree kv.2]) kvs)
  end.

Fixpoint of_tree (t : gen_tree (string + Z)) : json :=
  match t with
  | GenLeaf (inl s) => JStr s
  | GenLeaf (inr z) => JNum z
  | GenNode 1 _ => JBool false
  | GenNode 2 _ => JBool true
  | GenNode 3 [GenLeaf (inr t)] => JTime t
  | GenNode 4 [t] => JBytes (of_tree t)
  | GenNode 5 _ => JBad
  | GenNode 6 l => JArr (map of_tree l)
  | GenNode 7 l =>
      JObj (map (fun t => match t with GenNode _ [GenLeaf (inl k); v] => (k, of_tree v) | _ => (EmptyString, JNull) end) l)
  | _ => JNull
  end.

Lemma json_nested_ind (P : json -> Prop) :
  P JNull -> (forall b, P (JBool b)) -> (forall z, P (JNum z)) -> (forall s, P (JStr s)) ->
  (forall t, P (JTime t)) -> (forall j, P j -> P (JBytes j)) -> P JBad ->
  (forall l, Forall P l -> P (JArr l)) -> (forall kvs, Forall (fun kv => P kv.2) kvs -> P (JObj kvs)) ->
  forall j, P j.
Proof.
  intros Hn Hb Hz Hs Ht Hy Hd Ha Ho. fix IH 1. intros [|b|z|s|t|j| |l|kvs];
    [exact Hn | apply Hb | apply Hz | apply Hs | apply Ht | apply Hy, IH | exact Hd | |].
  - apply Ha. induction l as [|j l IHl]; constructor; [apply IH | apply IHl].
  - apply Ho. induction kvs as [|[k j] l IHl]; constructor; [apply IH | apply IHl].
Qed.

Lemma of_to_tree j : of_tree (to_tree j) = j.
Proof.
  induction j as [| [] | | | | j IH | | l IH | kvs IH] using json_nested_ind; try done; simpl.
  - by rewrite IH.
  - f_equal. induction IH as [|j l Hj _ IHl]; [done|]. simpl. congruence.
  - f_equal. induction IH as [|[k j] l Hj _ IHl]; [done|]. simpl in *. congruence.
Qed.

Fixpoint pos_text (p : positive) : string :=
  match p with xH => EmptyString | xO p => String "0" (pos_text p) | xI p => String "1" (pos_text p) end.
Fixpoint text_pos (s : string) : option positive :=
  match s with
  | EmptyString => Some xH
  | String c s' =>
      p ← text_pos s';
      if bool_decide (c = "0"%char) then Some (xO p) else if bool_decide (c = "1"%char) then Some (xI p) else None
  end.

Lemma text_pos_text p : text_pos (pos_text p) = Some p.
Proof. induction p as [p IH|p IH|]; simpl; [by rewrite IH..|done]. Qed.

(** The leading quote keeps ordinary strings from reading as documents. *)
#[export] Instance toy_text : JsonText := {|
  js_text j := String "{" (pos_text (encode (to_tree j)));
  js_parse s :=
    match s with
    | String "{" s => p ← text_pos s; of_tree <$> decode p
    | _ => None
    end
|}.

#[export] Instance toy_text_laws : JsonTextLaws.
Proof.
  split; [|done]. intros j _. simpl. rewrite text_pos_text. 
  change (of_tree <$> decode (encode (to_tree j)) = Some j). rewrite decode_encode.
  exact (f_equal Some (of_to_tree j)).
Qed.

(** ** Primitives *)

(** AES-256-GCM, SHA-256, HMAC-SHA256, HKDF-SHA256 and bcrypt. *)
Class Crypto := {
  gcm_Seal : string -> string -> string -> string -> string;            (* key nonce plain aad *)
  gcm_Open : string -> string -> string -> string -> option string;     (* key nonce ct aad *)
  sha256 : string -> string;
  hmac_sha256 : string -> string -> string;                             (* key message *)
  hkdf_sha256 : string -> string -> string -> nat -> string;            (* secret salt info length *)
  bcrypt_hash : string -> string -> res string;                         (* salt password *)
  bcrypt_compare : string -> string -> bool                             (* hash password *)
}.

Class CryptoLaws `{Crypto} := {
  seal_not_empty : forall key nonce plain aad, key <> "" -> gcm_Seal key nonce plain aad <> "";
  open_seal : forall key nonce plain aad, gcm_Open key nonce (gcm_Seal key nonce plain aad) aad = Some plain;
  bcrypt_ok : forall salt pw h, bcrypt_hash salt pw = Ok h -> bcrypt_compare h pw = true
}.

(** A transparent instance: every primitive concatenates its inputs. *)
#[export] Instance toy_crypto : Crypto := {|
  gcm_Seal key nonce plain aad := key +:+ nonce +:+ aad +:+ plain;
  gcm_Open key nonce ct aad :=
    let h := key +:+ nonce +:+ aad in if HasPrefix ct h then Some (TrimPrefix ct h) else None;
  sha256 s := "sha:" +:+ s;
  hmac_sha256 k m := k +:+ ":" +:+ m;
  hkdf_sha256 s salt info n := take_str n (s +:+ salt +:+ info);
  bcrypt_hash salt pw := Ok ("$2a$" +:+ pw);
  bcrypt_compare h pw := bool_decide (h = "$2a$" +:+ pw)
|}.

#[export] Instance toy_crypto_laws : CryptoLaws.
Proof.
  split; simpl.
  - intros [|c key] nonce plain aad Hk; [done|]. discriminate.
  - intros key nonce plain aad. unfold HasPrefix.
    replace (key +:+ nonce +:+ aad +:+ plain) with ((key +:+ nonce +:+ aad) +:+ plain) by by rewrite !str_app_assoc.
    by rewrite prefix_app, TrimPrefix_app.
  - intros salt pw h [= <-]. by apply bool_decide_eq_true.
Qed.
