(* ===== verification/Store.v ===== *)
(** * Store: internal/repository/cryptokeeper.go, raft.go and migrate.go

    At-rest sealing of the sensitive strings, the raft submission path and the
    repository operations of [RaftStore].  The raft library is third-party: it is
    the oracle [RaftEnv] that says, for each submission, whether this node leads
    and what became of the entry. *)

From S2P Require Import Prelude Json Domain Bolt Fsm Crypto.

(** ** cryptokeeper.go *)

Definition atRestContext : string := "gohookbridge.at-rest.v1".

Record EncryptedValue := mkEV {
  ev_KID : string; ev_Alg : string; ev_Ver : Z; ev_Non : string; ev_Ctx : string; ev_Ct : string }.
#[export] Instance eta_ev : Eta EncryptedValue := fun x =>
  mkEV (ev_KID x) (ev_Alg x) (ev_Ver x) (ev_Non x) (ev_Ctx x) (ev_Ct x).
Definition ev_fields : list (field EncryptedValue) := [
  fld "kid" ev_KID (set_fld ev_KID);
  fld "alg" ev_Alg (set_fld ev_Alg);
  fld "ver" ev_Ver (set_fld ev_Ver);
  fld "non" ev_Non (set_fld ev_Non);
  fld "ctx" ev_Ctx (set_fld ev_Ctx);
  fld "ct" ev_Ct (set_fld ev_Ct) ].
#[export] Instance codec_ev : JsonCodec EncryptedValue := struct_codec (mkEV "" "" 0 "" "" "") ev_fields.

Record CryptoKeeper := mkKeeper { ck_keys : gmap string string; ck_primary : string }.

Record cryptoKeyFile := mkKeyFile { kf_Primary : string; kf_Keys : list (string * string) }.

(** The loop of LoadCryptoKeeper over the parsed keys. *)
Fixpoint decode_keys (l : list (string * string)) (keys : gmap string string) : res (gmap string string) :=
  match l with
  | [] => Ok keys
  | (kid, b64) :: l' =>
      match DecodeString false b64 with
      | None => Err (errorf ("decode key " +:+ kid))
      | Some key =>
          if negb (String.length key =? 32)%nat then Err (errorf ("key must be 32 bytes: " +:+ kid))
          else decode_keys l' (<[kid := key]> keys)
      end
  end.

(** LoadCryptoKeeper on the parsed key file ([Err] when it cannot be read or parsed). *)
Definition LoadCryptoKeeper (file : res cryptoKeyFile) : res CryptoKeeper :=
  match file with
  | Err e => Err e
  | Ok parsed =>
      if bool_decide (kf_Primary parsed = "") || bool_decide (kf_Keys parsed = [])
      then Err (errorf "at-rest key file must define primary and keys")
      else res_bind (decode_keys (kf_Keys parsed) ∅) (fun keys =>
           match keys !! kf_Primary parsed with
           | None => Err (errorf "primary key not present in keys")
           | Some _ => Ok (mkKeeper keys (kf_Primary parsed))
           end)
  end.

(** aes.NewCipher accepts 16, 24 or 32 byte keys. *)
Definition aes_key_ok (key : string) : bool :=
  let n := String.length key in (n =? 16)%nat || (n =? 24)%nat || (n =? 32)%nat.

Section keeper.
Context `{!Crypto}.

Definition Encrypt (k : CryptoKeeper) (r : Rand) (plain : string) : Rand * res EncryptedValue :=
  match ck_keys k !! ck_primary k with
  | None => (r, Err (errorf "primary at-rest key missing"))
  | Some key =>
      if negb (aes_key_ok key) then (r, Err (errorf "crypto/aes: invalid key size"))
      else
        let (r, nonce) := rand_Read 12 r in
        (r, res_bind nonce (fun nonce =>
             let ct := gcm_Seal key nonce plain atRestContext in
             Ok (mkEV (ck_primary k) "A256GCM" 1 (EncodeToString false nonce)
                   (EncodeToString false atRestContext) (EncodeToString false ct))))
  end.

(** gcm.Open panics on a nonce whose length is not 12. *)
Definition Decrypt (k : CryptoKeeper) (ev : EncryptedValue) : res string :=
  if negb (bool_decide (ev_Alg ev = "A256GCM")) || negb (bool_decide (ev_Ver ev = 1%Z))
  then Err (errorf "unsupported at-rest envelope")
  else match ck_keys k !! ev_KID ev with
  | None => Err (errorf "unknown at-rest key")
  | Some key =>
  match DecodeString false (ev_Non ev) with
  | None => Err (errorf "decode nonce")
  | Some nonce =>
  match DecodeString false (ev_Ct ev) with
  | None => Err (errorf "decode ciphertext")
  | Some ct =>
  match DecodeString false (ev_Ctx ev) with
  | None => Err (errorf "decode context")
  | Some ctx =>
      if negb (aes_key_ok key) then Err (errorf "crypto/aes: invalid key size")
      else if negb (String.length nonce =? 12)%nat
      then Err (mkErr KPanic "crypto/cipher: incorrect nonce length given to GCM")
      else match gcm_Open key nonce ct ctx with
           | None => Err (errorf "decrypt at-rest value")
           | Some plain => Ok plain
           end
  end end end end.

(** ** Sealing of stored strings (raft.go) *)

Context `{!JsonText}.

Definition sealString (keeper : option CryptoKeeper) (r : Rand) (plain : string) : Rand * res string :=
  match keeper with
  | None => (r, Ok plain)
  | Some k =>
      if bool_decide (plain = "") then (r, Ok plain)
      else let (r, ev) := Encrypt k r plain in (r, res_bind ev (fun ev => Ok (js_text (jenc ev))))
  end.

Definition openString (keeper : option CryptoKeeper) (stored : string) : res string :=
  match keeper with
  | None => Ok stored
  | Some k =>
      if bool_decide (stored = "") then Ok stored
      else match j ← js_parse stored; Unmarshal (A := EncryptedValue) j with
           | None => Ok stored
           | Some ev =>
               if bool_decide (ev_Alg ev = "") || bool_decide (ev_Ct ev = "") then Ok stored
               else Decrypt k ev
           end
  end.

(** [for i := range sigs { sigs[i], err = seal(sigs[i]) }]: the slice is updated in
    place, so a failure leaves the sealed prefix, an empty string and the rest. *)
Fixpoint seal_sigs (keeper : option CryptoKeeper) (r : Rand) (sigs : list string)
  : Rand * list string * res unit :=
  match sigs with
  | [] => (r, [], Ok tt)
  | s :: sigs' =>
      let '(r, x) := sealString keeper r s in
      match x with
      | Err e => (r, "" :: sigs', Err e)
      | Ok s' => let '(r, sigs'', x) := seal_sigs keeper r sigs' in (r, s' :: sigs'', x)
      end
  end.

(** sealChannel(&sealed): the channel after the call, partial on an error. *)
Definition sealChannel (keeper : option CryptoKeeper) (r : Rand) (p : Channel) : Rand * Channel * res unit :=
  match keeper with
  | None => (r, p, Ok tt)
  | Some _ =>
      let '(r, x) := sealString keeper r (ch_WebhookSecret p) in
      match x with Err e => (r, p <| ch_WebhookSecret := "" |>, Err e) | Ok s =>
      let p := p <| ch_WebhookSecret := s |> in
      let '(r, x) := sealString keeper r (ch_EncryptionKey p) in
      match x with Err e => (r, p <| ch_EncryptionKey := "" |>, Err e) | Ok s =>
      let p := p <| ch_EncryptionKey := s |> in
      let '(r, x) := sealString keeper r (ch_EncryptionPrivateKey p) in
      match x with Err e => (r, p <| ch_EncryptionPrivateKey := "" |>, Err e) | Ok s =>
      let p := p <| ch_EncryptionPrivateKey := s |> in
      let '(r, sigs, x) := seal_sigs keeper r (ch_WebhookSignatures p) in
      (r, p <| ch_WebhookSignatures := sigs |>, x)
      end end end
  end.

Definition openChannel (keeper : option CryptoKeeper) (p : Channel) : res Channel :=
  match keeper with
  | None => Ok p
  | Some _ =>
      res_bind (openString keeper (ch_WebhookSecret p)) (fun s =>
      res_bind (openString keeper (ch_EncryptionKey p)) (fun key =>
      res_bind (openString keeper (ch_EncryptionPrivateKey p)) (fun priv =>
      res_bind (res_map (openString keeper) (ch_WebhookSignatures p)) (fun sigs =>
      Ok (p <| ch_WebhookSecret := s |> <| ch_EncryptionKey := key |>
            <| ch_EncryptionPrivateKey := priv |> <| ch_WebhookSignatures := sigs |>)))))
  end.

Definition set_session_secret (s : string) (cfg : GlobalConfig) : GlobalConfig :=
  cfg <| gc_Server := (gc_Server cfg) <| sc_SessionSecret := s |> |>.
Definition set_default_secret (s : string) (cfg : GlobalConfig) : GlobalConfig :=
  cfg <| gc_Defaults := (gc_Defaults cfg) <| dc_WebhookSecret := s |> |>.

Definition sealConfig (keeper : option CryptoKeeper) (r : Rand) (cfg : GlobalConfig) : Rand * res GlobalConfig :=
  match keeper with
  | None => (r, Ok cfg)
  | Some _ =>
      let '(r, x) := sealString keeper r (sc_SessionSecret (gc_Server cfg)) in
      match x with
      | Err e => (r, Err e)
      | Ok s =>
          let '(r, y) := sealString keeper r (dc_WebhookSecret (gc_Defaults cfg)) in
          (r, res_bind y (fun w => Ok (set_default_secret w (set_session_secret s cfg))))
      end
  end.

Definition openConfig (keeper : option CryptoKeeper) (cfg : GlobalConfig) : res GlobalConfig :=
  match keeper with
  | None => Ok cfg
  | Some _ =>
      res_bind (openString keeper (sc_SessionSecret (gc_Server cfg))) (fun s =>
      res_bind (openString keeper (dc_WebhookSecret (gc_Defaults cfg))) (fun w =>
      Ok (set_default_secret w (set_session_secret s cfg))))
  end.
End keeper.

(** ** The store and the raft submission path *)

(** What becomes of a submitted entry: applied and acknowledged, lost, or
    applied although the leader answered an error (leadership lost in between). *)
Inductive fate := Committed | Lost (e : goerr) | CommittedUnknown (e : goerr).

Record RaftEnv := mkRaft { rf_leader : nat -> bool; rf_fate : nat -> fate; rf_pos : nat }.
#[export] Instance eta_raft : Eta RaftEnv := fun x => mkRaft (rf_leader x) (rf_fate x) (rf_pos x).

Record RaftStore (DB : Type) := mkStore {
  rs_db : DB; rs_keeper : option CryptoKeeper; rs_rand : Rand; rs_raft : RaftEnv }.
Arguments mkStore {DB}. Arguments rs_db {DB}. Arguments rs_keeper {DB}.
Arguments rs_rand {DB}. Arguments rs_raft {DB}.
#[export] Instance eta_store {DB} : Eta (RaftStore DB) := fun x =>
  mkStore (rs_db x) (rs_keeper x) (rs_rand x) (rs_raft x).

Definition not_leader : goerr := errorf "not the leader".

Section store.
Context {DB B : Type} `{!Bolt DB B} `{!Crypto} `{!JsonText}.
Abbreviation Store := (RaftStore DB).

Definition IsLeader (rs : Store) : bool := rf_leader (rs_raft rs) (rf_pos (rs_raft rs)).

Definition tick (rs : Store) : Store :=
  rs <| rs_raft := (rs_raft rs) <| rf_pos := S (rf_pos (rs_raft rs)) |> |>.

(** RaftStore.Apply: [Ok r] is the FSM's response [r]. *)
Definition Apply (cmd : json) (rs : Store) : Store * res (res unit) :=
  if negb (IsLeader rs) then (tick rs, Err not_leader)
  else
    let (db', resp) := FSM_Apply (rs_db rs) cmd in
    match rf_fate (rs_raft rs) (rf_pos (rs_raft rs)) with
    | Committed => (tick rs <| rs_db := db' |>, Ok resp)
    | Lost e => (tick rs, Err e)
    | CommittedUnknown e => (tick rs <| rs_db := db' |>, Err e)
    end.

(** applyResponse after Apply: the error of either. *)
Definition submit (cmd : fsmCommand) (rs : Store) : Store * res unit :=
  let (rs, x) := Apply (jenc cmd) rs in (rs, res_bind x (fun resp => resp)).

Definition applyMulti (entries : list fsmKV) (rs : Store) : Store * res unit :=
  submit (mkCommand "set-multi" "" (Raw (Some (jenc (mkMulti entries))))) rs.

Definition applyCommand (op key : string) (value : option json) (rs : Store) : Store * res unit :=
  submit (mkCommand op key (Raw value)) rs.

Definition HasData (rs : Store) : res bool :=
  res_bind (listFSMKeys (rs_db rs) "/") (fun keys => Ok (0 <? length keys)%nat).

(** ** Channels *)

Definition channel_key (id : string) : string := "/channels/" +:+ id +:+ "/".

Definition GetChannel (id : string) (rs : Store) : res Channel :=
  if bool_decide (id = "") then Err (mkErr KInvalidArgument "channel ID required")
  else res_bind (getFSMValue (rs_db rs) (channel_key id)) (fun val =>
    match val with
    | None => Err (mkErr KNotFound ("channel " +:+ id))
    | Some val => res_bind (Unmarshal_err (A := Channel) val) (openChannel (rs_keeper rs))
    end).

(** strings.Split(strings.TrimPrefix(key, prefix), "/")[0] *)
Definition first_part (prefix key : string) : string :=
  match Split (TrimPrefix key prefix) "/" with p :: _ => p | [] => "" end.

Fixpoint list_channels (rs : Store) (keys : list string) (seen : gset string) : res (list Channel) :=
  match keys with
  | [] => Ok []
  | key :: keys' =>
      let id := first_part "/channels/" key in
      if bool_decide (id = "") then list_channels rs keys' seen
      else if bool_decide (id ∈ seen) then list_channels rs keys' seen
      else
        let seen := {[ id ]} ∪ seen in
        res_bind (getFSMValue (rs_db rs) (channel_key id)) (fun val =>
        match val with
        | None => list_channels rs keys' seen
        | Some val =>
            match Unmarshal (A := Channel) val with
            | None => Err (errorf ("unmarshal channel " +:+ id))
            | Some ch =>
                res_bind (openChannel (rs_keeper rs) ch) (fun ch =>
                res_bind (list_channels rs keys' seen) (fun l => Ok (MigrateChannel ch :: l)))
            end
        end)
  end.

Definition ListChannels (rs : Store) : res (list Channel) :=
  res_bind (listFSMKeys (rs_db rs) "/channels/") (fun keys => list_channels rs keys ∅).

(** CreateChannel and UpdateChannel seal a shallow copy of the caller's channel:
    the slice WebhookSignatures is shared, so the caller sees it sealed.  The
    middle component is the caller's channel after the call. *)
Definition write_channel (op : string) (p : Channel) (rs : Store) : Store * Channel * res unit :=
  if bool_decide (ch_ID p = "") then (rs, p, Err (mkErr KInvalidArgument "channel ID required"))
  else
    let '(r, sealed, x) := sealChannel (rs_keeper rs) (rs_rand rs) p in
    let rs := rs <| rs_rand := r |> in
    let p := p <| ch_WebhookSignatures := ch_WebhookSignatures sealed |> in
    match x with
    | Err e => (rs, p, Err e)
    | Ok _ =>
        let (rs, x) := applyCommand op (channel_key (ch_ID p)) (Some (jenc sealed)) rs in
        (rs, p, x)
    end.

Definition CreateChannel (p : Channel) (rs : Store) : Store * Channel * res unit :=
  write_channel "create-channel" p rs.
Definition UpdateChannel (p : Channel) (rs : Store) : Store * Channel * res unit :=
  write_channel "set" p rs.

Definition DeleteChannel (id : string) (rs : Store) : Store * res unit :=
  applyCommand "delete" (channel_key id) None rs.

(** ** Configuration *)

Definition GetGlobalConfig (rs : Store) : res GlobalConfig :=
  let cfg := DefaultGlobalConfig in
  res_bind (getFSMValue (rs_db rs) "/global/server/") (fun val =>
  res_bind (match val with
            | None => Ok cfg
            | Some val =>
                match Unmarshal (A := ServerConfig) val with
                | None => Err (errorf "unmarshal server config")
                | Some sc => Ok (cfg <| gc_Server := sc |>)
                end
            end) (fun cfg =>
  res_bind (getFSMValue (rs_db rs) "/global/defaults/") (fun val =>
  res_bind (match val with
            | None => Ok cfg
            | Some val =>
                match Unmarshal (A := DefaultChannelConfig) val with
                | None => Err (errorf "unmarshal defaults config")
                | Some dc => Ok (cfg <| gc_Defaults := dc |>)
                end
            end) (openConfig (rs_keeper rs))))).

Definition put_kv (key : string) (v : json) : fsmKV := mkKV key (mkBytes (Some v)) false.
Definition del_kv (key : string) : fsmKV := mkKV key (mkBytes None) true.

(** [None] is the nil pointer. *)
Definition UpdateGlobalConfig (cfg : option GlobalConfig) (rs : Store) : Store * res unit :=
  match cfg with
  | None => (rs, Err (mkErr KInvalidArgument "config required"))
  | Some cfg =>
      let (r, sealed) := sealConfig (rs_keeper rs) (rs_rand rs) cfg in
      let rs := rs <| rs_rand := r |> in
      match sealed with
      | Err e => (rs, Err e)
      | Ok sealed =>
          applyMulti [put_kv "/global/server/" (jenc (gc_Server sealed));
                      put_kv "/global/defaults/" (jenc (gc_Defaults sealed))] rs
      end
  end.

(** ** Users *)

Definition user_key (id : string) : string := "/users/" +:+ id +:+ "/".

Definition GetUser (id : string) (rs : Store) : res User :=
  res_bind (getFSMValue (rs_db rs) (user_key id)) (fun val =>
    match val with
    | None => Err (mkErr KNotFound ("user " +:+ id))
    | Some val => Unmarshal_err (A := User) val
    end).

Definition GetUserByUsername (username : string) (rs : Store) : res User :=
  let missing := Err (mkErr KNotFound ("user " +:+ username)) in
  match getFSMValue (rs_db rs) ("/users/by-username/" +:+ username +:+ "/") with
  | Ok (Some idxVal) =>
      match Unmarshal (A := usernameIndex) idxVal with
      | None => missing
      | Some idx => GetUser (ix_UserID idx) rs
      end
  | _ => missing
  end.

Fixpoint list_users (rs : Store) (keys : list string) (seen : gset string) : list User :=
  match keys with
  | [] => []
  | key :: keys' =>
      let id := first_part "/users/" key in
      if bool_decide (id = "") || bool_decide (id = "by-username") then list_users rs keys' seen
      else if bool_decide (id ∈ seen) then list_users rs keys' seen
      else
        let seen := {[ id ]} ∪ seen in
        match getFSMValue (rs_db rs) (user_key id) with
        | Ok (Some val) =>
            match Unmarshal (A := User) val with
            | Some u => u :: list_users rs keys' seen
            | None => list_users rs keys' seen
            end
        | _ => list_users rs keys' seen
        end
  end.

Definition ListUsers (rs : Store) : res (list User) :=
  res_bind (listFSMKeys (rs_db rs) "/users/") (fun keys => Ok (list_users rs keys ∅)).

Definition identity_is (providerID issuer subject : string) (id : ExternalIdentity) : bool :=
  bool_decide (ei_ProviderID id = providerID) && bool_decide (ei_Issuer id = issuer) &&
  bool_decide (ei_Subject id = subject).

Definition GetUserByExternalIdentity (providerID issuer subject : string) (rs : Store) : res User :=
  if bool_decide (providerID = "") || bool_decide (issuer = "") || bool_decide (subject = "")
  then Err (mkErr KInvalidArgument "external identity incomplete")
  else res_bind (ListUsers rs) (fun users =>
    match find (fun u => any (identity_is providerID issuer subject) (u_ExternalIdentities u)) users with
    | Some u => Ok u
    | None => Err (mkErr KNotFound "no user for external identity")
    end).

(** The caller's user is updated in place ([u.ID = u.Username]). *)
Definition CreateUser (u : User) (rs : Store) : Store * User * res unit :=
  let u := if bool_decide (u_ID u = "") then u <| u_ID := u_Username u |> else u in
  if bool_decide (u_ID u = "") then (rs, u, Err (mkErr KInvalidArgument "user ID required"))
  else let (rs, x) := applyCommand "create-user" (user_key (u_ID u)) (Some (jenc u)) rs in (rs, u, x).

Definition UpdateUser (u : User) (rs : Store) : Store * res unit :=
  let oldUsername :=
    match GetUser (u_ID u) rs with
    | Ok old => if negb (bool_decide (u_Username old = u_Username u)) && negb (bool_decide (u_Username old = ""))
                then u_Username old else ""
    | Err _ => ""
    end in
  let entries := [put_kv (user_key (u_ID u)) (jenc u);
                  put_kv (usernameIndexKey (u_Username u) +:+ "/") (usernameIndexValue (u_ID u))] in
  applyMulti (entries ++ if bool_decide (oldUsername = "") then []
                         else [del_kv ("/users/by-username/" +:+ oldUsername +:+ "/")]) rs.

Definition DeleteUser (id : string) (rs : Store) : Store * res unit :=
  match GetUser id rs with
  | Err e => (rs, Err e)
  | Ok u => applyMulti [del_kv (user_key id); del_kv ("/users/by-username/" +:+ u_Username u +:+ "/")] rs
  end.

(** ** Metadata, OIDC providers, internal auth *)

Definition GetSetupModeEndTime (rs : Store) : Z :=
  match getFSMValue (rs_db rs) "/meta/setup_end" with
  | Ok (Some val) => match Unmarshal (A := Time) val with Some t => instant t | None => 0%Z end
  | _ => 0%Z
  end.

Definition SetSetupModeEndTime (t : Z) (rs : Store) : Store * res unit :=
  applyCommand "set" "/meta/setup_end" (Some (jenc (mkTime t))) rs.

Definition GetAuthEpoch (rs : Store) : res Z :=
  res_bind (getFSMValue (rs_db rs) "/meta/auth_epoch") (fun val =>
    match val with None => Ok 0%Z | Some val => Unmarshal_err (A := Z) val end).

Definition BumpAuthEpoch (rs : Store) : Store * res unit :=
  match GetAuthEpoch rs with
  | Err e => (rs, Err e)
  | Ok current => applyCommand "set" "/meta/auth_epoch" (Some (jenc (wrap64 (current + 1)))) rs
  end.

(** A nil slice is the empty list. *)
Definition OIDCProviders (rs : Store) : res (list OIDCProvider) :=
  res_bind (getFSMValue (rs_db rs) "/global/auth/oidc_providers") (fun val =>
    match val with
    | None => Ok []
    | Some val =>
        res_bind (Unmarshal_err (A := list OIDCProvider) val)
          (res_map (fun p => res_bind (openString (rs_keeper rs) (op_ClientSecret p))
                               (fun s => Ok (p <| op_ClientSecret := s |>))))
    end).

Fixpoint seal_providers (keeper : option CryptoKeeper) (r : Rand) (l : list OIDCProvider)
  : Rand * res (list OIDCProvider) :=
  match l with
  | [] => (r, Ok [])
  | p :: l' =>
      let '(r, x) := sealString keeper r (op_ClientSecret p) in
      match x with
      | Err e => (r, Err e)
      | Ok s =>
          let '(r, y) := seal_providers keeper r l' in
          (r, res_bind y (fun ps => Ok (p <| op_ClientSecret := s |> :: ps)))
      end
  end.

Definition SetOIDCProviders (providers : list OIDCProvider) (rs : Store) : Store * res unit :=
  let (r, sealed) := seal_providers (rs_keeper rs) (rs_rand rs) providers in
  let rs := rs <| rs_rand := r |> in
  match sealed with
  | Err e => (rs, Err e)
  | Ok sealed => applyCommand "set-json" "/global/auth/oidc_providers" (Some (jenc sealed)) rs
  end.

Definition InternalAuthEnabled (rs : Store) : res (option bool) :=
  res_bind (getFSMValue (rs_db rs) "/global/auth/internal_enabled") (fun val =>
    match val with
    | None => Ok None
    | Some val => res_bind (Unmarshal_err (A := bool) val) (fun b => Ok (Some b))
    end).

Definition SetInternalAuthEnabled (enabled : bool) (rs : Store) : Store * res unit :=
  applyCommand "set-json" "/global/auth/internal_enabled" (Some (jenc enabled)) rs.

(** ** Roles and mappings *)

Definition isDefaultRole (name : string) : bool :=
  any (fun r => bool_decide (r_Name r = name)) DefaultRoles.

Definition role_key (name : string) : string := "/rbac/roles/" +:+ name +:+ "/".

Definition GetRole (name : string) (rs : Store) : res Role :=
  res_bind (getFSMValue (rs_db rs) (role_key name)) (fun val =>
    match val with
    | None =>
        match find (fun r => bool_decide (r_Name r = name)) DefaultRoles with
        | Some r => Ok r
        | None => Err (mkErr KNotFound ("role " +:+ name))
        end
    | Some val => Unmarshal_err (A := Role) val
    end).

(** The records of a key list, unreadable ones skipped. *)
Definition read_records {A} `{JsonCodec A} (rs : Store) (keys : list string) : list A :=
  omap (fun key => match getFSMValue (rs_db rs) key with Ok (Some val) => Unmarshal val | _ => None end) keys.

Definition ListRoles (rs : Store) : res (list Role) :=
  res_bind (listFSMKeys (rs_db rs) "/rbac/roles/") (fun keys =>
    Ok (DefaultRoles ++ read_records rs
         (filter (fun key => let name := first_part "/rbac/roles/" key in
                             name <> "" /\ isDefaultRole name = false) keys))).

Definition CreateRole (r : Role) (rs : Store) : Store * res unit :=
  if isDefaultRole (r_Name r) then (rs, Err (mkErr KAlreadyExists ("role " +:+ r_Name r)))
  else applyCommand "set" (role_key (r_Name r)) (Some (jenc r)) rs.

Definition cursor_key (channel clientID : string) : string :=
  "/cursors/" +:+ channel +:+ "/" +:+ clientID +:+ "/".

Definition GetClientCursor (channel clientID : string) (rs : Store) : res ClientCursor :=
  match getFSMValue (rs_db rs) (cursor_key channel clientID) with
  | Ok (Some val) => Unmarshal_err (A := ClientCursor) val
  | _ => Err (mkErr KNotFound "client cursor")
  end.

Definition SetClientCursor (c : ClientCursor) (rs : Store) : Store * res unit :=
  applyCommand "set" (cursor_key (cur_Channel c) (cur_ClientID c)) (Some (jenc c)) rs.

Definition ListRoleMappings (rs : Store) : res (list RoleMapping) :=
  res_bind (listFSMKeys (rs_db rs) "/rbac/mappings/") (fun keys =>
    Ok (read_records rs (filter (fun key => first_part "/rbac/mappings/" key <> "") keys))).

Definition draw_uuid (rs : Store) : Store * res string :=
  let (r, id) := GenerateUUID (rs_rand rs) in (rs <| rs_rand := r |>, id).

Definition same_mapping (m e : RoleMapping) : bool :=
  bool_decide (rm_Type e = rm_Type m) && bool_decide (rm_Subject e = rm_Subject m) &&
  bool_decide (rm_Role e = rm_Role m) && bool_decide (rm_ChannelScope e = rm_ChannelScope m).

(** [existing, _ := rs.List...]: an error reads as the empty list.  The caller's
    mapping gets its ID. *)
Definition CreateRoleMapping (m : RoleMapping) (rs : Store) : Store * RoleMapping * res unit :=
  let existing := match ListRoleMappings rs with Ok l => l | Err _ => [] end in
  if any (same_mapping m) existing then (rs, m, Ok tt)
  else
    let (rs, id) := draw_uuid rs in
    match id with
    | Err e => (rs, m, Err e)
    | Ok id =>
        let m := m <| rm_ID := id |> in
        let (rs, x) := applyCommand "set" ("/rbac/mappings/" +:+ rm_ID m +:+ "/") (Some (jenc m)) rs in
        (rs, m, x)
    end.

Definition DeleteRoleMapping (id : string) (rs : Store) : Store * res unit :=
  applyCommand "delete" ("/rbac/mappings/" +:+ id +:+ "/") None rs.

Definition is_mapping_of (ty subject : string) (m : RoleMapping) : Prop := rm_Type m = ty /\ rm_Subject m = subject.
#[export] Instance is_mapping_of_dec ty s m : Decision (is_mapping_of ty s m).
Proof. unfold is_mapping_of. apply _. Defined.

Definition GetUserRoleMappings (userID : string) (rs : Store) : res (list RoleMapping) :=
  res_bind (ListRoleMappings rs) (fun all => Ok (filter (is_mapping_of "user" userID) all)).
Definition GetGroupRoleMappings (groupName : string) (rs : Store) : res (list RoleMapping) :=
  res_bind (ListRoleMappings rs) (fun all => Ok (filter (is_mapping_of "group" groupName) all)).

(** ** Channel ACLs *)

Definition acl_prefix (channelID : string) : string := "/channels/" +:+ channelID +:+ "/acl/".

Definition ListChannelRoleMappings (channelID : string) (rs : Store) : res (list ChannelRoleMapping) :=
  res_bind (listFSMKeys (rs_db rs) (acl_prefix channelID)) (fun keys => Ok (read_records rs keys)).

Definition same_acl (m e : ChannelRoleMapping) : bool :=
  bool_decide (acl_Type e = acl_Type m) && bool_decide (acl_Subject e = acl_Subject m) &&
  bool_decide (acl_Role e = acl_Role m).

Definition CreateChannelRoleMapping (m : ChannelRoleMapping) (rs : Store) : Store * ChannelRoleMapping * res unit :=
  let existing := match ListChannelRoleMappings (acl_ChannelID m) rs with Ok l => l | Err _ => [] end in
  if any (same_acl m) existing then (rs, m, Ok tt)
  else
    let (rs, id) := draw_uuid rs in
    match id with
    | Err e => (rs, m, Err e)
    | Ok id =>
        let m := m <| acl_ID := id |> in
        if bool_decide (acl_ChannelID m = "") then (rs, m, Err (mkErr KInvalidArgument "channel_id required"))
        else
          let (rs, x) := applyCommand "set" (acl_prefix (acl_ChannelID m) +:+ acl_ID m +:+ "/") (Some (jenc m)) rs in
          (rs, m, x)
    end.

Definition DeleteChannelRoleMapping (channelID entryID : string) (rs : Store) : Store * res unit :=
  applyCommand "delete" (acl_prefix channelID +:+ entryID +:+ "/") None rs.

Definition is_acl_of (ty subject : string) (m : ChannelRoleMapping) : Prop := acl_Type m = ty /\ acl_Subject m = subject.
#[export] Instance is_acl_of_dec ty s m : Decision (is_acl_of ty s m).
Proof. unfold is_acl_of. apply _. Defined.

(** The ACL entries of a subject over all channels; an unreadable ACL is skipped. *)
Definition subject_acls (ty subject : string) (rs : Store) : res (list ChannelRoleMapping) :=
  res_bind (ListChannels rs) (fun channels =>
    Ok (channels ≫= fun ch =>
        match ListChannelRoleMappings (ch_ID ch) rs with
        | Ok acls => filter (is_acl_of ty subject) acls
        | Err _ => []
        end)).

Definition GetUserChannelRoleMappings (userID : string) (rs : Store) := subject_acls "user" userID rs.
Definition GetGroupChannelRoleMappings (groupName : string) (rs : Store) := subject_acls "group" groupName rs.

(** ** Migrations *)

Fixpoint update_channels (l : list Channel) (rs : Store) : Store * res unit :=
  match l with
  | [] => (rs, Ok tt)
  | ch :: l' =>
      let '(rs, _, x) := UpdateChannel ch rs in
      match x with Err e => (rs, Err e) | Ok _ => update_channels l' rs end
  end.

Definition MigrateAtRest (rs : Store) : Store * res unit :=
  match rs_keeper rs with
  | None => (rs, Err (errorf "at-rest encryption is not configured"))
  | Some _ =>
      match ListChannels rs with Err e => (rs, Err e) | Ok channels =>
      let (rs, x) := update_channels channels rs in
      match x with Err e => (rs, Err e) | Ok _ =>
      match GetGlobalConfig rs with Err e => (rs, Err e) | Ok cfg =>
      let (rs, x) := UpdateGlobalConfig (Some cfg) rs in
      match x with Err e => (rs, Err e) | Ok _ =>
      match OIDCProviders rs with
      | Err e => (rs, Err e)
      | Ok [] => (rs, Ok tt)
      | Ok providers => SetOIDCProviders providers rs
      end end end end end
  end.

(** The writes of MigrateRBAC for one user: a failure is only logged. *)
Fixpoint migrate_user_roles (id : string) (roles : list string) (rs : Store) : Store :=
  match roles with
  | [] => rs
  | role :: roles' =>
      let '(rs, _, _) := CreateRoleMapping (mkRoleMapping "" "user" id role "*") rs in
      migrate_user_roles id roles' rs
  end.

Fixpoint migrate_user_channels (id : string) (channels : list string) (rs : Store) : Store :=
  match channels with
  | [] => rs
  | ch :: channels' =>
      if bool_decide (ch = "*") then migrate_user_channels id channels' rs
      else let '(rs, _, _) := CreateChannelRoleMapping (mkACL "" ch "user" id "write") rs in
           migrate_user_channels id channels' rs
  end.

Definition migrate_users (users : list User) (rs : Store) : Store :=
  fold_left (fun rs u => migrate_user_channels (u_ID u) (u_Channels u) (migrate_user_roles (u_ID u) (u_Roles u) rs))
    users rs.

Definition MigrateRBAC (rs : Store) : Store * res unit :=
  match getFSMValue (rs_db rs) "/meta/rbac_migrated" with
  | Ok (Some _) => (rs, Ok tt)
  | _ =>
      match ListUsers rs with
      | Err e => (rs, Err (mkErr (err_is e) ("list users for migration: " +:+ err_msg e)))
      | Ok [] => (rs, Ok tt)
      | Ok users =>
          let (rs, x) := applyCommand "set" "/meta/rbac_migrated" (Some (JBool true)) (migrate_users users rs) in
          (rs, match x with Ok _ => Ok tt | Err e => Err (mkErr (err_is e) ("mark migration complete: " +:+ err_msg e)) end)
      end
  end.
End store.
