(* ===== verification/Repo.v ===== *)
(** * Repo: the persistence contract of internal/domain/repository.go

    [Repository R] is the Go interface domain.Repository over a repository state
    [R]: reads are pure, writes return the new state.  A write that takes a
    pointer the implementation may update also returns the caller's value after
    the call.  The services are written, and their theorems proved, against this
    class; [raft_repository] is the implementation of internal/repository. *)

From S2P Require Import Prelude Json Domain Bolt Fsm Crypto Store.

Class Repository (R : Type) := {
  repo_GetChannel : string -> R -> res Channel;
  repo_ListChannels : R -> res (list Channel);
  repo_CreateChannel : Channel -> R -> R * Channel * res unit;
  repo_UpdateChannel : Channel -> R -> R * Channel * res unit;
  repo_DeleteChannel : string -> R -> R * res unit;
  repo_CreateChannelRoleMapping : ChannelRoleMapping -> R -> R * ChannelRoleMapping * res unit;
  repo_ListChannelRoleMappings : string -> R -> res (list ChannelRoleMapping);
  repo_DeleteChannelRoleMapping : string -> string -> R -> R * res unit;
  repo_GetUser : string -> R -> res User;
  repo_GetUserByUsername : string -> R -> res User;
  repo_GetUserByExternalIdentity : string -> string -> string -> R -> res User;
  repo_ListUsers : R -> res (list User);
  repo_CreateUser : User -> R -> R * User * res unit;
  repo_UpdateUser : User -> R -> R * res unit;
  repo_DeleteUser : string -> R -> R * res unit;
  repo_GetRole : string -> R -> res Role;
  repo_ListRoles : R -> res (list Role);
  repo_CreateRole : Role -> R -> R * res unit;
  repo_CreateRoleMapping : RoleMapping -> R -> R * RoleMapping * res unit;
  repo_ListRoleMappings : R -> res (list RoleMapping);
  repo_DeleteRoleMapping : string -> R -> R * res unit;
  repo_GetUserRoleMappings : string -> R -> res (list RoleMapping);
  repo_GetGroupRoleMappings : string -> R -> res (list RoleMapping);
  repo_GetUserChannelRoleMappings : string -> R -> res (list ChannelRoleMapping);
  repo_GetGroupChannelRoleMappings : string -> R -> res (list ChannelRoleMapping);
  repo_GetGlobalConfig : R -> res GlobalConfig;
  repo_UpdateGlobalConfig : option GlobalConfig -> R -> R * res unit;
  repo_OIDCProviders : R -> res (list OIDCProvider);
  repo_SetOIDCProviders : list OIDCProvider -> R -> R * res unit;
  repo_InternalAuthEnabled : R -> res (option bool);
  repo_SetInternalAuthEnabled : bool -> R -> R * res unit;
  repo_GetClientCursor : string -> string -> R -> res ClientCursor;
  repo_SetClientCursor : ClientCursor -> R -> R * res unit;
  repo_GetSetupModeEndTime : R -> Z;
  repo_SetSetupModeEndTime : Z -> R -> R * res unit;
  repo_GetAuthEpoch : R -> res Z;
  repo_BumpAuthEpoch : R -> R * res unit
}.

#[export] Instance raft_repository {DB B} `{!Bolt DB B} `{!Crypto} `{!JsonText} : Repository (RaftStore DB) := {|
  repo_GetChannel := GetChannel;
  repo_ListChannels := ListChannels;
  repo_CreateChannel := CreateChannel;
  repo_UpdateChannel := UpdateChannel;
  repo_DeleteChannel := DeleteChannel;
  repo_CreateChannelRoleMapping := CreateChannelRoleMapping;
  repo_ListChannelRoleMappings := ListChannelRoleMappings;
  repo_DeleteChannelRoleMapping := DeleteChannelRoleMapping;
  repo_GetUser := GetUser;
  repo_GetUserByUsername := GetUserByUsername;
  repo_GetUserByExternalIdentity := GetUserByExternalIdentity;
  repo_ListUsers := ListUsers;
  repo_CreateUser := CreateUser;
  repo_UpdateUser := UpdateUser;
  repo_DeleteUser := DeleteUser;
  repo_GetRole := GetRole;
  repo_ListRoles := ListRoles;
  repo_CreateRole := CreateRole;
  repo_CreateRoleMapping := CreateRoleMapping;
  repo_ListRoleMappings := ListRoleMappings;
  repo_DeleteRoleMapping := DeleteRoleMapping;
  repo_GetUserRoleMappings := GetUserRoleMappings;
  repo_GetGroupRoleMappings := GetGroupRoleMappings;
  repo_GetUserChannelRoleMappings := GetUserChannelRoleMappings;
  repo_GetGroupChannelRoleMappings := GetGroupChannelRoleMappings;
  repo_GetGlobalConfig := GetGlobalConfig;
  repo_UpdateGlobalConfig := UpdateGlobalConfig;
  repo_OIDCProviders := OIDCProviders;
  repo_SetOIDCProviders := SetOIDCProviders;
  repo_InternalAuthEnabled := InternalAuthEnabled;
  repo_SetInternalAuthEnabled := SetInternalAuthEnabled;
  repo_GetClientCursor := GetClientCursor;
  repo_SetClientCursor := SetClientCursor;
  repo_GetSetupModeEndTime := GetSetupModeEndTime;
  repo_SetSetupModeEndTime := SetSetupModeEndTime;
  repo_GetAuthEpoch := GetAuthEpoch;
  repo_BumpAuthEpoch := BumpAuthEpoch
|}.

(** ** A concrete store, for the witnesses *)

Definition steady_raft : RaftEnv := mkRaft (fun _ => true) (fun _ => Committed) 0.
Definition zero_rand : Rand := mkRand (fun _ n => Some (string_of_list_ascii (replicate n (Ascii.ascii_of_nat 0)))) 0.

(** A leading node without at-rest keys whose FSM holds [m]. *)
Definition demo_store (m : gmap string json) : RaftStore mapdb := mkStore (db_of m) None zero_rand steady_raft.

Lemma zero_rand_fills : rand_fills zero_rand.
Proof.
  intros p n s [= <-]. generalize (Ascii.ascii_of_nat 0) as c. intros c.
  induction n as [|n IH]; [done|]. simpl. by rewrite IH.
Qed.
