(* ===== verification/Authorization.v ===== *)
(** * Authorization: internal/service/authorization.go

    Principals, roles, role mappings and channel ACLs, against the [Repository]
    interface.  [Granted] says declaratively who holds a permission; the
    theorems show the evaluator decides exactly that, and what the assignment
    guards do and do not prevent. *)

From S2P Require Import Prelude Json Domain Bolt Crypto Store Repo.

(** Service: the repository, and the notifier's log of OnChannelChanged calls
    ([None] when no notifier is wired). *)
Record Service (R : Type) := mkService { svc_repo : R; svc_notified : option (list (string * Z)) }.
Arguments mkService {R}. Arguments svc_repo {R}. Arguments svc_notified {R}.
#[export] Instance eta_service {R} : Eta (Service R) := fun x => mkService (svc_repo x) (svc_notified x).

(** SessionToken (session.go) *)
Record SessionToken := mkSession {
  st_UserID : string; st_Username : string; st_Method : string; st_Provider : string; st_Issuer : string;
  st_Subject : string; st_ExpiresAt : Z; st_Groups : list string; st_SessionID : string; st_AuthEpoch : Z }.
#[export] Instance eta_session : Eta SessionToken := fun x =>
  mkSession (st_UserID x) (st_Username x) (st_Method x) (st_Provider x) (st_Issuer x) (st_Subject x)
    (st_ExpiresAt x) (st_Groups x) (st_SessionID x) (st_AuthEpoch x).
#[export] Instance session_eq_dec : EqDecision SessionToken.
Proof. solve_decision. Defined.

Definition session_zero : SessionToken := mkSession "" "" "" "" "" "" 0 [] "" 0.
Definition session_fields : list (field SessionToken) := [
  fld_omit "user_id" st_UserID (set_fld st_UserID);
  fld_omit "username" st_Username (set_fld st_Username);
  fld "method" st_Method (set_fld st_Method);
  fld_omit "provider" st_Provider (set_fld st_Provider);
  fld_omit "issuer" st_Issuer (set_fld st_Issuer);
  fld_omit "subject" st_Subject (set_fld st_Subject);
  fld "expires_at" st_ExpiresAt (set_fld st_ExpiresAt);
  fld_omit "groups" st_Groups (set_fld st_Groups);
  fld_omit "sid" st_SessionID (set_fld st_SessionID);
  fld_omit "auth_epoch" st_AuthEpoch (set_fld st_AuthEpoch) ].
#[export] Instance codec_session : JsonCodec SessionToken := struct_codec session_zero session_fields.

Definition session_wf (t : SessionToken) : Prop :=
  int64_range (st_ExpiresAt t) = true /\ int64_range (st_AuthEpoch t) = true.
#[export] Instance law_session : JsonLaw SessionToken.
Proof. refine {| jwf := session_wf |}; [|done]. unfold codec_session, session_wf. solve_codec_law. Defined.

Definition normalizeIssuer (issuer : string) : string := TrimSuffix issuer "/".

Definition res_option {A} (r : res A) : option A := match r with Ok a => Some a | Err _ => None end.

Definition hasChannelAccessList (userChannels : list string) (channelID : string) : bool :=
  any (fun ch => bool_decide (ch = "*") || bool_decide (ch = channelID)) userChannels.

Definition HasChannelAccess := hasChannelAccessList.

Definition roleLevel (role : string) : nat :=
  if bool_decide (role = "owner") then 3
  else if bool_decide (role = "write") then 2
  else if bool_decide (role = "read") then 1 else 0.

Definition subject_matches (ty subject : string) (user : User) (groups : list string) : bool :=
  if bool_decide (ty = "user") then bool_decide (subject = u_ID user) || bool_decide (subject = u_Username user)
  else if bool_decide (ty = "group") then contains_str groups subject
  else false.

Definition mappingMatchesUser (m : RoleMapping) := subject_matches (rm_Type m) (rm_Subject m).
Definition channelACLMatchesUser (a : ChannelRoleMapping) := subject_matches (acl_Type a) (acl_Subject a).

Section authorization.
Context {R : Type} `{!Repository R}.
Implicit Types (s : Service R) (user : User) (groups : list string).

Definition ResolvePrincipal s (tok : option SessionToken) : option User :=
  match tok with
  | None => None
  | Some tok =>
      if bool_decide (st_Method tok = "oidc") then
        res_option (repo_GetUserByExternalIdentity (st_Provider tok) (normalizeIssuer (st_Issuer tok))
          (st_Subject tok) (svc_repo s))
      else
        let by_username :=
          if bool_decide (st_Username tok = "") then None
          else res_option (repo_GetUserByUsername (st_Username tok) (svc_repo s)) in
        if negb (bool_decide (st_UserID tok = "")) then
          match repo_GetUser (st_UserID tok) (svc_repo s) with Ok user => Some user | Err _ => by_username end
        else by_username
  end.

Definition ResolvePrincipalByUsername s (username : string) : option User :=
  if bool_decide (username = "") then None
  else match repo_GetUserByUsername username (svc_repo s) with
       | Ok user => Some user
       | Err _ => res_option (repo_GetUser username (svc_repo s))
       end.

(** The permissions of a role; a role that cannot be read has none. *)
Definition role_perms s (name : string) : list string :=
  match repo_GetRole name (svc_repo s) with Ok role => r_Permissions role | Err _ => [] end.

(** One iteration of the inner loop of checkGlobalRolePermissions. *)
Definition global_perm_grants (user : User) (perm channelID p : string) : bool :=
  (bool_decide (p = perm) || bool_decide (p = "*")) &&
  (if HasPrefix perm "channel:" && negb (bool_decide (channelID = ""))
   then hasChannelAccessList (u_Channels user) channelID
   else if bool_decide (p = "*") && negb (bool_decide (channelID = ""))
   then hasChannelAccessList (u_Channels user) channelID
   else true).

Definition checkGlobalRolePermissions s user (perm channelID : string) : bool :=
  any (fun roleName => any (global_perm_grants user perm channelID) (role_perms s roleName)) (u_Roles user).

Definition mapping_perm_grants (m : RoleMapping) (perm channelID p : string) : bool :=
  (bool_decide (p = perm) || bool_decide (p = "*")) &&
  (if bool_decide (channelID = "") then bool_decide (rm_ChannelScope m = "*")
   else bool_decide (rm_ChannelScope m = "*") || bool_decide (rm_ChannelScope m = channelID)).

Definition checkRoleMappingPermissions s user (perm channelID : string) groups : bool :=
  match repo_ListRoleMappings (svc_repo s) with
  | Err _ => false
  | Ok mappings =>
      any (fun m => mappingMatchesUser m user groups &&
                    any (mapping_perm_grants m perm channelID) (role_perms s (rm_Role m))) mappings
  end.

Definition checkChannelRoleMappingPermissions s user (perm channelID : string) groups : bool :=
  match repo_ListChannelRoleMappings channelID (svc_repo s) with
  | Err _ => false
  | Ok acls =>
      let requiredLevel := if bool_decide (perm = PermChannelWrite) then 2 else 1 in
      any (fun a => channelACLMatchesUser a user groups && (requiredLevel <=? roleLevel (acl_Role a))%nat) acls
  end.

Definition isChannelCreator s user (channelID : string) : bool :=
  match repo_GetChannel channelID (svc_repo s) with
  | Err _ => false
  | Ok ch => bool_decide (ch_CreatedBy ch = u_ID user) || bool_decide (ch_CreatedBy ch = u_Username user)
  end.

Definition UserHasPermission s (user : option User) groups (perm channelID : string) : bool :=
  match user with
  | None => false
  | Some user =>
      if checkGlobalRolePermissions s user perm channelID then true
      else if checkRoleMappingPermissions s user perm channelID groups then true
      else if negb (bool_decide (channelID = "")) && HasPrefix perm "channel:" then
        if (bool_decide (perm = PermChannelWrite) || bool_decide (perm = PermChannelRead)) &&
           checkChannelRoleMappingPermissions s user perm channelID groups then true
        else if isChannelCreator s user channelID then true
        else false
      else false
  end.

Definition allChannels s : res (list string) :=
  res_bind (repo_ListChannels (svc_repo s)) (fun chs => Ok (ch_ID <$> chs)).

(** Matching mappings, an unreadable mapping list reads as empty. *)
Definition user_mappings s user groups : list RoleMapping :=
  match repo_ListRoleMappings (svc_repo s) with
  | Ok mappings => filter (fun m => mappingMatchesUser m user groups = true) mappings
  | Err _ => []
  end.

(** The channels the last loop of UserChannels adds. *)
Definition reachable s user groups (ch : Channel) : bool :=
  isChannelCreator s user (ch_ID ch) ||
  match repo_ListChannelRoleMappings (ch_ID ch) (svc_repo s) with
  | Ok acls => any (fun a => channelACLMatchesUser a user groups) acls
  | Err _ => false
  end.

(** The result of the map iteration, in one of its possible orders. *)
Definition UserChannels s (user : option User) groups : res (list string) :=
  match user with
  | None => Ok []
  | Some user =>
      if any (fun roleName => contains_str (role_perms s roleName) "*") (u_Roles user) then allChannels s
      else if any (fun m => contains_str (role_perms s (rm_Role m)) "*") (user_mappings s user groups)
      then allChannels s
      else
        let added := match repo_ListChannels (svc_repo s) with
                     | Ok channels => ch_ID <$> filter (fun ch => reachable s user groups ch = true) channels
                     | Err _ => []
                     end in
        Ok (elements (list_to_set (u_Channels user ++ added) : gset string))
  end.

Definition IsAdmin s (user : option User) groups : bool := UserHasPermission s user groups "*" "".

Definition EffectivePermissions s (user : option User) groups : gset string :=
  match user with
  | None => ∅
  | Some user =>
      list_to_set ((u_Roles user ≫= role_perms s) ++
                   (user_mappings s user groups ≫= fun m => role_perms s (rm_Role m)))
  end.

Definition GetUserPermissions s (user : option User) groups : list string :=
  elements (EffectivePermissions s user groups).

Definition canAssignRole s (actor : option User) (actorGroups : list string) (roleName : string) : bool :=
  match repo_GetRole roleName (svc_repo s) with
  | Err _ => false
  | Ok role =>
      let actorPerms := EffectivePermissions s actor actorGroups in
      forallb (fun p => if bool_decide (p = "*") then bool_decide ("*" ∈ actorPerms)
                        else bool_decide ("*" ∈ actorPerms) || bool_decide (p ∈ actorPerms))
        (r_Permissions role)
  end.

Definition CanAssignRoles s (actor : option User) (actorGroups roles : list string) (channelScope : string) : bool :=
  match actor with
  | None => false
  | Some a =>
      forallb (canAssignRole s actor actorGroups) roles &&
      (if negb (bool_decide (channelScope = "")) && negb (bool_decide (channelScope = "*"))
       then hasChannelAccessList (u_Channels a) channelScope else true)
  end.

Definition CanAssignChannels (actor : option User) (channels : list string) : bool :=
  match actor with
  | None => false
  | Some a => forallb (hasChannelAccessList (u_Channels a)) channels
  end.

Definition HasChannelRole s (user : option User) groups (channelID role : string) : bool :=
  match user with
  | None => false
  | Some user =>
      let requiredLevel := roleLevel role in
      if isChannelCreator s user channelID && (requiredLevel <=? 3)%nat then true
      else match repo_ListChannelRoleMappings channelID (svc_repo s) with
           | Err _ => false
           | Ok acls => any (fun a => channelACLMatchesUser a user groups && (requiredLevel <=? roleLevel (acl_Role a))%nat) acls
           end
  end.
End authorization.

(** ** The declarative reading *)

Definition in_scope (user : User) (channelID : string) : Prop :=
  "*" ∈ u_Channels user \/ channelID ∈ u_Channels user.

Lemma hasChannelAccessList_spec user c : hasChannelAccessList (u_Channels user) c = true <-> in_scope user c.
Proof.
  unfold hasChannelAccessList, in_scope. rewrite any_true. split.
  - intros (x & Hx & Hc). gobool. destruct Hc; subst; eauto.
  - intros [Hx|Hx]; eexists; (split; [exact Hx|]); gobool; tauto.
Qed.

Definition subject_is (ty subject : string) (user : User) (groups : list string) : Prop :=
  (ty = "user" /\ (subject = u_ID user \/ subject = u_Username user)) \/ (ty = "group" /\ subject ∈ groups).

Lemma subject_matches_spec ty sub user groups :
  subject_matches ty sub user groups = true <-> subject_is ty sub user groups.
Proof.
  unfold subject_matches, subject_is. repeat case_bool_decide; subst; rewrite ?contains_str_true;
    rewrite ?orb_true_iff; naive_solver.
Qed.

Section spec.
Context {R : Type} `{!Repository R}.

(** Who holds [perm] on [channelID] ("" for the whole collection). *)
Inductive Granted (s : Service R) (user : User) (groups : list string) (perm channelID : string) : Prop :=
  | by_role name p :
      name ∈ u_Roles user -> p ∈ role_perms s name -> p = perm \/ p = "*" ->
      channelID = "" \/ (HasPrefix perm "channel:" = false /\ p <> "*") \/ in_scope user channelID ->
      Granted s user groups perm channelID
  | by_mapping ms m p :
      repo_ListRoleMappings (svc_repo s) = Ok ms -> m ∈ ms ->
      subject_is (rm_Type m) (rm_Subject m) user groups ->
      p ∈ role_perms s (rm_Role m) -> p = perm \/ p = "*" ->
      rm_ChannelScope m = "*" \/ (channelID <> "" /\ rm_ChannelScope m = channelID) ->
      Granted s user groups perm channelID
  | by_acl acls a :
      channelID <> "" -> perm = PermChannelRead \/ perm = PermChannelWrite ->
      repo_ListChannelRoleMappings channelID (svc_repo s) = Ok acls -> a ∈ acls ->
      subject_is (acl_Type a) (acl_Subject a) user groups ->
      acl_Role a = "owner" \/ acl_Role a = "write" \/ (acl_Role a = "read" /\ perm = PermChannelRead) ->
      Granted s user groups perm channelID
  | by_creation ch :
      channelID <> "" -> HasPrefix perm "channel:" = true ->
      repo_GetChannel channelID (svc_repo s) = Ok ch ->
      ch_CreatedBy ch = u_ID user \/ ch_CreatedBy ch = u_Username user ->
      Granted s user groups perm channelID.

Lemma global_perm_grants_spec user perm c p :
  global_perm_grants user perm c p = true <->
  (p = perm \/ p = "*") /\ (c = "" \/ (HasPrefix perm "channel:" = false /\ p <> "*") \/ in_scope user c).
Proof.
  unfold global_perm_grants. rewrite andb_true_iff, orb_true_iff, !bool_decide_eq_true.
  destruct (HasPrefix perm "channel:") eqn:Eh; repeat case_bool_decide; simpl;
    rewrite ?hasChannelAccessList_spec; naive_solver.
Qed.

Lemma mapping_perm_grants_spec m perm c p :
  mapping_perm_grants m perm c p = true <->
  (p = perm \/ p = "*") /\ (rm_ChannelScope m = "*" \/ (c <> "" /\ rm_ChannelScope m = c)).
Proof.
  unfold mapping_perm_grants. rewrite andb_true_iff, orb_true_iff, !bool_decide_eq_true.
  case_bool_decide; rewrite ?orb_true_iff, !bool_decide_eq_true; naive_solver.
Qed.

Lemma roleLevel_read role : (1 <= roleLevel role)%nat <-> role = "owner" \/ role = "write" \/ role = "read".
Proof. unfold roleLevel. repeat case_bool_decide; subst; split; intros; try lia; naive_solver. Qed.
Lemma roleLevel_write role : (2 <= roleLevel role)%nat <-> role = "owner" \/ role = "write".
Proof. unfold roleLevel. repeat case_bool_decide; subst; split; intros; try lia; naive_solver. Qed.

Lemma checkGlobal_spec (s : Service R) user perm c :
  checkGlobalRolePermissions s user perm c = true <->
  exists name p, name ∈ u_Roles user /\ p ∈ role_perms s name /\ (p = perm \/ p = "*") /\
    (c = "" \/ (HasPrefix perm "channel:" = false /\ p <> "*") \/ in_scope user c).
Proof.
  unfold checkGlobalRolePermissions. rewrite any_true. setoid_rewrite any_true.
  setoid_rewrite global_perm_grants_spec. naive_solver.
Qed.

Lemma checkRoleMapping_spec (s : Service R) user perm c groups :
  checkRoleMappingPermissions s user perm c groups = true <->
  exists ms m p, repo_ListRoleMappings (svc_repo s) = Ok ms /\ m ∈ ms /\
    subject_is (rm_Type m) (rm_Subject m) user groups /\ p ∈ role_perms s (rm_Role m) /\
    (p = perm \/ p = "*") /\ (rm_ChannelScope m = "*" \/ (c <> "" /\ rm_ChannelScope m = c)).
Proof.
  unfold checkRoleMappingPermissions. destruct (repo_ListRoleMappings _) as [ms|]; [|naive_solver].
  rewrite any_true. setoid_rewrite andb_true_iff. setoid_rewrite any_true.
  setoid_rewrite mapping_perm_grants_spec. unfold mappingMatchesUser. setoid_rewrite subject_matches_spec.
  naive_solver.
Qed.

Lemma checkACL_spec (s : Service R) user perm c groups :
  perm = PermChannelRead \/ perm = PermChannelWrite ->
  checkChannelRoleMappingPermissions s user perm c groups = true <->
  exists acls a, repo_ListChannelRoleMappings c (svc_repo s) = Ok acls /\ a ∈ acls /\
    subject_is (acl_Type a) (acl_Subject a) user groups /\
    (acl_Role a = "owner" \/ acl_Role a = "write" \/ (acl_Role a = "read" /\ perm = PermChannelRead)).
Proof.
  intros Hp. unfold checkChannelRoleMappingPermissions.
  destruct (repo_ListChannelRoleMappings _ _) as [acls|]; [|naive_solver].
  rewrite any_true. setoid_rewrite andb_true_iff. unfold channelACLMatchesUser.
  setoid_rewrite subject_matches_spec. setoid_rewrite Nat.leb_le.
  destruct Hp as [-> | ->]; simpl.
  - setoid_rewrite roleLevel_read. naive_solver.
  - setoid_rewrite roleLevel_write. naive_solver.
Qed.

Lemma isChannelCreator_spec (s : Service R) user c :
  isChannelCreator s user c = true <->
  exists ch, repo_GetChannel c (svc_repo s) = Ok ch /\ (ch_CreatedBy ch = u_ID user \/ ch_CreatedBy ch = u_Username user).
Proof.
  unfold isChannelCreator. destruct (repo_GetChannel _ _); [|naive_solver].
  rewrite orb_true_iff, !bool_decide_eq_true. naive_solver.
Qed.

Lemma UserHasPermission_granted (s : Service R) user groups perm c :
  UserHasPermission s (Some user) groups perm c = true <-> Granted s user groups perm c.
Proof.
  unfold UserHasPermission.
  destruct (checkGlobalRolePermissions s user perm c) eqn:E1.
  { split; [|done]. intros _. apply checkGlobal_spec in E1. destruct E1 as (n & p & ?). eapply (by_role _ _ _ _ _ n p); naive_solver. }
  destruct (checkRoleMappingPermissions s user perm c groups) eqn:E2.
  { split; [|done]. intros _. apply checkRoleMapping_spec in E2. destruct E2 as (ms & m & p & ?).
    eapply (by_mapping _ _ _ _ _ ms m p); naive_solver. }
  assert (forall b : bool, b = true -> b = false -> False) as Hcon by congruence.
  split.
  - destruct (_ && _) eqn:E3; [|done]. apply andb_true_iff in E3 as [Hc Hch]. gobool.
    case_match eqn:E4.
    + intros _. apply andb_true_iff in E4 as [Hp Ha]. rewrite orb_true_iff, !bool_decide_eq_true in Hp.
      apply checkACL_spec in Ha; [|naive_solver]. destruct Ha as (acls & a & ?).
      eapply (by_acl _ _ _ _ _ acls a); naive_solver.
    + case_match eqn:E5; [|done]. intros _. apply isChannelCreator_spec in E5 as (ch & ?).
      eapply (by_creation _ _ _ _ _ ch); naive_solver.
  - intros [n p|ms m p|acls a Hc Hp Hl Ha Hs Hr|ch Hc Hch Hg Hw].
    + exfalso. eapply Hcon; [|exact E1]. apply checkGlobal_spec. by exists n, p.
    + exfalso. eapply Hcon; [|exact E2]. apply checkRoleMapping_spec. by exists ms, m, p.
    + rewrite (proj2 (checkACL_spec s user perm c groups ltac:(tauto))) by (by exists acls, a).
      rewrite bool_decide_false by done.
      assert (HasPrefix perm "channel:" = true) as -> by by destruct Hp as [-> | ->].
      by destruct Hp as [-> | ->].
    + rewrite bool_decide_false, Hch by done. simpl. case_match; [done|].
      rewrite (proj2 (isChannelCreator_spec s user c)); [done|]. by exists ch.
Qed.

(** C34. The evaluator decides exactly the declarative relation: no permission is
    granted otherwise, and none of the granting rules is missed. *)
Theorem UserHasPermission_spec (s : Service R) user groups perm c :
  UserHasPermission s (Some user) groups perm c = true <-> Granted s user groups perm c.
Proof. exact (UserHasPermission_granted s user groups perm c). Qed.
End spec.

Section assignment.
Context {R : Type} `{!Repository R}.

Lemma EffectivePermissions_elem (s : Service R) u groups p :
  p ∈ EffectivePermissions s (Some u) groups <->
  (exists name, name ∈ u_Roles u /\ p ∈ role_perms s name) \/
  (exists ms m, repo_ListRoleMappings (svc_repo s) = Ok ms /\ m ∈ ms /\
     subject_is (rm_Type m) (rm_Subject m) u groups /\ p ∈ role_perms s (rm_Role m)).
Proof.
  unfold EffectivePermissions, user_mappings.
  rewrite elem_of_list_to_set, elem_of_app, !list_elem_of_bind.
  destruct (repo_ListRoleMappings _) as [ms|].
  - setoid_rewrite list_elem_of_filter. unfold mappingMatchesUser. setoid_rewrite subject_matches_spec. naive_solver.
  - setoid_rewrite elem_of_nil. naive_solver.
Qed.

Lemma forallb_elem {A} (p : A -> bool) l : forallb p l = true <-> forall x, x ∈ l -> p x = true.
Proof. rewrite forallb_forall. setoid_rewrite list_elem_of_In. done. Qed.

(** The actor may hand out [name]: the role exists and the actor effectively
    holds every permission in it, or the wildcard. *)
Definition covers (s : Service R) (actor : option User) (groups : list string) (name : string) : Prop :=
  exists role, repo_GetRole name (svc_repo s) = Ok role /\
    forall p, p ∈ r_Permissions role ->
      p ∈ EffectivePermissions s actor groups \/ "*" ∈ EffectivePermissions s actor groups.

Lemma canAssignRole_spec (s : Service R) actor groups name :
  canAssignRole s actor groups name = true <-> covers s actor groups name.
Proof.
  unfold canAssignRole, covers. destruct (repo_GetRole _ _) as [role|]; [|naive_solver].
  rewrite forallb_elem. split.
  - intros Hp. exists role. split; [done|]. intros p Hin. specialize (Hp p Hin).
    case_bool_decide; subst; rewrite ?orb_true_iff, ?bool_decide_eq_true in Hp; naive_solver.
  - intros (? & [= <-] & Hp) p Hin. specialize (Hp p Hin).
    case_bool_decide; subst; rewrite ?orb_true_iff, ?bool_decide_eq_true; naive_solver.
Qed.

Lemma CanAssignRoles_covers (s : Service R) actor groups roles scope :
  CanAssignRoles s actor groups roles scope = true <->
  exists a, actor = Some a /\ (forall name, name ∈ roles -> covers s actor groups name) /\
    (scope = "" \/ scope = "*" \/ in_scope a scope).
Proof.
  unfold CanAssignRoles. destruct actor as [a|]; [|naive_solver].
  rewrite andb_true_iff, forallb_elem. setoid_rewrite canAssignRole_spec.
  assert ((if negb (bool_decide (scope = "")) && negb (bool_decide (scope = "*"))
           then hasChannelAccessList (u_Channels a) scope else true) = true <->
          scope = "" \/ scope = "*" \/ in_scope a scope) as ->.
  { repeat case_bool_decide; simpl; rewrite ?hasChannelAccessList_spec; naive_solver. }
  naive_solver.
Qed.

(** Role assignment: a batch of roles is accepted exactly when the actor
    covers each of them and reaches the requested channel; the scopes "" and "*"
    are not compared with the actor's own channels. *)
Theorem CanAssignRoles_spec (s : Service R) actor groups roles scope :
  CanAssignRoles s actor groups roles scope = true <->
  exists a, actor = Some a /\ (forall name, name ∈ roles -> covers s actor groups name) /\
    (scope = "" \/ scope = "*" \/ in_scope a scope).
Proof. exact (CanAssignRoles_covers s actor groups roles scope). Qed.

(** Channel assignment: nothing outside the actor's own channel list can be
    handed to someone else. *)
Theorem CanAssignChannels_spec actor channels :
  CanAssignChannels actor channels = true <->
  exists a, actor = Some a /\ forall c, c ∈ channels -> in_scope a c.
Proof.
  unfold CanAssignChannels. destruct actor as [a|]; [|naive_solver].
  rewrite forallb_elem. setoid_rewrite hasChannelAccessList_spec. naive_solver.
Qed.

(** The assignment guard ignores the scope of the actor's own mappings: a
    principal whose only grant is a wildcard role mapped on one channel is not an
    admin, yet may hand that role out with the scope "*". *)
Theorem scoped_wildcard_escalates (s : Service R) u groups m role :
  u_Roles u = [] ->
  repo_ListRoleMappings (svc_repo s) = Ok [m] ->
  subject_is (rm_Type m) (rm_Subject m) u groups ->
  rm_ChannelScope m <> "*" ->
  repo_GetRole (rm_Role m) (svc_repo s) = Ok role -> "*" ∈ r_Permissions role ->
  IsAdmin s (Some u) groups = false /\
  CanAssignRoles s (Some u) groups [rm_Role m] "*" = true.
Proof.
  intros Hr Hm Hs Hsc Hrole Hstar. split.
  - apply not_true_iff_false. unfold IsAdmin. rewrite UserHasPermission_granted.
    intros [n p Hin|ms m' p Hl Hin ? ? ? [Hx|[Hx _]]|acls a Hc|ch Hc]; try done.
    + rewrite Hr in Hin. by apply not_elem_of_nil in Hin.
    + rewrite Hm in Hl. injection Hl as <-. apply list_elem_of_singleton in Hin as ->. done.
  - apply CanAssignRoles_covers. exists u. split_and!; [done| |by right; left].
    intros name ->%list_elem_of_singleton. exists role. split; [done|]. intros p _. right.
    apply EffectivePermissions_elem. right. exists [m], m. unfold role_perms. rewrite Hrole. set_solver.
Qed.
End assignment.

(** ** Witnesses and concrete scenarios *)

Definition alice : User := mkUser "alice" "alice" "" [] [] [] ["build"].
Definition alice_mapping (role scope : string) : RoleMapping := mkRoleMapping "m1" "user" "alice" role scope.

(** alice holds [role] on the channel "build" only; "deploy" is another channel. *)
Definition alice_store (role : string) : Service (RaftStore mapdb) :=
  mkService (demo_store (
    <["/users/alice/" := jenc alice]> $
    <["/channels/build/" := jenc (channel_zero <| ch_ID := "build" |> <| ch_CreatedBy := "root" |>)]> $
    <["/channels/deploy/" := jenc (channel_zero <| ch_ID := "deploy" |> <| ch_CreatedBy := "root" |>)]> $
    <["/rbac/mappings/m1/" := jenc (alice_mapping role "deploy")]> ∅)) None.

Lemma scoped_wildcard_escalates_witness :
  IsAdmin (alice_store "admin") (Some alice) [] = false /\
  CanAssignRoles (alice_store "admin") (Some alice) [] ["admin"] "*" = true.
Proof.
  apply (scoped_wildcard_escalates (alice_store "admin") alice [] (alice_mapping "admin" "deploy") (mkRole "admin" ["*"])).
  - reflexivity.
  - vm_compute. reflexivity.
  - left. split; [reflexivity | left; reflexivity].
  - discriminate.
  - vm_compute. reflexivity.
  - left.
Defined.

(** The listing disagrees with the evaluator in both directions: a viewer role
    mapped on "deploy" grants reading it but the channel is not listed, and a
    wildcard role mapped on "deploy" lists "build" although every permission on
    a channel other than "deploy" is refused. *)
Theorem UserChannels_diverges :
  let bob := alice <| u_Channels := [] |> in
  (UserHasPermission (alice_store "channel_viewer") (Some bob) [] PermChannelRead "deploy" = true /\
   UserChannels (alice_store "channel_viewer") (Some bob) [] = Ok []) /\
  (UserHasPermission (alice_store "admin") (Some bob) [] PermChannelRead "build" = false /\
   UserChannels (alice_store "admin") (Some bob) [] = Ok ["build"; "deploy"]).
Proof. vm_compute. done. Qed.
