(* ===== verification/StoreTheory.v ===== *)
(** * StoreTheory: what the repository promises

    At-rest sealing is transparent; a write that succeeds is what the next read
    returns, for channels, the global configuration and users; the auth epoch
    moves; and what the code does not promise: unique usernames, and ACLs that
    die with their channel. *)

From S2P Require Import Prelude Json Domain Bolt Fsm Crypto Store Repo Authorization.

#[local] Arguments jenc : simpl never.
#[local] Arguments jdec : simpl never.

(** ** Keepers *)

Definition keeper_ok (k : CryptoKeeper) : Prop :=
  (forall kid key, ck_keys k !! kid = Some key -> String.length key = 32) /\ ascii_str (ck_primary k) = true.
Definition keeper_opt_ok (k : option CryptoKeeper) : Prop := match k with Some k => keeper_ok k | None => True end.

Lemma decode_keys_length l m m' :
  decode_keys l m = Ok m' -> (forall kid key, m !! kid = Some key -> String.length key = 32) ->
  forall kid key, m' !! kid = Some key -> String.length key = 32.
Proof.
  revert m. induction l as [|[kid b64] l IH]; intros m; [by intros [= ->]|]. simpl.
  destruct (DecodeString false b64) as [key|]; [|done].
  destruct (Nat.eqb_spec (String.length key) 32); simpl; [|done]. intros Hd Hm. apply (IH _ Hd).
  intros kid' key'. rewrite lookup_insert. case_decide; [by intros [= <-] | apply Hm].
Qed.

(** A key file that loads gives a keeper whose keys all have 32 bytes and
    whose primary key is present: Encrypt can only fail on the entropy source. *)
Theorem LoadCryptoKeeper_usable `{!Crypto} file k r plain r' e :
  LoadCryptoKeeper file = Ok k -> Encrypt k r plain = (r', Err e) -> e = rand_error.
Proof.
  unfold LoadCryptoKeeper. destruct file as [f|]; [|done]. case_match; [done|].
  intros (keys & Hd & Hp)%res_bind_Ok.
  assert (forall kid key, keys !! kid = Some key -> String.length key = 32) as Hlen.
  { apply (decode_keys_length _ _ _ Hd). intros kid key. by rewrite lookup_empty. }
  destruct (keys !! kf_Primary f) as [key|] eqn:Ek; [|done]. injection Hp as <-.
  unfold Encrypt. simpl. rewrite Ek. unfold aes_key_ok. rewrite (Hlen _ _ Ek). simpl.
  destruct (rnd_src r (rnd_pos r) 12); intros [= <- <-]. done.
Qed.

Section sealing.
Context `{!Crypto} `{!CryptoLaws} `{!JsonText} `{!JsonTextLaws}.

Lemma Encrypt_Decrypt k r plain r' ev :
  keeper_ok k -> rand_fills r -> Encrypt k r plain = (r', Ok ev) ->
  Decrypt k ev = Ok plain /\ rand_fills r' /\ js_plain (jenc ev) = true /\ Unmarshal (jenc ev) = Some ev /\
  ev_Alg ev <> "" /\ ev_Ct ev <> "".
Proof.
  intros [Hkeys Hpri] Hr. unfold Encrypt. destruct (ck_keys k !! ck_primary k) as [key|] eqn:Ek; [|done].
  destruct (aes_key_ok key) eqn:Hak; [|done]. simpl.
  destruct (rnd_src r (rnd_pos r) 12) as [nonce|] eqn:En; [|done].
  pose proof (Hr _ _ _ En) as Hn. cbn [res_bind]. intros [= <- <-].
  pose proof (EncodeToString_ascii false) as Ha.
  pose proof (EncodeToString_nonempty false) as Hne.
  pose proof (base64_roundtrip false) as Hb.
  generalize dependent (EncodeToString false). intros enc Ha Hne Hb.
  split_and!.
  - unfold Decrypt. cbn [ev_Alg ev_Ver ev_KID ev_Non ev_Ct ev_Ctx].
    change (negb (bool_decide ("A256GCM" = "A256GCM")) || negb (bool_decide (1%Z = 1%Z))) with false.
    cbv beta iota. rewrite Ek, !Hb, Hak, Hn. cbn. by rewrite open_seal.
  - exact Hr.
  - unfold jenc. simpl. by rewrite Hpri, !Ha.
  - reflexivity.
  - discriminate.
  - apply Hne, seal_not_empty. pose proof (Hkeys _ _ Ek). by destruct key.
Qed.

Lemma seal_open ko r plain r' s :
  keeper_opt_ok ko -> rand_fills r -> sealString ko r plain = (r', Ok s) ->
  openString ko s = Ok plain /\ rand_fills r'.
Proof.
  unfold sealString, openString. destruct ko as [k|]; [|by intros _ ? [= <- <-]].
  intros Hk Hr. case_bool_decide as Hp.
  - intros [= <- <-]. by rewrite bool_decide_true.
  - destruct (Encrypt k r plain) as [r1 [ev|e]] eqn:Ee; [|done]. cbn [res_bind]. intros [= <- <-].
    destruct (Encrypt_Decrypt _ _ _ _ _ Hk Hr Ee) as (Hd & Hr' & Hpl & Hu & Ha & Hc).
    rewrite bool_decide_false by apply text_not_empty.
    rewrite parse_text by done. cbn [mbind option_bind]. rewrite Hu.
    by rewrite !bool_decide_false.
Qed.

Lemma seal_sigs_open ko r l r' l' :
  keeper_opt_ok ko -> rand_fills r -> seal_sigs ko r l = (r', l', Ok tt) ->
  res_map (openString ko) l' = Ok l /\ rand_fills r'.
Proof.
  intros Hk. revert r r' l'. induction l as [|s l IH]; intros r r' l' Hr; simpl; [by intros [= <- <-]|].
  destruct (sealString ko r s) as [r1 [s1|]] eqn:E; [|done].
  destruct (seal_open _ _ _ _ _ Hk Hr E) as [Ho Hr1].
  destruct (seal_sigs ko r1 l) as [[r2 l2] x] eqn:E2. intros [= <- <- ->].
  destruct (IH _ _ _ Hr1 E2) as [IHo Hr2]. simpl. by rewrite Ho, IHo.
Qed.

Lemma open_all_none l : res_map (openString None) l = Ok l.
Proof. induction l as [|s l IH]; [done|]. cbn [res_map openString res_bind]. by rewrite IH. Qed.

(** What a sealed channel is: every field but the sealed ones is the caller's. *)
Lemma seal_channel_open ko r p r' p' :
  keeper_opt_ok ko -> rand_fills r -> sealChannel ko r p = (r', p', Ok tt) ->
  openChannel ko p' = Ok p /\ rand_fills r' /\ ch_ID p' = ch_ID p /\
  ch_MaxBodySize p' = ch_MaxBodySize p /\ ch_MessageTTLSeconds p' = ch_MessageTTLSeconds p.
Proof.
  intros Hk Hr. unfold sealChannel, openChannel. destruct ko as [k|] eqn:Eko; [|by intros [= <- <-]].
  rewrite <- Eko in *.
  destruct (sealString ko r (ch_WebhookSecret p)) as [r1 [s1|]] eqn:E1; [|done].
  destruct (seal_open _ _ _ _ _ Hk Hr E1) as [Ho1 Hr1]. cbv beta iota zeta.
  destruct (sealString ko r1 _) as [r2 [s2|]] eqn:E2; [|done].
  destruct (seal_open _ _ _ _ _ Hk Hr1 E2) as [Ho2 Hr2]. cbv beta iota zeta.
  destruct (sealString ko r2 _) as [r3 [s3|]] eqn:E3; [|done].
  destruct (seal_open _ _ _ _ _ Hk Hr2 E3) as [Ho3 Hr3]. cbv beta iota zeta.
  destruct (seal_sigs ko r3 _) as [[r4 sigs] x] eqn:E4. intros [= <- <- ->].
  destruct (seal_sigs_open _ _ _ _ _ Hk Hr3 E4) as [Ho4 Hr4].
  destruct p. cbn in *. rewrite Ho1. cbn. rewrite Ho2. cbn. rewrite Ho3. cbn. rewrite Ho4. done.
Qed.

Lemma seal_config_open ko r c r' c' :
  keeper_opt_ok ko -> rand_fills r -> sealConfig ko r c = (r', Ok c') ->
  openConfig ko c' = Ok c /\ exists s w, c' = set_default_secret w (set_session_secret s c).
Proof.
  intros Hk Hr. unfold sealConfig, openConfig. destruct ko as [k|] eqn:Eko.
  2:{ intros [= <- <-]. split; [done|]. exists (sc_SessionSecret (gc_Server c)), (dc_WebhookSecret (gc_Defaults c)).
      by destruct c as [[] []]. }
  rewrite <- Eko in *.
  destruct (sealString ko r _) as [r1 [s1|]] eqn:E1; [|done].
  destruct (seal_open _ _ _ _ _ Hk Hr E1) as [Ho1 Hr1]. cbv beta iota zeta.
  destruct (sealString ko r1 _) as [r2 [s2|]] eqn:E2; [|done].
  destruct (seal_open _ _ _ _ _ Hk Hr1 E2) as [Ho2 Hr2]. simpl. intros [= <- <-].
  split; [|by eexists _, _]. destruct c as [[] []]. cbn in *. rewrite Ho1. cbn. by rewrite Ho2.
Qed.
End sealing.

(** ** Submission *)

Section submission.
Context {DB B : Type} `{!Bolt DB B} `{!BoltLaws DB B} `{!Crypto} `{!JsonText}.
Implicit Types rs : RaftStore DB.

Definition store_ready rs : Prop :=
  fsm_ready (rs_db rs) /\ keeper_opt_ok (rs_keeper rs) /\ rand_fills (rs_rand rs).

Definition store_get rs : string -> option json := fsm_get (rs_db rs).

(** An accepted command did its writes and left the rest of the node alone. *)
Lemma submit_ok cmd rs rs' :
  fsm_ready (rs_db rs) -> submit cmd rs = (rs', Ok tt) ->
  transacted (rs_db rs) (rs_db rs') (command_writes cmd) /\
  rs_keeper rs' = rs_keeper rs /\ rs_rand rs' = rs_rand rs.
Proof.
  intros Hr. unfold submit, Apply. destruct (negb (IsLeader rs)); [done|].
  destruct (FSM_Apply (rs_db rs) (jenc cmd)) as [db' resp] eqn:Ea.
  destruct (rf_fate _ _); try done. intros Heq. apply pair_eq in Heq as [<- Hx]. simpl in Hx. subst resp.
  split; [|done]. by apply (FSM_transacted (rs_db rs) db' (jenc cmd)); [|apply cmd_roundtrip|].
Qed.

Lemma applyMulti_writes es :
  command_writes (mkCommand "set-multi" "" (Raw (Some (jenc (mkMulti es))))) = kv_write <$> es.
Proof.
  change (command_writes _) with
    (match Unmarshal (jenc (mkMulti es)) with Some p => kv_write <$> mp_Entries p | None => [] end).
  by rewrite multi_roundtrip.
Qed.

Lemma applyMulti_ok es rs rs' :
  fsm_ready (rs_db rs) -> applyMulti es rs = (rs', Ok tt) ->
  transacted (rs_db rs) (rs_db rs') (kv_write <$> es) /\
  rs_keeper rs' = rs_keeper rs /\ rs_rand rs' = rs_rand rs.
Proof. intros Hr Hs%submit_ok; [|done]. by rewrite applyMulti_writes in Hs. Qed.

(** A refused write changes no stored value, unless raft itself lost track of
    the entry. *)
Lemma submit_err cmd rs rs' e :
  submit cmd rs = (rs', Err e) ->
  rs_db rs' = rs_db rs \/ exists e, rf_fate (rs_raft rs) (rf_pos (rs_raft rs)) = CommittedUnknown e.
Proof.
  unfold submit, Apply. destruct (negb (IsLeader rs)); [intros [= <- _]; by left|].
  destruct (FSM_Apply (rs_db rs) (jenc cmd)) as [db' resp] eqn:Ea.
  destruct (rf_fate _ _) as [|e'|e'] eqn:Ef; intros Heq; apply pair_eq in Heq as [<- Hx].
  - left. simpl in Hx. subst resp. by eapply FSM_unchanged.
  - by left.
  - right. by exists e'.
Qed.

(** ** Channels *)

Lemma write_channel_stored op p rs rs' p' :
  op = "set" \/ op = "create-channel" -> store_ready rs -> write_channel op p rs = (rs', p', Ok tt) ->
  exists r sealed,
    sealChannel (rs_keeper rs) (rs_rand rs) p = (r, sealed, Ok tt) /\ ch_ID p <> "" /\
    store_get rs' (channel_key (ch_ID p)) = Some (jenc sealed) /\
    (forall k, k <> channel_key (ch_ID p) -> store_get rs' k = store_get rs k) /\
    fsm_ready (rs_db rs') /\ rs_keeper rs' = rs_keeper rs /\ rs_rand rs' = r /\
    p' = p <| ch_WebhookSignatures := ch_WebhookSignatures sealed |>.
Proof.
  intros Hop (Hr & Hk & Hrand). unfold write_channel. case_bool_decide as Hid; [done|].
  destruct (sealChannel _ _ p) as [[r sealed] [[]|]] eqn:Es; [|done].
  destruct (applyCommand _ _ _ _) as [rs1 x] eqn:Ea. intros Heq.
  apply pair_eq in Heq as [Heq ->]. apply pair_eq in Heq as [<- <-].
  unfold applyCommand in Ea. apply submit_ok in Ea as ((Hw & Hrdy & _) & Hkeep & Hrnd); [|exact Hr].
  exists r, sealed. split_and!; try done.
  - unfold store_get. rewrite Hw. destruct Hop as [-> | ->]; simpl; unfold write; simpl; by rewrite decide_True.
  - intros k Hne. unfold store_get. rewrite Hw.
    destruct Hop as [-> | ->]; simpl; unfold write; simpl; by rewrite decide_False.
  - by apply Hrdy.
Qed.

Lemma channel_key_inj a b : channel_key a = channel_key b -> a = b.
Proof. apply between_inj. Qed.

Lemma GetChannel_stored rs id :
  fsm_ready (rs_db rs) -> id <> "" ->
  GetChannel id rs =
    match store_get rs (channel_key id) with
    | None => Err (mkErr KNotFound ("channel " +:+ id))
    | Some val => res_bind (Unmarshal_err (A := Channel) val) (openChannel (rs_keeper rs))
    end.
Proof.
  intros Hr Hid. unfold GetChannel. rewrite bool_decide_false by exact Hid.
  rewrite getFSMValue_ready by exact Hr. reflexivity.
Qed.

Context `{!CryptoLaws} `{!JsonTextLaws}.

(** A successful write: the channel reads back as it was passed, every other
    channel as before, and the store stays usable. *)
Lemma write_channel_reads op rs p rs' p' :
  op = "set" \/ op = "create-channel" -> store_ready rs -> channel_wf p -> write_channel op p rs = (rs', p', Ok tt) ->
  store_ready rs' /\ GetChannel (ch_ID p) rs' = Ok p /\
  (exists sealed, store_get rs' (channel_key (ch_ID p)) = Some (jenc sealed) /\ channel_wf sealed /\ ch_ID sealed = ch_ID p) /\
  (forall id, id <> ch_ID p -> store_get rs' (channel_key id) = store_get rs (channel_key id)) /\
  forall id, id <> ch_ID p -> GetChannel id rs' = GetChannel id rs.
Proof.
  intros Hop Hrdy Hwf Hwr.
  destruct (write_channel_stored _ _ _ _ _ Hop Hrdy Hwr) as (r & sealed & Hs & Hid & Hget & Hother & Hr' & Hk & Hrnd & _).
  destruct Hrdy as (Hr & Hkeep & Hrand).
  destruct (seal_channel_open _ _ _ _ _ Hkeep Hrand Hs) as (Ho & Hrand' & Hids & Hb & Ht).
  assert (channel_wf sealed) as Hwfs by (unfold channel_wf in *; by rewrite Hb, Ht).
  assert (forall id, id <> ch_ID p -> store_get rs' (channel_key id) = store_get rs (channel_key id)) as Hoth.
  { intros id Hne. apply Hother. by intros ?%channel_key_inj. }
  assert (store_ready rs') as Hrdy' by (split; [exact Hr'|]; by rewrite Hk, Hrnd).
  split; [exact Hrdy'|]. split; [|split; [by exists sealed | split; [exact Hoth|]]].
  - rewrite GetChannel_stored, Hget by done. unfold Unmarshal_err. rewrite Unmarshal_jenc by done. simpl. by rewrite Hk.
  - intros id Hne. destruct (decide (id = "")) as [->|Hid']; [done|].
    by rewrite !GetChannel_stored, Hoth, Hk by done.
Qed.

Lemma write_channel_either rs p rs' p' x :
  CreateChannel p rs = (rs', p', x) \/ UpdateChannel p rs = (rs', p', x) ->
  exists op, (op = "set" \/ op = "create-channel") /\ write_channel op p rs = (rs', p', x).
Proof. intros [Hw|Hw]; eauto. Qed.

(** C38. Channels: after a successful create or update the channel reads back
    exactly as the caller passed it, at-rest sealing included, and every other
    channel reads as before. *)
Theorem channel_write_read rs p rs' p' :
  store_ready rs -> channel_wf p ->
  CreateChannel p rs = (rs', p', Ok tt) \/ UpdateChannel p rs = (rs', p', Ok tt) ->
  GetChannel (ch_ID p) rs' = Ok p /\
  forall id, id <> ch_ID p -> GetChannel id rs' = GetChannel id rs.
Proof.
  intros Hrdy Hwf (op & Hop & Hwr)%write_channel_either.
  by destruct (write_channel_reads _ _ _ _ _ Hop Hrdy Hwf Hwr) as (_ & ? & _ & _ & ?).
Qed.

(** The caller's own channel value is not left alone: its legacy
    webhook_signatures come back sealed, because sealing works on a shallow copy. *)
Theorem write_seals_caller rs p rs' p' :
  store_ready rs -> CreateChannel p rs = (rs', p', Ok tt) \/ UpdateChannel p rs = (rs', p', Ok tt) ->
  res_map (openString (rs_keeper rs)) (ch_WebhookSignatures p') = Ok (ch_WebhookSignatures p).
Proof.
  intros Hrdy (op & Hop & Hwr)%write_channel_either.
  destruct (write_channel_stored _ _ _ _ _ Hop Hrdy Hwr) as (r & sealed & Hs & _ & _ & _ & _ & _ & _ & ->).
  destruct Hrdy as (_ & Hkeep & Hrand). cbn [ch_WebhookSignatures set_fld].
  revert Hs. unfold sealChannel. destruct (rs_keeper rs) as [k|] eqn:Ek.
  2:{ intros [= _ <-]. apply open_all_none. }
  rewrite <- Ek in *.
  destruct (sealString _ (rs_rand rs) _) as [r1 [s1|]] eqn:E1; [|done].
  destruct (seal_open _ _ _ _ _ Hkeep Hrand E1) as [_ Hr1]. cbv beta iota zeta.
  destruct (sealString _ r1 _) as [r2 [s2|]] eqn:E2; [|done].
  destruct (seal_open _ _ _ _ _ Hkeep Hr1 E2) as [_ Hr2]. cbv beta iota zeta.
  destruct (sealString _ r2 _) as [r3 [s3|]] eqn:E3; [|done].
  destruct (seal_open _ _ _ _ _ Hkeep Hr2 E3) as [_ Hr3]. cbv beta iota zeta.
  destruct (seal_sigs _ r3 _) as [[r4 sigs] x] eqn:E4. intros Heq.
  apply pair_eq in Heq as [Heq ->]. apply pair_eq in Heq as [_ <-].
  apply (seal_sigs_open _ _ _ _ _ Hkeep Hr3) in E4. apply E4.
Qed.

(** ** Global configuration *)

Definition global_wf (c : GlobalConfig) : Prop :=
  sc_wf (gc_Server c) /\ int64_range (dc_MessageTTLSeconds (gc_Defaults c)) = true.

Lemma two_writes k1 k2 v1 v2 (m : fsm_state) :
  k1 <> k2 -> writes m [(k1, Some v1); (k2, Some v2)] k1 = Some v1 /\ writes m [(k1, Some v1); (k2, Some v2)] k2 = Some v2.
Proof. intros Hne. unfold writes, write; simpl. split; repeat case_decide; congruence. Qed.

(** Configuration: an accepted update is read back as it was given, server
    and defaults together, secrets unsealed. *)
Theorem config_write_read rs c rs' :
  store_ready rs -> global_wf c -> UpdateGlobalConfig (Some c) rs = (rs', Ok tt) -> GetGlobalConfig rs' = Ok c.
Proof.
  intros (Hr & Hk & Hrand) [Hsc Hdc]. unfold UpdateGlobalConfig.
  destruct (sealConfig _ _ c) as [r [sealed|]] eqn:Es; [|done].
  destruct (seal_config_open _ _ _ _ _ Hk Hrand Es) as [Ho (s & w & Hsealed)].
  intros ((Hw & Hrdy & _) & Hkeep & _)%applyMulti_ok; [|exact Hr].
  unfold GetGlobalConfig. rewrite !getFSMValue_ready by (by apply Hrdy).
  rewrite !Hw.
  destruct (two_writes "/global/server/" "/global/defaults/" (jenc (gc_Server sealed)) (jenc (gc_Defaults sealed))
              (fsm_get (rs_db rs)) ltac:(done)) as [Hg1 Hg2].
  change (kv_write <$> _) with
    [("/global/server/", Some (jenc (gc_Server sealed))); ("/global/defaults/", Some (jenc (gc_Defaults sealed)))].
  change (rs_db (rs <| rs_rand := r |>)) with (rs_db rs).
  rewrite Hg1. cbn [res_bind]. rewrite Unmarshal_jenc by (subst sealed; exact Hsc).
  cbn [res_bind]. rewrite Hg2. cbn [res_bind]. rewrite Unmarshal_jenc by (subst sealed; exact Hdc).
  cbn [res_bind]. rewrite Hkeep. cbn [rs_keeper set_fld]. rewrite <- Ho. f_equal. by destruct sealed.
Qed.

(** ** Users *)

Definition index_key (name : string) : string := "/users/by-username/" +:+ name +:+ "/".

Lemma index_key_eq name : usernameIndexKey name +:+ "/" = index_key name.
Proof. unfold usernameIndexKey, index_key. by rewrite str_app_assoc. Qed.

Lemma user_key_inj a b : user_key a = user_key b -> a = b.
Proof. apply between_inj. Qed.

(** A user ID without a slash is never an index entry. *)
Definition plain_id (id : string) : Prop := elem_str "/" id = false.

Lemma user_key_not_index id name : plain_id id -> user_key id <> index_key name.
Proof.
  unfold plain_id. intros Hid Heq. assert (id = "by-username/" +:+ name) as ->.
  { apply (between_inj "/users/" "/"). exact Heq. }
  by rewrite elem_str_app in Hid.
Qed.

Lemma GetUser_stored rs id :
  fsm_ready (rs_db rs) ->
  GetUser id rs = match store_get rs (user_key id) with
                  | None => Err (mkErr KNotFound ("user " +:+ id))
                  | Some val => Unmarshal_err (A := User) val
                  end.
Proof. intros Hr. unfold GetUser. by rewrite getFSMValue_ready by exact Hr. Qed.

Lemma GetUserByUsername_stored rs name id :
  fsm_ready (rs_db rs) -> store_get rs (index_key name) = Some (usernameIndexValue id) ->
  GetUserByUsername name rs = GetUser id rs.
Proof.
  intros Hr Hi. unfold GetUserByUsername. fold (index_key name). rewrite getFSMValue_ready by exact Hr.
  unfold store_get in Hi. by rewrite Hi.
Qed.

Lemma user_jenc (u : User) : Unmarshal_err (A := User) (jenc u) = Ok u.
Proof. unfold Unmarshal_err. by rewrite Unmarshal_jenc. Qed.

(** Users: a created user is found under its ID and under its username. *)
Theorem CreateUser_found rs u rs' u' :
  fsm_ready (rs_db rs) -> CreateUser u rs = (rs', u', Ok tt) -> plain_id (u_ID u') ->
  GetUser (u_ID u') rs' = Ok u' /\ GetUserByUsername (u_Username u') rs' = Ok u'.
Proof.
  intros Hr. unfold CreateUser. case_bool_decide as Hid; [done|].
  destruct (applyCommand _ _ _ _) as [rs1 x] eqn:Ea. intros Heq Hpl.
  apply pair_eq in Heq as [Heq ->]. apply pair_eq in Heq as [<- <-].
  revert Hpl Ea. generalize (if bool_decide (u_ID u = "") then u <| u_ID := u_Username u |> else u) as v.
  intros v Hpl Ea. unfold applyCommand in Ea. apply submit_ok in Ea as ((Hw & Hrdy & _) & _ & _); [|exact Hr].
  assert (command_writes (mkCommand "create-user" (user_key (u_ID v)) (Raw (Some (jenc v)))) =
          [(user_key (u_ID v), Some (jenc v)); (index_key (u_Username v), Some (usernameIndexValue (u_ID v)))]) as Hcw.
  { change (command_writes _) with
      (match Unmarshal (A := User) (jenc v) with
       | Some u => [(user_key (u_ID v), Some (jenc v)); (usernameIndexKey (u_Username u) +:+ "/", Some (usernameIndexValue (u_ID u)))]
       | None => []
       end). rewrite Unmarshal_jenc by done. by rewrite index_key_eq. }
  rewrite Hcw in Hw. destruct (two_writes _ _ (jenc v) (usernameIndexValue (u_ID v)) (fsm_get (rs_db rs))
    (user_key_not_index (u_ID v) (u_Username v) Hpl)) as [Hg1 Hg2].
  assert (GetUser (u_ID v) rs1 = Ok v) as Hgu.
  { rewrite GetUser_stored by (by apply Hrdy). unfold store_get. rewrite Hw, Hg1. apply user_jenc. }
  split; [exact Hgu|]. rewrite (GetUserByUsername_stored _ _ (u_ID v)); [exact Hgu|by apply Hrdy|].
  unfold store_get. by rewrite Hw, Hg2.
Qed.

(** Usernames are not unique: an accepted update may give a user the name
    another user already has.  Both records stay, with the same name, and the
    name now resolves to the updated user. *)
Theorem UpdateUser_takes_username rs u v rs' :
  fsm_ready (rs_db rs) -> plain_id (u_ID u) -> plain_id (u_ID v) ->
  GetUser (u_ID v) rs = Ok v -> u_ID v <> u_ID u -> u_Username v = u_Username u ->
  UpdateUser u rs = (rs', Ok tt) ->
  GetUserByUsername (u_Username u) rs' = Ok u /\ GetUser (u_ID v) rs' = Ok v.
Proof.
  intros Hr Hpu Hpv Hv Hne Hname. unfold UpdateUser.
  assert (forall k, user_key (u_ID u) = index_key k -> False) as Hu by (intros k; by apply user_key_not_index).
  assert (forall k, index_key k = user_key (u_ID v) -> False) as Hiv
    by (intros k E; symmetry in E; by apply user_key_not_index in E).
  set (old := match GetUser (u_ID u) rs with Ok _ => _ | Err _ => _ end).
  assert (old = "" \/ old <> u_Username u) as Hold.
  { unfold old. destruct (GetUser (u_ID u) rs) as [o|]; [|by left].
    repeat case_bool_decide; simpl; auto. }
  clearbody old. intros ((Hw & Hrdy & _) & _ & _)%applyMulti_ok; [|exact Hr].
  rewrite fmap_app in Hw. cbn [fmap list_fmap] in Hw. unfold kv_write at 1 2 in Hw.
  cbn [kv_Key kv_Delete kv_Value put_kv bytes_of doc default] in Hw. rewrite index_key_eq in Hw.
  assert (forall k, k = user_key (u_ID u) \/ k = index_key (u_Username u) \/ k = user_key (u_ID v) ->
            fsm_get (rs_db rs') k =
            writes (fsm_get (rs_db rs)) [(user_key (u_ID u), Some (jenc u));
              (index_key (u_Username u), Some (usernameIndexValue (u_ID u)))] k) as Hget.
  { intros k Hk. rewrite Hw, writes_app. destruct Hold as [-> | Hold]; [done|].
    case_bool_decide; [done|]. change (writes ?m (kv_write <$> _) k) with (write m (index_key old, None) k).
    unfold write at 1. simpl. rewrite decide_False; [done|].
    destruct Hk as [-> | [-> | ->]]; [intros E; symmetry in E; by eapply Hu | | intros E; by eapply Hiv].
    by intros ?%(between_inj "/users/by-username/" "/" old). }
  destruct (two_writes _ _ (jenc u) (usernameIndexValue (u_ID u)) (fsm_get (rs_db rs))
    (user_key_not_index (u_ID u) (u_Username u) Hpu)) as [Hg1 Hg2]. split.
  - rewrite (GetUserByUsername_stored _ _ (u_ID u)); [|by apply Hrdy|unfold store_get; by rewrite Hget, Hg2 by tauto].
    rewrite GetUser_stored by (by apply Hrdy). unfold store_get. rewrite Hget, Hg1 by tauto. apply user_jenc.
  - rewrite GetUser_stored in * by (by try apply Hrdy). unfold store_get in *. rewrite Hget by tauto.
    unfold writes, write; simpl. rewrite decide_False by (intros E; by eapply Hiv).
    rewrite decide_False by (intros ?%user_key_inj; congruence). exact Hv.
Qed.

(** ** The auth epoch *)

Lemma wrap64_succ_ne e : wrap64 (e + 1) <> e.
Proof.
  unfold wrap64. intros Hw. assert ((e + 1 + two63) mod two64 = e + two63)%Z as Hm by lia.
  pose proof (Z.mod_pos_bound (e + 1 + two63) two64 ltac:(done)) as Hb. rewrite Hm in Hb.
  pose proof (Z.div_mod (e + 1 + two63) two64 ltac:(done)) as Hd. rewrite Hm in Hd.
  unfold two64 in *. lia.
Qed.

Lemma BumpAuthEpoch_reads rs rs' :
  fsm_ready (rs_db rs) -> BumpAuthEpoch rs = (rs', Ok tt) ->
  exists e, GetAuthEpoch rs = Ok e /\ GetAuthEpoch rs' = Ok (wrap64 (e + 1)).
Proof.
  intros Hr. unfold BumpAuthEpoch. destruct (GetAuthEpoch rs) as [e|]; [|done].
  unfold applyCommand. intros ((Hw & Hrdy & _) & _ & _)%submit_ok; [|exact Hr].
  exists e. split; [done|].
  unfold GetAuthEpoch. rewrite getFSMValue_ready by (by apply Hrdy). rewrite Hw.
  change (writes _ _ _) with (Some (jenc (wrap64 (e + 1)))). cbn [res_bind]. unfold Unmarshal_err.
  rewrite Unmarshal_jenc; [done|]. apply wrap64_range.
Qed.

(** A successful bump moves the epoch to a different value, wrapping at the
    int64 limit instead of failing. *)
Theorem BumpAuthEpoch_moves rs rs' :
  fsm_ready (rs_db rs) -> BumpAuthEpoch rs = (rs', Ok tt) ->
  exists e e', GetAuthEpoch rs = Ok e /\ GetAuthEpoch rs' = Ok e' /\ e' = wrap64 (e + 1) /\ e' <> e.
Proof.
  intros Hr Hb. destruct (BumpAuthEpoch_reads _ _ Hr Hb) as (e & He & He').
  exists e, (wrap64 (e + 1)). by split_and!; [..|apply wrap64_succ_ne].
Qed.
End submission.

(** ** Witnesses *)

Definition demo_key : string := "0123456789abcdef0123456789abcdef".
Definition demo_keeper : CryptoKeeper := mkKeeper {[ "k1" := demo_key ]} "k1".
Definition sealing_store (m : gmap string json) : RaftStore mapdb :=
  mkStore (db_of m) (Some demo_keeper) zero_rand steady_raft.

Lemma demo_keeper_ok : keeper_ok demo_keeper.
Proof.
  split; [|reflexivity]. intros kid key. unfold demo_keeper; cbn [ck_keys].
  rewrite lookup_singleton. case_decide; [by intros [= <-] | done].
Qed.

Lemma sealing_store_ready m : store_ready (sealing_store m).
Proof. split; [apply db_of_ready|]. split; [apply demo_keeper_ok | apply zero_rand_fills]. Qed.

Definition demo_channel : Channel :=
  channel_zero <| ch_ID := "build" |> <| ch_WebhookSecret := "s3cret" |> <| ch_WebhookSignatures := ["s3cret"; "old"] |>.

Lemma LoadCryptoKeeper_usable_witness :
  let file := Ok (mkKeyFile "k1" [("k1", EncodeToString false demo_key)]) in
  let no_entropy := mkRand (fun _ _ => None) 0 in
  exists k r' e, LoadCryptoKeeper file = Ok k /\ Encrypt k no_entropy "x" = (r', Err e) /\ e = rand_error.
Proof.
  intros file no_entropy. exists demo_keeper, (no_entropy <| rnd_pos := 1 |>), rand_error.
  assert (LoadCryptoKeeper file = Ok demo_keeper) as Hl by (vm_compute; reflexivity).
  assert (Encrypt demo_keeper no_entropy "x" = (no_entropy <| rnd_pos := 1 |>, Err rand_error)) as He by reflexivity.
  split; [exact Hl|]. split; [exact He|].
  exact (LoadCryptoKeeper_usable file demo_keeper no_entropy "x" _ rand_error Hl He).
Defined.

Lemma channel_write_read_witness :
  let rs := sealing_store ∅ in
  GetChannel "build" (CreateChannel demo_channel rs).1.1 = Ok demo_channel.
Proof.
  intros rs.
  refine (proj1 (channel_write_read rs demo_channel (CreateChannel demo_channel rs).1.1
                   (CreateChannel demo_channel rs).1.2 _ _ _)).
  - apply sealing_store_ready.
  - split; reflexivity.
  - left. apply ok_triple. vm_compute. reflexivity.
Defined.

Lemma write_seals_caller_witness :
  let rs := sealing_store ∅ in
  let p' := (CreateChannel demo_channel rs).1.2 in
  ch_WebhookSignatures p' <> ["s3cret"; "old"] /\
  res_map (openString (Some demo_keeper)) (ch_WebhookSignatures p') = Ok ["s3cret"; "old"].
Proof.
  intros rs p'. split; [vm_compute; discriminate|].
  refine (write_seals_caller rs demo_channel (CreateChannel demo_channel rs).1.1 p' _ _).
  - apply sealing_store_ready.
  - left. apply ok_triple. vm_compute. reflexivity.
Defined.

Definition demo_global : GlobalConfig :=
  set_session_secret "0123456789abcdef0123456789abcdef" (set_default_secret "dflt" DefaultGlobalConfig).

Lemma config_write_read_witness :
  let rs := sealing_store ∅ in
  GetGlobalConfig (UpdateGlobalConfig (Some demo_global) rs).1 = Ok demo_global.
Proof.
  intros rs. refine (config_write_read rs demo_global (UpdateGlobalConfig (Some demo_global) rs).1 _ _ _).
  - apply sealing_store_ready.
  - split; [|reflexivity]. repeat split.
  - apply ok_pair. vm_compute. reflexivity.
Defined.

Definition mallory : User := mkUser "mallory" "mallory" "" [] [] [] [].

Lemma CreateUser_found_witness :
  let rs := demo_store ∅ in
  GetUserByUsername "mallory" (CreateUser mallory rs).1.1 = Ok mallory.
Proof.
  intros rs. refine (proj2 (CreateUser_found rs mallory (CreateUser mallory rs).1.1 (CreateUser mallory rs).1.2 _ _ _)).
  - apply db_of_ready.
  - apply ok_triple. vm_compute. reflexivity.
  - reflexivity.
Defined.

(** mallory renames herself to "alice", whose record stays. *)
Lemma UpdateUser_takes_username_witness :
  let rs := (CreateUser mallory (CreateUser alice (demo_store ∅)).1.1).1.1 in
  let u := mallory <| u_Username := "alice" |> in
  GetUserByUsername "alice" rs = Ok alice /\
  GetUserByUsername "alice" (UpdateUser u rs).1 = Ok u /\ GetUser "alice" (UpdateUser u rs).1 = Ok alice.
Proof.
  intros rs u. split; [vm_compute; reflexivity|].
  refine (UpdateUser_takes_username rs u alice (UpdateUser u rs).1 _ _ _ _ _ _ _).
  - split; [reflexivity|]. apply (bool_decide_unpack _). vm_compute. exact I.
  - reflexivity.
  - reflexivity.
  - vm_compute. reflexivity.
  - discriminate.
  - reflexivity.
  - apply ok_pair. vm_compute. reflexivity.
Defined.

Lemma BumpAuthEpoch_moves_witness :
  let rs := demo_store {[ "/meta/auth_epoch" := JNum 41 ]} in
  exists e e', GetAuthEpoch rs = Ok e /\ GetAuthEpoch (BumpAuthEpoch rs).1 = Ok e' /\ e' = wrap64 (e + 1) /\ e' <> e.
Proof.
  intros rs. refine (BumpAuthEpoch_moves rs (BumpAuthEpoch rs).1 _ _).
  - apply db_of_ready.
  - apply ok_pair. vm_compute. reflexivity.
Defined.

(** Deleting a channel leaves its ACL behind: when somebody else creates a
    channel with the same ID, the old entries apply to it. *)
Theorem deleted_channel_acl_survives :
  let grant := mkACL "" "build" "user" "alice" "write" in
  let owner := fun c => channel_zero <| ch_ID := "build" |> <| ch_CreatedBy := c |> in
  let rs := (CreateChannelRoleMapping grant (CreateChannel (owner "root") (demo_store ∅)).1.1).1.1 in
  let gone := (DeleteChannel "build" rs).1 in
  let again := (CreateChannel (owner "eve") gone).1.1 in
  let ok := fun rs => UserHasPermission (mkService rs None) (Some (alice <| u_Channels := [] |>)) [] PermChannelWrite "build" in
  errors_Is (match GetChannel "build" gone with Err e => e | Ok _ => errorf "" end) KNotFound = true /\
  ok (demo_store ∅) = false /\ ok rs = true /\ ok again = true.
Proof. vm_compute. done. Qed.
