(* ===== verification/RateLimit.v ===== *)
(** * RateLimit: internal/service/ratelimit.go

    The sliding-window limiter, the credential-failure tracker and the login
    throttle.  time.Now() is the argument [now] of each operation; the mutexes
    make an operation one step, so a history is a list of calls. *)

From S2P Require Import Prelude.

(** now.Add(-time.Duration(windowSeconds) * time.Second) *)
Definition window_start (now windowSeconds : Z) : Z := time_Add now (wrap64 (- seconds windowSeconds)).

Definition clampWindow (n : Z) : Z := if bool_decide (n <= 0)%Z then 300%Z else n.

(** [valid := times[:0]; for _, t := range times { if t.After(cutoff) {...} }] *)
Definition after (cutoff : Z) (times : list Z) : list Z := filter (fun t => cutoff < t)%Z times.

(** ** RateLimiter *)

Record RateLimiter := mkLimiter { rl_entries : gmap string (list Z); rl_lastSweep : Z }.
#[export] Instance eta_rl : Eta RateLimiter := fun x => mkLimiter (rl_entries x) (rl_lastSweep x).

Definition NewRateLimiter : RateLimiter := mkLimiter ∅ 0.

Definition expired (cutoff : Z) (times : list Z) : bool :=
  match last times with None => true | Some t => time_Before t cutoff end.

Definition rl_sweep (now windowSeconds : Z) (rl : RateLimiter) : RateLimiter :=
  rl <| rl_entries := filter (fun kv => expired (window_start now windowSeconds) kv.2 = false) (rl_entries rl) |>.

Definition rl_Sweep (now windowSeconds : Z) (rl : RateLimiter) : RateLimiter :=
  rl_sweep now (clampWindow windowSeconds) rl.

Definition rl_maybeSweep (now windowSeconds : Z) (rl : RateLimiter) : RateLimiter :=
  if negb (time_IsZero (rl_lastSweep rl)) && bool_decide (time_Sub now (rl_lastSweep rl) < seconds windowSeconds)%Z
  then rl
  else rl_sweep now windowSeconds (rl <| rl_lastSweep := now |>).

Definition entries_of (rl : RateLimiter) (ip : string) : list Z := default [] (rl_entries rl !! ip).

Definition rl_Allow (now : Z) (ip : string) (maxRequests windowSeconds : Z) (rl : RateLimiter) : RateLimiter * bool :=
  let rl := rl_maybeSweep now (clampWindow windowSeconds) rl in
  let valid := after (window_start now windowSeconds) (entries_of rl ip) in
  if bool_decide (maxRequests <= Z.of_nat (length valid))%Z
  then (rl <| rl_entries := <[ip := valid]> (rl_entries rl) |>, false)
  else (rl <| rl_entries := <[ip := valid ++ [now]]> (rl_entries rl) |>, true).

(** ** LoginThrottle *)

Definition LoginThrottle := gmap string (list Z).

Definition lt_Allow (now : Z) (key : string) (maxAttempts windowSeconds : Z) (lt : LoginThrottle) : LoginThrottle * bool :=
  let maxAttempts := if bool_decide (maxAttempts <= 0)%Z then 10%Z else maxAttempts in
  let valid := after (window_start now (clampWindow windowSeconds)) (default [] (lt !! key)) in
  if bool_decide (maxAttempts <= Z.of_nat (length valid))%Z
  then (<[key := valid]> lt, false)
  else (<[key := valid ++ [now]]> lt, true).

Definition lt_Clear (key : string) (lt : LoginThrottle) : LoginThrottle := delete key lt.

(** ** BanTracker *)

Record banEntry := mkBan { be_fingerprint : string; be_timestamp : Z }.
Record BanTracker := mkTracker {
  bt_failures : gmap string (list banEntry); bt_banned : gmap string Z; bt_lastSweep : Z }.
#[export] Instance eta_bt : Eta BanTracker := fun x => mkTracker (bt_failures x) (bt_banned x) (bt_lastSweep x).
Record BanInfo := mkBanInfo { bi_IP : string; bi_Until : Z; bi_UniqueFailures : nat }.

Definition NewBanTracker : BanTracker := mkTracker ∅ ∅ 0.

Definition failures_of (bt : BanTracker) (ip : string) : list banEntry := default [] (bt_failures bt !! ip).
Definition fresh (cutoff : Z) (l : list banEntry) : list banEntry := filter (fun e => cutoff < be_timestamp e)%Z l.
Definition fingerprints (l : list banEntry) : gset string := list_to_set (be_fingerprint <$> l).

Definition recordFailureLocked (ip fingerprint : string) (windowSeconds now : Z) (bt : BanTracker) : BanTracker :=
  let windowStart := window_start now windowSeconds in
  let entries := failures_of bt ip in
  if any (fun e => time_After (be_timestamp e) windowStart && bool_decide (be_fingerprint e = fingerprint)) entries
  then bt
  else bt <| bt_failures := <[ip := fresh windowStart entries ++ [mkBan fingerprint now]]> (bt_failures bt) |>.

Definition IsBanned (now : Z) (ip : string) (bt : BanTracker) : BanTracker * bool :=
  match bt_banned bt !! ip with
  | None => (bt, false)
  | Some until =>
      if time_Before now until then (bt, true)
      else (bt <| bt_banned := delete ip (bt_banned bt) |>, false)
  end.

(** [bt.failures[ip] = valid] stores an entry even when there was none. *)
Definition banIfSuspiciousLocked (ip : string) (maxUniqueFailures banDurationSeconds windowSeconds now : Z)
    (bt : BanTracker) : BanTracker * bool :=
  let valid := filter (fun e => time_Sub now (be_timestamp e) <= seconds windowSeconds)%Z (failures_of bt ip) in
  let bt := bt <| bt_failures := <[ip := valid]> (bt_failures bt) |> in
  if bool_decide (maxUniqueFailures <= Z.of_nat (size (fingerprints valid)))%Z
  then (bt <| bt_banned := <[ip := time_Add now (seconds banDurationSeconds)]> (bt_banned bt) |>, true)
  else (bt, false).

Definition bt_sweep (now windowSeconds : Z) (bt : BanTracker) : BanTracker :=
  let cutoff := window_start now windowSeconds in
  bt <| bt_failures := filter (fun kv => kv.2 <> []) (fresh cutoff <$> bt_failures bt) |>
     <| bt_banned := filter (fun kv => time_Before now kv.2 = true) (bt_banned bt) |>.

Definition bt_Sweep (now windowSeconds : Z) (bt : BanTracker) : BanTracker :=
  bt_sweep now (clampWindow windowSeconds) (bt <| bt_lastSweep := now |>).

Definition bt_maybeSweepLocked (now windowSeconds : Z) (bt : BanTracker) : BanTracker :=
  if negb (time_IsZero (bt_lastSweep bt)) && bool_decide (time_Sub now (bt_lastSweep bt) < seconds windowSeconds)%Z
  then bt
  else bt_sweep now windowSeconds (bt <| bt_lastSweep := now |>).

Definition recordAndBan (now : Z) (ip fingerprint : string) (maxUniqueFailures banDurationSeconds windowSeconds : Z)
    (bt : BanTracker) : BanTracker :=
  let bt := bt_maybeSweepLocked now windowSeconds bt in
  let bt := recordFailureLocked ip fingerprint windowSeconds now bt in
  (banIfSuspiciousLocked ip maxUniqueFailures banDurationSeconds windowSeconds now bt).1.

(** The list is in map iteration order; expired bans are dropped on the way. *)
Definition ListBans (now : Z) (bt : BanTracker) : BanTracker * list BanInfo :=
  let live := filter (fun kv => time_Before now kv.2 = true) (bt_banned bt) in
  (bt <| bt_banned := live |>,
   (fun kv => mkBanInfo kv.1 kv.2 (size (fingerprints (failures_of bt kv.1)))) <$> map_to_list live).

Definition Unban (ip : string) (bt : BanTracker) : BanTracker :=
  bt <| bt_banned := delete ip (bt_banned bt) |>.

(** ** Arithmetic of the window *)

Definition small_window (w : Z) : Prop := (0 < w <= 9223372036)%Z.

Lemma window_start_small now w : small_window w -> window_start now w = (now - w * second)%Z.
Proof.
  intros Hw. unfold window_start, time_Add. rewrite seconds_small by (unfold small_window in Hw; lia).
  rewrite wrap64_id; [lia|]. apply bool_decide_eq_true. unfold small_window, second, two63 in *. lia.
Qed.

Lemma clamp_small w : small_window w -> clampWindow w = w.
Proof. unfold small_window, clampWindow. intros ?. by rewrite bool_decide_false by lia. Qed.

Lemma after_after c1 c2 l : (c2 <= c1)%Z -> after c1 (after c2 l) = after c1 l.
Proof. intros H. apply filter_idemp_impl. intros x Hx. lia. Qed.

Lemma after_app c l1 l2 : after c (l1 ++ l2) = after c l1 ++ after c l2.
Proof. apply filter_app. Qed.

Lemma after_nil c l : (forall t, t ∈ l -> t <= c)%Z -> after c l = [].
Proof. intros H. apply filter_none. intros x Hx. specialize (H x Hx). lia. Qed.

(** ** Histories of the limiter *)

(** The requests admitted so far, oldest first, beside the limiter. *)
Definition limiter_step (max w : Z) (st : RateLimiter * list (string * Z)) (call : Z * string)
  : RateLimiter * list (string * Z) :=
  let (rl, ok) := rl_Allow call.1 call.2 max w st.1 in
  (rl, if ok then st.2 ++ [(call.2, call.1)] else st.2).

Definition limiter_run (max w : Z) (calls : list (Z * string)) : RateLimiter * list (string * Z) :=
  fold_left (limiter_step max w) calls (NewRateLimiter, []).

Definition times_of (ip : string) (adm : list (string * Z)) : list Z := (filter (fun x => x.1 = ip) adm).*2.

(** Requests of [ip] admitted in the window (t - w, t]. *)
Definition in_window (w t : Z) (l : list Z) : list Z := filter (fun s => t - w < s /\ s <= t)%Z l.

Record limiter_inv (max W T : Z) (st : RateLimiter * list (string * Z)) : Prop := {
  inv_past : forall ip t, t ∈ times_of ip st.2 -> (t <= T)%Z;
  inv_recent : forall ip c, (T - W <= c)%Z -> after c (entries_of st.1 ip) = after c (times_of ip st.2);
  inv_sorted : forall ip, StronglySorted Z.le (entries_of st.1 ip);
  inv_old : forall ip t, t ∈ entries_of st.1 ip -> (t <= T)%Z;
  inv_bound : forall ip t, (Z.of_nat (length (in_window W t (times_of ip st.2))) <= max)%Z
}.

Lemma times_of_snoc ip adm i t : times_of ip (adm ++ [(i, t)]) = times_of ip adm ++ (if decide (i = ip) then [t] else []).
Proof.
  unfold times_of. rewrite filter_app, fmap_app, filter_cons, filter_nil. simpl.
  destruct (decide (i = ip)); done.
Qed.

Lemma sorted_filter (P : Z -> Prop) `{!∀ x, Decision (P x)} l : StronglySorted Z.le l -> StronglySorted Z.le (filter P l).
Proof.
  induction 1 as [|x l Hs IH Hx]; [constructor|]. rewrite filter_cons. case_decide; [|done].
  constructor; [done|]. apply Forall_forall. intros y [_ Hy]%list_elem_of_filter. by apply (proj1 (Forall_forall _ _) Hx).
Qed.

Lemma sorted_before l1 l2 x y : StronglySorted Z.le (l1 ++ l2) -> x ∈ l1 -> y ∈ l2 -> (x <= y)%Z.
Proof.
  intros Hs Hx Hy. induction l1 as [|z l IH]; [by apply not_elem_of_nil in Hx|].
  simpl in Hs. inversion Hs as [|? ? Hs' Hall]; subst. apply elem_of_cons in Hx as [->|Hx]; [|auto].
  apply (proj1 (Forall_forall _ _) Hall). apply elem_of_app. by right.
Qed.

Lemma sorted_app_l l1 l2 : StronglySorted Z.le (l1 ++ l2) -> StronglySorted Z.le l1.
Proof.
  induction l1 as [|z l IH]; intros Hs; [constructor|]. simpl in Hs. inversion Hs as [|? ? Hs' Hall]; subst.
  constructor; [auto|]. by apply Forall_app in Hall as [? _].
Qed.

Lemma sorted_snoc l x : StronglySorted Z.le l -> (forall y, y ∈ l -> (y <= x)%Z) -> StronglySorted Z.le (l ++ [x]).
Proof.
  induction 1 as [|y l Hs IH Hy]; intros Hl; simpl; [repeat constructor|]. constructor.
  - apply IH. intros z Hz. apply Hl. by right.
  - apply Forall_app. split; [done|]. repeat constructor. apply Hl. by left.
Qed.

(** An expired entry list has nothing in the window. *)
Lemma expired_after c c' l : (c <= c')%Z -> StronglySorted Z.le l -> expired c l = true -> after c' l = [].
Proof.
  intros Hc Hs He. apply after_nil. intros t Ht. unfold expired in He.
  destruct (last l) as [m|] eqn:El.
  - apply last_Some in El as [l' ->]. apply bool_decide_eq_true in He.
    assert (t <= m)%Z; [|lia]. apply elem_of_app in Ht as [Ht|Ht]; [|apply list_elem_of_singleton in Ht; lia].
    apply (sorted_before _ _ _ _ Hs Ht). by left.
  - apply last_None in El as ->. by apply not_elem_of_nil in Ht.
Qed.

Section limiter.
Context (max w : Z) (Hw : small_window w).
Let W : Z := (w * second)%Z.

Lemma entries_sweep now rl ip :
  entries_of (rl_sweep now w rl) ip =
  if expired (now - W) (entries_of rl ip) then [] else entries_of rl ip.
Proof.
  unfold entries_of, rl_sweep. cbn [rl_entries set_fld]. rewrite window_start_small by done. fold W.
  destruct (rl_entries rl !! ip) as [l|] eqn:El; simpl.
  - destruct (expired (now - W) l) eqn:E.
    + rewrite map_lookup_filter_None_2; [done|]. right. intros x Hx. simpl. congruence.
    + by rewrite (map_lookup_filter_Some_2 _ _ _ l) by done.
  - by rewrite map_lookup_filter_None_2 by (by left).
Qed.

Lemma maybeSweep_inv T now st :
  (T <= now)%Z -> limiter_inv max W T st -> limiter_inv max W now (rl_maybeSweep now w st.1, st.2).
Proof.
  intros Hn [Hp Hr Hs Ho Hb].
  assert (forall rl', (forall ip, entries_of rl' ip = entries_of st.1 ip) \/
                      (forall ip, entries_of rl' ip = if expired (now - W) (entries_of st.1 ip) then [] else entries_of st.1 ip) ->
          limiter_inv max W now (rl', st.2)) as Hinv.
  { intros rl' Hrl. split; simpl.
    - intros ip t Ht. specialize (Hp ip t Ht). lia.
    - intros ip c Hc. rewrite <- Hr by lia. destruct Hrl as [Hrl|Hrl]; rewrite Hrl; [done|].
      destruct (expired _ _) eqn:E; [|done]. symmetry. by apply (expired_after (now - W)).
    - intros ip. destruct Hrl as [Hrl|Hrl]; rewrite Hrl; [done|]. case_match; [constructor|done].
    - intros ip t. destruct Hrl as [Hrl|Hrl]; rewrite Hrl; [intros Ht; specialize (Ho ip t Ht); lia|].
      case_match; [by intros ?%not_elem_of_nil|]. intros Ht. specialize (Ho ip t Ht). lia.
    - exact Hb. }
  apply Hinv. unfold rl_maybeSweep. case_match; [by left|]. right. intros ip. exact (entries_sweep now (st.1 <| rl_lastSweep := now |>) ip).
Qed.

Lemma Allow_answer now ip st :
  limiter_inv max W now st ->
  (rl_Allow now ip max w st.1).2 = true <->
  (Z.of_nat (length (in_window W now (times_of ip st.2))) < max)%Z.
Proof.
  intros Hinv. apply (maybeSweep_inv now now) in Hinv; [|lia]. destruct Hinv as [Hp Hr _ _ _]. cbn [fst snd] in *.
  unfold rl_Allow. rewrite clamp_small, window_start_small by done. fold W.
  rewrite Hr by lia. unfold in_window.
  assert (after (now - W) (times_of ip st.2) = filter (fun s => now - W < s /\ s <= now)%Z (times_of ip st.2)) as ->.
  { apply filter_iff_elem. intros t Ht. specialize (Hp ip t Ht). lia. }
  case_bool_decide; simpl; split; intros; try done; lia.
Qed.

Lemma entries_insert rl ip l i :
  entries_of (rl <| rl_entries := <[ip := l]> (rl_entries rl) |>) i = if decide (ip = i) then l else entries_of rl i.
Proof. unfold entries_of. cbn [rl_entries set_fld]. rewrite lookup_insert. by case_decide. Qed.

(** An admitted request keeps every window within the quota. *)
Lemma bound_snoc now l t :
  (forall s, s ∈ l -> (s <= now)%Z) ->
  (forall t, (Z.of_nat (length (in_window W t l)) <= max)%Z) ->
  (Z.of_nat (length (after (now - W) l)) < max)%Z ->
  (Z.of_nat (length (in_window W t (l ++ [now]))) <= max)%Z.
Proof.
  intros Hp Hb Hc. unfold in_window. rewrite filter_app, length_app, filter_cons, filter_nil.
  case_decide as Ht; [|cbn [length]; specialize (Hb t); unfold in_window in Hb; lia]. cbn [length].
  assert (length (filter (fun s => t - W < s /\ s <= t)%Z l) <= length (after (now - W) l)); [|lia].
  rewrite <- (filter_idemp_impl _ (fun s => now - W < s)%Z) by lia. apply filter_length_le.
Qed.

Lemma step_inv T now ip st :
  (T <= now)%Z -> limiter_inv max W T st -> limiter_inv max W now (limiter_step max w st (now, ip)).
Proof.
  intros Hn Hinv. apply (maybeSweep_inv T now) in Hinv; [|done].
  unfold limiter_step, rl_Allow. cbn [fst snd]. rewrite clamp_small, window_start_small by done. fold W.
  destruct st as [rl adm]. cbn [fst snd] in *. revert Hinv. generalize (rl_maybeSweep now w rl) as rl'. clear rl.
  intros rl [Hp Hr Hs Ho Hb]. cbn [fst snd] in *.
  set (valid := after (now - W) (entries_of rl ip)).
  assert (forall i t, t ∈ (if decide (ip = i) then valid else entries_of rl i) -> (t <= now)%Z) as Hval.
  { intros i t. case_decide; [|apply Ho]. intros [_ Ht]%list_elem_of_filter. by apply (Ho ip). }
  case_bool_decide as Hfull; cbn [fst snd]; split; cbn [fst snd].
  - exact Hp.
  - intros i c Hc. rewrite entries_insert. case_decide; subst; [|by apply Hr]. unfold valid.
    rewrite after_after by lia. by apply Hr.
  - intros i. rewrite entries_insert. case_decide; subst; [by apply sorted_filter | apply Hs].
  - intros i t. rewrite entries_insert. apply Hval.
  - exact Hb.
  - intros i t. rewrite times_of_snoc. intros [Ht|Ht]%elem_of_app; [by apply Hp in Ht|].
    case_decide; [apply list_elem_of_singleton in Ht; lia | by apply not_elem_of_nil in Ht].
  - intros i c Hc. rewrite entries_insert, times_of_snoc, after_app.
    destruct (decide (ip = i)) as [->|]; [|rewrite app_nil_r; by apply Hr].
    rewrite after_app. f_equal. unfold valid. rewrite after_after by lia. by apply Hr.
  - intros i. rewrite entries_insert. case_decide; [|apply Hs]. apply sorted_snoc; [by apply sorted_filter|].
    intros y [_ Hy]%list_elem_of_filter. by apply (Ho ip).
  - intros i t. rewrite entries_insert. case_decide; [|apply Ho].
    intros [[_ Ht]%list_elem_of_filter|Ht]%elem_of_app; [by apply (Ho ip)|apply list_elem_of_singleton in Ht; lia].
  - intros i t. rewrite times_of_snoc. destruct (decide (ip = i)) as [<-|]; [|rewrite app_nil_r; apply Hb].
    apply bound_snoc; [apply Hp | apply Hb|]. unfold valid in Hfull. rewrite Hr in Hfull by lia. lia.
Qed.

Lemma run_inv calls T st :
  StronglySorted Z.le (T :: calls.*1) -> limiter_inv max W T st ->
  exists T', (forall now, (forall t, t ∈ T :: calls.*1 -> (t <= now)%Z) -> (T' <= now)%Z) /\
    limiter_inv max W T' (fold_left (limiter_step max w) calls st).
Proof.
  revert T st. induction calls as [|[now ip] calls IH]; intros T st Hs Hinv; simpl in *.
  - exists T. split; [|done]. intros now H. apply H. by left.
  - inversion Hs as [|? ? Hs' Hall]; subst. apply Forall_cons in Hall as [HT Hall].
    destruct (IH now (limiter_step max w st (now, ip)) Hs') as (T' & Hle & Hinv').
    + by apply (step_inv T).
    + exists T'. split; [|done]. intros n Hall'. apply Hle. intros t Ht. apply Hall'. by right.
Qed.

Lemma empty_inv T : (0 <= max)%Z -> limiter_inv max W T (NewRateLimiter, []).
Proof.
  intros Hm. split; cbn [fst snd]; intros ip; unfold entries_of, NewRateLimiter; cbn [rl_entries];
    rewrite ?lookup_empty; simpl; try done; try constructor; intros t; by intros ?%not_elem_of_nil.
Qed.

Lemma history_inv calls now :
  (0 <= max)%Z -> StronglySorted Z.le (calls.*1 ++ [now]) ->
  limiter_inv max W now (limiter_run max w calls).
Proof.
  intros Hm Hs.
  assert (exists T, StronglySorted Z.le (T :: calls.*1) /\ forall t, t ∈ T :: calls.*1 -> (t <= now)%Z) as (T & Hs' & Hall).
  { destruct (calls.*1) as [|t l] eqn:Ec.
    - exists now. split; [repeat constructor|]. intros t ->%list_elem_of_singleton. lia.
    - exists t. split; [|intros x Hx; apply (sorted_before _ _ _ _ Hs); [|by left]].
      + apply sorted_app_l in Hs. constructor; [done|]. constructor; [lia|]. by inversion Hs.
      + apply elem_of_cons in Hx as [->|Hx]; [by left|done]. }
  destruct (run_inv calls T (NewRateLimiter, []) Hs' (empty_inv T Hm)) as (T' & Hle & Hinv).
  specialize (Hle now Hall). unfold limiter_run.
  destruct Hinv as [Hp Hr Hso Ho Hb]. split; try done.
  - intros ip t Ht. specialize (Hp ip t Ht). lia.
  - intros ip c Hc. apply Hr. lia.
  - intros ip t Ht. specialize (Ho ip t Ht). lia.
Qed.
End limiter.

(** Quota: whatever the interleaving of clients and the sweeps in between, as
    long as the clock does not go back, no client ever gets more than
    [max] requests admitted in any window of [w] seconds, past or present. *)
Theorem RateLimiter_bound max w calls ip t :
  small_window w -> (0 <= max)%Z -> StronglySorted Z.le calls.*1 ->
  (Z.of_nat (length (in_window (w * second) t (times_of ip (limiter_run max w calls).2))) <= max)%Z.
Proof.
  intros Hw Hm Hs. destruct calls as [|[t0 i0] calls].
  - apply (inv_bound max _ 0 (limiter_run max w [])). by apply empty_inv.
  - destruct (run_inv max w Hw ((t0, i0) :: calls) t0 (NewRateLimiter, [])) as (T' & _ & Hinv).
    + simpl in *. inversion Hs as [|? ? Hs' Hall]; subst. constructor; [by constructor|]. by constructor.
    + by apply empty_inv.
    + apply Hinv.
Qed.

(** Exactness: a request is refused if and only if [max] requests of the same
    client were admitted in the window that ends now. *)
Theorem RateLimiter_exact max w calls now ip :
  small_window w -> (0 <= max)%Z -> StronglySorted Z.le (calls.*1 ++ [now]) ->
  let st := limiter_run max w calls in
  (rl_Allow now ip max w st.1).2 = true <->
  (Z.of_nat (length (in_window (w * second) now (times_of ip st.2))) < max)%Z.
Proof. intros Hw Hm Hs st. apply (Allow_answer max w Hw). by apply history_inv. Qed.

(** ** Histories of the ban tracker *)

(** Calls of recordAndBan: (now, ip, fingerprint). *)
Definition tracker_run (max dur w : Z) (calls : list (Z * string * string)) (bt : BanTracker) : BanTracker :=
  fold_left (fun bt call => recordAndBan call.1.1 call.1.2 call.2 max dur w bt) calls bt.

Lemma failures_sweep now w bt ip :
  failures_of (bt_sweep now w bt) ip = fresh (window_start now w) (failures_of bt ip).
Proof.
  unfold failures_of, bt_sweep. cbn [bt_failures set_fld].
  destruct (bt_failures bt !! ip) as [l|] eqn:El; simpl.
  - destruct (decide (fresh (window_start now w) l = [])) as [E|E].
    + rewrite map_lookup_filter_None_2; [by rewrite E|]. right. intros x Hx. rewrite lookup_fmap, El in Hx.
      injection Hx as <-. simpl. auto.
    + rewrite (map_lookup_filter_Some_2 _ _ _ (fresh (window_start now w) l)); [done| |done].
      by rewrite lookup_fmap, El.
  - rewrite map_lookup_filter_None_2; [done|]. left. by rewrite lookup_fmap, El.
Qed.

Lemma failures_maybeSweep now w bt ip :
  failures_of (bt_maybeSweepLocked now w bt) ip = failures_of bt ip \/
  failures_of (bt_maybeSweepLocked now w bt) ip = fresh (window_start now w) (failures_of bt ip).
Proof. unfold bt_maybeSweepLocked. case_match; [by left|]. right. by rewrite failures_sweep. Qed.

Lemma banned_maybeSweep now w bt ip : bt_banned bt !! ip = None -> bt_banned (bt_maybeSweepLocked now w bt) !! ip = None.
Proof.
  intros Hb. unfold bt_maybeSweepLocked. case_match; [done|]. unfold bt_sweep. cbn [bt_banned set_fld].
  apply map_lookup_filter_None_2. by left.
Qed.

Lemma failures_insert bt ip l i :
  failures_of (bt <| bt_failures := <[ip := l]> (bt_failures bt) |>) i = if decide (ip = i) then l else failures_of bt i.
Proof. unfold failures_of. cbn [bt_failures set_fld]. rewrite lookup_insert. by case_decide. Qed.

Lemma failures_record ip fp w now bt i :
  failures_of (recordFailureLocked ip fp w now bt) i = failures_of bt i \/
  (i = ip /\ failures_of (recordFailureLocked ip fp w now bt) i =
     fresh (window_start now w) (failures_of bt ip) ++ [mkBan fp now]).
Proof.
  unfold recordFailureLocked. case_match; [by left|]. rewrite failures_insert. case_decide; [by right | by left].
Qed.

Lemma banned_record ip fp w now bt : bt_banned (recordFailureLocked ip fp w now bt) = bt_banned bt.
Proof. unfold recordFailureLocked. by case_match. Qed.

Definition only_fingerprint (fp : string) (l : list banEntry) : Prop := forall e, e ∈ l -> be_fingerprint e = fp.

Lemma only_filter fp l (P : banEntry -> Prop) `{!∀ x, Decision (P x)} : only_fingerprint fp l -> only_fingerprint fp (filter P l).
Proof. intros Ho e [_ He]%list_elem_of_filter. by apply Ho. Qed.

Lemma only_size fp l : only_fingerprint fp l -> size (fingerprints l) <= 1.
Proof.
  intros Ho. rewrite <- (size_singleton (C := gset string) fp). apply subseteq_size.
  intros x [e [-> He]]%elem_of_list_to_set%list_elem_of_fmap. rewrite (Ho e He). set_solver.
Qed.

Lemma same_step max dur w now ip' fp' ip fp bt :
  (2 <= max)%Z -> (ip' = ip -> fp' = fp) ->
  only_fingerprint fp (failures_of bt ip) -> bt_banned bt !! ip = None ->
  only_fingerprint fp (failures_of (recordAndBan now ip' fp' max dur w bt) ip) /\
  bt_banned (recordAndBan now ip' fp' max dur w bt) !! ip = None.
Proof.
  intros Hm Hsame Ho Hb. unfold recordAndBan.
  assert (only_fingerprint fp (failures_of (bt_maybeSweepLocked now w bt) ip)) as Ho1.
  { destruct (failures_maybeSweep now w bt ip) as [-> | ->]; [done|]. by apply only_filter. }
  apply (banned_maybeSweep now w) in Hb. revert Ho1 Hb. generalize (bt_maybeSweepLocked now w bt) as b1. clear bt Ho.
  intros b1 Ho Hb.
  assert (only_fingerprint fp (failures_of (recordFailureLocked ip' fp' w now b1) ip)) as Ho2.
  { destruct (failures_record ip' fp' w now b1 ip) as [-> | [Heq ->]]; [done|]. subst ip'.
    intros e [He|He]%elem_of_app; [by apply (only_filter _ _ _ Ho) in He|].
    apply list_elem_of_singleton in He as ->. by apply Hsame. }
  rewrite <- (banned_record ip' fp' w now b1) in Hb. revert Ho2 Hb.
  generalize (recordFailureLocked ip' fp' w now b1) as b2. clear b1 Ho. intros b2 Ho Hb.
  unfold banIfSuspiciousLocked. set (valid := filter _ (failures_of b2 ip')).
  assert (only_fingerprint fp (if decide (ip' = ip) then valid else failures_of b2 ip)) as Ho3.
  { case_decide; subst; [by apply only_filter | done]. }
  case_bool_decide as Hfull; cbn [fst].
  - change (failures_of (set_fld bt_banned _ ?b) ip) with (failures_of b ip). rewrite failures_insert. split; [done|].
    cbn [bt_banned set_fld]. destruct (decide (ip' = ip)) as [->|Hne]; [|by rewrite lookup_insert_ne].
    pose proof (only_size fp valid Ho3). lia.
  - rewrite failures_insert. by split.
Qed.

(** The same credential failing over and over never bans its client: with a
    threshold of two or more, a client whose failures all carry one fingerprint
    is not banned, whatever other clients do. *)
Theorem same_credential_never_banned max dur w calls ip fp now :
  (2 <= max)%Z -> (forall c, c ∈ calls -> c.1.2 = ip -> c.2 = fp) ->
  (IsBanned now ip (tracker_run max dur w calls NewBanTracker)).2 = false.
Proof.
  intros Hm Hsame.
  assert (forall bt, only_fingerprint fp (failures_of bt ip) -> bt_banned bt !! ip = None ->
          bt_banned (tracker_run max dur w calls bt) !! ip = None) as Hrun.
  { induction calls as [|c calls IH]; intros bt Ho Hb; [done|]. simpl.
    destruct (same_step max dur w c.1.1 c.1.2 c.2 ip fp bt Hm) as [Ho' Hb']; [apply Hsame; by left|done|done|].
    apply IH; [|done|done]. intros c' Hc'. apply Hsame. by right. }
  unfold IsBanned. rewrite Hrun; [done| |apply lookup_empty].
  intros e. unfold failures_of, NewBanTracker. simpl. rewrite lookup_empty. by intros ?%not_elem_of_nil.
Qed.

(** The failures of [done] are all on record for [ip]. *)
Definition on_record (bt : BanTracker) (ip : string) (l : list (Z * string)) : Prop :=
  forall t fp, (t, fp) ∈ l -> mkBan fp t ∈ failures_of bt ip.

(** No failure of [ip] carries a fingerprint outside [l]. *)
Definition covered (bt : BanTracker) (ip : string) (l : list (Z * string)) : Prop :=
  forall e, e ∈ failures_of bt ip -> be_fingerprint e ∈ l.*2.

Lemma fresh_keeps c l e : e ∈ l -> (c < be_timestamp e)%Z -> e ∈ fresh c l.
Proof. intros He Hc. by apply list_elem_of_filter. Qed.

Lemma fresh_sub c l e : e ∈ fresh c l -> e ∈ l.
Proof. by intros [_ ?]%list_elem_of_filter. Qed.

Section banning.
Context (max dur w : Z) (Hw : small_window w) (ip : string).
Let W : Z := (w * second)%Z.

(** A fingerprint that is not on record is added to what is still fresh. *)
Lemma record_new now fp b : window_start now w = (now - W)%Z -> (forall e, e ∈ failures_of b ip -> be_fingerprint e <> fp) ->
  failures_of (recordFailureLocked ip fp w now b) ip = fresh (now - W) (failures_of b ip) ++ [mkBan fp now].
Proof.
  intros Hws Hnew. unfold recordFailureLocked. rewrite Hws. case_match eqn:E.
  - exfalso. apply any_true in E as (e & He & Hb). gobool. destruct Hb as [_ Hb]. by apply (Hnew e).
  - rewrite failures_insert. by rewrite decide_True.
Qed.

(** Everything recorded by now is still inside the window. *)
Lemma still_valid now (l : list (Z * string)) : (forall t f, (t, f) ∈ l -> (t <= now /\ now < t + W)%Z) -> forall t f fp, (t, f) ∈ l ++ [(now, fp)] ->
  (time_Sub now t <= seconds w)%Z.
Proof.
  intros Ht t f fp Hin. assert (0 <= now - t < W)%Z as Hd.
  { apply elem_of_app in Hin as [Hin|Hin]; [specialize (Ht t f Hin); lia|].
    apply list_elem_of_singleton in Hin as [= -> ->]. unfold W, small_window, second in *. lia. }
  unfold time_Sub. rewrite seconds_small by (unfold small_window in Hw; lia). fold W.
  unfold W, second, two63 in *. unfold small_window in Hw. lia.
Qed.

Lemma distinct_step now fp bt l :
  (forall t f, (t, f) ∈ l -> (t <= now /\ now < t + W)%Z) -> fp ∉ l.*2 ->
  on_record bt ip l -> covered bt ip l ->
  let bt' := recordAndBan now ip fp max dur w bt in
  on_record bt' ip (l ++ [(now, fp)]) /\ covered bt' ip (l ++ [(now, fp)]) /\
  ((max <= Z.of_nat (length l) + 1)%Z -> NoDup l.*2 -> bt_banned bt' !! ip = Some (time_Add now (seconds dur))).
Proof.
  intros Ht Hfp Hr Hc. cbv zeta. unfold recordAndBan.
  assert (window_start now w = now - W)%Z as Hws by (by apply window_start_small).
  assert (on_record (bt_maybeSweepLocked now w bt) ip l /\ covered (bt_maybeSweepLocked now w bt) ip l) as [Hr1 Hc1].
  { destruct (failures_maybeSweep now w bt ip) as [E|E]; unfold on_record, covered; rewrite E; [done|]. split.
    - intros t f Hin. apply fresh_keeps; [by apply Hr|]. specialize (Ht t f Hin). simpl. lia.
    - intros e ?%fresh_sub. by apply Hc. }
  revert Hr1 Hc1. generalize (bt_maybeSweepLocked now w bt) as b1. clear bt Hr Hc. intros b1 Hr Hc.
  assert (failures_of (recordFailureLocked ip fp w now b1) ip = fresh (now - W) (failures_of b1 ip) ++ [mkBan fp now]) as Hrec.
  { apply record_new; [done|]. intros e He <-. apply Hfp. by apply Hc. }
  assert (forall e, e ∈ fresh (now - W) (failures_of b1 ip) ++ [mkBan fp now] ->
            be_fingerprint e ∈ (l ++ [(now, fp)]).*2) as Hcov.
  { intros e [He%fresh_sub|He]%elem_of_app; rewrite fmap_app; apply elem_of_app; [left; by apply Hc|right].
    apply list_elem_of_singleton in He as ->. by left. }
  assert (forall t f, (t, f) ∈ l ++ [(now, fp)] ->
            mkBan f t ∈ fresh (now - W) (failures_of b1 ip) ++ [mkBan fp now]) as Hon.
  { intros t f [Hin|Hin]%elem_of_app; apply elem_of_app; [left|right].
    - apply fresh_keeps; [by apply Hr|]. specialize (Ht t f Hin). simpl. lia.
    - apply list_elem_of_singleton in Hin as [= -> ->]. by left. }
  unfold banIfSuspiciousLocked. rewrite Hrec.
  set (all := fresh (now - W) (failures_of b1 ip) ++ [mkBan fp now]) in *.
  set (valid := filter _ all).
  assert (forall t f, (t, f) ∈ l ++ [(now, fp)] -> mkBan f t ∈ valid) as Hon'.
  { intros t f Hin. apply list_elem_of_filter. split; [|by apply Hon]. by apply (still_valid now l Ht t f fp). }
  split_and!.
  - intros t f Hin. case_bool_decide; cbn [fst];
      rewrite ?(eq_refl : forall b m, failures_of (b <| bt_banned := m |>) ip = failures_of b ip);
      try change (failures_of (set_fld bt_banned _ ?b) ip) with (failures_of b ip);
      rewrite failures_insert, decide_True by done; by apply Hon'.
  - intros e. case_bool_decide; cbn [fst];
      try change (failures_of (set_fld bt_banned _ ?b) ip) with (failures_of b ip);
      rewrite failures_insert, decide_True by done; intros [_ He]%list_elem_of_filter; by apply Hcov.
  - intros Hm Hn. rewrite bool_decide_true; [cbn [fst bt_banned set_fld]; apply lookup_insert_eq|].
    assert (length l + 1 <= size (fingerprints valid)) as Hsz; [|lia].
    assert (size (list_to_set (l ++ [(now, fp)]).*2 : gset string) = length l + 1) as <-.
    { rewrite size_list_to_set; [by rewrite length_fmap, length_app|].
      rewrite fmap_app. apply NoDup_app. split; [done|]. split; [|apply NoDup_singleton].
      intros x Hx ->%list_elem_of_singleton. done. }
    apply subseteq_size. intros x [[t f] [-> Hin]]%elem_of_list_to_set%list_elem_of_fmap.
    apply elem_of_list_to_set, list_elem_of_fmap. exists (mkBan f t). split; [done|]. by apply Hon'.
Qed.
End banning.

Definition failures_run (max dur w : Z) (ip : string) (fs : list (Z * string)) : BanTracker :=
  tracker_run max dur w ((fun f => (f.1, ip, f.2)) <$> fs) NewBanTracker.

Lemma failures_run_snoc max dur w ip fs t f :
  failures_run max dur w ip (fs ++ [(t, f)]) = recordAndBan t ip f max dur w (failures_run max dur w ip fs).
Proof. unfold failures_run, tracker_run. by rewrite fmap_app, fold_left_app. Qed.

(** Distinct credentials failing do ban: when a fresh client accumulates [max]
    distinct fingerprints within one window, it is banned from its last failure
    until the ban expires, and no longer. *)
Theorem distinct_credentials_banned max dur w ip fs now fp at_ :
  small_window w -> small_window dur ->
  StronglySorted Z.le (fs ++ [(now, fp)]).*1 -> NoDup (fs ++ [(now, fp)]).*2 ->
  (forall t f, (t, f) ∈ fs -> now < t + w * second)%Z ->
  (max <= Z.of_nat (length fs) + 1)%Z ->
  (IsBanned at_ ip (failures_run max dur w ip (fs ++ [(now, fp)]))).2 = bool_decide (at_ < now + dur * second)%Z.
Proof.
  intros Hw Hd Hs Hn Hwin Hm.
  assert (forall l n, l `prefix_of` fs -> n = length l ->
    on_record (failures_run max dur w ip l) ip l /\ covered (failures_run max dur w ip l) ip l) as Hpre.
  { intros l. induction l as [|[t f] l IH] using rev_ind; intros n Hl _.
    - split; [intros t f; by intros ?%not_elem_of_nil|]. intros e.
      unfold failures_run, tracker_run, failures_of. simpl. rewrite lookup_empty. by intros ?%not_elem_of_nil.
    - assert (l `prefix_of` fs) as Hl' by (by eapply prefix_app_l).
      destruct (IH _ Hl' eq_refl) as [Hr Hc]. destruct Hl as [k ->].
      rewrite failures_run_snoc.
      destruct (distinct_step max dur w Hw ip t f (failures_run max dur w ip l) l) as (? & ? & _); try done.
      + intros t' f' Hin. rewrite <- !app_assoc, fmap_app in Hs. split.
        * apply (sorted_before _ _ _ _ Hs); [apply list_elem_of_fmap; by exists (t', f') | by left].
        * assert (t <= now)%Z as Htn.
          { rewrite !fmap_app, !app_assoc in Hs. apply (sorted_before _ _ _ _ Hs); [|by left].
            apply elem_of_app. left. apply elem_of_app. right. by left. }
          assert (now < t' + w * second)%Z; [|lia]. eapply (Hwin t' f'). apply elem_of_app. left. apply elem_of_app. by left.
      + rewrite <- !app_assoc, fmap_app in Hn. apply NoDup_app in Hn as (_ & Hn & _).
        intros Hin. apply (Hn f Hin). simpl. by left. }
  destruct (Hpre fs _ ltac:(reflexivity) eq_refl) as [Hr Hc]. rewrite failures_run_snoc.
  destruct (distinct_step max dur w Hw ip now fp (failures_run max dur w ip fs) fs) as (_ & _ & Hb); try done.
  - intros t f Hin. split; [|by eapply Hwin]. rewrite fmap_app in Hs.
    apply (sorted_before _ _ _ _ Hs); [apply list_elem_of_fmap; by exists (t, f) | by left].
  - rewrite fmap_app in Hn. apply NoDup_app in Hn as (_ & Hn & _). intros Hin. apply (Hn fp Hin). by left.
  - unfold IsBanned. rewrite Hb; [|done|].
    + unfold time_Before, time_Add. rewrite seconds_small by (unfold small_window in Hd; lia).
      by case_bool_decide.
    + rewrite fmap_app in Hn. by apply NoDup_app in Hn as [? _].
Qed.

(** ** Witnesses *)

Definition demo_calls : list (Z * string) :=
  [(1 * second, "a"); (2 * second, "a"); (2 * second, "b"); (3 * second, "a")]%Z.

Ltac sorted_times := simpl; repeat (constructor; [|repeat constructor; vm_compute; discriminate]); constructor.

Lemma RateLimiter_bound_witness :
  (Z.of_nat (length (in_window (60 * second) (3 * second) (times_of "a" (limiter_run 2 60 demo_calls).2))) <= 2)%Z.
Proof.
  apply (RateLimiter_bound 2 60 demo_calls "a" (3 * second)).
  - split; reflexivity || discriminate.
  - discriminate.
  - sorted_times.
Defined.

Lemma RateLimiter_exact_witness :
  (rl_Allow (4 * second) "b" 2 60 (limiter_run 2 60 demo_calls).1).2 = true.
Proof.
  apply (RateLimiter_exact 2 60 demo_calls (4 * second) "b").
  - split; reflexivity || discriminate.
  - discriminate.
  - sorted_times.
  - reflexivity.
Defined.

Lemma same_credential_never_banned_witness :
  (IsBanned 5 "a" (tracker_run 2 60 60 [(1, "a", "x"); (2, "b", "y"); (3, "a", "x"); (4, "b", "z")]%Z NewBanTracker)).2 = false.
Proof.
  apply (same_credential_never_banned 2 60 60 _ "a" "x" 5).
  - discriminate.
  - intros c Hc. repeat (apply elem_of_cons in Hc as [->|Hc]; [done|]). by apply not_elem_of_nil in Hc.
Defined.

Lemma distinct_credentials_banned_witness :
  (IsBanned (4 * second) "a" (failures_run 3 60 60 "a" [(1 * second, "x"); (2 * second, "y"); (3 * second, "z")]%Z)).2 = true.
Proof.
  refine (distinct_credentials_banned 3 60 60 "a" [(1 * second, "x"); (2 * second, "y")]%Z (3 * second) "z" (4 * second) _ _ _ _ _ _).
  - split; reflexivity || discriminate.
  - split; reflexivity || discriminate.
  - sorted_times.
  - apply (bool_decide_unpack _). vm_compute. exact I.
  - intros t f Hin. repeat (apply elem_of_cons in Hin as [[= -> _]|Hin]; [reflexivity|]). by apply not_elem_of_nil in Hin.
  - discriminate.
Defined.
