(* ===== verification/Http.v ===== *)
(** * Http: requests, responses and client addresses

    The part of net/http and net the handlers use.  IP parsing is the class
    [Net]; [GetRealIP] and its helpers are those of internal/service/ratelimit.go. *)

From S2P Require Import Prelude Json Domain Crypto.

(** ** Requests and responses *)

(** http.Header with canonical keys; Get answers the first value. *)
Abbreviation Header := (gmap string (list string)).
Definition hdr_Get (h : Header) (k : string) : string := match h !! k with Some (v :: _) => v | _ => "" end.
Definition hdr_Set (k v : string) (h : Header) : Header := <[k := [v]]> h.
Definition hdr_Del (k : string) (h : Header) : Header := delete k h.

(** The values a request's context carries (context.WithValue of the handlers). *)
Record Ctx := mkCtx {
  cx_principal : option User; cx_username : string; cx_groups : list string; cx_channel : option string }.
#[export] Instance eta_ctx : Eta Ctx := fun x => mkCtx (cx_principal x) (cx_username x) (cx_groups x) (cx_channel x).
Definition ctx_empty : Ctx := mkCtx None "" [] None.

(** [rq_Params] are chi's URL parameters, [rq_URL] is r.URL.String() and
    [rq_Body] the outcome of reading the body. *)
Record Request := mkRequest {
  rq_Method : string; rq_URL : string; rq_Path : string; rq_Params : gmap string string; rq_Query : Header; rq_Header : Header;
  rq_Cookies : gmap string string; rq_RemoteAddr : string; rq_TLS : bool; rq_Body : res string;
  rq_Ctx : Ctx }.
#[export] Instance eta_request : Eta Request := fun x =>
  mkRequest (rq_Method x) (rq_URL x) (rq_Path x) (rq_Params x) (rq_Query x) (rq_Header x) (rq_Cookies x) (rq_RemoteAddr x)
    (rq_TLS x) (rq_Body x) (rq_Ctx x).

Definition URLParam (r : Request) (k : string) : string := default "" (rq_Params r !! k).

(** What json.Decoder finds at the head of a byte stream: a complete document, a
    syntax error, or the end of the stream inside a document. *)
Inductive json_read := Document (j : json) | Malformed | Incomplete.
Class JsonDecoder := { js_decode : string -> json_read }.

(** A response: status, headers, and the text or JSON written. *)
Inductive body := NoBody | TextBody (s : string) | JsonBody (j : json).
Record Response := mkResponse { rp_Status : Z; rp_Header : Header; rp_Body : body }.
#[export] Instance eta_response : Eta Response := fun x => mkResponse (rp_Status x) (rp_Header x) (rp_Body x).

Definition http_Error (msg : string) (status : Z) : Response := mkResponse status ∅ (TextBody msg).

(** The text of [{"error":msg}] for a plain message. *)
Definition dquote : string := String (Ascii.ascii_of_nat 34) EmptyString.
Definition error_text (msg : string) : string :=
  "{" +:+ dquote +:+ "error" +:+ dquote +:+ ":" +:+ dquote +:+ msg +:+ dquote +:+ "}".

Definition json_error (msg : string) (status : Z) : Response :=
  mkResponse status {[ "Content-Type" := ["application/json"] ]} (JsonBody (JObj [("error", JStr msg)])).
Definition json_ok (status : Z) (j : json) : Response :=
  mkResponse status {[ "Content-Type" := ["application/json"] ]} (JsonBody j).

(** A handler runs on the server's state; a middleware wraps a handler. *)
Definition Handler (W : Type) := Request -> W -> W * Response.
Definition Middleware (W : Type) := Handler W -> Handler W.

(** ** decodeJSON, writeJSON and writeError of internal/handler/api.go *)

Definition maxJSONBodySize : Z := 1048576.

Definition writeJSON {A} `{JsonCodec A} (status : Z) (v : A) : Response := json_ok status (jenc v).
Definition writeError (status : Z) (msg : string) : Response := json_error msg status.

Definition body_too_large : Response := writeError 413 "request body too large".
Definition invalid_body : Response := writeError 400 "invalid JSON body".

(** http.MaxBytesReader delivers the bytes up to the limit and fails past them. *)
Definition visible_body (b : string) : string :=
  if (Z.of_nat (String.length b) <=? maxJSONBodySize)%Z then b else take_str (Z.to_nat maxJSONBodySize) b.

Definition decodeJSON `{!JsonDecoder} {A} `{JsonCodec A} (r : Request) : A + Response :=
  match rq_Body r with
  | Err e => inr (if Contains (err_msg e) "http: request body too large" then body_too_large else invalid_body)
  | Ok b =>
      match js_decode (visible_body b) with
      | Document j => match Unmarshal (A := A) j with Some a => inl a | None => inr invalid_body end
      | Malformed => inr invalid_body
      | Incomplete => inr (if (maxJSONBodySize <? Z.of_nat (String.length b))%Z then body_too_large else invalid_body)
      end
  end.

(** ** Package net *)

Class Net := {
  IP : Type;
  IPNet : Type;
  ParseIP : string -> option IP;
  ParseCIDR : string -> option IPNet;
  host_net : IP -> IPNet;                       (* /32 or /128 *)
  net_Contains : IPNet -> IP -> bool;
  ip_Equal : IP -> IP -> bool;
  ip_String : IP -> string;
  SplitHostPort : string -> option (string * string)
}.

(** net.JoinHostPort *)
Definition JoinHostPort (host port : string) : string :=
  if Contains host ":" then "[" +:+ host +:+ "]:" +:+ port else host +:+ ":" +:+ port.

(** Textual addresses: an IP is a string of digits and dots, a CIDR a prefix. *)
#[export] Instance toy_net : Net := {|
  IP := string;
  IPNet := string;
  ParseIP s := if negb (bool_decide (s = "")) && all_str (fun c => bool_decide (c = "."%char) || is_alnum c) s then Some s else None;
  ParseCIDR s := match Cut s "/" with Some (p, _) => Some p | None => None end;
  host_net s := s;
  net_Contains n ip := HasPrefix ip n;
  ip_Equal a b := bool_decide (a = b);
  ip_String s := s;
  SplitHostPort s := Cut s ":"
|}.

Section addresses.
Context `{!Net}.

(** ParseTrustedProxyCIDRs: invalid entries are skipped. *)
Definition parse_proxy_entry (e : string) : option IPNet :=
  let e := TrimSpace e in
  if bool_decide (e = "") then None
  else if Contains e "/" then ParseCIDR e
  else host_net <$> ParseIP e.

Definition ParseTrustedProxyCIDRs (entries : list string) : list IPNet := omap parse_proxy_entry entries.

Definition ipInAny (ip : IP) (nets : list IPNet) : bool := any (fun n => net_Contains n ip) nets.

Definition remoteIP (r : Request) : res IP :=
  match SplitHostPort (rq_RemoteAddr r) with
  | None =>
      match ParseIP (rq_RemoteAddr r) with
      | Some ip => Ok ip
      | None => Err (errorf "invalid RemoteAddr")
      end
  | Some (host, _) =>
      match ParseIP host with
      | Some ip => Ok ip
      | None => Err (errorf "invalid IP address")
      end
  end.

(** The loop over X-Forwarded-For, on the parts from right to left. *)
Fixpoint xff_walk (trusted : list IPNet) (parts : list string) : option IP :=
  match parts with
  | [] => None
  | p :: parts' =>
      match ParseIP (TrimSpace p) with
      | None => xff_walk trusted parts'
      | Some candidate => if ipInAny candidate trusted then xff_walk trusted parts' else Some candidate
      end
  end.

Definition GetRealIP (r : Request) (behindReverseProxy : bool) (trusted : list IPNet) : res IP :=
  match remoteIP r with
  | Err e => Err e
  | Ok peer =>
      if negb behindReverseProxy || negb (ipInAny peer trusted) then Ok peer
      else
        let xff := hdr_Get (rq_Header r) "X-Forwarded-For" in
        match (if bool_decide (xff = "") then None else xff_walk trusted (reverse (Split xff ","))) with
        | Some candidate => Ok candidate
        | None =>
            let xrip := hdr_Get (rq_Header r) "X-Real-Ip" in
            match (if bool_decide (xrip = "") then None else ParseIP (TrimSpace xrip)) with
            | Some ip => Ok ip
            | None => Ok peer
            end
        end
  end.

Definition ExtractSignatureValue (r : Request) : string :=
  let get k := hdr_Get (rq_Header r) k in
  if negb (bool_decide (get "X-Hub-Signature-256" = "")) then get "X-Hub-Signature-256"
  else if negb (bool_decide (get "X-Gitlab-Token" = "")) then get "X-Gitlab-Token"
  else if negb (bool_decide (get "X-Hub-Signature" = "")) then get "X-Hub-Signature"
  else if negb (bool_decide (get "X-Gitea-Signature" = "")) then get "X-Gitea-Signature"
  else "unknown".

(** ** Spoofing *)

Lemma Split_not_nil s sep : Split s sep <> [].
Proof. destruct s as [|c s]; simpl; [done|]. case_bool_decide; [done|]. by destruct (Split s sep). Qed.

Lemma Split_join a b sep : Split (a +:+ String sep b) sep = Split a sep ++ Split b sep.
Proof.
  induction a as [|c a IH]; [simpl; by rewrite bool_decide_true|].
  change (String c a +:+ String sep b) with (String c (a +:+ String sep b)). simpl. rewrite IH.
  case_bool_decide; [done|]. pose proof (Split_not_nil a sep). by destruct (Split a sep).
Qed.

Lemma xff_walk_app trusted l1 l2 :
  xff_walk trusted (l1 ++ l2) = match xff_walk trusted l1 with Some ip => Some ip | None => xff_walk trusted l2 end.
Proof. induction l1 as [|p l1 IH]; [done|]. simpl.
  destruct (ParseIP (TrimSpace p)) as [c|]; [destruct (ipInAny c trusted)|]; auto. Qed.


(** Forwarded headers are honoured only from a trusted peer. *)
Theorem GetRealIP_untrusted_peer r behind trusted peer :
  remoteIP r = Ok peer -> behind = false \/ ipInAny peer trusted = false ->
  GetRealIP r behind trusted = Ok peer.
Proof.
  intros Hp Hb. unfold GetRealIP. rewrite Hp. destruct Hb as [-> | ->]; [done|]. by rewrite orb_true_r.
Qed.
End addresses.

(** ** Witnesses *)

Definition demo_request : Request :=
  mkRequest "GET" "/" "/" ∅ ∅ ∅ ∅ "10.0.0.1:1234" false (Ok "") ctx_empty.
Definition forwarded (xff : string) : Request := demo_request <| rq_Header := {[ "X-Forwarded-For" := [xff] ]} |>.

Definition net_of (s : string) : @IPNet toy_net := s.
Definition ip_of (s : string) : @IP toy_net := s.


Lemma GetRealIP_untrusted_peer_witness :
  GetRealIP (forwarded "9.9.9.9") true [net_of "192."] = Ok (ip_of "10.0.0.1").
Proof.
  apply (GetRealIP_untrusted_peer (forwarded "9.9.9.9") true [net_of "192."] (ip_of "10.0.0.1"));
    [reflexivity | right; reflexivity].
Defined.

(** A decoder that reads the whole body as one document. *)
#[export] Instance toy_decoder `{!JsonText} : JsonDecoder :=
  {| js_decode b := match js_parse b with Some j => Document j | None => if bool_decide (b = "") then Incomplete else Malformed end |}.
