(* ===== verification/Service.v ===== *)
(** * Service: internal/service (channel.go, token.go, session.go, auth.go,
    repository.go and the repository-facing part of ratelimit.go)

    Business operations over the [Repository] interface.  Randomness, the clock
    and the cryptographic primitives are arguments. *)

From S2P Require Import Prelude Json Domain Bolt Crypto Repo Authorization RateLimit Http.

(** ** session.go *)

Definition sessionSecretKDFInfo : string := "gohookbridge.session.signing.v1".
Definition MinSessionSecretLength : nat := 32.

Definition ValidateSessionSecret (secret : string) : option goerr :=
  if bool_decide (secret = "") then None
  else if (String.length secret <? MinSessionSecretLength)%nat then Some (errorf "session_secret too short")
  else None.

Section crypto.
Context `{!Crypto} `{!JsonText}.

Definition DeriveSessionSecret (secret : string) : string := hkdf_sha256 secret "" sessionSecretKDFInfo 32.

Definition session_mac (secret encoded : string) : string := EncodeToString true (hmac_sha256 secret encoded).

Definition EncodeSession (token : SessionToken) (secret : string) : string :=
  let encoded := EncodeToString true (js_text (jenc token)) in
  encoded +:+ "." +:+ session_mac secret encoded.

(** [nowUnix] is time.Now().Unix(). *)
Definition DecodeSession (nowUnix : Z) (tokenStr secret : string) : res SessionToken :=
  match Cut tokenStr "." with
  | None => Err (errorf "invalid token format")
  | Some (encoded, sigB64) =>
      if negb (String.eqb sigB64 (session_mac secret encoded)) then Err (errorf "invalid token signature")
      else match DecodeString true encoded with
           | None => Err (errorf "illegal base64 data")
           | Some data =>
               match j ← js_parse data; Unmarshal (A := SessionToken) j with
               | None => Err (errorf "json: cannot unmarshal")
               | Some token =>
                   if bool_decide (st_ExpiresAt token < nowUnix)%Z then Err (errorf "token expired") else Ok token
               end
           end
  end.

Definition GenerateRandomHex (r : Rand) : Rand * res string :=
  let (r, b) := rand_Read 16 r in
  (r, match b with Ok b => Ok (hex_encode b) | Err e => Err (errorf ("generate random hex: " +:+ err_msg e)) end).

(** ** token.go and the fingerprints of ratelimit.go *)

Definition HashToken (raw : string) : string := hex_encode (sha256 raw).

(** GenerateAccessToken: (raw, hash). *)
Definition GenerateAccessToken (r : Rand) : Rand * res (string * string) :=
  let (r, b) := rand_Read 32 r in
  (r, match b with
      | Ok b => let raw := hex_encode b in Ok (raw, hex_encode (sha256 raw))
      | Err e => Err (errorf ("generate access token: " +:+ err_msg e))
      end).

Definition FingerprintLogin (username : string) : string := hex_encode (sha256 ("login:" +:+ username)).
Definition FingerprintToken (token : string) : string := hex_encode (sha256 ("token:" +:+ token)).
Definition FingerprintSignature (channel signatureValue : string) : string :=
  hex_encode (sha256 ("signature:" +:+ channel +:+ ":" +:+ signatureValue)).

Definition ValidatePassword (hash password : string) : bool := bcrypt_compare hash password.
End crypto.

Section service.
Context {R : Type} `{!Repository R}.
Implicit Types s : Service R.

(** A write of the repository through the service. *)
Definition on_repo (f : R -> R * res unit) s : Service R * res unit :=
  let (repo, x) := f (svc_repo s) in (s <| svc_repo := repo |>, x).
Definition on_repo' {A} (f : R -> R * A * res unit) s : Service R * A * res unit :=
  let '(repo, a, x) := f (svc_repo s) in (s <| svc_repo := repo |>, a, x).

(** ** channel.go *)

Definition globalOrFail s : res GlobalConfig :=
  match repo_GetGlobalConfig (svc_repo s) with
  | Ok g => Ok g
  | Err e => Err (mkErr (err_is e) ("resolve global config: " +:+ err_msg e))
  end.

Definition svc_ResolveChannelConfig s (id : string) : res Channel :=
  match repo_GetChannel id (svc_repo s) with
  | Err e =>
      if negb (errors_Is e KNotFound) then Err e
      else res_bind (globalOrFail s) (fun global =>
        if sc_RequireKnownChannels (gc_Server global) then Err (mkErr KNotFound ("channel " +:+ id))
        else Ok (channel_zero <| ch_ID := id |>
                   <| ch_MaxBodySize := sc_MaxBodySize (gc_Server global) |>
                   <| ch_WebhookSecret := dc_WebhookSecret (gc_Defaults global) |>
                   <| ch_AllowedIPs := dc_AllowedIPs (gc_Defaults global) |>
                   <| ch_MessageTTLSeconds := dc_MessageTTLSeconds (gc_Defaults global) |>))
  | Ok ch => res_bind (globalOrFail s) (fun global => Ok (ResolveChannelConfig ch global))
  end.

(** The shared shape of the per-field resolvers: the channel's own value, or the
    default when the channel is missing or leaves the field unset. *)
Definition resolve_field {A} s (channelID : string) (own : Channel -> option A) (dflt : GlobalConfig -> A) : res A :=
  match repo_GetChannel channelID (svc_repo s) with
  | Err e =>
      if negb (errors_Is e KNotFound) then Err e
      else res_bind (globalOrFail s) (fun global => Ok (dflt global))
  | Ok p => match own p with
            | Some a => Ok a
            | None => res_bind (globalOrFail s) (fun global => Ok (dflt global))
            end
  end.

Definition ResolveChannelWebhookSecret s (channelID : string) : res string :=
  resolve_field s channelID
    (fun p => let p := MigrateChannel p in
              if negb (bool_decide (ch_WebhookSecret p = "")) then Some (ch_WebhookSecret p) else None)
    (fun g => dc_WebhookSecret (gc_Defaults g)).

Definition ResolveChannelAllowedIPs s (channelID : string) : res (list string) :=
  resolve_field s channelID
    (fun p => match ch_AllowedIPs p with [] => None | ips => Some ips end)
    (fun g => dc_AllowedIPs (gc_Defaults g)).

Definition ResolveChannelMaxBodySize s (channelID : string) : res Z :=
  resolve_field s channelID
    (fun p => if bool_decide (0 < ch_MaxBodySize p)%Z then Some (ch_MaxBodySize p) else None)
    (fun g => sc_MaxBodySize (gc_Server g)).

(** (mode, key, public key) *)
Definition ResolveChannelEncryption s (channelID : string) : res (string * string * string) :=
  match repo_GetChannel channelID (svc_repo s) with
  | Err e => Err e
  | Ok p => let p := MigrateChannel p in
            Ok (ch_EncryptionMode p, ch_EncryptionKey p, ch_EncryptionPublicKey p)
  end.

Definition server_or {A} s (dflt : A) (get : ServerConfig -> A) : A :=
  match repo_GetGlobalConfig (svc_repo s) with Ok g => get (gc_Server g) | Err _ => dflt end.

Definition ResolveCORSOrigin s : string := server_or s "*" sc_CORSOrigin.
Definition ResolveBehindReverseProxy s : bool := server_or s false sc_BehindReverseProxy.
Definition ResolveTrustedProxyCIDRs s : list string := server_or s [] sc_TrustedProxyCIDRs.
Definition ResolveFooter s : string := server_or s "" sc_Footer.
Definition SessionSecret s : string := server_or s "" sc_SessionSecret.

Definition SetSessionSecret s (secret : string) : Service R * res unit :=
  let global := match repo_GetGlobalConfig (svc_repo s) with Ok g => g | Err _ => DefaultGlobalConfig end in
  let global := global <| gc_Server := (gc_Server global) <| sc_SessionSecret := secret |> |> in
  on_repo (repo_UpdateGlobalConfig (Some global)) s.

(** ProtectedChannels: a snapshot of IDs, or dynamic resolution. *)
Inductive ProtectedChannels := PCNil | PCSnapshot (channels : gset string) | PCDynamic.

Definition e2e_protected (ch : Channel) : bool :=
  let ch := MigrateChannel ch in
  bool_decide (ch_EncryptionMode ch = "e2e") && negb (bool_decide (ch_EncryptionPublicKey ch = "")).

Definition NewProtectedChannels s : ProtectedChannels :=
  match repo_ListChannels (svc_repo s) with
  | Err _ => PCSnapshot ∅
  | Ok chs => PCSnapshot (list_to_set (ch_ID <$> filter (fun ch => e2e_protected ch = true) chs))
  end.

Definition pc_Has s (p : ProtectedChannels) (channel : string) : bool :=
  match p with
  | PCNil => false
  | PCDynamic => match repo_GetChannel channel (svc_repo s) with Err _ => false | Ok ch => e2e_protected ch end
  | PCSnapshot channels => bool_decide (channel ∈ channels)
  end.

(** [publicKey]: the 32 bytes, [None] for a nil pointer. *)
Definition pc_IsAllowed s (p : ProtectedChannels) (channel : string) (publicKey : option string) : bool :=
  match p, publicKey with
  | PCNil, _ | _, None => false
  | PCDynamic, Some key =>
      match repo_GetChannel channel (svc_repo s) with
      | Err _ => false
      | Ok ch =>
          let ch := MigrateChannel ch in
          if negb (bool_decide (ch_EncryptionMode ch = "e2e")) then false
          else bool_decide (ch_EncryptionPublicKey ch = EncodeToString true key)
      end
  | PCSnapshot channels, Some _ => bool_decide (channel ∈ channels)
  end.

(** ** repository.go: what is more than a passthrough *)

Definition notify s (channelID : string) (ttl : Z) : Service R :=
  s <| svc_notified := (fun l => l ++ [(channelID, ttl)]) <$> svc_notified s |>.

Definition notifyChannelChanged s (channelID : string) : Service R :=
  match svc_notified s with
  | None => s
  | Some _ =>
      match svc_ResolveChannelConfig s channelID with
      | Ok resolved => notify s channelID (ch_MessageTTLSeconds resolved)
      | Err _ => s
      end
  end.

Definition svc_CreateChannel (p : Channel) s : Service R * Channel * res unit :=
  let '(s, p, x) := on_repo' (repo_CreateChannel p) s in
  match x with Err e => (s, p, Err e) | Ok _ => (notifyChannelChanged s (ch_ID p), p, Ok tt) end.

Definition svc_UpdateChannel (p : Channel) s : Service R * Channel * res unit :=
  let '(s, p, x) := on_repo' (repo_UpdateChannel p) s in
  match x with Err e => (s, p, Err e) | Ok _ => (notifyChannelChanged s (ch_ID p), p, Ok tt) end.

Definition svc_GetUserByExternalIdentity (providerID issuer subject : string) s : res User :=
  repo_GetUserByExternalIdentity providerID (normalizeIssuer issuer) subject (svc_repo s).

Definition svc_UpdateGlobalConfig (cfg : option GlobalConfig) s : Service R * res unit :=
  let (s, x) := on_repo (repo_UpdateGlobalConfig cfg) s in
  match x with
  | Err e => (s, Err e)
  | Ok _ =>
      match svc_notified s with
      | None => (s, Ok tt)
      | Some _ =>
          let channels := match repo_ListChannels (svc_repo s) with Ok l => l | Err _ => [] end in
          (fold_left (fun s ch =>
             if bool_decide (ch_MessageTTLSeconds ch = 0%Z) then
               match svc_ResolveChannelConfig s (ch_ID ch) with
               | Ok resolved => notify s (ch_ID ch) (ch_MessageTTLSeconds resolved)
               | Err _ => s
               end
             else s) channels s, Ok tt)
      end
  end.

Definition ListBindings s : res (list UserBinding) :=
  res_bind (repo_ListUsers (svc_repo s)) (fun users =>
    Ok ((fun u => mkBinding (u_ID u) (u_Roles u) (u_Channels u)) <$> users)).

Definition UpdateUserBinding (binding : UserBinding) s : Service R * res unit :=
  match repo_GetUser (ub_UserID binding) (svc_repo s) with
  | Err e => (s, Err e)
  | Ok u => on_repo (repo_UpdateUser (u <| u_Roles := ub_Roles binding |> <| u_Channels := ub_Channels binding |>)) s
  end.

(** ** session.go: epochs *)

Definition svc_GetAuthEpoch s : Z := match repo_GetAuthEpoch (svc_repo s) with Ok e => e | Err _ => 0%Z end.
Definition svc_BumpAuthEpoch s : Service R * res unit := on_repo repo_BumpAuthEpoch s.
Definition SessionEpochValid s (tok : option SessionToken) : bool :=
  match tok with None => false | Some tok => bool_decide (st_AuthEpoch tok = svc_GetAuthEpoch s) end.

(** ** token.go *)

Section tokens.
Context `{!Crypto} (rfc3339 : Z -> string).

Definition token_scope (scope : string) : string :=
  if negb (bool_decide (scope = "produce")) && negb (bool_decide (scope = "consume")) && negb (bool_decide (scope = "both"))
  then "both" else scope.

Definition CreateAccessToken (now : Z) (channelID name scope : string) (r : Rand) s
  : Rand * Service R * res (string * ChannelAccessToken) :=
  let scope := token_scope scope in
  match repo_GetChannel channelID (svc_repo s) with
  | Err e => (r, s, Err e)
  | Ok ch =>
      let (r, g) := GenerateAccessToken r in
      match g with
      | Err e => (r, s, Err e)
      | Ok (raw, hash) =>
          let (r, id) := GenerateUUID r in
          match id with
          | Err e => (r, s, Err e)
          | Ok id =>
              let t := mkToken id name hash scope (rfc3339 now) in
              let ch := ch <| ch_AccessTokens := ch_AccessTokens ch ++ [t] |> <| ch_AccessMode := "token" |> in
              let '(s, _, x) := on_repo' (repo_UpdateChannel ch) s in
              (r, s, match x with Ok _ => Ok (raw, t) | Err e => Err e end)
          end
      end
  end.

Definition DeleteAccessToken (channelID tokenID : string) s : Service R * res unit :=
  match repo_GetChannel channelID (svc_repo s) with
  | Err e => (s, Err e)
  | Ok ch =>
      let ch := ch <| ch_AccessTokens := filter (fun t => tok_ID t <> tokenID) (ch_AccessTokens ch) |> in
      let '(s, _, x) := on_repo' (repo_UpdateChannel ch) s in (s, x)
  end.

Definition ValidateChannelToken (channelID rawToken requiredScope : string) s : bool :=
  match repo_GetChannel channelID (svc_repo s) with
  | Err _ => false
  | Ok ch =>
      let hash := HashToken rawToken in
      any (fun t => bool_decide (tok_TokenHash t = hash) &&
                    (bool_decide (tok_Scope t = "both") || bool_decide (tok_Scope t = requiredScope)))
        (ch_AccessTokens ch)
  end.

(** ** auth.go *)

Definition users_or_empty s : list User := match repo_ListUsers (svc_repo s) with Ok l => l | Err _ => [] end.
Definition providers_or_empty s : list OIDCProvider :=
  match repo_OIDCProviders (svc_repo s) with Ok l => l | Err _ => [] end.

Definition IsInternalAuthEnabled s : bool :=
  match repo_InternalAuthEnabled (svc_repo s) with
  | Ok (Some flag) => flag
  | _ => negb (bool_decide (users_or_empty s = []))
  end.

Definition no_provider : goerr := mkErr KInvalidArgument "at least one auth provider is required".

Definition svc_SetInternalAuthEnabled (enabled : bool) s : Service R * res unit :=
  if negb enabled then
    match repo_OIDCProviders (svc_repo s) with
    | Err e => (s, Err e)
    | Ok [] => (s, Err no_provider)
    | Ok _ => on_repo (repo_SetInternalAuthEnabled enabled) s
    end
  else on_repo (repo_SetInternalAuthEnabled enabled) s.

Definition ValidateAuthConfig s : option goerr :=
  match repo_InternalAuthEnabled (svc_repo s) with
  | Err e => Some e
  | Ok (Some false) =>
      match repo_OIDCProviders (svc_repo s) with
      | Err e => Some e
      | Ok [] => Some no_provider
      | Ok _ => None
      end
  | Ok _ => None
  end.

(** [None]: authentication disabled (setup mode). *)
Definition BuildAuthConfig s : option AuthConfig :=
  let users := users_or_empty s in
  let providers := providers_or_empty s in
  let hasInternal := IsInternalAuthEnabled s && (0 <? length users)%nat in
  let hasOIDC := (0 <? length providers)%nat in
  if negb hasInternal && negb hasOIDC then None
  else Some (mkAuthConfig
    (mkInternalConfig hasInternal ((fun u => mkInternalUser (u_Username u) (u_PasswordHash u)) <$> users))
    (mkOIDCConfig hasOIDC providers)).

Definition IsSetupMode s : bool :=
  match repo_ListUsers (svc_repo s) with Err _ => true | Ok [] => true | Ok _ => false end.

Definition CreateDevAdmin (salt password : string) s : Service R * res unit :=
  if negb (IsSetupMode s) then (s, Ok tt)
  else match bcrypt_hash salt password with
       | Err e => (s, Err e)
       | Ok hash =>
           let '(s, _, x) := on_repo' (repo_CreateUser (mkUser "admin" "admin" hash [] [] ["admin"] ["*"])) s in (s, x)
       end.
End tokens.

(** ** ratelimit.go: RecordCredentialFailure *)

Definition RecordCredentialFailure `{!Net} (now : Z) (r : Request) (fingerprint : string) s (tracker : BanTracker) : BanTracker :=
  match repo_GetGlobalConfig (svc_repo s) with
  | Err _ => tracker
  | Ok cfg =>
      let sc := gc_Server cfg in
      if negb (sc_BanEnabled sc) then tracker
      else match GetRealIP r (sc_BehindReverseProxy sc) (ParseTrustedProxyCIDRs (sc_TrustedProxyCIDRs sc)) with
           | Err _ => tracker
           | Ok ip =>
               recordAndBan now (ip_String ip) fingerprint (sc_BanMaxUniqueFailures sc) (sc_BanDurationSeconds sc)
                 (clampWindow (sc_BanWindowSeconds sc)) tracker
           end
  end.
End service.
