(* ===== verification/ServiceTheory.v ===== *)
(** * ServiceTheory: what the services guarantee

    [RepositoryLaws] is what the services rely on in a repository; the raft store
    discharges it.  Against it: session cookies are authentic, round-trip and die
    with the auth epoch; access tokens validate exactly while they are listed;
    the authentication configuration keeps at least one way in; the field
    resolvers agree with the full resolution. *)

From S2P Require Import Prelude Json Domain Bolt Fsm Crypto Store Repo Authorization StoreTheory RateLimit Http Service.

#[local] Arguments jenc : simpl never.
#[local] Arguments jdec : simpl never.

(** ** The contract *)

Class RepositoryLaws (R : Type) `{!Repository R} := {
  repo_ok : R -> Prop;
  law_GetChannel : forall r id c, repo_ok r -> repo_GetChannel id r = Ok c -> channel_wf c /\ ch_ID c = id;
  law_UpdateChannel : forall r p r' p',
    repo_ok r -> channel_wf p -> repo_UpdateChannel p r = (r', p', Ok tt) ->
    repo_ok r' /\ repo_GetChannel (ch_ID p) r' = Ok p /\
    forall id, id <> ch_ID p -> repo_GetChannel id r' = repo_GetChannel id r;
  law_BumpAuthEpoch : forall r r',
    repo_ok r -> repo_BumpAuthEpoch r = (r', Ok tt) ->
    exists e, repo_GetAuthEpoch r = Ok e /\ repo_GetAuthEpoch r' = Ok (wrap64 (e + 1));
  law_SetInternalAuthEnabled : forall r r' b,
    repo_ok r -> repo_SetInternalAuthEnabled b r = (r', Ok tt) ->
    repo_InternalAuthEnabled r' = Ok (Some b) /\ repo_OIDCProviders r' = repo_OIDCProviders r
}.

Section raft.
Context {DB B : Type} `{!Bolt DB B} `{!BoltLaws DB B} `{!Crypto} `{!JsonText} `{!CryptoLaws} `{!JsonTextLaws}.
Implicit Types rs : RaftStore DB.

(** Every stored channel record sits under its own ID. *)
Definition channels_keyed rs : Prop :=
  forall id j c, store_get rs (channel_key id) = Some j -> Unmarshal (A := Channel) j = Some c -> ch_ID c = id.

Definition raft_ok rs : Prop := store_ready rs /\ channels_keyed rs.

Lemma openChannel_keeps ko p c :
  openChannel ko p = Ok c -> ch_ID c = ch_ID p /\ ch_MaxBodySize c = ch_MaxBodySize p /\
  ch_MessageTTLSeconds c = ch_MessageTTLSeconds p.
Proof.
  unfold openChannel. destruct ko as [k|]; [|by intros [= <-]].
  intros (s1 & _ & (s2 & _ & (s3 & _ & (s4 & _ & Hc)%res_bind_Ok)%res_bind_Ok)%res_bind_Ok)%res_bind_Ok.
  by injection Hc as <-.
Qed.

Lemma raft_GetChannel rs id c : raft_ok rs -> GetChannel id rs = Ok c -> channel_wf c /\ ch_ID c = id.
Proof.
  intros [(Hr & _) Hkeyed] Hg. destruct (decide (id = "")) as [->|Hid]; [done|].
  rewrite GetChannel_stored in Hg by done.
  destruct (store_get rs (channel_key id)) as [j|] eqn:Ej; [|done].
  apply res_bind_Ok in Hg as (p & Hp & Ho). unfold Unmarshal_err in Hp.
  destruct (Unmarshal (A := Channel) j) as [q|] eqn:Eq; [|done]. injection Hp as ->.
  apply openChannel_keeps in Ho as (Hi & Hb & Ht). pose proof (Unmarshal_channel_wf _ _ Eq) as Hwf.
  unfold channel_wf in *. rewrite Hb, Ht, Hi. split; [exact Hwf|]. by eapply Hkeyed.
Qed.

Lemma raft_UpdateChannel rs p rs' p' :
  raft_ok rs -> channel_wf p -> UpdateChannel p rs = (rs', p', Ok tt) ->
  raft_ok rs' /\ GetChannel (ch_ID p) rs' = Ok p /\
  forall id, id <> ch_ID p -> GetChannel id rs' = GetChannel id rs.
Proof.
  intros [Hrdy Hkeyed] Hwf Hw.
  destruct (write_channel_reads _ _ _ _ _ (or_introl eq_refl) Hrdy Hwf Hw)
    as (Hrdy' & Hget & (sealed & Hs & Hwfs & Hid) & Hoth & Hread).
  split; [split; [exact Hrdy'|] | by split].
  intros id j c Hj Hc. destruct (decide (id = ch_ID p)) as [->|Hne].
  - rewrite Hs in Hj. injection Hj as <-. rewrite Unmarshal_jenc in Hc by exact Hwfs. by injection Hc as <-.
  - rewrite Hoth in Hj by exact Hne. by eapply Hkeyed.
Qed.

Lemma raft_SetInternalAuthEnabled rs rs' b :
  fsm_ready (rs_db rs) -> SetInternalAuthEnabled b rs = (rs', Ok tt) ->
  InternalAuthEnabled rs' = Ok (Some b) /\ OIDCProviders rs' = OIDCProviders rs.
Proof.
  intros Hr. unfold SetInternalAuthEnabled, applyCommand.
  intros ((Hw & Hrdy & _) & Hk & _)%submit_ok; [|exact Hr]. split.
  - unfold InternalAuthEnabled. rewrite getFSMValue_ready by (by apply Hrdy). rewrite Hw.
    change (writes _ _ _) with (Some (jenc b)). cbn [res_bind]. by destruct b.
  - unfold OIDCProviders. rewrite !getFSMValue_ready by (try apply Hrdy; done). rewrite Hw, Hk.
    reflexivity.
Qed.

#[export] Instance raft_laws : RepositoryLaws (RaftStore DB) := {|
  repo_ok := raft_ok;
  law_GetChannel := raft_GetChannel;
  law_UpdateChannel := raft_UpdateChannel;
  law_BumpAuthEpoch r r' Hok := BumpAuthEpoch_reads r r' (proj1 (proj1 Hok));
  law_SetInternalAuthEnabled r r' b Hok := raft_SetInternalAuthEnabled r r' b (proj1 (proj1 Hok))
|}.
End raft.

Lemma sealing_store_ok m : channels_keyed (sealing_store m) -> repo_ok (sealing_store m).
Proof. intros Hk. split; [apply sealing_store_ready | exact Hk]. Qed.

(** ** Session cookies *)

Section sessions.
Context `{!Crypto} `{!JsonText} `{!JsonTextLaws}.

Lemma EncodeSession_cut token secret :
  Cut (EncodeSession token secret) "." =
    Some (EncodeToString true (js_text (jenc token)), session_mac secret (EncodeToString true (js_text (jenc token)))).
Proof. unfold EncodeSession. apply (Cut_app _ _ "."). apply EncodeToString_no_dot. Qed.

(** A session cookie decodes to the session it encodes, until it expires. *)
Theorem session_roundtrip now token secret :
  session_wf token -> js_plain (jenc token) = true ->
  DecodeSession now (EncodeSession token secret) secret =
    if bool_decide (st_ExpiresAt token < now)%Z then Err (errorf "token expired") else Ok token.
Proof.
  intros Hwf Hp. unfold DecodeSession. rewrite EncodeSession_cut, String.eqb_refl.
  rewrite base64_roundtrip, parse_text by exact Hp. cbn [negb mbind option_bind].
  by rewrite Unmarshal_jenc.
Qed.

(** Only signed sessions are accepted: a cookie decodes exactly when it is a
    payload followed by the payload's own MAC under this secret, the payload is
    the base64 of a session document, and the session has not expired. *)
Theorem DecodeSession_authentic now cookie secret token :
  DecodeSession now cookie secret = Ok token <->
  exists payload data j,
    cookie = payload +:+ "." +:+ session_mac secret payload /\ elem_str "." payload = false /\
    DecodeString true payload = Some data /\ js_parse data = Some j /\ Unmarshal j = Some token /\
    (now <= st_ExpiresAt token)%Z.
Proof.
  unfold DecodeSession. split.
  - destruct (Cut cookie ".") as [[payload sig]|] eqn:Ec; [|done].
    apply Cut_spec in Ec as [-> Hdot]. destruct (String.eqb_spec sig (session_mac secret payload)) as [->|]; [|done].
    cbn [negb]. destruct (DecodeString true payload) as [data|] eqn:Ed; [|done].
    destruct (js_parse data) as [j|] eqn:Ej; [|done]. cbn [mbind option_bind].
    destruct (Unmarshal j) as [tok|] eqn:Eu; [|done]. case_bool_decide; [done|]. intros [= <-].
    exists payload, data, j. split_and!; try done. lia.
  - intros (payload & data & j & -> & Hdot & Hd & Hj & Hu & Hexp).
    change ("." +:+ session_mac secret payload) with (String "." (session_mac secret payload)). rewrite (Cut_app payload _ "." Hdot), String.eqb_refl. cbn [negb]. rewrite Hd, Hj. cbn [mbind option_bind].
    rewrite Hu, bool_decide_false by lia. done.
Qed.
End sessions.

Section services.
Context {R : Type} `{!Repository R} `{!RepositoryLaws R}.
Implicit Types s : Service R.

(** Bumping the auth epoch revokes every session that was valid. *)
Theorem bump_revokes_sessions s s' tok :
  repo_ok (svc_repo s) -> SessionEpochValid s (Some tok) = true ->
  svc_BumpAuthEpoch s = (s', Ok tt) -> SessionEpochValid s' (Some tok) = false.
Proof.
  intros Hok Hv Hb. unfold svc_BumpAuthEpoch, on_repo in Hb.
  destruct (repo_BumpAuthEpoch (svc_repo s)) as [r' x] eqn:Eb. apply pair_eq in Hb as [<- ->].
  destruct (law_BumpAuthEpoch _ _ Hok Eb) as (e & He & He').
  unfold SessionEpochValid, svc_GetAuthEpoch in *. rewrite He in Hv. apply bool_decide_eq_true in Hv.
  cbn. rewrite He'. apply bool_decide_eq_false. rewrite Hv. intros E. by apply (wrap64_succ_ne e).
Qed.

(** ** Access tokens *)

Context `{!Crypto} (rfc3339 : Z -> string).

Definition token_matches (rawToken requiredScope : string) (t : ChannelAccessToken) : Prop :=
  tok_TokenHash t = HashToken rawToken /\ (tok_Scope t = "both" \/ tok_Scope t = requiredScope).

Lemma ValidateChannelToken_true s id raw req :
  ValidateChannelToken id raw req s = true <->
  exists ch t, repo_GetChannel id (svc_repo s) = Ok ch /\ t ∈ ch_AccessTokens ch /\ token_matches raw req t.
Proof.
  unfold ValidateChannelToken. destruct (repo_GetChannel id (svc_repo s)) as [ch|e]; [|naive_solver].
  rewrite any_true. unfold token_matches.
  setoid_rewrite andb_true_iff. setoid_rewrite orb_true_iff. setoid_rewrite bool_decide_eq_true. naive_solver.
Qed.

Lemma validate_same s s' id raw req :
  repo_GetChannel id (svc_repo s') = repo_GetChannel id (svc_repo s) ->
  ValidateChannelToken id raw req s' = ValidateChannelToken id raw req s.
Proof. intros Hg. unfold ValidateChannelToken. by rewrite Hg. Qed.

(** An accepted update of the channel just read. *)
Lemma update_read s id ch (f : Channel -> Channel) s' ch' x :
  repo_ok (svc_repo s) -> repo_GetChannel id (svc_repo s) = Ok ch ->
  (forall c, channel_wf c -> channel_wf (f c)) -> (forall c, ch_ID (f c) = ch_ID c) ->
  on_repo' (repo_UpdateChannel (f ch)) s = (s', ch', Ok x) ->
  repo_ok (svc_repo s') /\ repo_GetChannel id (svc_repo s') = Ok (f ch) /\
  forall id', id' <> id -> repo_GetChannel id' (svc_repo s') = repo_GetChannel id' (svc_repo s).
Proof.
  intros Hok Hg Hwf Hid. unfold on_repo'. destruct x.
  destruct (repo_UpdateChannel (f ch) (svc_repo s)) as [[r' p'] y] eqn:Eu. intros Heq.
  apply pair_eq in Heq as [Heq ->]. apply pair_eq in Heq as [<- <-]. cbn.
  destruct (law_GetChannel _ _ _ Hok Hg) as [Hw Hi].
  destruct (law_UpdateChannel _ _ _ _ Hok (Hwf _ Hw) Eu) as (Hok' & Hget & Hoth).
  rewrite Hid, Hi in *. done.
Qed.

(** A created token works at once: for its scope (any unknown scope means
    both), and no token of any other channel changes. *)
Theorem CreateAccessToken_validates now id name scope r s r' s' raw t :
  repo_ok (svc_repo s) ->
  CreateAccessToken rfc3339 now id name scope r s = (r', s', Ok (raw, t)) ->
  (forall req, ValidateChannelToken id raw req s' = true <->
     token_scope scope = "both" \/ token_scope scope = req \/ ValidateChannelToken id raw req s = true) /\
  (forall id' tok req, id' <> id -> ValidateChannelToken id' tok req s' = ValidateChannelToken id' tok req s) /\
  (exists ch, repo_GetChannel id (svc_repo s') = Ok ch /\ ch_AccessMode ch = "token").
Proof.
  intros Hok. unfold CreateAccessToken. destruct (repo_GetChannel id (svc_repo s)) as [ch|] eqn:Eg; [|done].
  unfold GenerateAccessToken. destruct (rand_Read 32 r) as [r1 [b|]]; [|done]. cbn iota beta zeta.
  destruct (GenerateUUID r1) as [r2 [uid|]]; [|done]. cbn iota beta zeta.
  set (t0 := mkToken uid name _ _ _).
  destruct (on_repo' _ s) as [[s1 ch'] [[]|]] eqn:Eu; [|done]. intros Heq.
  apply pair_eq in Heq as [Heq Ht]. apply pair_eq in Heq as [<- <-]. injection Ht as <- <-.
  apply (update_read s id ch (fun ch => ch <| ch_AccessTokens := ch_AccessTokens ch ++ [t0] |> <| ch_AccessMode := "token" |>))
    in Eu as (Hok' & Hget & Hoth); [|done..]. split_and!.
  - intros req. rewrite !ValidateChannelToken_true, Hget, Eg. split.
    + intros (c & t & [= <-] & Hin & Hm). cbn [ch_AccessTokens set_fld] in Hin.
      apply elem_of_app in Hin as [Hin|Hin]; [right; right; by exists ch, t|].
      apply list_elem_of_singleton in Hin as ->. destruct Hm as [_ [Hm|Hm]]; [by left | right; by left].
    + intros Hc. destruct Hc as [Hc|[Hc|(c & t & [= <-] & Hin & Hm)]].
      * eexists _, t0. split; [done|]. split; [apply elem_of_app; right; by left|]. split; [done | by left].
      * eexists _, t0. split; [done|]. split; [apply elem_of_app; right; by left|]. split; [done | by right].
      * eexists _, t. split; [done|]. split; [apply elem_of_app; by left | done].
  - intros id' tok req Hne. by apply validate_same, Hoth.
  - eexists. split; [exact Hget | done].
Qed.

(** Deleting a token revokes it and only it: afterwards a raw token
    validates exactly when a token of another ID in the list matches it. *)
Theorem DeleteAccessToken_revokes s s' id tokenID raw req :
  repo_ok (svc_repo s) -> DeleteAccessToken id tokenID s = (s', Ok tt) ->
  ValidateChannelToken id raw req s' = true <->
  exists ch t, repo_GetChannel id (svc_repo s) = Ok ch /\ t ∈ ch_AccessTokens ch /\
    tok_ID t <> tokenID /\ token_matches raw req t.
Proof.
  intros Hok. unfold DeleteAccessToken. destruct (repo_GetChannel id (svc_repo s)) as [ch|] eqn:Eg; [|done].
  destruct (on_repo' _ s) as [[s1 ch'] x] eqn:Eu. intros Heq. apply pair_eq in Heq as [<- ->].
  apply (update_read s id ch (fun ch => ch <| ch_AccessTokens := filter (fun t => tok_ID t <> tokenID) (ch_AccessTokens ch) |>))
    in Eu as (_ & Hget & _); [|done..].
  rewrite ValidateChannelToken_true, Hget. split.
  - intros (c & t & [= <-] & Hin & Hm). cbn [ch_AccessTokens set_fld] in Hin.
    apply list_elem_of_filter in Hin as [Hne Hin]. by exists ch, t.
  - intros (c & t & [= <-] & Hin & Hne & Hm). eexists _, t. split; [done|]. split; [|done].
    cbn. by apply list_elem_of_filter.
Qed.

(** ** Authentication configuration *)

(** An accepted switch of internal authentication leaves a configuration that
    validates, and a configuration that validates is never open once a user
    exists: [BuildAuthConfig] then asks for authentication. *)
Theorem auth_stays_closed s s' enabled :
  repo_ok (svc_repo s) -> svc_SetInternalAuthEnabled enabled s = (s', Ok tt) ->
  ValidateAuthConfig s' = None /\
  (forall users, repo_ListUsers (svc_repo s') = Ok users -> users <> [] -> BuildAuthConfig s' <> None).
Proof.
  intros Hok Hset.
  assert (exists r', repo_SetInternalAuthEnabled enabled (svc_repo s) = (r', Ok tt) /\ s' = s <| svc_repo := r' |>
            /\ (enabled = false -> exists p ps, repo_OIDCProviders (svc_repo s) = Ok (p :: ps))) as (r' & Hr & -> & Hp).
  { revert Hset. unfold svc_SetInternalAuthEnabled, on_repo. destruct enabled; cbn [negb].
    - destruct (repo_SetInternalAuthEnabled true _) as [r' x]. intros Heq%pair_eq. destruct Heq as [<- ->]. by exists r'.
    - destruct (repo_OIDCProviders (svc_repo s)) as [[|p ps]|]; [done| |done].
      destruct (repo_SetInternalAuthEnabled false _) as [r' x]. intros Heq%pair_eq. destruct Heq as [<- ->].
      exists r'. split_and!; [done..|]. by exists p, ps. }
  destruct (law_SetInternalAuthEnabled _ _ _ Hok Hr) as [Hi Ho].
  unfold ValidateAuthConfig, BuildAuthConfig, IsInternalAuthEnabled, users_or_empty, providers_or_empty. cbn.
  rewrite Hi, Ho. destruct enabled.
  - split; [done|]. intros users -> Hne. by destruct users.
  - destruct (Hp eq_refl) as (p & ps & ->). split; [done|]. intros users -> _.
    destruct users; cbn; discriminate.
Qed.

(** ** Field resolvers *)

Lemma resolvers_agree s id c :
  svc_ResolveChannelConfig s id = Ok c ->
  ResolveChannelWebhookSecret s id = Ok (ch_WebhookSecret c) /\
  ResolveChannelAllowedIPs s id = Ok (ch_AllowedIPs c) /\
  exists n, ResolveChannelMaxBodySize s id = Ok n /\ (ch_MaxBodySize c < 0 \/ n = ch_MaxBodySize c)%Z.
Proof.
  unfold svc_ResolveChannelConfig, ResolveChannelWebhookSecret, ResolveChannelAllowedIPs, ResolveChannelMaxBodySize, resolve_field.
  destruct (repo_GetChannel id (svc_repo s)) as [ch|e].
  - intros (g & -> & Hc)%res_bind_Ok. injection Hc as <-. rewrite ResolveChannelConfig_merged.
    assert (ch_AllowedIPs (MigrateChannel ch) = ch_AllowedIPs ch /\ ch_MaxBodySize (MigrateChannel ch) = ch_MaxBodySize ch)
      as [Hips Hbody] by (split; unfold MigrateChannel; chan_step).
    unfold merged. cbn [set_fld ch_WebhookSecret ch_AllowedIPs ch_MaxBodySize]. unfold pick. split_and!.
    + case_bool_decide; cbn; by case_decide.
    + rewrite Hips. destruct (ch_AllowedIPs ch); cbn; by case_decide.
    + rewrite Hbody. case_bool_decide; cbn; eexists; (split; [reflexivity|]); case_decide; lia.
  - destruct (negb (errors_Is e KNotFound)); [done|]. intros (g & -> & Hc)%res_bind_Ok.
    destruct (sc_RequireKnownChannels (gc_Server g)); [done|]. injection Hc as <-. cbn. split_and!; [done..|].
    eexists. split; [reflexivity|]. by right.
Qed.

(** The per-field resolvers of the webhook path agree with the full
    resolution of the channel; the body limit does so unless the stored limit is
    negative, where only the per-field resolver falls back to the default. *)
Theorem field_resolvers_agree s id c :
  svc_ResolveChannelConfig s id = Ok c ->
  ResolveChannelWebhookSecret s id = Ok (ch_WebhookSecret c) /\
  ResolveChannelAllowedIPs s id = Ok (ch_AllowedIPs c) /\
  exists n, ResolveChannelMaxBodySize s id = Ok n /\ (ch_MaxBodySize c < 0 \/ n = ch_MaxBodySize c)%Z.
Proof. apply resolvers_agree. Qed.
End services.

(** ** Witnesses *)

Definition demo_session : SessionToken := mkSession "alice" "alice" "internal" "" "" "" 2000 ["dev"] "s1" 42.

Lemma session_roundtrip_witness :
  DecodeSession 1000 (EncodeSession demo_session "key") "key" = Ok demo_session.
Proof. rewrite (session_roundtrip 1000 demo_session "key"); [reflexivity | split; reflexivity | reflexivity]. Defined.

Lemma no_channels m : (forall id, m !! channel_key id = None) -> channels_keyed (sealing_store m).
Proof.
  intros Hn id j c Hj. assert (m !! channel_key id = Some j) as Hm by exact Hj. by rewrite Hn in Hm.
Qed.

Definition epoch_store : RaftStore mapdb := sealing_store {[ "/meta/auth_epoch" := JNum 42 ]}.
Lemma epoch_store_ok : repo_ok epoch_store.
Proof. apply sealing_store_ok, no_channels. intros id. by rewrite lookup_singleton_ne. Qed.

Lemma bump_revokes_sessions_witness :
  let s := mkService epoch_store None in
  SessionEpochValid s (Some demo_session) = true /\
  SessionEpochValid (svc_BumpAuthEpoch s).1 (Some demo_session) = false.
Proof.
  intros s. assert (SessionEpochValid s (Some demo_session) = true) as Hv by (vm_compute; reflexivity).
  split; [exact Hv|].
  apply (bump_revokes_sessions s _ demo_session epoch_store_ok Hv). apply ok_pair. vm_compute. reflexivity.
Defined.

(** A store with one channel, and the same with a token on it. *)
Definition channel_store : RaftStore mapdb := (UpdateChannel demo_channel (sealing_store ∅)).1.1.
Lemma channel_store_ok : repo_ok channel_store.
Proof.
  refine (proj1 (raft_UpdateChannel (sealing_store ∅) demo_channel channel_store
                   (UpdateChannel demo_channel (sealing_store ∅)).1.2 _ _ _)).
  - apply sealing_store_ok, no_channels. intros id. by rewrite lookup_empty.
  - split; reflexivity.
  - apply ok_triple. vm_compute. reflexivity.
Qed.

Definition demo_3339 (t : Z) : string := pretty t.
Definition with_token : Service (RaftStore mapdb) :=
  (CreateAccessToken demo_3339 5 "build" "ci" "produce" zero_rand (mkService channel_store None)).1.2.
Definition demo_raw : string := hex_encode (string_of_list_ascii (replicate 32 (Ascii.ascii_of_nat 0))).

Definition demo_token : ChannelAccessToken :=
  mkToken "00000000-0000-4000-8000-000000000000" "ci" (HashToken demo_raw) "produce" (demo_3339 5).

Lemma CreateAccessToken_validates_witness :
  ValidateChannelToken "build" demo_raw "produce" with_token = true /\
  ValidateChannelToken "build" demo_raw "consume" with_token = false.
Proof.
  assert (CreateAccessToken demo_3339 5 "build" "ci" "produce" zero_rand (mkService channel_store None) =
          (zero_rand <| rnd_pos := 2 |>, with_token, Ok (demo_raw, demo_token))) as Hc.
  { apply injective_projections; [apply injective_projections|]; vm_compute; reflexivity. }
  destruct (CreateAccessToken_validates demo_3339 5 "build" "ci" "produce" zero_rand (mkService channel_store None)
              _ with_token demo_raw demo_token channel_store_ok Hc) as [Hv _]. split.
  - apply Hv. right. left. reflexivity.
  - apply not_true_iff_false. rewrite Hv. vm_compute. intros [E|[E|E]]; discriminate.
Defined.

Lemma DeleteAccessToken_revokes_witness :
  ValidateChannelToken "build" demo_raw "produce" (DeleteAccessToken "build" (tok_ID demo_token) with_token).1 = false.
Proof.
  apply not_true_iff_false. rewrite (DeleteAccessToken_revokes with_token
    (DeleteAccessToken "build" (tok_ID demo_token) with_token).1 "build" (tok_ID demo_token) demo_raw "produce").
  - intros (ch & t & Hg & Hin & Hne & _). revert Hg Hin Hne.
    replace (repo_GetChannel "build" (svc_repo with_token))
      with (Ok (demo_channel <| ch_AccessTokens := [demo_token] |> <| ch_AccessMode := "token" |>)) by (vm_compute; reflexivity).
    intros [= <-] Hin. apply list_elem_of_singleton in Hin as ->. intros Hne. exact (Hne eq_refl).
  - change with_token with (CreateAccessToken demo_3339 5 "build" "ci" "produce" zero_rand (mkService channel_store None)).1.2.
    refine (proj1 (raft_UpdateChannel channel_store
      (demo_channel <| ch_AccessTokens := [demo_token] |> <| ch_AccessMode := "token" |>) _
      (UpdateChannel (demo_channel <| ch_AccessTokens := [demo_token] |> <| ch_AccessMode := "token" |>) channel_store).1.2
      channel_store_ok _ _)).
    + split; reflexivity.
    + apply injective_projections; [apply injective_projections|]; vm_compute; reflexivity.
  - apply ok_pair. vm_compute. reflexivity.
Defined.

(** One provider, one user: internal authentication may be switched off. *)
Definition auth_store : RaftStore mapdb :=
  sealing_store {[ "/global/auth/oidc_providers" := jenc [provider_zero]; "/users/alice/" := jenc alice ]}.

Lemma auth_stays_closed_witness :
  let s := mkService auth_store None in
  let s' := (svc_SetInternalAuthEnabled false s).1 in
  ValidateAuthConfig s' = None /\ BuildAuthConfig s' <> None.
Proof.
  intros s s'. refine ((fun H => conj (proj1 H) (proj2 H [alice] _ _)) (auth_stays_closed s s' false _ _)).
  - vm_compute. reflexivity.
  - discriminate.
  - apply sealing_store_ok, no_channels. intros id.
    rewrite lookup_insert_ne by discriminate. by rewrite lookup_singleton_ne.
  - apply ok_pair. vm_compute. reflexivity.
Defined.

Lemma field_resolvers_agree_witness :
  let s := mkService channel_store None in
  ResolveChannelWebhookSecret s "build" = Ok "s3cret" /\ ResolveChannelAllowedIPs s "build" = Ok [].
Proof.
  intros s. set (c := ResolveChannelConfig demo_channel DefaultGlobalConfig).
  destruct (field_resolvers_agree s "build" c) as (Hs & Hi & _); [vm_compute; reflexivity|]. split; [exact Hs | exact Hi].
Defined.
