(* ===== verification/Cluster.v ===== *)
(** * Cluster: peer discovery and membership

    internal/repository/raft_discovery.go and the membership half of raft.go: who
    the voters are, who seeds the cluster, and the leader's reconciliation of raft's
    configuration with the desired voters.  hashicorp/raft's configuration calls are
    the class [Membership], name resolution the class [Dns]. *)

From S2P Require Import Prelude RateLimit Http.

(** ** strconv.Atoi *)

Definition digit (c : ascii) : option Z :=
  let v := Z.of_N (Ascii.N_of_ascii c) in if (48 <=? v)%Z && (v <=? 57)%Z then Some (v - 48)%Z else None.
Fixpoint parse_digits (acc : Z) (s : string) : option Z :=
  match s with EmptyString => Some acc | String c s => d ← digit c; parse_digits (acc * 10 + d)%Z s end.
Definition Atoi (s : string) : option Z :=
  let '(neg, d) := if HasPrefix s "-" then (true, drop_str 1 s) else if HasPrefix s "+" then (false, drop_str 1 s) else (false, s) in
  if bool_decide (d = "") then None
  else n ← parse_digits 0 d; let z := if (neg : bool) then (- n)%Z else n in if int64_range z then Some z else None.

(** ** Peers *)

Record RaftPeer := mkPeer { rp_ID : string; rp_Address : string }.
#[export] Instance peer_eq_dec : EqDecision RaftPeer.
Proof. solve_decision. Defined.

Record RaftDiscoveryConfig := mkDiscovery {
  rd_NodeID : string; rd_AdvertiseAddr : string; rd_BindAddr : string; rd_Peers : list RaftPeer; rd_Replicas : Z;
  rd_StatefulSetName : string; rd_HeadlessService : string; rd_Namespace : string; rd_ClusterDomain : string; rd_RaftPort : Z }.
#[export] Instance eta_discovery : Eta RaftDiscoveryConfig := fun x =>
  mkDiscovery (rd_NodeID x) (rd_AdvertiseAddr x) (rd_BindAddr x) (rd_Peers x) (rd_Replicas x) (rd_StatefulSetName x)
    (rd_HeadlessService x) (rd_Namespace x) (rd_ClusterDomain x) (rd_RaftPort x).

(** toRaftPeers and parsePeers: "id=addr" entries, malformed ones skipped. *)
Definition parse_peer (e : string) : option RaftPeer :=
  match Cut e "=" with
  | Some (id, addr) => if bool_decide (id = "") || bool_decide (addr = "") then None else Some (mkPeer id addr)
  | None => None
  end.
Definition toRaftPeers (entries : list string) : list RaftPeer := omap parse_peer entries.

(** ** Discovery *)

Section discovery.
Context `{!Net}.
Implicit Types (cfg : RaftDiscoveryConfig).

Definition defaultRaftPort : Z := 6001.
Definition raftPort cfg : Z :=
  if negb (rd_RaftPort cfg =? 0)%Z then rd_RaftPort cfg
  else match SplitHostPort (rd_BindAddr cfg) with
       | Some (_, portStr) => match Atoi portStr with Some p => if (0 <? p)%Z then p else defaultRaftPort | None => defaultRaftPort end
       | None => defaultRaftPort
       end.

Definition podAddress cfg (clusterDomain host : string) : string :=
  let name := host +:+ "." +:+ rd_HeadlessService cfg +:+ "." +:+ rd_Namespace cfg +:+ ".svc" in
  let name := if bool_decide (clusterDomain = "") then name else name +:+ "." +:+ clusterDomain in
  name +:+ ":" +:+ Itoa (raftPort cfg).

Definition podOrdinal (host sts : string) : option Z :=
  let prefix := sts +:+ "-" in
  if bool_decide (sts = "") || negb (HasPrefix host prefix) then None
  else
    let suffix := TrimPrefix host prefix in
    if bool_decide (suffix = "") then None
    else n ← Atoi suffix; if (n <? 0)%Z then None else Some n.

Definition deriveBindHost (bindAddr : string) (port : Z) : string :=
  match SplitHostPort bindAddr with
  | None => JoinHostPort "127.0.0.1" (Itoa port)
  | Some (host, portStr) =>
      JoinHostPort (if bool_decide (host = "") || bool_decide (host = "0.0.0.0") || bool_decide (host = "::") then "127.0.0.1" else host) portStr
  end.

Definition deriveAdvertiseAddr cfg (hostname : string) : string :=
  if negb (bool_decide (rd_AdvertiseAddr cfg = "")) then rd_AdvertiseAddr cfg
  else match podOrdinal hostname (rd_StatefulSetName cfg) with
       | Some _ =>
           if negb (bool_decide (rd_HeadlessService cfg = "")) && negb (bool_decide (rd_Namespace cfg = ""))
           then podAddress cfg (rd_ClusterDomain cfg) hostname
           else deriveBindHost (rd_BindAddr cfg) (raftPort cfg)
       | None => deriveBindHost (rd_BindAddr cfg) (raftPort cfg)
       end.

Definition PodSANs cfg (hostname : string) : list string :=
  let base := hostname +:+ "." +:+ rd_HeadlessService cfg in
  let baseNS := base +:+ "." +:+ rd_Namespace cfg in
  let names := [hostname; "localhost"] ++
    if bool_decide (rd_HeadlessService cfg = "") then []
    else [base] ++ if bool_decide (rd_Namespace cfg = "") then []
                   else [baseNS; baseNS +:+ ".svc"] ++
                        if bool_decide (rd_ClusterDomain cfg = "") then [] else [baseNS +:+ ".svc." +:+ rd_ClusterDomain cfg] in
  fold_left (fun seen n => if bool_decide (n ∈ seen) then seen else seen ++ [n]) names [].

(** The three resolvers; the DNS one knows the pod's host name. *)
Inductive PeerResolver := StaticResolver cfg | DnsResolver cfg (hostname : string) | SingleResolver cfg.

Definition NewPeerResolver cfg (hostname : string) : PeerResolver :=
  if negb (bool_decide (rd_Peers cfg = [])) then StaticResolver cfg
  else if negb (bool_decide (rd_StatefulSetName cfg = "")) && negb (bool_decide (rd_HeadlessService cfg = ""))
  then DnsResolver cfg hostname
  else SingleResolver cfg.

Definition dns_peer cfg (host : string) : RaftPeer := mkPeer host (podAddress cfg (rd_ClusterDomain cfg) host).
Definition pod_host cfg (i : nat) : string := rd_StatefulSetName cfg +:+ "-" +:+ Itoa (Z.of_nat i).
Definition dns_Resolve cfg : res (list RaftPeer) :=
  if (rd_Replicas cfg <? 1)%Z then Err (errorf "raft discovery: replicas must be >= 1")
  else if bool_decide (rd_StatefulSetName cfg = "") then Err (errorf "raft discovery: statefulset_name is required")
  else if bool_decide (rd_HeadlessService cfg = "") then Err (errorf "raft discovery: headless_service is required")
  else if bool_decide (rd_Namespace cfg = "") then Err (errorf "raft discovery: namespace is required")
  else Ok ((fun i => dns_peer cfg (pod_host cfg i)) <$> seq 0 (Z.to_nat (rd_Replicas cfg))).
Definition selfFor cfg (host : string) : res RaftPeer :=
  match podOrdinal host (rd_StatefulSetName cfg) with
  | Some _ => Ok (dns_peer cfg host)
  | None =>
      if negb (bool_decide (rd_AdvertiseAddr cfg = "")) then Ok (mkPeer (rd_NodeID cfg) (rd_AdvertiseAddr cfg))
      else Err (errorf "raft discovery: hostname does not match <statefulset>-<ordinal> and advertise_addr is unset")
  end.

Definition matchSelf cfg : option RaftPeer :=
  match (if bool_decide (rd_NodeID cfg = "") then None else find (fun p => bool_decide (rp_ID p = rd_NodeID cfg)) (rd_Peers cfg)) with
  | Some p => Some p
  | None =>
      if bool_decide (rd_AdvertiseAddr cfg = "") then None
      else find (fun p => bool_decide (rp_Address p = rd_AdvertiseAddr cfg)) (rd_Peers cfg)
  end.
Definition synthesizeSelf cfg : res RaftPeer :=
  if bool_decide (rd_NodeID cfg = "") && bool_decide (rd_AdvertiseAddr cfg = "")
  then Err (errorf "raft discovery: cannot identify self without node_id or advertise_addr")
  else Ok (mkPeer (rd_NodeID cfg)
             (if bool_decide (rd_AdvertiseAddr cfg = "") then deriveBindHost (rd_BindAddr cfg) (raftPort cfg) else rd_AdvertiseAddr cfg)).

(** sort.Slice by ID; the IDs of a sound configuration are distinct, so that the
    sort need not be stable. *)
Definition id_le (p q : RaftPeer) : Prop := String.le (rp_ID p) (rp_ID q).
#[export] Instance id_le_dec : RelDecision id_le.
Proof. intros p q. unfold id_le. apply _. Defined.
Definition sort_peers : list RaftPeer -> list RaftPeer := merge_sort id_le.

Definition static_Resolve cfg : res (list RaftPeer) :=
  match matchSelf cfg with
  | Some _ => Ok (rd_Peers cfg)
  | None => res_bind (synthesizeSelf cfg) (fun self => Ok (sort_peers (rd_Peers cfg ++ [self])))
  end.
Definition static_Self cfg : res RaftPeer := match matchSelf cfg with Some p => Ok p | None => synthesizeSelf cfg end.

Definition single_Self cfg : RaftPeer :=
  mkPeer (rd_NodeID cfg)
    (if bool_decide (rd_AdvertiseAddr cfg = "") then deriveBindHost (rd_BindAddr cfg) (raftPort cfg) else rd_AdvertiseAddr cfg).

Definition Resolve (r : PeerResolver) : res (list RaftPeer) :=
  match r with
  | StaticResolver cfg => static_Resolve cfg
  | DnsResolver cfg _ => dns_Resolve cfg
  | SingleResolver cfg => Ok [single_Self cfg]
  end.
Definition Self (r : PeerResolver) : res RaftPeer :=
  match r with
  | StaticResolver cfg => static_Self cfg
  | DnsResolver cfg hostname => selfFor cfg hostname
  | SingleResolver cfg => Ok (single_Self cfg)
  end.

(** The node's ID and whether it seeds the cluster. *)
Definition resolveBootstrapState (NodeID : string) (resolver : PeerResolver) : res (string * bool) :=
  res_bind (Resolve resolver) (fun resolved =>
    let shouldBootstrap := match Self resolver, resolved with
                           | Ok self, first :: _ => bool_decide (rp_ID self = rp_ID first)
                           | _, _ => true
                           end in
    let nodeID := if negb (bool_decide (NodeID = "")) then NodeID
                  else match Self resolver with Ok self => rp_ID self | Err _ => "" end in
    Ok (if bool_decide (nodeID = "") then "node1" else nodeID, shouldBootstrap)).
End discovery.

(** ** Membership (raft.go) *)

Inductive Suffrage := Voter | Nonvoter | Staging.
#[export] Instance suffrage_eq_dec : EqDecision Suffrage.
Proof. solve_decision. Defined.
Record RaftServer := mkServer { sv_Suffrage : Suffrage; sv_ID : string; sv_Address : string }.
#[export] Instance server_eq_dec : EqDecision RaftServer.
Proof. solve_decision. Defined.

(** raftConfigurationFromPeers: empty entries are skipped, the first of each ID is kept. *)
Fixpoint raft_servers (seen : list string) (peers : list RaftPeer) : list RaftServer :=
  match peers with
  | [] => []
  | p :: peers =>
      if bool_decide (rp_ID p = "") || bool_decide (rp_Address p = "") || bool_decide (rp_ID p ∈ seen) then raft_servers seen peers
      else mkServer Voter (rp_ID p) (rp_Address p) :: raft_servers (rp_ID p :: seen) peers
  end.
Definition raftConfigurationFromPeers (peers : list RaftPeer) : list RaftServer := raft_servers [] peers.

(** The futures of hashicorp/raft, waited for. *)
Inductive transfer_error := ErrNotLeader | TransferFailed (msg : string).
Class Membership (M : Type) := {
  mb_Configuration : M -> res (list RaftServer);
  mb_AddVoter : string -> string -> M -> M * res unit;
  mb_RemoveServer : string -> M -> M * res unit;
  mb_Transfer : M -> M * option transfer_error
}.

(** The resolver of the host during one reconciliation: [lookup_host] tells whether
    net.LookupHost finds an address in its two seconds, [resolve_tcp] is
    net.ResolveTCPAddr. *)
Class Dns := { lookup_host : string -> bool; resolve_tcp : string -> option string }.

(** The order in which [range] visits a map, for each of the three loops. *)
Class MapRange := {
  range_add : gmap string RaftPeer -> list (string * RaftPeer);
  range_update : gmap string RaftPeer -> list (string * RaftPeer);
  range_remove : gmap string RaftServer -> list (string * RaftServer)
}.

Section membership.
Context {M : Type} `{!Membership M} `{!Net} `{!Dns} `{!MapRange}.

Definition GetConfiguration (m : M) : res (list RaftServer) :=
  match mb_Configuration m with Ok c => Ok c | Err e => Err (mkErr (err_is e) ("get raft configuration: " +:+ err_msg e)) end.
Definition AddVoter (id address : string) (m : M) : M * res unit :=
  let '(m, r) := mb_AddVoter id address m in
  (m, match r with Ok _ => Ok tt | Err e => Err (mkErr (err_is e) ("raft add voter " +:+ id +:+ ": " +:+ err_msg e)) end).
Definition RemoveServer (id : string) (m : M) : M * res unit :=
  let '(m, r) := mb_RemoveServer id m in
  (m, match r with Ok _ => Ok tt | Err e => Err (mkErr (err_is e) ("raft remove server " +:+ id +:+ ": " +:+ err_msg e)) end).

Definition peerResolvable (p : RaftPeer) : bool :=
  match SplitHostPort (rp_Address p) with
  | None => true
  | Some (host, _) => if bool_decide (host = "") || bool_decide (is_Some (ParseIP host)) then true else lookup_host host
  end.

Definition addrChanged (current desired : string) : bool :=
  if bool_decide (current = desired) then false
  else match SplitHostPort desired with
       | None => true
       | Some (host, _) =>
           if bool_decide (is_Some (ParseIP host)) then true
           else match resolve_tcp desired with None => true | Some resolved => negb (bool_decide (current = resolved)) end
       end.

Definition currentByID (servers : list RaftServer) : gmap string RaftServer :=
  fold_left (fun g s => <[sv_ID s := s]> g) servers ∅.
Definition desiredByID (desired : list RaftPeer) : gmap string RaftPeer :=
  fold_left (fun g p => if bool_decide (rp_ID p = "") then g else <[rp_ID p := p]> g) desired ∅.

(** A loop that stops at the first error and collects the IDs its passes name. *)
Fixpoint range_loop {A} (pass : A -> M -> M * res (list string)) (l : list A) (m : M) (acc : list string) : M * list string * res unit :=
  match l with
  | [] => (m, acc, Ok tt)
  | x :: l =>
      let '(m, r) := pass x m in
      match r with Ok ids => range_loop pass l m (acc ++ ids) | Err e => (m, acc, Err e) end
  end.

Definition add_pass (current : gmap string RaftServer) (e : string * RaftPeer) (m : M) : M * res (list string) :=
  let '(id, p) := e in
  match current !! id with
  | Some _ => (m, Ok [])
  | None =>
      if negb (peerResolvable p) then (m, Ok [])
      else let '(m, r) := AddVoter id (rp_Address p) m in (m, res_bind r (fun _ => Ok [id]))
  end.
Definition update_pass (current : gmap string RaftServer) (e : string * RaftPeer) (m : M) : M * res (list string) :=
  let '(id, p) := e in
  match current !! id with
  | None => (m, Ok [])
  | Some srv =>
      if negb (addrChanged (sv_Address srv) (rp_Address p)) then (m, Ok [])
      else if negb (peerResolvable p) then (m, Ok [])
      else
        let '(m, r) := RemoveServer id m in
        match r with
        | Err e => (m, Err e)
        | Ok _ => let '(m, r) := AddVoter id (rp_Address p) m in (m, res_bind r (fun _ => Ok [id]))
        end
  end.
Definition remove_pass (desired : gmap string RaftPeer) (e : string * RaftServer) (m : M) : M * res (list string) :=
  let '(id, _) := e in
  match desired !! id with
  | Some _ => (m, Ok [])
  | None => let '(m, r) := RemoveServer id m in (m, res_bind r (fun _ => Ok [id]))
  end.

Record Reconciled := mkReconciled { rc_added : list string; rc_updated : list string; rc_removed : list string; rc_err : res unit }.

Definition ReconcileMembership (desired : list RaftPeer) (m : M) : M * Reconciled :=
  match GetConfiguration m with
  | Err e => (m, mkReconciled [] [] [] (Err e))
  | Ok current =>
      let cur := currentByID current in
      let des := desiredByID desired in
      let '(m, added, r) := range_loop (add_pass cur) (range_add des) m [] in
      match r with
      | Err e => (m, mkReconciled added [] [] (Err e))
      | Ok _ =>
          let '(m, updated, r) := range_loop (update_pass cur) (range_update des) m [] in
          match r with
          | Err e => (m, mkReconciled added updated [] (Err e))
          | Ok _ =>
              let '(m, removed, r) := range_loop (remove_pass des) (range_remove cur) m [] in
              (m, mkReconciled added updated removed r)
          end
      end
  end.

(** One tick of StartJoinLoop. *)
Definition join_tick (isLeader : bool) (resolver : PeerResolver) (m : M) : M :=
  if negb isLeader then m
  else match Resolve resolver with Err _ => m | Ok desired => (ReconcileMembership desired m).1 end.

Definition IsVoter (nodeID : string) (m : M) : bool :=
  match GetConfiguration m with
  | Err _ => false
  | Ok cfg => existsb (fun s => bool_decide (sv_ID s = nodeID) && bool_decide (sv_Suffrage s = Voter)) cfg
  end.
Definition IsStarted (isLeader : bool) (nodeID : string) (m : M) : bool := isLeader || IsVoter nodeID m.

Definition StepDown (nodeID : string) (m : M) : M * res unit :=
  match GetConfiguration m with
  | Err e => (m, Err (mkErr (err_is e) ("get configuration: " +:+ err_msg e)))
  | Ok cfg =>
      let otherVoters := List.filter (fun s => bool_decide (sv_Suffrage s = Voter) && negb (bool_decide (sv_ID s = nodeID))) cfg in
      if bool_decide (otherVoters = []) then (m, Ok tt)
      else
        let '(m, err) := mb_Transfer m in
        (m, match err with
            | None | Some ErrNotLeader => Ok tt
            | Some (TransferFailed msg) => Err (errorf ("step down: " +:+ msg))
            end)
  end.
End membership.

(** cleanStateFromStats; time.ParseDuration is the argument [parse_duration]. *)
Definition followerLastContactThreshold : Z := 15 * 1000000000.
Definition cleanStateFromStats (parse_duration : string -> option Z) (stats : gmap string string) : bool :=
  let get k := default "" (stats !! k) in
  let state := get "state" in
  if negb (bool_decide (state = "Leader")) && negb (bool_decide (state = "Follower")) then false
  else if negb (bool_decide (get "commit_index" = get "applied_index")) then false
  else if negb (bool_decide (get "fsm_pending" = "0")) then false
  else if bool_decide (state = "Follower") && bool_decide (get "commit_index" = "0") then false
  else if bool_decide (state = "Follower") then
    let lastContact := get "last_contact" in
    if bool_decide (lastContact = "never") || bool_decide (lastContact = "") then false
    else match parse_duration lastContact with
         | None => false
         | Some d => negb (followerLastContactThreshold <? d)%Z
         end
  else true.

(** A configuration kept by one node, as hashicorp/raft checks it: a change needs
    the leader, and the resulting configuration must have a voter, no empty field
    and no duplicate address; a leader that removes itself steps down. *)
Record LocalRaft := mkLocal { lr_self : string; lr_leader : bool; lr_servers : list RaftServer }.
Definition checkConfiguration (l : list RaftServer) : bool :=
  bool_decide (NoDup (map sv_ID l)) && bool_decide (NoDup (map sv_Address l)) &&
  forallb (fun s => negb (bool_decide (sv_ID s = "")) && negb (bool_decide (sv_Address s = ""))) l &&
  existsb (fun s => bool_decide (sv_Suffrage s = Voter)) l.
Definition local_change (l' : list RaftServer) (m : LocalRaft) : LocalRaft * res unit :=
  if negb (lr_leader m) then (m, Err (errorf "node is not the leader"))
  else if checkConfiguration l'
  then (mkLocal (lr_self m) (bool_decide (lr_self m ∈ map sv_ID l')) l', Ok tt)
  else (m, Err (errorf "invalid configuration")).
#[export] Instance local_membership : Membership LocalRaft := {|
  mb_Configuration m := Ok (lr_servers m);
  mb_AddVoter id a m :=
    local_change (if bool_decide (id ∈ map sv_ID (lr_servers m))
                  then map (fun s => if bool_decide (sv_ID s = id) then mkServer Voter id a else s) (lr_servers m)
                  else lr_servers m ++ [mkServer Voter id a]) m;
  mb_RemoveServer id m := local_change (List.filter (fun s => negb (bool_decide (sv_ID s = id))) (lr_servers m)) m;
  mb_Transfer m := if lr_leader m then (mkLocal (lr_self m) false (lr_servers m), None) else (m, Some ErrNotLeader)
|}.
#[export] Instance sorted_range : MapRange := {| range_add := map_to_list; range_update := map_to_list; range_remove := map_to_list |}.
