(* ===== verification/ClusterTheory.v ===== *)
(** * ClusterTheory: seeding and reconciling the cluster

    The leader's reconciliation brings raft's configuration to a stated target
    whatever the order of its map loops, and a second run changes nothing; an
    address that moves to another ID stops it for good; exactly one node of a
    sound deployment seeds the cluster. *)

From S2P Require Import Prelude RateLimit Http Cluster.

(** ** What the raft calls promise *)

(** The configuration of [m], by server ID. *)
Definition reports {M} `{!Membership M} (m : M) (v : gmap string RaftServer) : Prop :=
  exists c, mb_Configuration m = Ok c /\ currentByID c = v.

(** [mb_leads m self]: [self] leads and can commit; it stays so under a valid
    change of configuration that does not remove it. *)
Class MembershipLaws (M : Type) `{!Membership M} := {
  mb_leads : M -> string -> Prop;
  add_applied m id a m' v : reports m v -> mb_AddVoter id a m = (m', Ok tt) -> reports m' (<[id := mkServer Voter id a]> v);
  remove_applied m id m' v : reports m v -> mb_RemoveServer id m = (m', Ok tt) -> reports m' (delete id v);
  leader_adds m self id a v : mb_leads m self -> reports m v -> id <> "" -> a <> "" ->
    (forall j s, v !! j = Some s -> j <> id -> sv_Address s <> a) ->
    exists m', mb_AddVoter id a m = (m', Ok tt) /\ mb_leads m' self;
  leader_removes m self id v : mb_leads m self -> reports m v -> id <> self ->
    exists m', mb_RemoveServer id m = (m', Ok tt) /\ mb_leads m' self;
  failed_add m id a m' e v : reports m v -> mb_AddVoter id a m = (m', Err e) ->
    exists v', reports m' v' /\ forall j, j <> id -> v' !! j = v !! j;
  duplicate_address m id a j s v : reports m v -> v !! j = Some s -> j <> id -> sv_Address s = a ->
    exists e, mb_AddVoter id a m = (m, Err e)
}.

(** [range] visits every entry once. *)
Class MapRangeLaws `{!MapRange} := {
  range_add_perm g : range_add g ≡ₚ map_to_list g;
  range_update_perm g : range_update g ≡ₚ map_to_list g;
  range_remove_perm g : range_remove g ≡ₚ map_to_list g
}.
#[export] Instance sorted_range_laws : MapRangeLaws.
Proof. by split. Qed.

(** ** Loops over a map *)

Section loops.
Context {M A : Type} (pass : string * A -> M -> M * res (list string)).
Context (eff : string -> A -> option (option RaftServer)) (out : string -> A -> list string).

(** What a visit does to the configuration: nothing, or set the visited ID. *)
Definition apply_eff (v : gmap string RaftServer) (e : string * A) : gmap string RaftServer :=
  match eff e.1 e.2 with None => v | Some o => partial_alter (fun _ => o) e.1 v end.
Definition outs (l : list (string * A)) : list string := concat ((fun e => out e.1 e.2) <$> l).

Lemma range_loop_runs (I : M -> gmap string RaftServer -> Prop) l m v acc :
  (forall e m v, e ∈ l -> I m v -> exists m', pass e m = (m', Ok (out e.1 e.2)) /\ I m' (apply_eff v e)) ->
  I m v -> exists m', range_loop pass l m acc = (m', acc ++ outs l, Ok tt) /\ I m' (foldl apply_eff v l).
Proof.
  revert m v acc. induction l as [|e l IH]; intros m v acc Hstep Hi; simpl.
  - exists m. by rewrite app_nil_r.
  - destruct (Hstep e m v) as (m1 & -> & Hi1); [by left | done |].
    destruct (IH m1 (apply_eff v e) (acc ++ out e.1 e.2)) as (m2 & -> & Hi2); [intros; apply Hstep; [by right | done] | done |].
    exists m2. by rewrite <- app_assoc.
Qed.

Lemma apply_eff_other v e k : e.1 <> k -> apply_eff v e !! k = v !! k.
Proof. intros Hk. unfold apply_eff. destruct (eff _ _); [|done]. by apply lookup_partial_alter_ne. Qed.

Lemma fold_eff_lookup l v k : NoDup l.*1 ->
  foldl apply_eff v l !! k =
    match (list_to_map l : gmap string A) !! k with
    | Some x => match eff k x with None => v !! k | Some o => o end
    | None => v !! k
    end.
Proof.
  revert v. induction l as [|[k0 x0] l IH]; intros v Hnd; simpl; [done|].
  apply NoDup_cons in Hnd as [Hk0 Hnd]. rewrite IH by done. destruct (decide (k0 = k)) as [->|Hne].
  - rewrite lookup_insert_eq, (not_elem_of_list_to_map_1 l k Hk0). unfold apply_eff. simpl.
    destruct (eff k x0); [apply lookup_partial_alter_eq | done].
  - rewrite lookup_insert_ne by done. by rewrite apply_eff_other.
Qed.

Lemma fold_eff_map l g v k : l ≡ₚ map_to_list g ->
  foldl apply_eff v l !! k =
    match g !! k with Some x => match eff k x with None => v !! k | Some o => o end | None => v !! k end.
Proof.
  intros Hl. assert (NoDup l.*1) as Hnd by (rewrite Hl; apply NoDup_fst_map_to_list).
  rewrite fold_eff_lookup by done. by rewrite (list_to_map_proper l (map_to_list g) Hnd Hl), list_to_map_to_list.
Qed.

Lemma outs_nil l : (forall e, e ∈ l -> out e.1 e.2 = []) -> outs l = [].
Proof. intros Ho. unfold outs. induction l as [|e l IH]; [done|]. simpl. rewrite (Ho e) by left. apply IH. intros. apply Ho. by right. Qed.
End loops.

(** The ID of a visit that has an effect. *)
Definition touched {A} (eff : string -> A -> option (option RaftServer)) (id : string) (x : A) : list string :=
  if eff id x is Some _ then [id] else [].

Lemma elem_touched {A} (eff : string -> A -> option (option RaftServer)) l (g : gmap string A) id : l ≡ₚ map_to_list g ->
  id ∈ outs (touched eff) l <-> exists x, g !! id = Some x /\ is_Some (eff id x).
Proof.
  intros Hl. unfold outs. rewrite list_elem_of_In, in_concat. setoid_rewrite <- list_elem_of_In. unfold touched. split.
  - intros (ids & ([k x] & -> & He)%list_elem_of_fmap & Hid). rewrite Hl in He. apply elem_of_map_to_list in He. simpl in *.
    destruct (eff k x) as [o|] eqn:E; [|by apply not_elem_of_nil in Hid]. apply list_elem_of_singleton in Hid as ->. exists x. by rewrite E.
  - intros (x & Hx & o & Ho). exists [id]. split; [|by apply list_elem_of_singleton]. apply list_elem_of_fmap. exists (id, x). simpl.
    rewrite Ho. split; [done|]. rewrite Hl. by apply elem_of_map_to_list.
Qed.

Lemma elem_range {A} (l : list (string * A)) (g : gmap string A) e : l ≡ₚ map_to_list g -> e ∈ l -> g !! e.1 = Some e.2.
Proof. intros Hl. rewrite Hl. destruct e as [k x]. apply elem_of_map_to_list. Qed.

Lemma desired_snoc l p : desiredByID (l ++ [p]) = if bool_decide (rp_ID p = "") then desiredByID l else <[rp_ID p := p]> (desiredByID l).
Proof. unfold desiredByID. by rewrite fold_left_app. Qed.

Lemma desired_elem l id p : desiredByID l !! id = Some p -> p ∈ l /\ rp_ID p = id /\ id <> "".
Proof.
  induction l as [|q l IH] using rev_ind; [done|]. rewrite desired_snoc, elem_of_app, list_elem_of_singleton.
  case_bool_decide as Hq; [naive_solver|]. intros [[<- <-]|[_ H]]%lookup_insert_Some; [auto|]. naive_solver.
Qed.

(** ** Reconciliation *)

Section reconcile.
Context {M : Type} `{!Membership M} `{!Net} `{!Dns} `{!MapRange}.

Definition add_eff (cur : gmap string RaftServer) (id : string) (p : RaftPeer) : option (option RaftServer) :=
  match cur !! id with
  | Some _ => None
  | None => if peerResolvable p then Some (Some (mkServer Voter id (rp_Address p))) else None
  end.
Definition update_eff (cur : gmap string RaftServer) (id : string) (p : RaftPeer) : option (option RaftServer) :=
  match cur !! id with
  | None => None
  | Some s => if addrChanged (sv_Address s) (rp_Address p) && peerResolvable p then Some (Some (mkServer Voter id (rp_Address p))) else None
  end.
Definition remove_eff (des : gmap string RaftPeer) (id : string) (_ : RaftServer) : option (option RaftServer) :=
  match des !! id with Some _ => None | None => Some None end.

(** The configuration a reconciliation aims at. *)
Definition target (des : gmap string RaftPeer) (cur : gmap string RaftServer) (id : string) : option RaftServer :=
  match des !! id, cur !! id with
  | None, _ => None
  | Some p, None => if peerResolvable p then Some (mkServer Voter id (rp_Address p)) else None
  | Some p, Some s =>
      if addrChanged (sv_Address s) (rp_Address p) && peerResolvable p then Some (mkServer Voter id (rp_Address p)) else Some s
  end.

Context `{!MembershipLaws M} `{!MapRangeLaws}.

Lemma AddVoter_ok id a m m' : mb_AddVoter id a m = (m', Ok tt) -> AddVoter id a m = (m', Ok tt).
Proof. unfold AddVoter. by intros ->. Qed.
Lemma RemoveServer_ok id m m' : mb_RemoveServer id m = (m', Ok tt) -> RemoveServer id m = (m', Ok tt).
Proof. unfold RemoveServer. by intros ->. Qed.

(** The leader's state between two passes of a reconciliation of [cur] with [des]. *)
Record between (self : string) (cur : gmap string RaftServer) (des : gmap string RaftPeer) (m : M) (v : gmap string RaftServer) : Prop := mkBetween {
  bt_reports : reports m v;
  bt_leads : mb_leads m self;
  bt_entries j s : v !! j = Some s -> cur !! j = Some s \/ exists p, des !! j = Some p /\ sv_Address s = rp_Address p
}.

(** Desired voters whose addresses a leader [self] can install without a clash. *)
Record placeable (self : string) (cur : gmap string RaftServer) (des : gmap string RaftPeer) : Prop := mkPlaceable {
  pl_named id p : des !! id = Some p -> id <> "" /\ rp_Address p <> "";
  pl_distinct id id' p p' : des !! id = Some p -> des !! id' = Some p' -> rp_Address p = rp_Address p' -> id = id';
  pl_free id p j s : des !! id = Some p -> cur !! j = Some s -> sv_Address s = rp_Address p -> j = id;
  pl_self : exists p, des !! self = Some p /\ update_eff cur self p = None
}.

Section passes.
Context (self : string) (cur : gmap string RaftServer) (des : gmap string RaftPeer) (Hpl : placeable self cur des).

Lemma place m v id p : between self cur des m v -> des !! id = Some p ->
  exists m', AddVoter id (rp_Address p) m = (m', Ok tt) /\ between self cur des m' (<[id := mkServer Voter id (rp_Address p)]> v).
Proof.
  intros [Hr Hl He] Hp. destruct (pl_named _ _ _ Hpl _ _ Hp) as [Hid Ha].
  destruct (leader_adds m self id (rp_Address p) v Hl Hr Hid Ha) as (m' & Hadd & Hl').
  { intros j s Hj Hne Heq. destruct (He j s Hj) as [Hc | (q & Hq & Hs)].
    - by apply Hne, (pl_free _ _ _ Hpl id p j s).
    - apply Hne, (pl_distinct _ _ _ Hpl j id q p); congruence. }
  exists m'. split; [by apply AddVoter_ok|]. split; [by eapply add_applied | done |].
  intros j s. destruct (decide (id = j)) as [<-|Hne]; [|by rewrite lookup_insert_ne by done; apply He].
  rewrite lookup_insert_eq. intros [= <-]. right. by exists p.
Qed.

Lemma drop m v id : between self cur des m v -> id <> self ->
  exists m', RemoveServer id m = (m', Ok tt) /\ between self cur des m' (delete id v).
Proof.
  intros [Hr Hl He] Hne. destruct (leader_removes m self id v Hl Hr Hne) as (m' & Hrm & Hl').
  exists m'. split; [by apply RemoveServer_ok|]. split; [by eapply remove_applied | done |].
  intros j s [_ Hj]%lookup_delete_Some. by apply He.
Qed.

Lemma add_pass_runs e m v : des !! e.1 = Some e.2 -> between self cur des m v ->
  exists m', add_pass cur e m = (m', Ok (touched (add_eff cur) e.1 e.2)) /\ between self cur des m' (apply_eff (add_eff cur) v e).
Proof.
  destruct e as [id p]; simpl. intros Hp Hb. unfold touched, apply_eff, add_eff; simpl.
  destruct (cur !! id); [by exists m|]. destruct (peerResolvable p); simpl; [|by exists m].
  destruct (place m v id p Hb Hp) as (m' & -> & Hb'). by exists m'.
Qed.

Lemma update_pass_runs e m v : des !! e.1 = Some e.2 -> between self cur des m v ->
  exists m', update_pass cur e m = (m', Ok (touched (update_eff cur) e.1 e.2)) /\ between self cur des m' (apply_eff (update_eff cur) v e).
Proof.
  destruct e as [id p]; simpl. intros Hp Hb.
  unfold touched, apply_eff; simpl. destruct (pl_self _ _ _ Hpl) as (ps & Hps & Hself). unfold update_eff in *.
  destruct (cur !! id) as [s|] eqn:Ec; [|by exists m].
  destruct (addrChanged (sv_Address s) (rp_Address p)) eqn:Ea; simpl; [|by exists m].
  destruct (peerResolvable p) eqn:Er; simpl; [|by exists m].
  destruct (drop m v id Hb) as (m1 & -> & Hb1).
  { intros ->. simplify_eq. by rewrite Ec, Ea, Er in Hself. }
  destruct (place m1 _ id p Hb1 Hp) as (m2 & -> & Hb2). exists m2. by rewrite insert_delete_eq in Hb2.
Qed.

Lemma remove_pass_runs e m v : between self cur des m v ->
  exists m', remove_pass des e m = (m', Ok (touched (remove_eff des) e.1 e.2)) /\ between self cur des m' (apply_eff (remove_eff des) v e).
Proof.
  destruct e as [id s]; simpl. intros Hb. unfold touched, apply_eff, remove_eff; simpl.
  destruct (des !! id) as [p|] eqn:Ed; [by exists m|]. destruct (drop m v id Hb) as (m' & -> & Hb').
  { intros ->. destruct (pl_self _ _ _ Hpl) as (ps & Hps & _). congruence. }
  by exists m'.
Qed.

Lemma three_effects id :
  foldl (apply_eff (remove_eff des)) (foldl (apply_eff (update_eff cur)) (foldl (apply_eff (add_eff cur)) cur (range_add des))
    (range_update des)) (range_remove cur) !! id = target des cur id.
Proof.
  rewrite (fold_eff_map _ _ _ _ _ (range_remove_perm cur)), (fold_eff_map _ _ _ _ _ (range_update_perm des)),
    (fold_eff_map _ _ _ _ _ (range_add_perm des)).
  unfold target, remove_eff, update_eff, add_eff.
  destruct (des !! id) as [p|] eqn:Ed, (cur !! id) as [s|] eqn:Ec; simpl; try done.
  - by destruct (addrChanged _ _ && _).
  - by destruct (peerResolvable p).
Qed.
End passes.

Lemma addrChanged_ne a b : addrChanged a b = true -> a <> b.
Proof. unfold addrChanged. by case_bool_decide. Qed.

(** The reported IDs are the differences between the two configurations. *)
Definition reports_changes (cur v : gmap string RaftServer) (rc : Reconciled) : Prop :=
  (forall id, id ∈ rc_added rc <-> cur !! id = None /\ is_Some (v !! id)) /\
  (forall id, id ∈ rc_updated rc <-> exists s s', cur !! id = Some s /\ v !! id = Some s' /\ s <> s') /\
  (forall id, id ∈ rc_removed rc <-> is_Some (cur !! id) /\ v !! id = None).

Lemma target_changes cur des (v : gmap string RaftServer) : (forall id, v !! id = target des cur id) ->
  reports_changes cur v (mkReconciled (outs (touched (add_eff cur)) (range_add des)) (outs (touched (update_eff cur)) (range_update des))
    (outs (touched (remove_eff des)) (range_remove cur)) (Ok tt)).
Proof.
  intros Hv. unfold reports_changes; simpl.
  setoid_rewrite (elem_touched _ _ _ _ (range_add_perm des)). setoid_rewrite (elem_touched _ _ _ _ (range_update_perm des)).
  setoid_rewrite (elem_touched _ _ _ _ (range_remove_perm cur)). setoid_rewrite Hv. unfold target, add_eff, update_eff, remove_eff.
  split; [|split]; intros id.
  all: destruct (des !! id) as [p|] eqn:Ed, (cur !! id) as [s|] eqn:Ec; simpl.
  all: try destruct (peerResolvable p) eqn:Er; simpl.
  all: try destruct (addrChanged (sv_Address s) (rp_Address p)) eqn:Ea; simpl.
  all: try pose proof (addrChanged_ne _ _ Ea) as Hne.
  all: split; intros Hx; repeat match goal with
    | Hx : exists _, _ |- _ => destruct Hx | Hx : _ /\ _ |- _ => destruct Hx
    | Hx : is_Some None |- _ => by destruct Hx end; simplify_eq.
  all: repeat match goal with E : ?b = _, Hx : is_Some (if ?c then _ else _) |- _ =>
    lazymatch c with context [b] => rewrite E in Hx; simpl in Hx end end.
  all: try (by match goal with Hx : is_Some None |- _ => destruct Hx end).
  all: try (eexists; split; [done|]; rewrite ?Er, ?Ea; by eexists).
  all: try (by split; eauto).
  all: try (eexists _, _; split; [done|]; split; [done|]; intros ->; by simpl in Hne).
Qed.


Lemma idle_loop {A} (pass : string * A -> M -> M * res (list string)) l m :
  (forall e, e ∈ l -> pass e m = (m, Ok [])) -> range_loop pass l m [] = (m, [], Ok tt).
Proof.
  intros Hp. induction l as [|e l IH]; [done|]. simpl. rewrite (Hp e) by left. apply IH. intros. apply Hp. by right.
Qed.

(** A second reconciliation with the same desired voters makes no raft call. *)
Theorem reconcile_idempotent desired cur m v :
  reports m v -> (forall id, v !! id = target (desiredByID desired) cur id) ->
  ReconcileMembership desired m = (m, mkReconciled [] [] [] (Ok tt)).
Proof.
  intros (c & Hc & <-) Hv. unfold ReconcileMembership, GetConfiguration. rewrite Hc.
  set (des := desiredByID desired) in *. set (v := currentByID c) in *. unfold target in Hv.
  rewrite idle_loop, idle_loop, idle_loop; [done|..].
  - intros [k s] Hk%(elem_range _ _ _ (range_remove_perm v)). simpl in *. rewrite Hv in Hk. by destruct (des !! k).
  - intros [k p] Hk%(elem_range _ _ _ (range_update_perm des)). simpl in *. rewrite Hv, Hk.
    destruct (cur !! k) as [s|]; destruct (peerResolvable p) eqn:Er; simpl; rewrite ?andb_true_r, ?andb_false_r; try done.
    + destruct (addrChanged (sv_Address s) (rp_Address p)) eqn:Ea; simpl; rewrite ?Ea; [|done].
      unfold addrChanged. by rewrite bool_decide_true.
    + by destruct (negb _).
    + unfold addrChanged. by rewrite bool_decide_true.
  - intros [k p] Hk%(elem_range _ _ _ (range_add_perm des)). simpl in *. rewrite Hv, Hk.
    destruct (cur !! k) as [s|]; [by destruct (_ && _)|]. by destruct (peerResolvable p).
Qed.

(** ** An address that moves to another ID *)

(** A desired voter that raft does not have, whose address another server holds. *)
Record blocked (desired : list RaftPeer) (id j : string) (m : M) : Prop := mkBlocked {
  bl_config : exists v s p, reports m v /\ v !! id = None /\ v !! j = Some s /\ j <> id /\
    desiredByID desired !! id = Some p /\ peerResolvable p = true /\ sv_Address s = rp_Address p
}.

Lemma blocked_loop cur (id j : string) sj p : cur !! id = None -> cur !! j = Some sj -> j <> id ->
  peerResolvable p = true -> sv_Address sj = rp_Address p ->
  forall l, (forall q, (id, q) ∈ l -> q = p) -> forall m v acc m' acc' r,
  reports m v -> v !! id = None -> v !! j = Some sj -> range_loop (add_pass cur) l m acc = (m', acc', r) ->
  (exists v', reports m' v' /\ v' !! id = None /\ v' !! j = Some sj) /\ ((id, p) ∈ l -> exists e, r = Err e).
Proof.
  intros Hid Hj Hne Hres Haddr l. induction l as [|[k q] l IH]; intros Hl m v acc m' acc' r Hr Hvi Hvj.
  { intros [= <- <- <-]. split; [by exists v | by intros ?%not_elem_of_nil]. }
  cbn [range_loop]. assert (forall q, (id, q) ∈ l -> q = p) as Hl' by (intros; apply Hl; by right).
  destruct (decide (k = id)) as [->|Hk].
  { rewrite (Hl q) by left. unfold add_pass. rewrite Hid, Hres. simpl.
    destruct (duplicate_address m id (rp_Address p) j sj v Hr Hvj Hne Haddr) as [e He]. unfold AddVoter. rewrite He. simpl.
    intros [= <- <- <-]. split; [by exists v | by eexists]. }
  assert ((id, p) ∈ (k, q) :: l -> (id, p) ∈ l) as Htail by (by intros [[= <- <-]|]%elem_of_cons).
  unfold add_pass at 1. destruct (cur !! k) as [s|] eqn:Ek.
  { intros Hloop. eapply IH in Hloop as [? ?]; [|done..]. auto. }
  destruct (peerResolvable q); simpl.
  2:{ intros Hloop. eapply IH in Hloop as [? ?]; [|done..]. auto. }
  assert (k <> j) as Hkj by (intros ->; congruence).
  unfold AddVoter. destruct (mb_AddVoter k (rp_Address q) m) as [m1 [[]|e]] eqn:Ea; simpl.
  - intros Hloop. pose proof (add_applied _ _ _ _ _ Hr Ea) as Hr1.
    eapply IH in Hloop as [? ?]; [|done|exact Hr1|by rewrite lookup_insert_ne..]. auto.
  - intros [= <- <- <-]. destruct (failed_add _ _ _ _ _ _ Hr Ea) as (v' & Hr' & Hv').
    split; [|by eexists]. exists v'. by rewrite !Hv'.
Qed.

Lemma blocked_step desired id j m : blocked desired id j m ->
  exists m' rc e, ReconcileMembership desired m = (m', rc) /\ rc_err rc = Err e /\ blocked desired id j m'.
Proof.
  intros [(v & s & p & (c & Hc & <-) & Hid & Hj & Hne & Hp & Hres & Ha)].
  unfold ReconcileMembership, GetConfiguration. rewrite Hc.
  destruct (range_loop _ (range_add _) m []) as [[m1 acc1] r1] eqn:El.
  eapply (blocked_loop _ id j s p) in El as [(v' & Hr & Hi & Hj') He]; [|done..| |by exists c|done|done].
  2:{ intros q Hq%(elem_range _ _ _ (range_add_perm _)). simpl in Hq. congruence. }
  destruct He as [e ->]; [rewrite range_add_perm; by apply elem_of_map_to_list|].
  eexists _, _, e. split; [reflexivity|]. split; [done|]. split. by exists v', s, p.
Qed.

(** Voters are added before stale ones are removed, so that once an address has
    moved to a new ID every later reconciliation fails, and the new ID never becomes
    a voter. *)
Theorem readdressed_voter_blocks desired id j m n : blocked desired id j m ->
  let m_n := Nat.iter n (fun m => (ReconcileMembership desired m).1) m in
  (exists e, rc_err (ReconcileMembership desired m_n).2 = Err e) /\
  exists v, reports m_n v /\ v !! id = None /\ is_Some (v !! j).
Proof.
  intros Hb m_n. assert (blocked desired id j m_n) as Hn.
  { subst m_n. induction n as [|n IH]; [done|]. simpl.
    destruct (blocked_step _ _ _ _ IH) as (m' & rc & e & -> & _ & ?). done. }
  split; [destruct (blocked_step _ _ _ _ Hn) as (m' & rc & e & -> & He & _); by exists e|].
  destruct Hn as [(v & s & p & Hr & Hi & Hj & _)]. exists v. by rewrite Hj.
Qed.
End reconcile.

(** ** The configuration of one node keeps these promises *)

Lemma currentByID_snoc l s : currentByID (l ++ [s]) = <[sv_ID s := s]> (currentByID l).
Proof. unfold currentByID. by rewrite fold_left_app. Qed.

Lemma currentByID_elem l k s : currentByID l !! k = Some s -> s ∈ l /\ sv_ID s = k.
Proof.
  induction l as [|x l IH] using rev_ind; [done|]. rewrite currentByID_snoc, elem_of_app, list_elem_of_singleton.
  intros [[<- <-]|[_ H]]%lookup_insert_Some; [auto|]. naive_solver.
Qed.

Lemma currentByID_in l s : NoDup (map sv_ID l) -> s ∈ l -> currentByID l !! sv_ID s = Some s.
Proof.
  induction l as [|x l IH] using rev_ind; [intros _ ?%not_elem_of_nil; done|].
  rewrite map_app, currentByID_snoc. intros (Hnd & Hd & _)%NoDup_app [Hs | ->%list_elem_of_singleton]%elem_of_app;
    [|by rewrite lookup_insert_eq].
  rewrite lookup_insert_ne; [by apply IH|]. intros Heq. apply (Hd (sv_ID s)); [by apply list_elem_of_fmap_2 | rewrite <- Heq; by left].
Qed.

(** The list with the entry of [id] replaced. *)
Definition readdress (id a : string) (l : list RaftServer) : list RaftServer :=
  map (fun s => if bool_decide (sv_ID s = id) then mkServer Voter id a else s) l.

Lemma readdress_absent id a l : id ∉ map sv_ID l -> readdress id a l = l.
Proof.
  intros Hin. unfold readdress. rewrite <- (map_id l) at 2. apply map_ext_in. intros s Hs%list_elem_of_In.
  rewrite bool_decide_false; [done|]. intros <-. apply Hin. by apply list_elem_of_fmap_2.
Qed.
Lemma readdress_ids id a l : map sv_ID (readdress id a l) = map sv_ID l.
Proof. unfold readdress. rewrite map_map. apply map_ext. intros s. by case_bool_decide. Qed.

Lemma currentByID_readdress id a l : id ∈ map sv_ID l ->
  currentByID (readdress id a l) = <[id := mkServer Voter id a]> (currentByID l).
Proof.
  induction l as [|x l IH] using rev_ind; [by intros ?%not_elem_of_nil|].
  rewrite map_app. unfold readdress in *. rewrite map_app. cbn [map]. rewrite !currentByID_snoc. intros Hin.
  destruct (decide (id ∈ map sv_ID l)) as [Hl|Hl].
  - rewrite IH by done. case_bool_decide as Hx; simpl; [by rewrite Hx, !insert_insert_eq|]. by apply insert_insert_ne.
  - apply elem_of_app in Hin as [?|Hx%list_elem_of_singleton]; [done|]. rewrite bool_decide_true by done. simpl.
    rewrite <- Hx, insert_insert_eq. do 2 f_equal. subst. by apply readdress_absent.
Qed.

Definition without (id : string) (l : list RaftServer) : list RaftServer :=
  List.filter (fun s => negb (bool_decide (sv_ID s = id))) l.

Lemma elem_without id l s : s ∈ without id l <-> s ∈ l /\ sv_ID s <> id.
Proof.
  unfold without. rewrite !list_elem_of_In, filter_In. case_bool_decide; simpl; naive_solver.
Qed.

Lemma currentByID_without id l : currentByID (without id l) = delete id (currentByID l).
Proof.
  induction l as [|x l IH] using rev_ind; [done|]. unfold without in *. rewrite List.filter_app, currentByID_snoc. simpl.
  case_bool_decide as Hx; simpl.
  - by rewrite app_nil_r, IH, Hx, delete_insert_eq.
  - by rewrite currentByID_snoc, IH, delete_insert_ne by done.
Qed.

(** checkConfiguration, spelled out. *)
Definition sound (l : list RaftServer) : Prop :=
  NoDup (map sv_ID l) /\ NoDup (map sv_Address l) /\ (forall s, s ∈ l -> sv_ID s <> "" /\ sv_Address s <> "") /\
  exists s, s ∈ l /\ sv_Suffrage s = Voter.

Lemma check_sound l : checkConfiguration l = true <-> sound l.
Proof.
  unfold checkConfiguration, sound. rewrite !andb_true_iff, !bool_decide_eq_true, forallb_forall, existsb_exists.
  setoid_rewrite <- list_elem_of_In. setoid_rewrite bool_decide_eq_true.
  assert (forall s, (negb (bool_decide (sv_ID s = "")) && negb (bool_decide (sv_Address s = ""))) = true <-> sv_ID s <> "" /\ sv_Address s <> "") as Hs.
  { intros s. rewrite andb_true_iff, !negb_true_iff, !bool_decide_eq_false. done. }
  setoid_rewrite Hs. tauto.
Qed.

Lemma NoDup_readdress id a l : NoDup (map sv_ID l) -> NoDup (map sv_Address l) ->
  (forall s, s ∈ l -> sv_ID s <> id -> sv_Address s <> a) -> NoDup (map sv_Address (readdress id a l)).
Proof.
  unfold readdress. induction l as [|x l IH]; [constructor|]. cbn [map]. rewrite !NoDup_cons. intros [Hx Hi] [Hy Ha] Hfree.
  assert (forall s, s ∈ l -> sv_ID s <> id -> sv_Address s <> a) as Hfree' by (intros; apply Hfree; [by right | done]).
  split; [|by apply IH]. rewrite list_elem_of_fmap. intros (y & Hxy & Hin).
  apply list_elem_of_fmap in Hin as (s & -> & Hin). revert Hxy. case_bool_decide as E1; case_bool_decide as E2; simpl; intros Hxy.
  - apply Hx. rewrite E1, <- E2. by apply list_elem_of_fmap_2.
  - by apply (Hfree' s Hin E2).
  - by apply (Hfree x); [left | |].
  - apply Hy. rewrite Hxy. by apply list_elem_of_fmap_2.
Qed.

Lemma elem_readdress id a l s : s ∈ l -> (if bool_decide (sv_ID s = id) then mkServer Voter id a else s) ∈ readdress id a l.
Proof. intros Hs. apply list_elem_of_fmap. by exists s. Qed.

Lemma sound_readdress id a l : sound l -> id <> "" -> a <> "" -> id ∈ map sv_ID l ->
  (forall s, s ∈ l -> sv_ID s <> id -> sv_Address s <> a) -> sound (readdress id a l).
Proof.
  intros (Hi & Ha & Hne & s & Hs & Hv) Hid Hadr Hin Hfree. repeat split.
  - by rewrite readdress_ids.
  - by apply NoDup_readdress.
  - apply list_elem_of_fmap in H as (x & -> & Hx). case_bool_decide; [done|]. by apply Hne.
  - apply list_elem_of_fmap in H as (x & -> & Hx). case_bool_decide; [done|]. by apply Hne.
  - eexists. split; [by apply list_elem_of_fmap_2|]. simpl. by case_bool_decide.
Qed.

Lemma sound_snoc id a l : sound l -> id <> "" -> a <> "" -> id ∉ map sv_ID l -> a ∉ map sv_Address l ->
  sound (l ++ [mkServer Voter id a]).
Proof.
  intros (Hi & Ha & Hne & s & Hs & Hv) Hid Hadr Hin Hfree. split; [|split; [|split]].
  - rewrite map_app. apply NoDup_app. split; [done|]. split; [|apply NoDup_singleton]. intros x Hx ->%list_elem_of_singleton. done.
  - rewrite map_app. apply NoDup_app. split; [done|]. split; [|apply NoDup_singleton]. intros x Hx ->%list_elem_of_singleton. done.
  - intros x [Hx| ->%list_elem_of_singleton]%elem_of_app; [by apply Hne | done].
  - exists s. split; [|done]. apply elem_of_app. by left.
Qed.

Lemma NoDup_map_without {A} (f : RaftServer -> A) id l : NoDup (map f l) -> NoDup (map f (without id l)).
Proof.
  induction l as [|x l IH]; [done|]. cbn [map]. intros [Hx Hl]%NoDup_cons. unfold without. simpl.
  case_bool_decide; simpl; [by apply IH|]. apply NoDup_cons. split; [|by apply IH].
  rewrite list_elem_of_fmap. intros (y & Hy & [Hin _]%elem_without). apply Hx. rewrite Hy. by apply list_elem_of_fmap_2.
Qed.

Lemma sound_without id l s : sound l -> s ∈ l -> sv_Suffrage s = Voter -> sv_ID s <> id -> sound (without id l).
Proof.
  intros (Hi & Ha & Hne & _) Hs Hv Hid. split; [|split; [|split]]; [by apply NoDup_map_without..| |].
  - intros x [Hx _]%elem_without. by apply Hne.
  - exists s. by rewrite elem_without.
Qed.

(** The node leads a sound configuration of which it is a voter. *)
Definition local_leads (m : LocalRaft) (self : string) : Prop :=
  lr_leader m = true /\ lr_self m = self /\ sound (lr_servers m) /\
  exists s, s ∈ lr_servers m /\ sv_ID s = self /\ sv_Suffrage s = Voter.

Lemma local_change_ok l' m m' : local_change l' m = (m', Ok tt) -> lr_servers m' = l'.
Proof. unfold local_change. destruct (negb _); [done|]. destruct (checkConfiguration l'); [|done]. by intros [= <-]. Qed.
Lemma local_change_err l' m m' e : local_change l' m = (m', Err e) -> m' = m.
Proof. unfold local_change. destruct (negb _); [by intros [= <-]|]. destruct (checkConfiguration l'); [done|]. by intros [= <-]. Qed.
Lemma local_change_runs l' m self s : lr_leader m = true -> lr_self m = self -> sound l' ->
  s ∈ l' -> sv_ID s = self -> sv_Suffrage s = Voter ->
  exists m', local_change l' m = (m', Ok tt) /\ local_leads m' self.
Proof.
  intros Hl Hs Hsound Hin Hid Hv. unfold local_change. rewrite Hl, (proj2 (check_sound l')) by done.
  eexists. split; [reflexivity|]. unfold local_leads; simpl. split; [|split; [done|]; split; [done|]; by exists s].
  apply bool_decide_eq_true. rewrite Hs, <- Hid. by apply list_elem_of_fmap_2.
Qed.

#[export] Instance local_laws : MembershipLaws LocalRaft.
Proof.
  refine {| mb_leads := local_leads |}; unfold reports; cbn [mb_Configuration mb_AddVoter mb_RemoveServer local_membership].
  - intros m id a m' v (c & [= <-] & <-) Hadd%local_change_ok. eexists. split; [reflexivity|]. rewrite Hadd.
    case_bool_decide as Hin; [by apply currentByID_readdress | apply currentByID_snoc].
  - intros m id m' v (c & [= <-] & <-) Hrm%local_change_ok. eexists. split; [reflexivity|]. rewrite Hrm. apply currentByID_without.
  - intros m self id a v (Hl & Hs & Hsound & s & Hin & Hid & Hv) (c & [= <-] & <-) Hne Ha Hfree.
    assert (forall s, s ∈ lr_servers m -> sv_ID s <> id -> sv_Address s <> a) as Hfree'.
    { intros x Hx Hxi. eapply Hfree; [by apply (currentByID_in _ x); [apply Hsound|] | done]. }
    case_bool_decide as Hmem.
    + apply (local_change_runs _ m self (if bool_decide (sv_ID s = id) then mkServer Voter id a else s) Hl Hs);
        [by apply sound_readdress | by apply elem_readdress | |]; by case_bool_decide; simpl; subst.
    + apply (local_change_runs _ m self s Hl Hs); [|by apply elem_of_app; left|done..].
      apply sound_snoc; [done..|]. intros (x & -> & Hx)%list_elem_of_fmap. apply (Hfree' x Hx); [|done].
      intros <-. apply Hmem. by apply list_elem_of_fmap_2.
  - intros m self id v (Hl & Hs & Hsound & s & Hin & Hid & Hv) _ Hne.
    apply (local_change_runs _ m self s Hl Hs); [by apply (sound_without id _ s); [..|congruence] | by apply elem_without; split; [|congruence] | done..].
  - intros m id a m' e v Hr ->%local_change_err. by exists v.
  - intros m id a j s v (c & [= <-] & <-) [Hin <-]%currentByID_elem Hne <-. unfold local_change.
    destruct (lr_leader m); simpl; [|by eexists]. destruct (checkConfiguration _) eqn:Eok; [exfalso | by eexists].
    apply check_sound in Eok as (_ & Hnd & _). case_bool_decide as Hmem.
    + apply list_elem_of_fmap in Hmem as (x & -> & [i Hi]%list_elem_of_lookup). apply list_elem_of_lookup in Hin as [k Hk].
      assert (i = k) as ->; [|by simplify_eq].
      eapply (NoDup_lookup _ _ _ (sv_Address s)); [exact Hnd | |]; rewrite list_lookup_fmap; unfold readdress; rewrite list_lookup_fmap.
      * by rewrite Hi; simpl; rewrite bool_decide_true.
      * rewrite Hk; simpl. by case_bool_decide.
    + rewrite map_app in Hnd. apply NoDup_app in Hnd as (_ & Hd & _). apply (Hd (sv_Address s)); [by apply list_elem_of_fmap_2 | by left].
Defined.

(** ** Witnesses of the reconciliation theorems *)

#[local] Instance demo_dns : Dns := {| lookup_host h := negb (bool_decide (h = "pod-4")); resolve_tcp _ := None |}.
Definition demo_raft : LocalRaft :=
  mkLocal "n1" true [mkServer Voter "n1" "pod-1:6001"; mkServer Voter "n2" "old-2:6001"; mkServer Voter "n9" "pod-9:6001"].
Definition demo_voters : list RaftPeer :=
  [mkPeer "n1" "pod-1:6001"; mkPeer "n2" "pod-2:6001"; mkPeer "n3" "pod-3:6001"; mkPeer "n4" "pod-4:6001"].
Definition after_demo : LocalRaft := (ReconcileMembership demo_voters demo_raft).1.

Example demo_reconciled :
  rc_added (ReconcileMembership demo_voters demo_raft).2 = ["n3"] /\ rc_updated (ReconcileMembership demo_voters demo_raft).2 = ["n2"] /\
  rc_removed (ReconcileMembership demo_voters demo_raft).2 = ["n9"] /\
  lr_servers after_demo = [mkServer Voter "n1" "pod-1:6001"; mkServer Voter "n3" "pod-3:6001"; mkServer Voter "n2" "pod-2:6001"].
Proof. by vm_compute. Qed.

Lemma demo_leads : mb_leads demo_raft "n1".
Proof.
  split; [done|]. split; [done|]. split; [by apply check_sound|].
  exists (mkServer Voter "n1" "pod-1:6001"). split; [by left | done].
Qed.

Lemma demo_placeable : placeable "n1" (currentByID (lr_servers demo_raft)) (desiredByID demo_voters).
Proof.
  split.
  - intros id p Hp. revert id p Hp. change (map_Forall (fun id p => id <> "" /\ rp_Address p <> "") (desiredByID demo_voters)).
    apply (bool_decide_unpack _). by vm_compute.
  - intros id id' p p' Hp Hp'. revert id p Hp id' p' Hp'.
    change (map_Forall (fun id p => map_Forall (fun id' p' => rp_Address p = rp_Address p' -> id = id') (desiredByID demo_voters)) (desiredByID demo_voters)).
    apply (bool_decide_unpack _). by vm_compute.
  - intros id p j s Hp Hs. revert id p Hp j s Hs.
    change (map_Forall (fun id p => map_Forall (fun j s => sv_Address s = rp_Address p -> j = id) (currentByID (lr_servers demo_raft))) (desiredByID demo_voters)).
    apply (bool_decide_unpack _). by vm_compute.
  - exists (mkPeer "n1" "pod-1:6001"). by vm_compute.
Qed.


Lemma reconcile_idempotent_witness : ReconcileMembership demo_voters after_demo = (after_demo, mkReconciled [] [] [] (Ok tt)).
Proof.
  apply (reconcile_idempotent demo_voters (currentByID (lr_servers demo_raft)) after_demo (currentByID (lr_servers after_demo))).
  - by exists (lr_servers after_demo).
  - intros id. destruct (decide (id ∈ ["n1"; "n2"; "n3"; "n4"; "n9"])) as [Hin|Hout].
    + repeat (apply elem_of_cons in Hin as [-> | Hin]; [vm_compute; reflexivity|]). by apply not_elem_of_nil in Hin.
    + rewrite !not_elem_of_cons in Hout. destruct Hout as (N1 & N2 & N3 & N4 & N9 & _).
      assert (desiredByID demo_voters !! id = None) as E.
      { destruct (desiredByID demo_voters !! id) as [p|] eqn:E; [|done]. apply desired_elem in E as (Hp & <- & _). unfold demo_voters in Hp.
        repeat (apply elem_of_cons in Hp as [-> | Hp]; [simpl in *; congruence|]). by apply not_elem_of_nil in Hp. }
      unfold target. rewrite E. destruct (currentByID (lr_servers after_demo) !! id) as [s|] eqn:Es; [|done].
      apply currentByID_elem in Es as [Hs <-].
      change (lr_servers after_demo) with [mkServer Voter "n1" "pod-1:6001"; mkServer Voter "n3" "pod-3:6001"; mkServer Voter "n2" "pod-2:6001"] in Hs.
      repeat (apply elem_of_cons in Hs as [-> | Hs]; [simpl in *; congruence|]). by apply not_elem_of_nil in Hs.
Defined.

(** A node renamed from n2 to m2 at the same address. *)
Lemma readdressed_voter_blocks_witness :
  let desired := [mkPeer "n1" "pod-1:6001"; mkPeer "m2" "old-2:6001"] in
  blocked desired "m2" "n2" demo_raft /\ exists e, rc_err (ReconcileMembership desired demo_raft).2 = Err e.
Proof.
  intros desired. assert (blocked desired "m2" "n2" demo_raft) as Hb.
  { split. exists (currentByID (lr_servers demo_raft)), (mkServer Voter "n2" "old-2:6001"), (mkPeer "m2" "old-2:6001").
    split; [by exists (lr_servers demo_raft)|]. by vm_compute. }
  split; [exact Hb|]. exact (proj1 (readdressed_voter_blocks desired "m2" "n2" demo_raft 0 Hb)).
Defined.

(** ** Ordinals *)

Lemma digit_pretty n : (n < 10)%N -> digit (pretty_N_char n) = Some (Z.of_N n).
Proof. intros Hn. assert (n ∈ [0;1;2;3;4;5;6;7;8;9]%N) as Hin by (rewrite !elem_of_cons; lia).
  repeat (apply elem_of_cons in Hin as [-> | Hin]; [reflexivity|]). by apply not_elem_of_nil in Hin. Qed.

Lemma parse_pretty_go x s : parse_digits 0 (pretty_N_go x s) = parse_digits (Z.of_N x) s.
Proof.
  revert s. induction (N.lt_wf_0 x) as [x _ IH]; intros s. destruct (decide (x = 0)%N) as [->|Hx]; [done|].
  rewrite pretty_N_go_step by lia. rewrite IH by (apply N.div_lt; lia). cbn [parse_digits].
  rewrite digit_pretty by (apply N.mod_lt; lia). simpl. f_equal.
  pose proof (N.div_mod x 10). lia.
Qed.

Lemma parse_Itoa z : (0 <= z)%Z -> parse_digits 0 (Itoa z) = Some z.
Proof.
  intros Hz. destruct z as [|p|p]; [done| |lia]. unfold Itoa, pretty, pretty_Z, pretty, pretty_positive, pretty, pretty_N.
  rewrite decide_False by lia. by rewrite parse_pretty_go.
Qed.

Lemma Itoa_not_nil z : (0 <= z)%Z -> Itoa z <> "".
Proof. intros Hz Hn. pose proof (parse_Itoa z Hz) as Hp. rewrite Hn in Hp. injection Hp as <-. by vm_compute in Hn. Qed.

Lemma Atoi_Itoa z : (0 <= z)%Z -> int64_range z = true -> Atoi (Itoa z) = Some z.
Proof.
  intros Hz Hr. pose proof (parse_Itoa z Hz) as Hp. pose proof (Itoa_not_nil z Hz) as Hn.
  unfold Atoi. destruct (Itoa z) as [|c s]; [done|].
  assert (is_Some (digit c)) as Hd by (cbn [parse_digits] in Hp; destruct (digit c); [by eexists | done]).
  assert (HasPrefix (String c s) "-" = false /\ HasPrefix (String c s) "+" = false) as [-> ->].
  { unfold HasPrefix. simpl. split; case_match; subst; try done; by apply is_Some_None in Hd. }
  rewrite bool_decide_false by done. rewrite Hp. simpl. by rewrite Hr.
Qed.

Lemma podOrdinal_host sts i : sts <> "" -> (0 <= i)%Z -> int64_range i = true -> podOrdinal (sts +:+ "-" +:+ Itoa i) sts = Some i.
Proof.
  intros Hs Hi Hr. unfold podOrdinal. rewrite bool_decide_false by done.
  assert (sts +:+ "-" +:+ Itoa i = (sts +:+ "-") +:+ Itoa i) as -> by (by rewrite str_app_assoc).
  unfold HasPrefix. rewrite prefix_app, TrimPrefix_app. simpl. rewrite bool_decide_false by (by apply Itoa_not_nil).
  rewrite Atoi_Itoa by done. simpl. destruct (Z.ltb_spec i 0); [lia | done].
Qed.

(** ** Who seeds the cluster *)

Section seeding.
Context `{!Net}.
Implicit Types (cfg : RaftDiscoveryConfig).

(** In a StatefulSet, pod 0 seeds and no other pod does, whatever --raft-node-id
    says; each pod advertises the address under which the others will list it. *)
Theorem statefulset_seed cfg NodeID i :
  rd_Peers cfg = [] -> rd_StatefulSetName cfg <> "" -> rd_HeadlessService cfg <> "" -> rd_Namespace cfg <> "" ->
  (1 <= rd_Replicas cfg)%Z -> rd_AdvertiseAddr cfg = "" -> int64_range (Z.of_nat i) = true ->
  let host := pod_host cfg i in let resolver := NewPeerResolver cfg host in
  resolveBootstrapState NodeID resolver = Ok (if bool_decide (NodeID = "") then host else NodeID, bool_decide (i = 0)) /\
  Self resolver = Ok (mkPeer host (deriveAdvertiseAddr cfg host)) /\
  ((Z.of_nat i < rd_Replicas cfg)%Z -> exists peers, Resolve resolver = Ok peers /\ mkPeer host (deriveAdvertiseAddr cfg host) ∈ peers).
Proof.
  intros Hp Hs Hh Hn Hr Ha Hi host resolver.
  assert (resolver = DnsResolver cfg host) as -> by (unfold resolver, NewPeerResolver; rewrite Hp; simpl; by rewrite !bool_decide_false by done).
  assert (podOrdinal host (rd_StatefulSetName cfg) = Some (Z.of_nat i)) as Hord by (apply podOrdinal_host; [done | lia | done]).
  assert (deriveAdvertiseAddr cfg host = rp_Address (dns_peer cfg host)) as ->.
  { unfold deriveAdvertiseAddr. by rewrite Ha, Hord; simpl; rewrite !bool_decide_false by done. }
  assert (selfFor cfg host = Ok (dns_peer cfg host)) as Hself by (unfold selfFor; by rewrite Hord).
  assert (dns_Resolve cfg = Ok ((fun i => dns_peer cfg (pod_host cfg i)) <$> seq 0 (Z.to_nat (rd_Replicas cfg)))) as Hres.
  { unfold dns_Resolve. destruct (Z.ltb_spec (rd_Replicas cfg) 1); [lia|]. by rewrite !bool_decide_false by done. }
  split; [|split].
  - unfold resolveBootstrapState, Resolve, Self. rewrite Hself, Hres. cbn [res_bind].
    destruct (Z.to_nat (rd_Replicas cfg)) as [|n] eqn:En; [lia|]. simpl. f_equal. f_equal.
    + destruct (decide (NodeID = "")) as [->|Hid]; [|by rewrite (bool_decide_false (NodeID = "")) by done; simpl; rewrite bool_decide_false].
      simpl. rewrite bool_decide_false; [done|]. unfold host, pod_host. by destruct (rd_StatefulSetName cfg).
    + apply bool_decide_ext. unfold host, pod_host. split; [|by intros ->].
      intros Heq%str_app_inj%str_app_inj%(inj pretty). lia.
  - done.
  - intros Hlt. unfold Resolve. rewrite Hres. eexists. split; [reflexivity|]. apply list_elem_of_fmap. exists i.
    split; [done|]. apply elem_of_seq. lia.
Qed.

Lemma sort_nil l : sort_peers l = [] -> l = [].
Proof.
  intros Hs. pose proof (merge_sort_Permutation id_le l) as Hp. fold sort_peers in Hp. rewrite Hs in Hp.
  by apply Permutation_nil_l in Hp.
Qed.
Lemma sort_head l h t : sort_peers l = h :: t -> h ∈ l /\ forall x, x ∈ l -> id_le h x.
Proof.
  intros Hs. assert (h :: t ≡ₚ l) as Hp by (rewrite <- Hs; apply merge_sort_Permutation).
  assert (Transitive id_le) by (intros x y z; unfold id_le; apply transitivity).
  assert (Total id_le) by (intros x y; unfold id_le; apply total, _).
  pose proof (StronglySorted_merge_sort id_le l) as Hsort. fold sort_peers in Hsort. rewrite Hs in Hsort.
  apply StronglySorted_inv in Hsort as [_ Hall]. split; [rewrite <- Hp; by left|].
  intros x. rewrite <- Hp. intros [->|Hx]%elem_of_cons; [by unfold id_le|]. rewrite Forall_forall in Hall. auto.
Qed.

(** A static deployment: either every node lists all the nodes in one order, or
    every node lists the others, in any order. *)
Definition static_deployment (nodes : list RaftPeer) (cfg_of : RaftPeer -> RaftDiscoveryConfig) : Prop :=
  (forall n, n ∈ nodes -> rp_ID n <> "" /\ rd_NodeID (cfg_of n) = rp_ID n /\
     (rd_AdvertiseAddr (cfg_of n) = "" \/ rd_AdvertiseAddr (cfg_of n) = rp_Address n)) /\
  ((forall n, n ∈ nodes -> rd_Peers (cfg_of n) = nodes) \/ (forall n, n ∈ nodes -> n :: rd_Peers (cfg_of n) ≡ₚ nodes)).

Lemma matchSelf_listed cfg n : rd_NodeID cfg = rp_ID n -> rp_ID n <> "" -> n ∈ rd_Peers cfg ->
  exists p, matchSelf cfg = Some p /\ rp_ID p = rp_ID n.
Proof.
  intros Hid Hne Hin. unfold matchSelf. rewrite Hid, bool_decide_false by done.
  destruct (find _ _) as [p|] eqn:Ef.
  - exists p. split; [done|]. apply find_some in Ef as [_ Hp%bool_decide_eq_true]. done.
  - apply list_elem_of_In in Hin. apply (find_none _ _ Ef) in Hin. by apply bool_decide_eq_false in Hin.
Qed.

Lemma find_absent (f : RaftPeer -> bool) l : (forall p, p ∈ l -> f p = false) -> find f l = None.
Proof. intros Hf. destruct (find f l) eqn:E; [|done]. apply find_some in E as [Hin%list_elem_of_In Hp]. by rewrite Hf in Hp. Qed.

Lemma matchSelf_unlisted cfg n : rd_NodeID cfg = rp_ID n -> (rd_AdvertiseAddr cfg = "" \/ rd_AdvertiseAddr cfg = rp_Address n) ->
  rp_ID n ∉ map rp_ID (rd_Peers cfg) -> rp_Address n ∉ map rp_Address (rd_Peers cfg) -> matchSelf cfg = None.
Proof.
  intros Hid Ha Hi Hd. unfold matchSelf. rewrite Hid, (find_absent _ (rd_Peers cfg)).
  2:{ intros p Hp. apply bool_decide_false. intros Heq. apply Hi. rewrite <- Heq. by apply list_elem_of_fmap_2. }
  replace (if bool_decide (rp_ID n = "") then None else None) with (@None RaftPeer) by (by case_bool_decide).
  destruct Ha as [->| ->]; [done|]. case_bool_decide; [done|]. apply find_absent.
  intros p Hp. apply bool_decide_false. intros Heq. apply Hd. rewrite <- Heq. by apply list_elem_of_fmap_2.
Qed.

Lemma seeds_first cfg host NodeID first rest self : rd_Peers cfg <> [] -> NodeID <> "" ->
  static_Resolve cfg = Ok (first :: rest) -> static_Self cfg = Ok self ->
  resolveBootstrapState NodeID (NewPeerResolver cfg host) = Ok (NodeID, bool_decide (rp_ID self = rp_ID first)).
Proof.
  intros Hp Hn Hres Hself. unfold NewPeerResolver. rewrite (bool_decide_false (rd_Peers cfg = [])) by done. simpl.
  unfold resolveBootstrapState, Resolve, Self. rewrite Hres, Hself. cbn [res_bind].
  by rewrite (bool_decide_false (NodeID = "")) by done; simpl; rewrite (bool_decide_false (NodeID = "")) by done.
Qed.

(** A node that lists the others is not in its own list ... *)
Lemma others_unmatched cfg n nodes : NoDup (map rp_ID nodes) -> NoDup (map rp_Address nodes) -> n :: rd_Peers cfg ≡ₚ nodes ->
  rd_NodeID cfg = rp_ID n -> (rd_AdvertiseAddr cfg = "" \/ rd_AdvertiseAddr cfg = rp_Address n) -> matchSelf cfg = None.
Proof.
  intros Hids Haddrs Hperm Hid Ha. apply (matchSelf_unlisted _ n Hid Ha).
  - pose proof (fmap_Permutation rp_ID _ _ Hperm) as Hp. change (NoDup (rp_ID <$> nodes)) in Hids.
    rewrite <- Hp in Hids. by apply NoDup_cons in Hids as [? _].
  - pose proof (fmap_Permutation rp_Address _ _ Hperm) as Hp. change (NoDup (rp_Address <$> nodes)) in Haddrs.
    rewrite <- Hp in Haddrs. by apply NoDup_cons in Haddrs as [? _].
Qed.

(** ... and sorting them with itself starts with the smallest name of all. *)
Lemma others_first peers n self nodes seed first rest : n :: peers ≡ₚ nodes -> rp_ID self = rp_ID n ->
  seed ∈ nodes -> (forall x, x ∈ nodes -> id_le seed x) -> sort_peers (peers ++ [self]) = first :: rest -> rp_ID first = rp_ID seed.
Proof.
  intros Hperm Hsid Hseed Hmin Hsort. destruct (sort_head _ _ _ Hsort) as [Hfirst Hfmin]. apply (anti_symm String.le).
  - assert (exists x, x ∈ peers ++ [self] /\ rp_ID x = rp_ID seed) as (x & Hx & <-).
    { rewrite <- Hperm in Hseed. apply elem_of_cons in Hseed as [->|Hs]; [exists self|exists seed]; rewrite elem_of_app; split; auto.
      right. by left. }
    by apply Hfmin.
  - assert (exists y, y ∈ nodes /\ rp_ID y = rp_ID first) as (y & Hy & <-).
    { apply elem_of_app in Hfirst as [Hx| ->%list_elem_of_singleton]; [exists first|exists n];
        (split; [rewrite <- Hperm|done]); [by right|by left]. }
    by apply Hmin.
Qed.

(** C29. Exactly one node of a static deployment seeds the cluster. *)
Theorem static_one_seed nodes cfg_of host :
  2 <= length nodes -> NoDup (map rp_ID nodes) -> NoDup (map rp_Address nodes) -> static_deployment nodes cfg_of ->
  exists seed, seed ∈ nodes /\ forall n, n ∈ nodes ->
    resolveBootstrapState (rp_ID n) (NewPeerResolver (cfg_of n) host) = Ok (rp_ID n, bool_decide (n = seed)).
Proof.
  intros Hlen Hids Haddrs [Hcfg Hform].
  assert (forall n n', n ∈ nodes -> n' ∈ nodes -> rp_ID n = rp_ID n' -> n = n') as Hinj.
  { intros n n'. by apply NoDup_map_inj. }
  assert (forall n s, n ∈ nodes -> s ∈ nodes -> bool_decide (rp_ID n = rp_ID s) = bool_decide (n = s)) as Hdec.
  { intros n s Hn Hs. apply bool_decide_ext. split; [by apply Hinj | by intros ->]. }
  destruct Hform as [Hall|Hothers].
  - destruct nodes as [|first rest] eqn:En; [simpl in Hlen; lia|]. rewrite <- En in *.
    assert (first ∈ nodes) as Hf by (rewrite En; by left). exists first. split; [done|]. intros n Hn.
    destruct (Hcfg n Hn) as (Hne & Hid & _). destruct (matchSelf_listed (cfg_of n) n Hid Hne) as (p & Hm & Hp); [by rewrite Hall|].
    rewrite (seeds_first (cfg_of n) host (rp_ID n) first rest p); [by rewrite Hp, Hdec|by rewrite Hall, En|done| |].
    + unfold static_Resolve. by rewrite Hm, Hall, En.
    + unfold static_Self. by rewrite Hm.
  - destruct (sort_peers nodes) as [|seed t] eqn:Es.
    { apply sort_nil in Es as ->. simpl in Hlen. lia. }
    apply sort_head in Es as [Hseed Hmin]. exists seed. split; [done|]. intros n Hn.
    destruct (Hcfg n Hn) as (Hne & Hid & Ha). pose proof (Hothers n Hn) as Hperm.
    pose proof (others_unmatched _ n nodes Hids Haddrs Hperm Hid Ha) as Hm.
    assert (exists self, synthesizeSelf (cfg_of n) = Ok self /\ rp_ID self = rp_ID n) as (self & Hself & Hsid).
    { unfold synthesizeSelf. rewrite Hid, (bool_decide_false (rp_ID n = "")) by done. by eexists. }
    destruct (sort_peers (rd_Peers (cfg_of n) ++ [self])) as [|first rest] eqn:Ef.
    { apply sort_nil in Ef. by destruct (rd_Peers (cfg_of n)). }
    pose proof (others_first _ n self nodes seed first rest Hperm Hsid Hseed Hmin Ef) as Hfs.
    rewrite (seeds_first (cfg_of n) host (rp_ID n) first rest self); [by rewrite Hsid, Hfs, Hdec| |done| |].
    + intros Hnil. rewrite Hnil in Hperm. apply Permutation_length in Hperm. simpl in Hperm. lia.
    + unfold static_Resolve. rewrite Hm, Hself. cbn [res_bind]. by rewrite Ef.
    + unfold static_Self. by rewrite Hm.
Qed.
End seeding.

Definition demo_statefulset : RaftDiscoveryConfig := mkDiscovery "" "" "0.0.0.0:6001" [] 3 "ghb" "ghb-headless" "prod" "cluster.local" 0.

Lemma statefulset_seed_witness :
  resolveBootstrapState "" (NewPeerResolver demo_statefulset "ghb-0") = Ok ("ghb-0", true) /\
  resolveBootstrapState "x" (NewPeerResolver demo_statefulset "ghb-12") = Ok ("x", false) /\
  Self (NewPeerResolver demo_statefulset "ghb-2") = Ok (mkPeer "ghb-2" "ghb-2.ghb-headless.prod.svc.cluster.local:6001").
Proof.
  split; [|split].
  - by destruct (statefulset_seed demo_statefulset "" 0) as [E _]; [done..|].
  - by destruct (statefulset_seed demo_statefulset "x" 12) as [E _]; [done..|].
  - by destruct (statefulset_seed demo_statefulset "" 2) as (_ & E & _); [done..|].
Defined.

(** Three nodes, each of which lists the two others. *)
Definition demo_nodes : list RaftPeer := [mkPeer "n2" "10.0.0.2:6001"; mkPeer "n1" "10.0.0.1:6001"; mkPeer "n3" "10.0.0.3:6001"].
Definition demo_others (n : RaftPeer) : RaftDiscoveryConfig :=
  mkDiscovery (rp_ID n) "" (rp_Address n) (List.filter (fun p => negb (bool_decide (p = n))) demo_nodes) 0 "" "" "" "" 0.

Lemma static_one_seed_witness : exists seed, forall n, n ∈ demo_nodes ->
  resolveBootstrapState (rp_ID n) (NewPeerResolver (demo_others n) "host") = Ok (rp_ID n, bool_decide (n = seed)).
Proof.
  assert (forall P : RaftPeer -> Prop, Forall P demo_nodes -> forall n, n ∈ demo_nodes -> P n) as Hall by (intros P; apply Forall_forall).
  destruct (static_one_seed demo_nodes demo_others "host") as (seed & _ & Hseed).
  - simpl. lia.
  - apply (bool_decide_unpack _). by vm_compute.
  - apply (bool_decide_unpack _). by vm_compute.
  - split; [apply Hall; repeat constructor; by try left|]. right. apply Hall. constructor; [|constructor; [|constructor; [|constructor]]]; simpl.
    + reflexivity.
    + apply Permutation_swap.
    + change (mkPeer "n3" "10.0.0.3:6001" :: [mkPeer "n2" "10.0.0.2:6001"; mkPeer "n1" "10.0.0.1:6001"] ≡ₚ
        [mkPeer "n2" "10.0.0.2:6001"; mkPeer "n1" "10.0.0.1:6001"] ++ [mkPeer "n3" "10.0.0.3:6001"]). apply Permutation_cons_append.
  - by exists seed.
Defined.
