(* ===== verification/Buffer.v ===== *)
(** * Buffer: pkg/nats/buffer.go, the replay ring of webhook events

    The ring is modelled slot by slot, with Go's slices: a payload is a pointer
    and a length into a heap, because eviction zeroes the backing array that
    readers may still hold.  [rep rb q] says that the ring [rb] holds the queue
    [q], oldest first; the operations are shown to refine a retention queue. *)

From S2P Require Import Prelude.

(** ** Slices *)

Record Slice := mkSlice { sl_ptr : nat; sl_len : nat }.
Definition nil_slice : Slice := mkSlice 0 0.
Abbreviation Heap := (gmap nat string).

#[export] Instance slice_eq_dec : EqDecision Slice.
Proof. solve_decision. Defined.

Fixpoint zeros (n : nat) : string := match n with O => EmptyString | S n => String Ascii.zero (zeros n) end.

(** The bytes a holder of the slice reads. *)
Definition slice_text (h : Heap) (s : Slice) : string := take_str (sl_len s) (default "" (h !! sl_ptr s)).

(** [for i := range data { data[i] = 0 }] *)
Definition zero_slice (s : Slice) (h : Heap) : Heap :=
  match h !! sl_ptr s with
  | Some buf => <[sl_ptr s := zeros (sl_len s) +:+ drop_str (sl_len s) buf]> h
  | None => h
  end.

(** ** The ring *)

Definition DefaultMaxAge : Z := (24 * 60 * minute)%Z.

Record entry := mkEntry { e_channel : string; e_data : Slice; e_timestamp : Z }.
Definition entry_zero : entry := mkEntry "" nil_slice 0.

#[export] Instance entry_eq_dec : EqDecision entry.
Proof. solve_decision. Defined.

Record RingBuffer := mkRing {
  rb_entries : list entry; rb_maxSize : nat; rb_maxBytes : Z; rb_currentBytes : Z; rb_maxAge : Z;
  rb_channelTTLs : gmap string Z; rb_head : nat; rb_tail : nat; rb_full : bool }.
#[export] Instance eta_ring : Eta RingBuffer := fun x =>
  mkRing (rb_entries x) (rb_maxSize x) (rb_maxBytes x) (rb_currentBytes x) (rb_maxAge x)
    (rb_channelTTLs x) (rb_head x) (rb_tail x) (rb_full x).

Definition NewRingBuffer (maxSize maxBytes maxAge : Z) : RingBuffer :=
  let n := if bool_decide (maxSize <= 0)%Z then 1 else Z.to_nat maxSize in
  mkRing (replicate n entry_zero) n maxBytes 0 maxAge ∅ 0 0 false.

Definition SetChannelTTL (channel : string) (ttl : Z) (rb : RingBuffer) : RingBuffer :=
  if bool_decide (ttl <= 0)%Z then rb <| rb_channelTTLs := delete channel (rb_channelTTLs rb) |>
  else rb <| rb_channelTTLs := <[channel := ttl]> (rb_channelTTLs rb) |>.

Definition lenLocked (rb : RingBuffer) : nat :=
  if rb_full rb then rb_maxSize rb
  else if (rb_tail rb <=? rb_head rb)%nat then rb_head rb - rb_tail rb
  else rb_maxSize rb - rb_tail rb + rb_head rb.

(** [rb.entries[i]]; the index is always in range. *)
Definition slot (rb : RingBuffer) (i : nat) : entry := default entry_zero (rb_entries rb !! i).
Definition data_len (e : entry) : Z := Z.of_nat (sl_len (e_data e)).

Definition evictOldestLocked (st : Heap * RingBuffer) : Heap * RingBuffer :=
  let '(h, rb) := st in
  if (lenLocked rb =? 0)%nat then (h, rb)
  else
    let e := slot rb (rb_tail rb) in
    let tail := (rb_tail rb + 1) mod rb_maxSize rb in
    (zero_slice (e_data e) h,
     rb <| rb_currentBytes := rb_currentBytes rb - data_len e |>%Z
        <| rb_entries := <[rb_tail rb := entry_zero]> (rb_entries rb) |>
        <| rb_tail := tail |>
        <| rb_full := if bool_decide (tail = rb_head rb) then false else rb_full rb |>).

(** [for rb.lenLocked() > 0 && rb.currentBytes+len(data) > rb.maxBytes]; at most
    [maxSize] rounds. *)
Fixpoint evict_loop (fuel : nat) (need : Z) (st : Heap * RingBuffer) : Heap * RingBuffer :=
  match fuel with
  | O => st
  | S fuel =>
      if (0 <? lenLocked st.2)%nat && (rb_maxBytes st.2 <? rb_currentBytes st.2 + need)%Z
      then evict_loop fuel need (evictOldestLocked st) else st
  end.

Definition Append (now : Z) (channel : string) (data : Slice) (h : Heap) (rb : RingBuffer) : Heap * RingBuffer :=
  let need := Z.of_nat (sl_len data) in
  let st := if (0 <? rb_maxBytes rb)%Z then evict_loop (rb_maxSize rb) need (h, rb) else (h, rb) in
  let '(h, rb) := if rb_full st.2 then evictOldestLocked st else st in
  let next := (rb_head rb + 1) mod rb_maxSize rb in
  (h, rb <| rb_entries := <[rb_head rb := mkEntry channel data now]> (rb_entries rb) |>
         <| rb_currentBytes := rb_currentBytes rb + need |>%Z
         <| rb_full := if bool_decide (next = rb_tail rb) then true else rb_full rb |>
         <| rb_head := next |>).

Definition effective_age (rb : RingBuffer) (channel : string) : Z :=
  match rb_channelTTLs rb !! channel with
  | Some chTTL =>
      if bool_decide (0 < chTTL)%Z && (bool_decide (rb_maxAge rb <= 0)%Z || bool_decide (chTTL < rb_maxAge rb)%Z)
      then chTTL else rb_maxAge rb
  | None => rb_maxAge rb
  end.

Definition entryExpired (rb : RingBuffer) (now : Z) (e : entry) : bool :=
  if time_IsZero (e_timestamp e) then true
  else
    let age := effective_age rb (e_channel e) in
    if bool_decide (age <= 0)%Z then false
    else negb (time_After (e_timestamp e) (time_Add now (- age))).

(** The entry at distance [i] from the oldest. *)
Definition nth_entry (rb : RingBuffer) (i : nat) : entry := slot rb ((rb_tail rb + i) mod rb_maxSize rb).

Fixpoint get_loop (rb : RingBuffer) (now : Z) (channel : string) (since limit : Z) (idx : list nat)
  (result : list Slice) : list Slice :=
  match idx with
  | [] => result
  | i :: idx =>
      let e := nth_entry rb i in
      if negb (bool_decide (e_channel e = channel)) || negb (time_After (e_timestamp e) since)
      then get_loop rb now channel since limit idx result
      else if entryExpired rb now e then get_loop rb now channel since limit idx result
      else
        let result := result ++ [e_data e] in
        if (0 <? limit)%Z && (limit <=? Z.of_nat (length result))%Z then result
        else get_loop rb now channel since limit idx result
  end.

Definition Get (now : Z) (channel : string) (since limit : Z) (rb : RingBuffer) : list Slice :=
  get_loop rb now channel since limit (seq 0 (lenLocked rb)) [].

Definition RetainedBytes (rb : RingBuffer) : Z := rb_currentBytes rb.

Fixpoint keep_loop (rb : RingBuffer) (now : Z) (idx : list nat) (bytes : Z) (kept : list entry) : Z * list entry :=
  match idx with
  | [] => (bytes, kept)
  | i :: idx =>
      let e := nth_entry rb i in
      if entryExpired rb now e then keep_loop rb now idx (bytes - data_len e)%Z kept
      else keep_loop rb now idx bytes (kept ++ [e])
  end.

Definition evictExpired (now : Z) (rb : RingBuffer) : RingBuffer :=
  let n := lenLocked rb in
  if (n =? 0)%nat then rb
  else
    let '(bytes, kept) := keep_loop rb now (seq 0 n) (rb_currentBytes rb) [] in
    rb <| rb_currentBytes := bytes |>
       <| rb_tail := 0 |>
       <| rb_full := bool_decide (length kept = rb_maxSize rb) |>
       <| rb_head := length kept mod rb_maxSize rb |>
       <| rb_entries := kept ++ replicate (length (rb_entries rb) - length kept) entry_zero |>.

(** ** The queue a ring holds *)

Definition retained (q : list entry) : Z := foldr Z.add 0%Z (data_len <$> q).

Record rep (rb : RingBuffer) (q : list entry) : Prop := {
  rep_pos : 0 < rb_maxSize rb;
  rep_length : length (rb_entries rb) = rb_maxSize rb;
  rep_tail : rb_tail rb < rb_maxSize rb;
  rep_le : length q <= rb_maxSize rb;
  rep_head : rb_head rb = (rb_tail rb + length q) mod rb_maxSize rb;
  rep_slots : forall i, i < rb_maxSize rb ->
    rb_entries rb !! ((rb_tail rb + i) mod rb_maxSize rb) = Some (default entry_zero (q !! i));
  rep_bytes : rb_currentBytes rb = retained q;
  rep_full : rb_full rb = true -> q <> [];
  rep_not_full : rb_full rb = false -> length q < rb_maxSize rb }.

(** Indices stay below twice the size: the modulo is one conditional subtraction. *)
Lemma mod_wrap a i n : a < n -> i <= n -> (a + i) mod n = if decide (a + i < n) then a + i else a + i - n.
Proof.
  intros Ha Hi. case_decide; [by apply Nat.mod_small|].
  replace (a + i) with (a + i - n + 1 * n) at 1 by lia. rewrite Nat.Div0.mod_add. apply Nat.mod_small. lia.
Qed.

Ltac ring_idx := rewrite ?mod_wrap in * by lia; repeat case_decide; try lia.

Lemma mod_wrap_lt a i n : a < n -> i <= n -> (a + i) mod n < n.
Proof. intros. ring_idx. Qed.

Lemma mod_wrap_inj a i j n : a < n -> i < n -> j < n -> (a + i) mod n = (a + j) mod n -> i = j.
Proof. intros. ring_idx. Qed.

Lemma mod_wrap_succ a i n : a < n -> i < n -> ((a + 1) mod n + i) mod n = (a + S i) mod n.
Proof.
  intros. pose proof (mod_wrap_lt a 1 n ltac:(lia) ltac:(lia)).
  rewrite (mod_wrap ((a + 1) mod n) i) by lia. ring_idx.
Qed.

Lemma retained_cons e q : retained (e :: q) = (data_len e + retained q)%Z.
Proof. done. Qed.
Lemma retained_app q q' : retained (q ++ q') = (retained q + retained q')%Z.
Proof. induction q as [|e q IH]; [done|]. cbn [app]. rewrite !retained_cons, IH. lia. Qed.
Lemma retained_pos q : (0 <= retained q)%Z.
Proof. induction q as [|e q IH]; [done|]. rewrite retained_cons. unfold data_len. lia. Qed.

Lemma rep_new maxSize maxBytes maxAge : rep (NewRingBuffer maxSize maxBytes maxAge) [].
Proof.
  unfold NewRingBuffer. set (n := if bool_decide _ then 1 else _).
  assert (0 < n) by (unfold n; case_bool_decide; lia).
  split; cbn; try done; try lia.
  - by rewrite length_replicate.
  - rewrite Nat.mod_small; lia.
  - intros i Hi. rewrite lookup_replicate_2; [done|]. by rewrite Nat.mod_small.
Qed.

Lemma rep_len rb q : rep rb q -> lenLocked rb = if rb_full rb then rb_maxSize rb else length q.
Proof.
  intros Hr. unfold lenLocked. destruct (rb_full rb) eqn:Ef; [done|].
  pose proof (rep_not_full _ _ Hr Ef). pose proof (rep_tail _ _ Hr). rewrite (rep_head _ _ Hr).
  rewrite mod_wrap by lia. case_decide; destruct (Nat.leb_spec (rb_tail rb) (rb_tail rb + length q));
    destruct (Nat.leb_spec (rb_tail rb) (rb_tail rb + length q - rb_maxSize rb)); lia.
Qed.

Lemma rep_nth rb q i : rep rb q -> i < rb_maxSize rb -> nth_entry rb i = default entry_zero (q !! i).
Proof. intros Hr Hi. unfold nth_entry, slot. by rewrite (rep_slots _ _ Hr). Qed.

Lemma len_zero_iff rb q : rep rb q -> lenLocked rb = 0 <-> q = [].
Proof.
  intros Hr. rewrite (rep_len _ _ Hr). pose proof (rep_pos _ _ Hr). destruct (rb_full rb) eqn:Ef.
  - pose proof (rep_full _ _ Hr Ef). split; [lia|done].
  - destruct q; simpl; [done|]. split; [lia|done].
Qed.

(** ** Eviction *)

Lemma evict_rep h rb e q :
  rep rb (e :: q) ->
  exists rb', evictOldestLocked (h, rb) = (zero_slice (e_data e) h, rb') /\ rep rb' q /\
    rb_maxSize rb' = rb_maxSize rb /\ rb_maxBytes rb' = rb_maxBytes rb /\
    rb_full rb' = rb_full rb && negb (bool_decide (q = [])).
Proof.
  intros Hr. unfold evictOldestLocked.
  assert (lenLocked rb <> 0) as Hl by (by rewrite (len_zero_iff _ _ Hr)).
  destruct (Nat.eqb_spec (lenLocked rb) 0); [done|].
  pose proof (rep_pos _ _ Hr) as Hp. pose proof (rep_tail _ _ Hr) as Ht. pose proof (rep_le _ _ Hr) as Hle.
  pose proof (rep_head _ _ Hr) as Hh. cbn [length] in *.
  assert (slot rb (rb_tail rb) = e) as He.
  { pose proof (rep_nth _ _ 0 Hr Hp) as H0. unfold nth_entry in H0.
    rewrite Nat.add_0_r, Nat.mod_small in H0 by lia. exact H0. }
  rewrite He. eexists. split; [reflexivity|].
  assert (bool_decide ((rb_tail rb + 1) mod rb_maxSize rb = rb_head rb) = bool_decide (q = []))  as Hbd.
  { apply bool_decide_ext. rewrite Hh. split.
    - intros E. destruct (decide (S (length q) = rb_maxSize rb)) as [Em|Em].
      + rewrite Em in E. destruct q; [done|]. exfalso. cbn [length] in *. ring_idx.
      + apply mod_wrap_inj in E; [|lia..]. destruct q; [done|cbn in E; lia].
    - intros ->. done. }
  split; [|cbn; rewrite Hbd; split_and!; try done; by destruct (rb_full rb), (bool_decide (q = []))].
  split; cbn [rb_entries rb_maxSize rb_tail rb_head rb_full rb_currentBytes set_fld]; try lia.
  - rewrite length_insert. apply (rep_length _ _ Hr).
  - apply mod_wrap_lt; lia.
  - rewrite Hh. destruct (decide (length q < rb_maxSize rb)); [|lia]. symmetry. by apply mod_wrap_succ.
  - intros i Hi. rewrite mod_wrap_succ by lia. destruct (decide (S i = rb_maxSize rb)) as [Em|Em].
    + replace ((rb_tail rb + S i) mod rb_maxSize rb) with (rb_tail rb) by (rewrite Em; ring_idx).
      rewrite list_lookup_insert_eq by (rewrite (rep_length _ _ Hr); lia).
      rewrite lookup_ge_None_2 by lia. done.
    + rewrite list_lookup_insert_ne.
      * rewrite (rep_slots _ _ Hr) by lia. done.
      * ring_idx.
  - rewrite (rep_bytes _ _ Hr), retained_cons. lia.
  - rewrite Hbd. intros Hfull Hq. rewrite (bool_decide_true _ Hq) in Hfull. discriminate.
Qed.

(** What the byte budget keeps: the longest suffix that leaves room. *)
Fixpoint fit (maxBytes need : Z) (q : list entry) : list entry :=
  match q with
  | [] => []
  | e :: q' => if (maxBytes <? retained q + need)%Z then fit maxBytes need q' else q
  end.

Definition zero_all (es : list entry) (h : Heap) : Heap := fold_left (fun h e => zero_slice (e_data e) h) es h.

Lemma fit_suffix maxBytes need q : exists old, q = old ++ fit maxBytes need q.
Proof.
  induction q as [|e q [old IH]]; [by exists []|]. simpl. destruct (_ <? _)%Z; [|by exists []].
  exists (e :: old). simpl. by rewrite <- IH.
Qed.

Lemma evict_loop_rep fuel need h rb q :
  rep rb q -> length q <= fuel ->
  exists old rb', q = old ++ fit (rb_maxBytes rb) need q /\
    evict_loop fuel need (h, rb) = (zero_all old h, rb') /\ rep rb' (fit (rb_maxBytes rb) need q) /\
    rb_maxSize rb' = rb_maxSize rb /\ rb_maxBytes rb' = rb_maxBytes rb /\
    rb_full rb' = rb_full rb && negb (bool_decide (fit (rb_maxBytes rb) need q = [])).
Proof.
  revert fuel h rb. induction q as [|e q IH]; intros fuel h rb Hr Hf.
  - exists [], rb. assert (rb_full rb = false) as Ef.
    { destruct (rb_full rb) eqn:Ef; [|done]. by pose proof (rep_full _ _ Hr Ef). }
    split; [done|]. split; [|by rewrite Ef]. destruct fuel; [done|]. simpl.
    by rewrite (proj2 (len_zero_iff _ _ Hr) eq_refl).
  - destruct fuel as [|fuel]; [simpl in Hf; lia|]. cbn [evict_loop fst snd].
    assert (lenLocked rb <> 0) as Hl by (by rewrite (len_zero_iff _ _ Hr)).
    destruct (Nat.ltb_spec 0 (lenLocked rb)); [|lia]. rewrite (rep_bytes _ _ Hr). cbn [fit andb].
    destruct (_ <? _)%Z.
    + destruct (evict_rep h _ _ _ Hr) as (rb1 & -> & Hr1 & Hs1 & Hb1 & Hf1).
      destruct (IH fuel (zero_slice (e_data e) h) rb1 Hr1 ltac:(simpl in Hf; lia))
        as (old & rb' & Hq & Hev & Hr' & Hs' & Hb' & Hf'). rewrite Hb1 in *.
      exists (e :: old), rb'. split_and!; try congruence.
      * simpl. by rewrite <- Hq.
      * rewrite Hev. done.
      * rewrite Hf', Hf1. destruct (rb_full rb); [|done]. simpl.
        destruct (decide (q = [])) as [->|Hne]; [done|]. by rewrite (bool_decide_false _ Hne).
    + exists [], rb. split_and!; try done. by rewrite andb_true_r.
Qed.

(** ** Appending *)

(** Storing in the free slot of a ring that has one. *)
Lemma store_rep rb q e :
  rep rb q -> length q < rb_maxSize rb ->
  let next := (rb_head rb + 1) mod rb_maxSize rb in
  let full := if bool_decide (next = rb_tail rb) then true else rb_full rb in
  rep (rb <| rb_entries := <[rb_head rb := e]> (rb_entries rb) |>
          <| rb_currentBytes := rb_currentBytes rb + data_len e |>%Z
          <| rb_full := full |> <| rb_head := next |>) (q ++ [e]) /\
  full = bool_decide (S (length q) = rb_maxSize rb) || rb_full rb.
Proof.
  intros Hr Hlt next full. pose proof (rep_tail _ _ Hr) as Ht. pose proof (rep_head _ _ Hr) as Hh.
  assert (next = (rb_tail rb + S (length q)) mod rb_maxSize rb) as Hnext.
  { unfold next. rewrite Hh, (mod_wrap (rb_tail rb)) by lia. case_decide; ring_idx. }
  assert (next = rb_tail rb <-> S (length q) = rb_maxSize rb) as Hiff by (rewrite Hnext; ring_idx).
  assert (full = bool_decide (S (length q) = rb_maxSize rb) || rb_full rb) as Hfull.
  { unfold full. rewrite (bool_decide_ext _ _ Hiff). by destruct (bool_decide _). }
  split; [|exact Hfull].
  split; cbn [rb_entries rb_maxSize rb_tail rb_head rb_full rb_currentBytes set_fld]; rewrite ?length_app; cbn [length]; try lia.
  - rewrite length_insert. apply (rep_length _ _ Hr).
  - rewrite Hnext. f_equal. lia.
  - intros i Hi. destruct (decide (i = length q)) as [->|Hne].
    + rewrite <- Hh, list_lookup_insert_eq by (rewrite (rep_length _ _ Hr), Hh; apply mod_wrap_lt; lia).
      rewrite lookup_app_r, Nat.sub_diag by lia. done.
    + rewrite list_lookup_insert_ne by (rewrite Hh; intros E%mod_wrap_inj; lia).
      rewrite (rep_slots _ _ Hr) by done. f_equal. destruct (decide (i < length q)).
      * by rewrite lookup_app_l by done.
      * rewrite !lookup_ge_None_2; [done | rewrite length_app; simpl; lia | lia].
  - rewrite (rep_bytes _ _ Hr), retained_app. unfold retained at 3. simpl. lia.
  - intros _ E. by destruct q.
  - rewrite Hfull. intros [Hb _]%orb_false_iff. apply bool_decide_eq_false in Hb. lia.
Qed.

(** The queue after an append: the byte budget drops from the oldest end, then the
    [full] flag, as it was before the call, drops one more. *)
Definition shrunk (maxBytes need : Z) (full : bool) (q : list entry) : list entry :=
  let q1 := if (0 <? maxBytes)%Z then fit maxBytes need q else q in if full then tl q1 else q1.

Lemma zero_all_app l1 l2 h : zero_all (l1 ++ l2) h = zero_all l2 (zero_all l1 h).
Proof. apply fold_left_app. Qed.

Lemma Append_rep now channel data h rb q :
  rep rb q ->
  let q' := shrunk (rb_maxBytes rb) (Z.of_nat (sl_len data)) (rb_full rb) q in
  exists old, q = old ++ q' /\
  let '(h', rb') := Append now channel data h rb in
  h' = zero_all old h /\ rep rb' (q' ++ [mkEntry channel data now]) /\
  rb_maxSize rb' = rb_maxSize rb /\ rb_maxBytes rb' = rb_maxBytes rb /\
  rb_full rb' = bool_decide (S (length q') = rb_maxSize rb) || (rb_full rb && negb (bool_decide (q' = []))).
Proof.
  intros Hr q'. set (need := Z.of_nat (sl_len data)).
  assert (exists old1 rb1, let q1 := if (0 <? rb_maxBytes rb)%Z then fit (rb_maxBytes rb) need q else q in
    q = old1 ++ q1 /\
    (if (0 <? rb_maxBytes rb)%Z then evict_loop (rb_maxSize rb) need (h, rb) else (h, rb)) = (zero_all old1 h, rb1) /\
    rep rb1 q1 /\ rb_maxSize rb1 = rb_maxSize rb /\ rb_maxBytes rb1 = rb_maxBytes rb /\
    rb_full rb1 = rb_full rb && negb (bool_decide (q1 = []))) as (old1 & rb1 & Hq & Hev & Hr1 & Hs1 & Hb1 & Hf1).
  { destruct (0 <? rb_maxBytes rb)%Z.
    - destruct (evict_loop_rep (rb_maxSize rb) need h rb q Hr (rep_le _ _ Hr)) as (old & rb1 & H'). exists old, rb1. exact H'.
    - exists [], rb. split_and!; try done. destruct (rb_full rb) eqn:Ef; [|done]. simpl.
      by rewrite (bool_decide_false _ (rep_full _ _ Hr Ef)). }
  unfold shrunk in q'. cbv zeta in *. set (q1 := if (0 <? rb_maxBytes rb)%Z then _ else _) in *.
  unfold Append. fold need. cbv zeta. rewrite Hev. cbn [snd].
  assert (exists old2 rb2, q1 = old2 ++ q' /\
    (if rb_full rb1 then evictOldestLocked (zero_all old1 h, rb1) else (zero_all old1 h, rb1)) =
      (zero_all (old1 ++ old2) h, rb2) /\
    rep rb2 q' /\ rb_maxSize rb2 = rb_maxSize rb /\ rb_maxBytes rb2 = rb_maxBytes rb /\
    rb_full rb2 = rb_full rb && negb (bool_decide (q' = [])) /\ length q' < rb_maxSize rb)
    as (old2 & rb2 & Hq2 & -> & Hr2 & Hs2 & Hb2 & Hf2 & Hlt).
  { subst q'. destruct (rb_full rb) eqn:Ef; cbn [andb] in *.
    - destruct q1 as [|e q1].
      + exists [], rb1. rewrite Hf1. cbn. pose proof (rep_pos _ _ Hr). rewrite (app_nil_r old1). done.
      + rewrite Hf1. cbn [negb bool_decide].
        destruct (evict_rep (zero_all old1 h) _ _ _ Hr1) as (rb2 & Hev2 & Hr2 & Hs2 & Hb2 & Hf2).
        pose proof (rep_le _ _ Hr1). cbn [length] in *.
        exists [e], rb2. rewrite zero_all_app. cbn [tl]. rewrite Hf1 in Hf2. split_and!; try done; try congruence; try lia.
    - rewrite Hf1. exists [], rb1. rewrite (app_nil_r old1). pose proof (rep_not_full _ _ Hr1 Hf1). split_and!; try done; lia. }
  exists (old1 ++ old2). split; [by rewrite <- app_assoc, <- Hq2|].
  destruct (store_rep rb2 q' (mkEntry channel data now) Hr2 ltac:(lia)) as [Hr3 Hf3].
  split; [done|]. split; [exact Hr3|]. cbn [rb_maxSize rb_maxBytes rb_full set_fld].
  rewrite Hs2 in *. rewrite Hf3, Hf2. done.
Qed.

(** ** Reading *)

Definition visible (rb : RingBuffer) (now : Z) (channel : string) (since : Z) (e : entry) : Prop :=
  e_channel e = channel /\ (since < e_timestamp e)%Z /\ entryExpired rb now e = false.
#[export] Instance visible_dec rb now channel since e : Decision (visible rb now channel since e).
Proof. unfold visible. apply _. Defined.

(** At most [limit] elements; zero and below mean no limit. *)
Definition up_to {A} (limit : Z) (l : list A) : list A := if (0 <? limit)%Z then take (Z.to_nat limit) l else l.

Lemma scan_slots rb q :
  rep rb q -> nth_entry rb <$> seq 0 (lenLocked rb) = q ++ replicate (lenLocked rb - length q) entry_zero.
Proof.
  intros Hr. pose proof (rep_le _ _ Hr). assert (length q <= lenLocked rb <= rb_maxSize rb) as Hlen.
  { rewrite (rep_len _ _ Hr). destruct (rb_full rb); lia. }
  apply list_eq. intros i. rewrite list_lookup_fmap. destruct (decide (i < lenLocked rb)).
  - rewrite lookup_seq_lt by done. simpl. rewrite (rep_nth rb q) by (done || lia).
    destruct (decide (i < length q)).
    + rewrite lookup_app_l by done. destruct (lookup_lt_is_Some_2 q i) as [e He]; [done|]. by rewrite He.
    + rewrite lookup_app_r by lia. rewrite (lookup_ge_None_2 q) by lia. rewrite lookup_replicate_2; [done|lia].
  - rewrite lookup_seq_ge by lia. symmetry. apply lookup_ge_None_2. rewrite length_app, length_replicate. lia.
Qed.

Lemma zero_expired rb now : entryExpired rb now entry_zero = true.
Proof. done. Qed.

Lemma filter_zeros n (P : entry -> Prop) `{!∀ e, Decision (P e)} q :
  ~ P entry_zero -> filter P (q ++ replicate n entry_zero) = filter P q.
Proof.
  intros Hn. rewrite filter_app, (filter_none P (replicate n entry_zero)); [apply app_nil_r|].
  intros e He. apply elem_of_replicate in He as [-> _]. done.
Qed.

Lemma get_loop_spec rb now channel since limit idx result :
  (0 < limit -> Z.of_nat (length result) < limit)%Z ->
  get_loop rb now channel since limit idx result =
  up_to limit (result ++ (e_data <$> filter (visible rb now channel since) (nth_entry rb <$> idx))).
Proof.
  revert result. induction idx as [|i idx IH]; intros result Hl.
  - simpl. rewrite app_nil_r. unfold up_to. destruct (Z.ltb_spec 0 limit); [|done].
    rewrite take_ge by lia. done.
  - cbn [get_loop fmap list_fmap]. rewrite filter_cons.
    destruct (decide (visible rb now channel since (nth_entry rb i))) as [(Hc & Ht & He)|Hn].
    + rewrite Hc, He, bool_decide_true by done. unfold time_After. rewrite bool_decide_true by done. cbn [negb orb].
      destruct (Z.ltb_spec 0 limit); cbn [andb].
      * rewrite length_app. cbn [length]. destruct (Z.leb_spec limit (Z.of_nat (length result + 1))).
        -- unfold up_to. destruct (Z.ltb_spec 0 limit); [|lia]. cbn [fmap list_fmap].
           match goal with |- _ = take _ (_ ++ ?d :: ?rest) =>
             change (d :: rest) with ([d] ++ rest); rewrite (app_assoc result [d] rest) end.
           symmetry. apply take_app_length'. specialize (Hl ltac:(lia)). rewrite length_app. cbn [length]. lia.
        -- rewrite IH by (rewrite length_app; simpl; lia). cbn [fmap list_fmap]. by rewrite <- app_assoc.
      * rewrite IH by lia. cbn [fmap list_fmap]. by rewrite <- app_assoc.
    + destruct (negb _ || _) eqn:E1; [by apply IH|]. destruct (entryExpired _ _ _) eqn:E2; [by apply IH|].
      exfalso. apply Hn. apply orb_false_iff in E1 as [E1 E3]. unfold time_After in E3.
      rewrite negb_false_iff, bool_decide_eq_true in E1, E3. done.
Qed.

Lemma Get_rep now channel since limit rb q :
  rep rb q ->
  Get now channel since limit rb = up_to limit (e_data <$> filter (visible rb now channel since) q).
Proof.
  intros Hr. unfold Get. rewrite get_loop_spec by (simpl; lia). cbn [app].
  rewrite (scan_slots _ _ Hr), filter_zeros; [done|]. by intros (_ & _ & Hexp).
Qed.

(** ** Expiry *)

Lemma keep_loop_spec rb now idx bytes kept :
  keep_loop rb now idx bytes kept =
  let es := nth_entry rb <$> idx in let live := filter (fun e => entryExpired rb now e = false) es in
  ((bytes - retained es + retained live)%Z, kept ++ live).
Proof.
  revert bytes kept. induction idx as [|i idx IH]; intros bytes kept.
  - simpl. rewrite app_nil_r. f_equal. unfold retained; simpl. lia.
  - cbn [keep_loop fmap list_fmap]. rewrite filter_cons, retained_cons.
    destruct (entryExpired rb now (nth_entry rb i)) eqn:E; rewrite IH; cbn zeta; simpl.
    + f_equal. lia.
    + rewrite retained_cons, <- app_assoc. f_equal. lia.
Qed.

Lemma evictExpired_rep now rb q :
  rep rb q ->
  let q' := filter (fun e => entryExpired rb now e = false) q in
  let rb' := evictExpired now rb in
  rep rb' q' /\ rb_maxSize rb' = rb_maxSize rb /\ rb_maxBytes rb' = rb_maxBytes rb /\
  (q <> [] -> rb_full rb' = bool_decide (length q' = rb_maxSize rb)).
Proof.
  intros Hr. cbv zeta. unfold evictExpired. destruct (Nat.eqb_spec (lenLocked rb) 0) as [Hz|Hz].
  - apply (len_zero_iff _ _ Hr) in Hz. by subst q.
  - rewrite keep_loop_spec. cbv zeta. rewrite (scan_slots _ _ Hr), filter_zeros by done.
    cbn [app]. set (q' := filter _ q).
    assert (retained (replicate (lenLocked rb - length q) entry_zero) = 0%Z) as Hz0.
    { induction (lenLocked rb - length q) as [|n IHn]; [done|]. simpl. rewrite retained_cons, IHn. done. }
    pose proof (rep_le _ _ Hr) as Hle. pose proof (rep_pos _ _ Hr). pose proof (rep_length _ _ Hr) as Hlen.
    pose proof (filter_length_le (fun e => entryExpired rb now e = false) q) as Hf. fold q' in Hf.
    split; [|by split_and!].
    split; cbn [rb_entries rb_maxSize rb_tail rb_head rb_full rb_currentBytes set_fld]; try done; try lia.
    + rewrite length_app, length_replicate. lia.
    + intros i Hi. rewrite Nat.mod_small by lia. simpl. destruct (decide (i < length q')).
      * rewrite lookup_app_l by done. destruct (lookup_lt_is_Some_2 q' i) as [e He]; [done|]. by rewrite He.
      * rewrite lookup_app_r by lia. rewrite (lookup_ge_None_2 q') by lia. rewrite lookup_replicate_2; [done|lia].
    + rewrite retained_app, Hz0, (rep_bytes _ _ Hr). lia.
    + rewrite bool_decide_eq_true. intros Hfull E. rewrite E in Hfull. simpl in Hfull. lia.
    + rewrite bool_decide_eq_false. lia.
Qed.

Lemma SetChannelTTL_rep channel ttl rb q : rep rb q -> rep (SetChannelTTL channel ttl rb) q.
Proof. intros []. unfold SetChannelTTL. case_bool_decide; by constructor. Qed.

(** ** Contents *)

Lemma take_zeros n s : take_str n (zeros n +:+ s) = zeros n.
Proof. induction n as [|n IH]; [by destruct s|]. exact (f_equal (String Ascii.zero) IH). Qed.

Lemma zeros_stay n m buf : take_str n buf = zeros n -> take_str n (zeros m +:+ drop_str m buf) = zeros n.
Proof.
  revert n buf. induction m as [|m IH]; intros n buf Hz; [by destruct buf|].
  destruct n as [|n]; [done|]. destruct buf as [|c buf]; [done|]. simpl in Hz. injection Hz as -> Hz.
  exact (f_equal (String Ascii.zero) (IH n buf Hz)).
Qed.

Lemma zero_slice_lookup s h p :
  zero_slice s h !! p = if decide (p = sl_ptr s) then (fun buf => zeros (sl_len s) +:+ drop_str (sl_len s) buf) <$> h !! p else h !! p.
Proof.
  unfold zero_slice. case_decide as E.
  - subst p. destruct (h !! sl_ptr s) as [buf|] eqn:Eh; [by rewrite lookup_insert_eq | by rewrite Eh].
  - destruct (h !! sl_ptr s); [by rewrite lookup_insert_ne | done].
Qed.

Lemma zero_all_other old h p : (forall e, e ∈ old -> sl_ptr (e_data e) <> p) -> zero_all old h !! p = h !! p.
Proof.
  revert h. induction old as [|e old IH]; intros h Hp; [done|]. simpl. unfold zero_all in IH.
  rewrite IH by (intros e' He'; apply Hp; by right). rewrite zero_slice_lookup, decide_False; [done|].
  intros E. by apply (Hp e ltac:(left)).
Qed.

Lemma zero_all_stays old h p n :
  (exists buf, h !! p = Some buf /\ take_str n buf = zeros n) ->
  exists buf, zero_all old h !! p = Some buf /\ take_str n buf = zeros n.
Proof.
  revert h. induction old as [|e old IH]; intros h; [done|]. intros (buf & Hb & Hz). apply IH.
  rewrite zero_slice_lookup, Hb. case_decide; [|by exists buf]. eexists. split; [reflexivity|]. by apply zeros_stay.
Qed.

Lemma zero_all_zeroes old h e :
  e ∈ old -> is_Some (h !! sl_ptr (e_data e)) ->
  slice_text (zero_all old h) (e_data e) = zeros (sl_len (e_data e)).
Proof.
  revert h. induction old as [|d old IH]; intros h He [buf Hb]; [by apply not_elem_of_nil in He|].
  apply elem_of_cons in He as [->|He].
  - destruct (zero_all_stays old (zero_slice (e_data d) h) (sl_ptr (e_data d)) (sl_len (e_data d))) as (buf' & Hb' & Hz).
    { rewrite zero_slice_lookup, decide_True, Hb by done. eexists. split; [reflexivity|]. apply take_zeros. }
    change (zero_all (d :: old) h) with (zero_all old (zero_slice (e_data d) h)).
    unfold slice_text. by rewrite Hb'.
  - apply IH; [done|]. rewrite zero_slice_lookup. case_decide; rewrite Hb; by eexists.
Qed.

(** ** Properties *)

(** The ring's life: appends, TTL changes and expiry passes, at given times. *)
Inductive ring_op := OpAppend (now : Z) (channel : string) (data : Slice) | OpTTL (channel : string) (ttl : Z) | OpExpire (now : Z).

Definition ring_step (st : Heap * RingBuffer) (op : ring_op) : Heap * RingBuffer :=
  match op with
  | OpAppend now channel data => Append now channel data st.1 st.2
  | OpTTL channel ttl => (st.1, SetChannelTTL channel ttl st.2)
  | OpExpire now => (st.1, evictExpired now st.2)
  end.

Lemma fit_bound maxBytes need q : (retained (fit maxBytes need q) + need <= Z.max maxBytes need)%Z.
Proof.
  induction q as [|e q IH]; cbn [fit]; [unfold retained; simpl; lia|].
  destruct (Z.ltb_spec maxBytes (retained (e :: q) + need)); [exact IH | lia].
Qed.

Lemma retained_tl q : (retained (tl q) <= retained q)%Z.
Proof. destruct q as [|e q]; [done|]. rewrite retained_cons. simpl. unfold data_len. lia. Qed.

Lemma retained_filter (P : entry -> Prop) `{!∀ e, Decision (P e)} q : (retained (filter P q) <= retained q)%Z.
Proof.
  induction q as [|e q IH]; [done|]. rewrite filter_cons. case_decide; rewrite ?retained_cons; unfold data_len; lia.
Qed.

(** The ring never outgrows its budgets: whatever is appended and expired,
    it holds a queue of at most [maxSize] entries, its byte counter is exactly
    their total, and with a byte budget, payloads that fit the budget one by one
    never exceed it together. *)
Theorem ring_bounded h maxSize maxBytes maxAge ops :
  (0 < maxBytes)%Z ->
  (forall now channel data, OpAppend now channel data ∈ ops -> Z.of_nat (sl_len data) <= maxBytes)%Z ->
  let rb := (fold_left ring_step ops (h, NewRingBuffer maxSize maxBytes maxAge)).2 in
  exists q, rep rb q /\ (Z.of_nat (length q) <= Z.max 1 maxSize)%Z /\
    RetainedBytes rb = retained q /\ (RetainedBytes rb <= maxBytes)%Z.
Proof.
  intros Hmb Hops. cbv zeta.
  set (n := rb_maxSize (NewRingBuffer maxSize maxBytes maxAge)).
  assert (forall ops st q, (forall now channel data, OpAppend now channel data ∈ ops -> Z.of_nat (sl_len data) <= maxBytes)%Z ->
    rep st.2 q -> rb_maxSize st.2 = n -> rb_maxBytes st.2 = maxBytes -> (retained q <= maxBytes)%Z ->
    exists q', rep (fold_left ring_step ops st).2 q' /\ rb_maxSize (fold_left ring_step ops st).2 = n /\
      (retained q' <= maxBytes)%Z) as Hrun.
  { clear ops Hops. induction ops as [|op ops IH]; intros [h0 rb] q Hops Hr Hn Hb Hq; [by exists q|].
    assert (exists q', rep (ring_step (h0, rb) op).2 q' /\ rb_maxSize (ring_step (h0, rb) op).2 = n /\
      rb_maxBytes (ring_step (h0, rb) op).2 = maxBytes /\ (retained q' <= maxBytes)%Z) as (q' & Hr' & Hn' & Hb' & Hq').
    { cbn [snd] in *. destruct op as [now channel data|channel ttl|now]; cbn [ring_step fst snd].
      - destruct (Append_rep now channel data h0 rb q Hr) as (old & _ & Ha).
        destruct (Append now channel data h0 rb) as [h' rb'] eqn:Ea. destruct Ha as (_ & Hr' & Hs' & Hb' & _).
        cbn [snd]. eexists. split; [exact Hr'|]. split; [congruence|]. split; [congruence|].
        specialize (Hops now channel data ltac:(left)). rewrite retained_app. unfold retained at 2, data_len. simpl.
        unfold shrunk. rewrite Hb. destruct (Z.ltb_spec 0 maxBytes); [|lia].
        pose proof (fit_bound maxBytes (Z.of_nat (sl_len data)) q).
        pose proof (retained_tl (fit maxBytes (Z.of_nat (sl_len data)) q)). destruct (rb_full rb); lia.
      - exists q. split; [by apply SetChannelTTL_rep|]. unfold SetChannelTTL. by case_bool_decide.
      - destruct (evictExpired_rep now rb q Hr) as (Hr' & Hs' & Hb' & _). eexists. split; [exact Hr'|].
        rewrite Hs', Hb'. split_and!; try done.
        pose proof (retained_filter (fun e => entryExpired rb now e = false) q). lia. }
    destruct (ring_step (h0, rb) op) as [h1 rb1] eqn:Est. simpl. rewrite Est.
    apply (IH (h1, rb1) q'); try done. intros now channel data Hin. apply (Hops now channel data). by right. }
  destruct (Hrun ops (h, NewRingBuffer maxSize maxBytes maxAge) [] Hops (rep_new _ _ _) eq_refl eq_refl)
    as (q & Hr & Hn & Hb); [unfold retained; simpl; lia|].
  exists q. split; [exact Hr|]. pose proof (rep_le _ _ Hr) as Hle. rewrite Hn in Hle. unfold RetainedBytes.
  rewrite (rep_bytes _ _ Hr). split_and!; try done. unfold n, NewRingBuffer in Hle. cbn in Hle.
  revert Hle. case_bool_decide; lia.
Qed.

(** Replay: a subscriber reads exactly the retained payloads of its channel
    that are newer than its cursor and not expired under the channel's TTL,
    oldest first, up to the limit. *)
Theorem Get_spec now channel since limit rb q :
  rep rb q ->
  Get now channel since limit rb = up_to limit (e_data <$> filter (visible rb now channel since) q).
Proof. apply Get_rep. Qed.

(** C36. What an append does to the retained queue: the new payload goes last;
    room is made from the oldest end only, first for the byte budget, then one
    entry more whenever the [full] flag was set before the call; what is dropped
    reads as zeros through any slice still held, what stays is intact. *)
Theorem Append_spec now channel data h rb q :
  rep rb q ->
  let q' := shrunk (rb_maxBytes rb) (Z.of_nat (sl_len data)) (rb_full rb) q in
  let '(h', rb') := Append now channel data h rb in
  rep rb' (q' ++ [mkEntry channel data now]) /\
  exists old, q = old ++ q' /\
    (forall e, e ∈ old -> is_Some (h !! sl_ptr (e_data e)) -> slice_text h' (e_data e) = zeros (sl_len (e_data e))) /\
    (forall s, (forall e, e ∈ old -> sl_ptr (e_data e) <> sl_ptr s) -> slice_text h' s = slice_text h s).
Proof.
  intros Hr. cbv zeta. destruct (Append_rep now channel data h rb q Hr) as (old & Hq & Ha).
  destruct (Append now channel data h rb) as [h' rb']. destruct Ha as (-> & Hr' & _).
  split; [exact Hr'|]. exists old. split_and!; [exact Hq|..].
  - intros e He Hs. by apply zero_all_zeroes.
  - intros s Hs. unfold slice_text. by rewrite zero_all_other.
Qed.

(** Expiry removes exactly the expired entries, keeps the order of the rest
    and repairs the [full] flag. *)
Theorem evictExpired_spec now rb q :
  rep rb q -> q <> [] ->
  let q' := filter (fun e => entryExpired rb now e = false) q in
  rep (evictExpired now rb) q' /\ rb_full (evictExpired now rb) = bool_decide (length q' = rb_maxSize rb).
Proof. intros Hr Hq. destruct (evictExpired_rep now rb q Hr) as (? & _ & _ & Hf). split; [done | by apply Hf]. Qed.

(** ** Witnesses *)

Definition payload (p n : nat) : Slice := mkSlice p n.
Definition demo_heap : Heap := list_to_map ((fun p => (p, "payload")) <$> [1; 2; 3; 4; 5; 6]).
Definition ring_run (ops : list ring_op) : Heap * RingBuffer := fold_left ring_step ops (demo_heap, NewRingBuffer 3 10 DefaultMaxAge).

(** Three entries fill the ring. *)
Definition filled_ops : list ring_op :=
  [OpAppend 1 "a" (payload 1 3); OpAppend 2 "b" (payload 2 3); OpAppend 3 "a" (payload 3 3)].
Definition filled_queue : list entry := [mkEntry "a" (payload 1 3) 1; mkEntry "b" (payload 2 3) 2; mkEntry "a" (payload 3 3) 3].

Lemma filled_rep : rep (ring_run filled_ops).2 filled_queue.
Proof.
  split; try (vm_compute; lia); try done. intros i Hi.
  assert (i = 0 \/ i = 1 \/ i = 2) as [-> | [-> | ->]] by (vm_compute in Hi; lia); reflexivity.
Qed.

Lemma ring_bounded_witness :
  exists q, rep (ring_run filled_ops).2 q /\ (Z.of_nat (length q) <= 3)%Z /\
    RetainedBytes (ring_run filled_ops).2 = retained q /\ (RetainedBytes (ring_run filled_ops).2 <= 10)%Z.
Proof.
  apply (ring_bounded demo_heap 3 10 DefaultMaxAge filled_ops); [lia|].
  intros now channel data Hin. unfold filled_ops in Hin.
  repeat (apply elem_of_cons in Hin as [[= -> -> ->]|Hin]; [cbn; lia|]). by apply not_elem_of_nil in Hin.
Defined.

Lemma Get_spec_witness :
  Get 4 "a" 0 1 (ring_run filled_ops).2 = [payload 1 3] /\ Get 4 "a" 1 0 (ring_run filled_ops).2 = [payload 3 3].
Proof. rewrite !(Get_spec _ _ _ _ _ filled_queue filled_rep). vm_compute. done. Defined.

(** A payload of 4 bytes needs one eviction to fit in 10; the stale flag costs a
    second entry, and "b" is zeroed under a reader that still holds it. *)
Lemma Append_spec_witness :
  let '(h', rb') := Append 4 "b" (payload 4 4) (ring_run filled_ops).1 (ring_run filled_ops).2 in
  rep rb' [mkEntry "a" (payload 3 3) 3; mkEntry "b" (payload 4 4) 4] /\ slice_text h' (payload 2 3) = zeros 3.
Proof.
  pose proof (Append_spec 4 "b" (payload 4 4) (ring_run filled_ops).1 (ring_run filled_ops).2 filled_queue filled_rep) as Ha.
  cbv zeta in Ha. destruct (Append 4 "b" (payload 4 4) _ _) as [h' rb']. destruct Ha as [Hr (old & Hq & Hz & _)].
  change (shrunk _ _ _ _) with [mkEntry "a" (payload 3 3) 3] in *. split; [exact Hr|].
  apply (Hz (mkEntry "b" (payload 2 3) 2)); [|by eexists].
  change filled_queue with ([mkEntry "a" (payload 1 3) 1; mkEntry "b" (payload 2 3) 2] ++ [mkEntry "a" (payload 3 3) 3]) in Hq.
  apply app_inj_2 in Hq as [<- _]; [|done]. right; left.
Defined.

Lemma evictExpired_spec_witness :
  let now := (DefaultMaxAge + 1)%Z in
  rep (evictExpired now (ring_run filled_ops).2) [mkEntry "b" (payload 2 3) 2; mkEntry "a" (payload 3 3) 3].
Proof. exact (proj1 (evictExpired_spec (DefaultMaxAge + 1) (ring_run filled_ops).2 filled_queue filled_rep ltac:(discriminate))). Defined.

(** The [full] flag goes stale: in a ring of three that is full, a byte-budget
    eviction leaves the flag set although slots are free, and every later append
    drops a live entry that both budgets had room for. *)
Theorem stale_full_drops :
  let st := ring_run (filled_ops ++ [OpAppend 4 "b" (payload 4 4)]) in
  let st' := ring_step st (OpAppend 5 "a" (payload 5 1)) in
  rb_full st.2 = true /\ RetainedBytes st.2 = 7%Z /\ rb_maxBytes st.2 = 10%Z /\
  Get 6 "a" 0 0 st.2 = [payload 3 3] /\ Get 6 "b" 0 0 st.2 = [payload 4 4] /\
  Get 6 "a" 0 0 st'.2 = [payload 5 1] /\ slice_text st'.1 (payload 3 3) = zeros 3.
Proof. vm_compute. done. Qed.
