(* ===== verification/Broker.v ===== *)
(** * Broker: pkg/nats/broker.go, live fan-out and replay

    NATS carries the messages; the model starts where its callback hands one to
    this node.  A [Broker] owns the ring, the subscriber objects (by address) and
    the registry channel -> subscribers.  Methods are atomic under the broker's
    mutexes, except that [Subscribe] and the callback are two steps each: the
    interleavings are explicit. *)

From S2P Require Import Prelude Buffer.

(** ** Subscribers *)

Record Subscriber := mkSub {
  sub_C : list Slice; sub_cap : nat; sub_closed : bool; sub_maxBytes : Z; sub_bytes : Z; sub_dropped : Z }.
#[export] Instance eta_sub : Eta Subscriber := fun x =>
  mkSub (sub_C x) (sub_cap x) (sub_closed x) (sub_maxBytes x) (sub_bytes x) (sub_dropped x).

Definition slice_len (d : Slice) : Z := Z.of_nat (sl_len d).

Definition Ack (n : Z) (s : Subscriber) : Subscriber :=
  let b := (sub_bytes s - n)%Z in s <| sub_bytes := if (b <? 0)%Z then 0%Z else b |>.

Definition drop_msg (s : Subscriber) : Subscriber := s <| sub_dropped := (sub_dropped s + 1)%Z |>.

(** A send on a closed channel panics, in a select with default too. *)
Definition trySend (data : Slice) (s : Subscriber) : res (Subscriber * bool) :=
  if (0 <? sub_maxBytes s)%Z && (sub_maxBytes s <? sub_bytes s + slice_len data)%Z then Ok (drop_msg s, false)
  else if sub_closed s then Err (mkErr KPanic "send on closed channel")
  else if (length (sub_C s) <? sub_cap s)%nat
  then Ok (s <| sub_C := sub_C s ++ [data] |> <| sub_bytes := (sub_bytes s + slice_len data)%Z |>, true)
  else Ok (drop_msg s, false).

(** [<-sub.C] when something is queued. *)
Definition recv (s : Subscriber) : option (Slice * Subscriber) :=
  match sub_C s with [] => None | d :: q => Some (d, s <| sub_C := q |>) end.

(** ** The broker *)

Record Broker := mkBroker {
  br_heap : Heap; br_buffer : RingBuffer; br_objs : gmap nat Subscriber; br_subs : gmap string (gset nat);
  br_subQueueDepth : Z; br_subQueueBytes : Z; br_droppedFanout : Z; br_lastDropLog : Z; br_warnings : list Z }.
#[export] Instance eta_broker : Eta Broker := fun x =>
  mkBroker (br_heap x) (br_buffer x) (br_objs x) (br_subs x) (br_subQueueDepth x) (br_subQueueBytes x)
    (br_droppedFanout x) (br_lastDropLog x) (br_warnings x).

Record Config := mkConfig {
  cfg_BufferSize : Z; cfg_BufferBytes : Z; cfg_SubQueueDepth : Z; cfg_SubQueueBytes : Z }.

(** New, once NATS is up. *)
Definition New (cfg : Config) (h : Heap) : Broker :=
  mkBroker h (NewRingBuffer (cfg_BufferSize cfg) (cfg_BufferBytes cfg) DefaultMaxAge) ∅ ∅
    (if bool_decide (cfg_SubQueueDepth cfg <= 0)%Z then 100%Z else cfg_SubQueueDepth cfg)
    (cfg_SubQueueBytes cfg) 0 0 [].

Definition subject_prefix : string := "webhook.".

Definition extractChannel (subject : string) : string :=
  if (String.length subject <=? String.length subject_prefix)%nat then ""
  else drop_str (String.length subject_prefix) subject.

(** Publish: the subject handed to NATS; [connected] is [b.nc != nil]. *)
Definition Publish (connected : bool) (channel : string) (data : Slice) : res (string * Slice) :=
  if negb connected then Err (errorf "nats not connected") else Ok (subject_prefix +:+ channel, data).

Definition br_SetChannelTTL (channel : string) (ttl : Z) (b : Broker) : Broker :=
  b <| br_buffer := SetChannelTTL channel ttl (br_buffer b) |>.

(** At most one warning per minute. *)
Definition logThrottledDrop (now : Z) (b : Broker) : Broker :=
  if (wrap64 (now - br_lastDropLog b) <? minute)%Z then b
  else b <| br_lastDropLog := now |> <| br_warnings := br_warnings b ++ [br_droppedFanout b] |>.

Definition send_to (now : Z) (data : Slice) (p : nat) (b : Broker) : res Broker :=
  match br_objs b !! p with
  | None => Err (mkErr KPanic "nil subscriber")
  | Some s =>
      res_bind (trySend data s) (fun '(s, ok) =>
        let b := b <| br_objs := <[p := s]> (br_objs b) |> in
        Ok (if (ok : bool) then b else logThrottledDrop now (b <| br_droppedFanout := (br_droppedFanout b + 1)%Z |>)))
  end.

Fixpoint send_all (now : Z) (data : Slice) (ps : list nat) (b : Broker) : res Broker :=
  match ps with [] => Ok b | p :: ps => res_bind (send_to now data p b) (send_all now data ps) end.

Definition fanout (now : Z) (channel : string) (data : Slice) (b : Broker) : res Broker :=
  match br_subs b !! channel with
  | None => Ok b
  | Some subs => send_all now data (elements subs) b
  end.

Definition append_step (now : Z) (channel : string) (data : Slice) (b : Broker) : Broker :=
  let '(h, rb) := Append now channel data (br_heap b) (br_buffer b) in b <| br_heap := h |> <| br_buffer := rb |>.

(** The NATS callback. *)
Definition on_message (now : Z) (subject : string) (data : Slice) (b : Broker) : res Broker :=
  let channel := extractChannel subject in
  if bool_decide (channel = "") then Ok b else fanout now channel data (append_step now channel data b).

(** Subscribe: the registration (the new object has address [p]), then the replay. *)
Definition register (channel : string) (p : nat) (b : Broker) : Broker :=
  let sub := mkSub [] (Z.to_nat (br_subQueueDepth b)) false (br_subQueueBytes b) 0 0 in
  b <| br_objs := <[p := sub]> (br_objs b) |>
    <| br_subs := <[channel := {[ p ]} ∪ default ∅ (br_subs b !! channel)]> (br_subs b) |>.

Definition replay_since (now since : Z) (b : Broker) : Z :=
  if time_IsZero since then time_Add now (- rb_maxAge (br_buffer b)) else since.
Definition history (now : Z) (channel : string) (since limit : Z) (b : Broker) : list Slice :=
  Get now channel (replay_since now since b) limit (br_buffer b).

Definition Subscribe (now : Z) (channel : string) (since limit : Z) (p : nat) (b : Broker) : Broker * list Slice :=
  let b := register channel p b in (b, history now channel since limit b).

(** Closing a closed channel panics. *)
Definition Unsubscribe (channel : string) (p : nat) (b : Broker) : Broker * res unit :=
  match br_subs b !! channel with
  | None => (b, Ok tt)
  | Some subs =>
      let subs := subs ∖ {[ p ]} in
      let b := b <| br_subs := <[channel := subs]> (br_subs b) |> in
      match br_objs b !! p with
      | None => (b, Err (mkErr KPanic "nil subscriber"))
      | Some s =>
          if sub_closed s then (b, Err (mkErr KPanic "close of closed channel"))
          else
            let b := b <| br_objs := <[p := s <| sub_closed := true |>]> (br_objs b) |> in
            (if bool_decide (subs = ∅) then b <| br_subs := delete channel (br_subs b) |> else b, Ok tt)
      end
  end.

(** ** One subscriber's life *)

(** The queue with its history: what was offered, what the reader has taken, and
    how much of that it has not acknowledged yet. *)
Record SubTrace := mkTrace { tr_sub : Subscriber; tr_sent : list Slice; tr_got : list Slice; tr_owed : list Slice }.

Inductive sub_step : SubTrace -> SubTrace -> Prop :=
  | step_send t data s ok :
      trySend data (tr_sub t) = Ok (s, ok) ->
      sub_step t (mkTrace s (tr_sent t ++ [data]) (tr_got t) (tr_owed t))
  | step_recv t data s :
      recv (tr_sub t) = Some (data, s) ->
      sub_step t (mkTrace s (tr_sent t) (tr_got t ++ [data]) (tr_owed t ++ [data]))
  | step_ack t data owed :
      tr_owed t = data :: owed ->
      sub_step t (mkTrace (Ack (slice_len data) (tr_sub t)) (tr_sent t) (tr_got t) owed).

Definition trace_init (cap : nat) (maxBytes : Z) : SubTrace := mkTrace (mkSub [] cap false maxBytes 0 0) [] [] [].
Definition sub_reach (cap : nat) (maxBytes : Z) : SubTrace -> Prop := rtc sub_step (trace_init cap maxBytes).

Definition total (l : list Slice) : Z := foldr Z.add 0%Z (slice_len <$> l).
#[local] Arguments total : simpl never.

Lemma total_cons d l : total (d :: l) = (slice_len d + total l)%Z.
Proof. done. Qed.
Lemma total_app l l' : total (l ++ l') = (total l + total l')%Z.
Proof. induction l as [|d l IH]; [done|]. cbn [app]. rewrite !total_cons, IH. lia. Qed.
Lemma total_one d : total [d] = slice_len d.
Proof. rewrite total_cons. apply Z.add_0_r. Qed.
Lemma total_pos l : (0 <= total l)%Z.
Proof. induction l as [|d l IH]; [done|]. rewrite total_cons. unfold slice_len. lia. Qed.

Record sub_inv (cap : nat) (maxBytes : Z) (t : SubTrace) : Prop := {
  si_cap : sub_cap (tr_sub t) = cap;
  si_max : sub_maxBytes (tr_sub t) = maxBytes;
  si_depth : length (sub_C (tr_sub t)) <= cap;
  si_bytes : sub_bytes (tr_sub t) = (total (sub_C (tr_sub t)) + total (tr_owed t))%Z;
  si_budget : (0 < maxBytes -> sub_bytes (tr_sub t) <= maxBytes)%Z;
  si_order : tr_got t ++ sub_C (tr_sub t) `sublist_of` tr_sent t;
  si_count : Z.of_nat (length (tr_sent t)) =
    (Z.of_nat (length (tr_got t ++ sub_C (tr_sub t))) + sub_dropped (tr_sub t))%Z }.

Lemma sub_step_inv cap maxBytes t t' : sub_inv cap maxBytes t -> sub_step t t' -> sub_inv cap maxBytes t'.
Proof.
  intros [Hc Hm Hd Hb Hbud Ho Hn] Hs. destruct Hs as [t data s ok Hs|t data s Hs|t data owed Hs].
  - assert (Hsnoc : forall l, l `sublist_of` tr_sent t -> l `sublist_of` tr_sent t ++ [data])
      by (intros l Hl; by apply sublist_inserts_r).
    unfold trySend in Hs. destruct (_ && _) eqn:E1.
    + injection Hs as <- _. split; cbn; auto. rewrite length_app. cbn. lia.
    + destruct (sub_closed (tr_sub t)); [done|]. destruct (Nat.ltb_spec (length (sub_C (tr_sub t))) (sub_cap (tr_sub t))).
      * injection Hs as <- _. split; cbn; try done.
        -- rewrite length_app. cbn. lia.
        -- rewrite Hb, total_app, total_one. lia.
        -- intros Hpos. rewrite Hm in E1. apply andb_false_iff in E1 as [E1|E1]; apply Z.ltb_ge in E1; lia.
        -- rewrite app_assoc. by apply sublist_app.
        -- rewrite !length_app in *. cbn. lia.
      * injection Hs as <- _. split; cbn; auto. rewrite length_app. cbn. lia.
  - unfold recv in Hs. destruct (sub_C (tr_sub t)) as [|d q] eqn:Eq; [done|]. injection Hs as -> <-.
    split; cbn; try done.
    + cbn in Hd. lia.
    + rewrite Hb, total_app, total_cons, total_one. lia.
    + by rewrite <- app_assoc.
    + by rewrite <- app_assoc.
  - split; cbn; try done.
    + rewrite Hb, Hs, total_cons. pose proof (total_pos (sub_C (tr_sub t))). pose proof (total_pos owed).
      destruct (Z.ltb_spec (total (sub_C (tr_sub t)) + (slice_len data + total owed) - slice_len data) 0); lia.
    + intros Hpos. specialize (Hbud Hpos). assert (0 <= slice_len data)%Z by (unfold slice_len; lia).
      destruct (Z.ltb_spec (sub_bytes (tr_sub t) - slice_len data) 0); lia.
Qed.

(** A slow reader cannot hurt the server and loses nothing silently: the live
    queue respects its depth and byte budgets, the byte counter is exactly what
    is queued or not yet acknowledged, messages arrive in order and without
    duplicates, and every message offered was received, is queued, or was
    counted as dropped. *)
Theorem subscriber_queue_safe cap maxBytes t :
  sub_reach cap maxBytes t -> sub_inv cap maxBytes t.
Proof.
  unfold sub_reach. intros Hr. remember (trace_init cap maxBytes) as t0 eqn:E0.
  assert (sub_inv cap maxBytes t0) as Hi.
  { subst t0. split; cbn; try done; lia. }
  clear E0. induction Hr as [|t0 t1 t2 Hs _ IH]; [done|]. apply IH. by eapply sub_step_inv.
Qed.

(** ** No gap between replay and live *)

Inductive broker_step := StAppend | StFanout | StRegister | StHistory.

(** Interleavings of two programs. *)
Inductive shuffle {A} : list A -> list A -> list A -> Prop :=
  | shuffle_nil : shuffle [] [] []
  | shuffle_l x l1 l2 l : shuffle l1 l2 l -> shuffle (x :: l1) l2 (x :: l)
  | shuffle_r x l1 l2 l : shuffle l1 l2 l -> shuffle l1 (x :: l2) (x :: l).

Section gap.
Context (now now' : Z) (channel : string) (since limit : Z) (p : nat) (data : Slice).

(** The callback receives [data] at [now]; the subscriber [p] joins at [now']. *)
Definition run_step (st : Broker * list Slice) (op : broker_step) : res (Broker * list Slice) :=
  let '(b, hist) := st in
  match op with
  | StAppend => Ok (append_step now channel data b, hist)
  | StFanout => res_bind (fanout now channel data b) (fun b => Ok (b, hist))
  | StRegister => Ok (register channel p b, hist)
  | StHistory => Ok (b, history now' channel since limit b)
  end.

Fixpoint run_steps (ops : list broker_step) (st : Broker * list Slice) : res (Broker * list Slice) :=
  match ops with [] => Ok st | op :: ops => res_bind (run_step st op) (run_steps ops) end.

Definition queued (b : Broker) : list Slice := match br_objs b !! p with Some s => sub_C s | None => [] end.

Lemma logThrottledDrop_objs n b : br_objs (logThrottledDrop n b) = br_objs b.
Proof. unfold logThrottledDrop. by destruct (_ <? _)%Z. Qed.
Lemma logThrottledDrop_subs n b : br_subs (logThrottledDrop n b) = br_subs b.
Proof. unfold logThrottledDrop. by destruct (_ <? _)%Z. Qed.
Lemma logThrottledDrop_buffer n b : br_buffer (logThrottledDrop n b) = br_buffer b.
Proof. unfold logThrottledDrop. by destruct (_ <? _)%Z. Qed.

Lemma send_to_spec q b b' :
  send_to now data q b = Ok b' ->
  exists s s' ok, br_objs b !! q = Some s /\ trySend data s = Ok (s', ok) /\
    br_objs b' = <[q := s']> (br_objs b) /\ br_subs b' = br_subs b /\ br_buffer b' = br_buffer b.
Proof.
  unfold send_to. destruct (br_objs b !! q) as [s|]; [|done].
  destruct (trySend data s) as [[s' ok]|] eqn:Et; [|done]. cbn [res_bind]. intros [= <-].
  exists s, s', ok. destruct ok; rewrite ?logThrottledDrop_objs, ?logThrottledDrop_subs, ?logThrottledDrop_buffer; done.
Qed.

Lemma send_all_spec ps b b' :
  NoDup ps -> send_all now data ps b = Ok b' ->
  br_subs b' = br_subs b /\ br_buffer b' = br_buffer b /\
  (p ∉ ps -> br_objs b' !! p = br_objs b !! p) /\
  (p ∈ ps -> exists s s' ok, br_objs b !! p = Some s /\ trySend data s = Ok (s', ok) /\ br_objs b' !! p = Some s').
Proof.
  revert b. induction ps as [|q ps IH]; intros b Hnd; cbn [send_all].
  - intros [= <-]. split_and!; try done. by intros ?%not_elem_of_nil.
  - apply NoDup_cons in Hnd as [Hq Hnd]. destruct (send_to now data q b) as [b1|] eqn:E1; [|done]. cbn [res_bind].
    intros Hs. destruct (send_to_spec _ _ _ E1) as (s & s' & ok & Hb & Ht & Ho & Hsub & Hbuf).
    destruct (IH _ Hnd Hs) as (Hsub' & Hbuf' & Hout & Hin). split_and!; try congruence.
    + intros [Hne Hnin]%not_elem_of_cons. rewrite Hout by done. rewrite Ho. by rewrite lookup_insert_ne by done.
    + intros Hpin. destruct (decide (p = q)) as [->|Hne].
      * exists s, s', ok. rewrite (Hout Hq), Ho. by rewrite lookup_insert_eq.
      * apply elem_of_cons in Hpin as [|Hpin]; [done|]. destruct (Hin Hpin) as (t & t' & ok' & Ht1 & Ht2 & Ht3).
        rewrite Ho, lookup_insert_ne in Ht1 by done. by exists t, t', ok'.
Qed.

Lemma fanout_spec b b' :
  fanout now channel data b = Ok b' ->
  br_subs b' = br_subs b /\ br_buffer b' = br_buffer b /\
  (p ∈ default ∅ (br_subs b !! channel) ->
   exists s s' ok, br_objs b !! p = Some s /\ trySend data s = Ok (s', ok) /\ br_objs b' !! p = Some s').
Proof.
  unfold fanout. destruct (br_subs b !! channel) as [S|].
  - intros Hs. apply send_all_spec in Hs as (Hsub & Hbuf & _ & Hin); [|apply NoDup_elements].
    split_and!; try done. intros Hp. apply Hin. by apply elem_of_elements.
  - intros [= <-]. by split_and!.
Qed.

(** The registered subscriber, and what the steps keep of it. *)
Definition joined (b : Broker) : Prop :=
  p ∈ default ∅ (br_subs b !! channel) /\
  exists s, br_objs b !! p = Some s /\ sub_C s = [] /\ sub_closed s = false /\ sub_bytes s = 0%Z /\
    sub_cap s = Z.to_nat (br_subQueueDepth b) /\ sub_maxBytes s = br_subQueueBytes b.

(** The queue bounds leave room for one message. *)
Definition roomy (b : Broker) : Prop :=
  (0 < br_subQueueDepth b)%Z /\ (br_subQueueBytes b <= 0 \/ slice_len data <= br_subQueueBytes b)%Z.

Lemma register_joined b : joined (register channel p b).
Proof.
  split; cbn.
  - rewrite lookup_insert_eq. simpl. set_solver.
  - rewrite lookup_insert_eq. by eexists.
Qed.

Lemma append_step_same b :
  br_objs (append_step now channel data b) = br_objs b /\ br_subs (append_step now channel data b) = br_subs b /\
  br_subQueueDepth (append_step now channel data b) = br_subQueueDepth b /\
  br_subQueueBytes (append_step now channel data b) = br_subQueueBytes b.
Proof. unfold append_step. by destruct (Append now channel data (br_heap b) (br_buffer b)). Qed.

Lemma append_joined b : joined b -> joined (append_step now channel data b).
Proof. unfold joined. by destruct (append_step_same b) as (-> & -> & -> & ->). Qed.
Lemma append_roomy b : roomy b -> roomy (append_step now channel data b).
Proof. unfold roomy. by destruct (append_step_same b) as (_ & _ & -> & ->). Qed.

Lemma fanout_queues b b' : joined b -> roomy b -> fanout now channel data b = Ok b' -> data ∈ queued b'.
Proof.
  intros [Hp (s & Hs & HC & Hcl & Hby & Hcap & Hmax)] [Hd Hroom] (_ & _ & Hf)%fanout_spec.
  destruct (Hf Hp) as (s0 & s' & ok & Hs0 & Ht & Hs'). rewrite Hs in Hs0. injection Hs0 as <-.
  unfold queued. rewrite Hs'. revert Ht. unfold trySend. rewrite Hcl, HC, Hcap, Hmax, Hby.
  destruct (_ && _) eqn:E; [apply andb_true_iff in E as [E1%Z.ltb_lt E2%Z.ltb_lt]; lia|].
  destruct (Nat.ltb_spec (@length Slice []) (Z.to_nat (br_subQueueDepth b))); [|cbn in *; lia].
  intros [= <- _]. by left.
Qed.

Lemma history_reads b q :
  rep (br_buffer b) (q ++ [mkEntry channel data now]) ->
  visible (br_buffer b) now' channel (replay_since now' since b) (mkEntry channel data now) ->
  (limit <= 0 \/ Z.of_nat (length q) < limit)%Z ->
  data ∈ history now' channel since limit b.
Proof.
  intros Hr Hv Hl. unfold history. rewrite (Get_rep _ _ _ _ _ _ Hr), filter_app, filter_cons.
  rewrite decide_True by exact Hv. set (l := filter _ q).
  pose proof (filter_length_le (visible (br_buffer b) now' channel (replay_since now' since b)) q) as Hle. fold l in Hle.
  rewrite fmap_app. unfold up_to. destruct (Z.ltb_spec 0 limit).
  - rewrite take_ge; [|rewrite length_app, !length_fmap; cbn; lia]. apply elem_of_app. right. by left.
  - apply elem_of_app. right. by left.
Qed.

End gap.

(** ** Witnesses *)

Definition demo_broker : Broker := New (mkConfig 3 0 0 0) {[ 1 := "one"; 2 := "two" ]}.

Lemma subscriber_queue_safe_witness :
  exists t, sub_reach 1 5 t /\ tr_got t = [payload 1 3] /\ sub_dropped (tr_sub t) = 1%Z /\ sub_inv 1 5 t.
Proof.
  exists (mkTrace (mkSub [] 1 false 5 0 1) [payload 1 3; payload 2 3] [payload 1 3] []).
  assert (sub_reach 1 5 (mkTrace (mkSub [] 1 false 5 0 1) [payload 1 3; payload 2 3] [payload 1 3] [])) as Hr.
  { eapply rtc_l; [by eapply (step_send _ (payload 1 3))|].
    eapply rtc_l; [by eapply (step_send _ (payload 2 3))|].
    eapply rtc_l; [by eapply step_recv|]. eapply rtc_l; [by eapply step_ack|]. apply rtc_refl. }
  split_and!; try done. exact (subscriber_queue_safe 1 5 _ Hr).
Defined.


(** The replay limit keeps the oldest messages: with more retained messages
    than the limit, the newest ones are neither replayed nor queued for the
    subscriber that joins. *)
Theorem replay_limit_skips_newest :
  let b := match on_message 5 "webhook.a" (payload 1 3) demo_broker with Ok b => b | Err _ => demo_broker end in
  let b := match on_message 6 "webhook.a" (payload 2 3) b with Ok b => b | Err _ => b end in
  let '(b', hist) := Subscribe 7 "a" 0 1 9 b in
  hist = [payload 1 3] /\ queued 9 b' = [] /\ Get 7 "a" 0 0 (br_buffer b') = [payload 1 3; payload 2 3].
Proof. vm_compute. done. Qed.
