(* ===== verification/Encryption.v ===== *)
(** * Encryption: pkg/crypto, pkg/encryption and internal/service/publish.go

    The end-to-end envelope (NaCl box), the server-side AES-GCM payload, and the
    policy that picks one for a channel.  NaCl box is the class [Box]; files and
    key storage are left out. *)

From S2P Require Import Prelude Json Domain Bolt Crypto Store Repo Authorization RateLimit Http Service.

#[local] Arguments jenc : simpl never.
#[local] Arguments jdec : simpl never.

(** golang.org/x/crypto/nacl/box on 32-byte keys and 24-byte nonces. *)
Class Box := {
  box_public : string -> string;                                        (* private key *)
  box_Seal : string -> string -> string -> string -> string;            (* plain nonce peerPub priv *)
  box_Open : string -> string -> string -> string -> option string      (* ct nonce peerPub priv *)
}.

Class BoxLaws `{Box} := {
  box_public_length : forall priv, String.length priv = 32 -> String.length (box_public priv) = 32;
  box_seal_not_empty : forall m n pub priv, box_Seal m n pub priv <> "";
  box_open_seal : forall m n a b, box_Open (box_Seal m n (box_public b) a) n (box_public a) b = Some m
}.

(** A transparent box: every key is its own public half. *)
#[export] Instance toy_box : Box := {|
  box_public priv := priv;
  box_Seal m n pub priv := "box:" +:+ m;
  box_Open ct n pub priv := if HasPrefix ct "box:" then Some (TrimPrefix ct "box:") else None
|}.
#[export] Instance toy_box_laws : BoxLaws.
Proof. split; [done | done | by intros; cbn; rewrite prefix_app, TrimPrefix_app]. Qed.

(** ** pkg/crypto *)

Definition encryptedEnvelopeVersion : Z := 1.
Definition encryptedEnvelopeVersionV2 : Z := 2.
Definition contextSeparator : string := String Ascii.zero EmptyString.

Record encryptedEnvelope := mkEnvelope {
  en_Encrypted : bool; en_Version : Z; en_Ephemeral : string; en_Nonce : string; en_Ciphertext : string; en_Ctx : string }.
#[export] Instance eta_envelope : Eta encryptedEnvelope := fun x =>
  mkEnvelope (en_Encrypted x) (en_Version x) (en_Ephemeral x) (en_Nonce x) (en_Ciphertext x) (en_Ctx x).
Definition envelope_fields : list (field encryptedEnvelope) := [
  fld "encrypted" en_Encrypted (set_fld en_Encrypted);
  fld "version" en_Version (set_fld en_Version);
  fld "epk" en_Ephemeral (set_fld en_Ephemeral);
  fld "nonce" en_Nonce (set_fld en_Nonce);
  fld "ciphertext" en_Ciphertext (set_fld en_Ciphertext);
  fld_omit "ctx" en_Ctx (set_fld en_Ctx) ].
#[export] Instance codec_envelope : JsonCodec encryptedEnvelope :=
  struct_codec (mkEnvelope false 0 "" "" "" "") envelope_fields.

(** The anonymous struct of IsEncrypted: the same, without version and context. *)
Record envelopeMarker := mkMarker { mk_Encrypted : bool; mk_Ephemeral : string; mk_Nonce : string; mk_Ciphertext : string }.
#[export] Instance eta_marker : Eta envelopeMarker := fun x =>
  mkMarker (mk_Encrypted x) (mk_Ephemeral x) (mk_Nonce x) (mk_Ciphertext x).
Definition marker_fields : list (field envelopeMarker) := [
  fld "encrypted" mk_Encrypted (set_fld mk_Encrypted);
  fld "epk" mk_Ephemeral (set_fld mk_Ephemeral);
  fld "nonce" mk_Nonce (set_fld mk_Nonce);
  fld "ciphertext" mk_Ciphertext (set_fld mk_Ciphertext) ].
#[export] Instance codec_marker : JsonCodec envelopeMarker := struct_codec (mkMarker false "" "" "") marker_fields.

Definition bytesToKey (decoded : string) : res string :=
  if negb (String.length decoded =? 32)%nat then Err (errorf "invalid key length") else Ok decoded.

Definition EncodePublicKey (key : string) : string := EncodeToString true key.
Definition ParsePublicKey (encoded : string) : res string :=
  match DecodeString true encoded with None => Err (errorf "decode public key") | Some d => bytesToKey d end.

Definition decodeStdKey (encoded : string) : res string :=
  match DecodeString false encoded with None => Err (errorf "illegal base64 data") | Some d => bytesToKey d end.

Definition ChannelContext (channel : string) : string := "gohookbridge.channel." +:+ channel.

Record storedKeyPair := mkStored { sk_PublicKey : string; sk_PrivateKey : string }.
#[export] Instance eta_stored : Eta storedKeyPair := fun x => mkStored (sk_PublicKey x) (sk_PrivateKey x).
Definition stored_fields : list (field storedKeyPair) := [
  fld "public_key" sk_PublicKey (set_fld sk_PublicKey); fld "private_key" sk_PrivateKey (set_fld sk_PrivateKey) ].
#[export] Instance codec_stored : JsonCodec storedKeyPair := struct_codec (mkStored "" "") stored_fields.

Section text.
Context `{!JsonText}.

Definition unmarshal_text {A} `{JsonCodec A} (data : string) : option A := j ← js_parse data; Unmarshal j.

Definition IsEncrypted (data : string) : bool :=
  match unmarshal_text (A := envelopeMarker) data with
  | None => false
  | Some e => mk_Encrypted e && negb (bool_decide (mk_Ephemeral e = "")) && negb (bool_decide (mk_Nonce e = "")) &&
              negb (bool_decide (mk_Ciphertext e = ""))
  end.

(** What SaveKeyPair writes to the key file. *)
Definition key_document (publicKey privateKey : string) : string :=
  js_text (jenc (mkStored (EncodeToString false publicKey) (EncodeToString false privateKey))).

(** (public, private) *)
Definition loadKeyPair (data : string) : res (string * string) :=
  match unmarshal_text (A := storedKeyPair) data with
  | None => Err (errorf "unmarshal key file")
  | Some stored =>
      match decodeStdKey (sk_PublicKey stored) with
      | Err e => Err (errorf ("decode public key: " +:+ err_msg e))
      | Ok publicKey =>
          match decodeStdKey (sk_PrivateKey stored) with
          | Err e => Err (errorf ("decode private key: " +:+ err_msg e))
          | Ok privateKey => Ok (publicKey, privateKey)
          end
      end
  end.

(** [read] is os.ReadFile. *)
Definition LoadKeyPair (read : string -> res string) (path : string) : res (string * string) :=
  if bool_decide (path = "") then Err (errorf "key file path is required") else res_bind (read path) loadKeyPair.
Definition LoadPrivateKey (read : string -> res string) (path : string) : res string :=
  res_bind (LoadKeyPair read path) (fun '(_, priv) => Ok priv).

(** The envelope, the ephemeral key, the nonce and the ciphertext. *)
Definition parseEncryptedEnvelope (data : string) : res (encryptedEnvelope * string * string * string) :=
  match unmarshal_text (A := encryptedEnvelope) data with
  | None => Err (errorf "unmarshal envelope")
  | Some env =>
      if negb (en_Encrypted env) then Err (errorf "missing encrypted marker")
      else if negb (bool_decide (en_Version env = encryptedEnvelopeVersion)) &&
              negb (bool_decide (en_Version env = encryptedEnvelopeVersionV2))
      then Err (errorf "unsupported envelope version")
      else if bool_decide (en_Ephemeral env = "") || bool_decide (en_Nonce env = "") || bool_decide (en_Ciphertext env = "")
      then Err (errorf "incomplete encrypted envelope")
      else match DecodeString false (en_Ephemeral env) with
           | None => Err (errorf "decode ephemeral key")
           | Some eph =>
               res_bind (bytesToKey eph) (fun eph =>
               match DecodeString false (en_Nonce env) with
               | None => Err (errorf "decode nonce")
               | Some nonce =>
                   if negb (String.length nonce =? 24)%nat then Err (errorf "invalid nonce length")
                   else match DecodeString false (en_Ciphertext env) with
                        | None => Err (errorf "decode ciphertext")
                        | Some ct => Ok (env, eph, nonce, ct)
                        end
               end)
           end
  end.

Section box.
Context `{!Box}.

(** (public, private) *)
Definition GenerateKeyPair (r : Rand) : Rand * res (string * string) :=
  let (r, priv) := rand_Read 32 r in (r, res_bind priv (fun priv => Ok (box_public priv, priv))).

Definition seal (plaintext recipientPubKey ctx : string) (version : Z) (r : Rand) : Rand * res string :=
  let (r, pair) := GenerateKeyPair r in
  match pair with
  | Err e => (r, Err e)
  | Ok (ephPub, ephPriv) =>
      let (r, nonce) := rand_Read 24 r in
      (r, res_bind nonce (fun nonce =>
        let payload := if bool_decide (version = encryptedEnvelopeVersionV2)
                       then ctx +:+ contextSeparator +:+ plaintext else plaintext in
        let ct := box_Seal payload nonce recipientPubKey ephPriv in
        let env := mkEnvelope true version (EncodeToString false ephPub) (EncodeToString false nonce)
                     (EncodeToString false ct)
                     (if bool_decide (version = encryptedEnvelopeVersionV2) then EncodeToString false ctx else "") in
        Ok (js_text (jenc env))))
  end.

Definition Encrypt (plaintext recipientPubKey : string) : Rand -> Rand * res string :=
  seal plaintext recipientPubKey "" encryptedEnvelopeVersion.
Definition EncryptWithContext (plaintext recipientPubKey ctx : string) : Rand -> Rand * res string :=
  seal plaintext recipientPubKey ctx encryptedEnvelopeVersionV2.

Definition DecryptWithContext (envelope privateKey ctx : string) : res string :=
  res_bind (parseEncryptedEnvelope envelope) (fun '(parsed, eph, nonce, ct) =>
    if negb (en_Encrypted parsed) then Err (errorf "payload is not encrypted")
    else match box_Open ct nonce eph privateKey with
         | None => Err (errorf "decrypt payload: invalid ciphertext")
         | Some plaintext =>
             if bool_decide (en_Version parsed = encryptedEnvelopeVersionV2) then
               match DecodeString false (en_Ctx parsed) with
               | None => Err (errorf "decode envelope context")
               | Some envelopeCtx =>
                   if negb (bool_decide (envelopeCtx = ctx)) then Err (errorf "envelope context mismatch")
                   else
                     let prefix := ctx +:+ contextSeparator in
                     if negb (HasPrefix plaintext prefix) then Err (errorf "invalid envelope context prefix")
                     else Ok (drop_str (String.length prefix) plaintext)
               end
             else Ok plaintext
         end).

Definition Decrypt (envelope privateKey : string) : res string := DecryptWithContext envelope privateKey "".
End box.

(** ** pkg/encryption *)

Record aesEncryptedPayload := mkAES {
  ae_Encrypted : bool; ae_Version : Z; ae_Algorithm : string; ae_Nonce : string; ae_Ciphertext : string }.
#[export] Instance eta_aes : Eta aesEncryptedPayload := fun x =>
  mkAES (ae_Encrypted x) (ae_Version x) (ae_Algorithm x) (ae_Nonce x) (ae_Ciphertext x).
Definition aes_fields : list (field aesEncryptedPayload) := [
  fld "encrypted" ae_Encrypted (set_fld ae_Encrypted);
  fld "version" ae_Version (set_fld ae_Version);
  fld "algorithm" ae_Algorithm (set_fld ae_Algorithm);
  fld "nonce" ae_Nonce (set_fld ae_Nonce);
  fld "ciphertext" ae_Ciphertext (set_fld ae_Ciphertext) ].
#[export] Instance codec_aes : JsonCodec aesEncryptedPayload := struct_codec (mkAES false 0 "" "" "") aes_fields.

Definition GenerateAESKey (r : Rand) : Rand * res string :=
  let (r, b) := rand_Read 32 r in
  (r, match b with Ok b => Ok (EncodeToString false b) | Err e => Err (errorf ("generate AES key: " +:+ err_msg e)) end).

Definition aes_key (keyBase64 : string) : res string :=
  match DecodeString false keyBase64 with
  | None => Err (errorf "decode AES key")
  | Some key => if negb (String.length key =? 32)%nat then Err (errorf "AES key must be 32 bytes") else Ok key
  end.

Section aes.
Context `{!Crypto}.

Definition AESEncryptWithContext (plaintext keyBase64 aad : string) (r : Rand) : Rand * res string :=
  match aes_key keyBase64 with
  | Err e => (r, Err e)
  | Ok key =>
      let (r, nonce) := rand_Read 12 r in
      (r, match nonce with
          | Err e => Err (errorf ("generate nonce: " +:+ err_msg e))
          | Ok nonce =>
              let ct := gcm_Seal key nonce plaintext aad in
              Ok (js_text (jenc (mkAES true 1 "AES-256-GCM" (EncodeToString false nonce) (EncodeToString false ct))))
          end)
  end.

Definition AESDecryptWithContext (data keyBase64 aad : string) : res string :=
  res_bind (aes_key keyBase64) (fun key =>
    match unmarshal_text (A := aesEncryptedPayload) data with
    | None => Err (errorf "unmarshal encrypted payload")
    | Some p =>
        if negb (ae_Encrypted p) then Err (errorf "payload is not encrypted")
        else if negb (bool_decide (ae_Algorithm p = "AES-256-GCM")) then Err (errorf "unsupported algorithm")
        else if negb (bool_decide (ae_Version p = 1%Z)) then Err (errorf "unsupported version")
        else match DecodeString false (ae_Nonce p) with
             | None => Err (errorf "decode nonce")
             | Some nonce =>
                 if negb (String.length nonce =? 12)%nat then Err (errorf "invalid nonce length")
                 else match DecodeString false (ae_Ciphertext p) with
                      | None => Err (errorf "decode ciphertext")
                      | Some ct =>
                          match gcm_Open key nonce ct aad with
                          | None => Err (errorf "decrypt payload")
                          | Some plain => Ok plain
                          end
                      end
             end
    end).

Definition AESEncrypt (plaintext keyBase64 : string) : Rand -> Rand * res string :=
  AESEncryptWithContext plaintext keyBase64 "".
Definition AESDecrypt (data keyBase64 : string) : res string := AESDecryptWithContext data keyBase64 "".

(** The anonymous struct of IsAESEncrypted has two of the fields. *)
Record aesMarker := mkAESMarker { am_Encrypted : bool; am_Algorithm : string }.
#[export] Instance eta_aes_marker : Eta aesMarker := fun x => mkAESMarker (am_Encrypted x) (am_Algorithm x).
Definition aes_marker_fields : list (field aesMarker) := [
  fld "encrypted" am_Encrypted (set_fld am_Encrypted);
  fld "algorithm" am_Algorithm (set_fld am_Algorithm) ].
#[export] Instance codec_aes_marker : JsonCodec aesMarker := struct_codec (mkAESMarker false "") aes_marker_fields.

Definition IsAESEncrypted (data : string) : bool :=
  match unmarshal_text (A := aesMarker) data with
  | None => false
  | Some p => am_Encrypted p && bool_decide (am_Algorithm p = "AES-256-GCM")
  end.

(** ** internal/service/publish.go *)

Section publish.
Context `{!Box} {R : Type} `{!Repository R}.

Definition ChannelEncryptionContext : string -> string := ChannelContext.

(** The policy on its resolved inputs. *)
Definition apply_policy (mode key pub channel body : string) (r : Rand) : Rand * res string :=
  let aad := ChannelEncryptionContext channel in
  if bool_decide (mode = "server_side") then
    if bool_decide (key = "") then (r, Err (errorf ("server_side channel has no encryption key: " +:+ channel)))
    else AESEncryptWithContext body key aad r
  else if bool_decide (mode = "e2e") then
    if bool_decide (pub = "") then (r, Err (errorf ("e2e channel has no public key: " +:+ channel)))
    else if IsEncrypted body then (r, Ok body)
    else match ParsePublicKey pub with
         | Err e => (r, Err (errorf ("parse channel public key: " +:+ err_msg e)))
         | Ok pubKey => EncryptWithContext body pubKey aad r
         end
  else (r, Ok body).

(** (mode, key, public key) as EncryptForChannel resolves them. *)
Definition channel_policy (s : Service R) (channel : string) : res (string * string * string) :=
  match svc_ResolveChannelConfig s channel with
  | Err e => Err e
  | Ok ch =>
      if bool_decide (ch_EncryptionMode ch = "") then
        match ResolveChannelEncryption s channel with
        | Ok policy => Ok policy
        | Err e => if negb (errors_Is e KNotFound) then Err e else Ok ("", "", "")
        end
      else Ok (ch_EncryptionMode ch, ch_EncryptionKey ch, ch_EncryptionPublicKey ch)
  end.

Definition EncryptForChannel (s : Service R) (channel body : string) (r : Rand) : Rand * res string :=
  match channel_policy s channel with
  | Err e => (r, Err e)
  | Ok (mode, key, pub) => apply_policy mode key pub channel body r
  end.

(** [broker]: EventPublisher's Publish on its state, [None] for a nil broker. *)
Definition PublishEvent {B} (s : Service R) (broker : option (string -> string -> B -> B * res unit))
  (channel body : string) (r : Rand) (b : B) : Rand * B * res string :=
  match broker with
  | None => (r, b, Err (errorf "publish: broker required"))
  | Some publish =>
      let (r, x) := EncryptForChannel s channel body r in
      match x with
      | Err e => (r, b, Err e)
      | Ok encrypted =>
          let (b, y) := publish channel encrypted b in
          (r, b, match y with Err e => Err e | Ok _ => Ok encrypted end)
      end
  end.
End publish.
End aes.
End text.

(** ** Round trips and the policy *)

Section theory.
Context `{!JsonText} `{!JsonTextLaws}.

Lemma envelope_text v e n c x :
  let env := mkEnvelope true v (EncodeToString false e) (EncodeToString false n) (EncodeToString false c) (EncodeToString false x) in
  int64_range v = true ->
  unmarshal_text (js_text (jenc env)) = Some env /\
  unmarshal_text (js_text (jenc env)) =
    Some (mkMarker true (EncodeToString false e) (EncodeToString false n) (EncodeToString false c)).
Proof.
  cbv zeta. intros Hv. pose proof (EncodeToString_ascii false) as Ha.
  generalize dependent (EncodeToString false). intros enc Ha. unfold unmarshal_text.
  rewrite parse_text.
  - cbn [mbind option_bind]. unfold Unmarshal. destruct (enc x) as [|c0 s0]; cbv -[int64_range]; by rewrite Hv.
  - pose proof (Ha x) as Hx. destruct (enc x) as [|c0 s0]; cbv -[ascii_str]; rewrite !Ha, ?Hx; reflexivity.
Qed.

Lemma envelope_text_v1 e n c :
  let env := mkEnvelope true encryptedEnvelopeVersion (EncodeToString false e) (EncodeToString false n) (EncodeToString false c) "" in
  unmarshal_text (js_text (jenc env)) = Some env.
Proof. apply (envelope_text encryptedEnvelopeVersion e n c ""). done. Qed.

(** Keys survive their file. *)
Lemma key_file_roundtrip pub priv : String.length pub = 32 -> String.length priv = 32 ->
  loadKeyPair (key_document pub priv) = Ok (pub, priv) /\ ParsePublicKey (EncodePublicKey pub) = Ok pub.
Proof.
  intros Hp Hv. pose proof (EncodeToString_ascii false) as Ha.
  assert (forall s, String.length s = 32 -> decodeStdKey (EncodeToString false s) = Ok s) as Hd.
  { intros s Hs. unfold decodeStdKey. rewrite base64_roundtrip. unfold bytesToKey. by rewrite Hs. }
  split.
  - unfold loadKeyPair, key_document, unmarshal_text. specialize (Hd pub Hp) as H1. specialize (Hd priv Hv) as H2.
    revert H1 H2. generalize (EncodeToString false pub) (Ha pub) (EncodeToString false priv) (Ha priv). intros e1 A1 e2 A2 H1 H2.
    rewrite parse_text.
    + change (mbind _ (Some ?j)) with (Unmarshal (A := storedKeyPair) j).
      assert (Unmarshal (jenc (mkStored e1 e2)) = Some (mkStored e1 e2)) as -> by reflexivity.
      cbn [sk_PublicKey sk_PrivateKey]. by rewrite H1, H2.
    + cbv -[ascii_str]. by rewrite A1, A2.
  - unfold ParsePublicKey, EncodePublicKey. rewrite base64_roundtrip. unfold bytesToKey. by rewrite Hp.
Qed.

Lemma aes_text n c :
  let p := mkAES true 1 "AES-256-GCM" (EncodeToString false n) (EncodeToString false c) in
  unmarshal_text (js_text (jenc p)) = Some p /\ unmarshal_text (js_text (jenc p)) = Some (mkAESMarker true "AES-256-GCM").
Proof.
  cbv zeta. pose proof (EncodeToString_ascii false) as Ha. generalize dependent (EncodeToString false). intros enc Ha.
  unfold unmarshal_text. rewrite parse_text; [done|]. cbv -[ascii_str]. rewrite !Ha. reflexivity.
Qed.

Section e2e.
Context `{!Box} `{!BoxLaws}.

(** What a successful seal produced. *)
Lemma seal_ok v plain pub ctx r r' env :
  rand_fills r -> seal plain pub ctx v r = (r', Ok env) ->
  exists priv nonce ct, String.length priv = 32 /\ String.length nonce = 24 /\
    ct = box_Seal (if bool_decide (v = encryptedEnvelopeVersionV2) then ctx +:+ contextSeparator +:+ plain else plain) nonce pub priv /\
    env = js_text (jenc (mkEnvelope true v (EncodeToString false (box_public priv)) (EncodeToString false nonce)
            (EncodeToString false ct) (EncodeToString false (if bool_decide (v = encryptedEnvelopeVersionV2) then ctx else "")))).
Proof.
  intros Hr. unfold seal, GenerateKeyPair.
  destruct (rand_Read 32 r) as [r1 [priv|]] eqn:E1; [|done]. cbn [res_bind].
  destruct (rand_Read 24 r1) as [r2 [nonce|]] eqn:E2; [|done]. cbn [res_bind].
  destruct (rand_Read_fills 32 r Hr) as [Hr1 Hp]. rewrite E1 in Hr1, Hp.
  destruct (rand_Read_fills 24 r1 Hr1) as [_ Hn]. rewrite E2 in Hn.
  intros Heq. apply pair_eq in Heq as [_ Heq]. injection Heq as <-.
  exists priv, nonce, (box_Seal (if bool_decide (v = encryptedEnvelopeVersionV2) then ctx +:+ contextSeparator +:+ plain else plain) nonce pub priv).
  split_and!; [by apply Hp | by apply Hn | done |]. by case_bool_decide.
Qed.

(** A sealed envelope: what its reader finds. *)
Lemma parse_sealed v priv nonce ct ctx :
  v = encryptedEnvelopeVersion \/ v = encryptedEnvelopeVersionV2 ->
  String.length priv = 32 -> String.length nonce = 24 -> ct <> "" ->
  let env := mkEnvelope true v (EncodeToString false (box_public priv))
    (EncodeToString false nonce) (EncodeToString false ct) (EncodeToString false ctx) in
  parseEncryptedEnvelope (js_text (jenc env)) = Ok (env, box_public priv, nonce, ct) /\
  IsEncrypted (js_text (jenc env)) = true.
Proof.
  intros Hv Hp Hn Hc env. pose proof (box_public_length _ Hp) as Hpl.
  destruct (envelope_text v (box_public priv) nonce ct ctx) as [Ht Hm]; [by destruct Hv as [->| ->]|].
  fold env in Ht, Hm.
  assert (EncodeToString false (box_public priv) <> "") as He1 by (apply EncodeToString_nonempty; by destruct (box_public priv)).
  assert (EncodeToString false nonce <> "") as He2 by (apply EncodeToString_nonempty; by destruct nonce).
  assert (EncodeToString false ct <> "") as He3 by (by apply EncodeToString_nonempty).
  split.
  - unfold parseEncryptedEnvelope. rewrite Ht. cbn [en_Encrypted en_Version en_Ephemeral en_Nonce en_Ciphertext env negb].
    rewrite (bool_decide_false _ He1), (bool_decide_false _ He2), (bool_decide_false _ He3). cbn [orb].
    assert (negb (bool_decide (v = encryptedEnvelopeVersion)) && negb (bool_decide (v = encryptedEnvelopeVersionV2)) = false) as ->.
    { by destruct Hv as [->| ->]. }
    rewrite !base64_roundtrip. unfold bytesToKey. rewrite Hpl. cbn [Nat.eqb negb res_bind]. by rewrite Hn.
  - unfold IsEncrypted. rewrite Hm. cbn [mk_Encrypted mk_Ephemeral mk_Nonce mk_Ciphertext].
    by rewrite (bool_decide_false _ He1), (bool_decide_false _ He2), (bool_decide_false _ He3).
Qed.

Lemma e2e_opens plain priv channel channel' r r' env :
  rand_fills r -> EncryptWithContext plain (box_public priv) (ChannelContext channel) r = (r', Ok env) ->
  IsEncrypted env = true /\ DecryptWithContext env priv (ChannelContext channel') =
    if decide (channel' = channel) then Ok plain else Err (errorf "envelope context mismatch").
Proof.
  intros Hr (eph & nonce & ct & He & Hn & Hct & ->)%seal_ok; [|exact Hr].
  set (ctx := ChannelContext channel) in *.
  assert (ct <> "") as Hne by (rewrite Hct; apply box_seal_not_empty).
  rewrite !bool_decide_true in * by done. split; [by apply parse_sealed; [right|..]|].
  unfold DecryptWithContext. rewrite (proj1 (parse_sealed encryptedEnvelopeVersionV2 eph nonce ct ctx (or_intror eq_refl) He Hn Hne)).
  cbn [res_bind en_Encrypted en_Version en_Ctx negb]. rewrite Hct, box_open_seal.
  rewrite bool_decide_true by done. rewrite base64_roundtrip. case_decide as Ech.
  - subst channel'. fold ctx. rewrite bool_decide_true by done. cbn [negb].
    rewrite <- str_app_assoc. unfold HasPrefix. rewrite prefix_app. cbn [negb]. by rewrite drop_str_app.
  - rewrite bool_decide_false; [done|]. unfold ctx, ChannelContext. intros E%str_app_inj. by apply Ech.
Qed.

(** A version 1 envelope opens under any channel's context. *)
Lemma v1_opens plain priv ctx r r' env :
  rand_fills r -> Encrypt plain (box_public priv) r = (r', Ok env) ->
  IsEncrypted env = true /\ DecryptWithContext env priv ctx = Ok plain.
Proof.
  intros Hr (eph & nonce & ct & He & Hn & Hct & ->)%seal_ok; [|exact Hr].
  change (bool_decide (encryptedEnvelopeVersion = encryptedEnvelopeVersionV2)) with false in *. cbv iota in *.
  assert (ct <> "") as Hne by (rewrite Hct; apply box_seal_not_empty).
  destruct (parse_sealed encryptedEnvelopeVersion eph nonce ct "" (or_introl eq_refl) He Hn Hne) as [Hp Hi].
  split; [exact Hi|]. unfold DecryptWithContext. rewrite Hp. cbn [res_bind en_Encrypted en_Version negb].
  by rewrite Hct, box_open_seal.
Qed.

(** End-to-end envelopes are bound to their channel: what was sealed to a key
    under one channel's context opens with that key to exactly the plaintext
    under the same context, and is refused under any other. *)
Theorem e2e_channel_bound plain priv channel channel' r r' env :
  rand_fills r -> EncryptWithContext plain (box_public priv) (ChannelContext channel) r = (r', Ok env) ->
  DecryptWithContext env priv (ChannelContext channel') =
    if decide (channel' = channel) then Ok plain else Err (errorf "envelope context mismatch").
Proof. intros Hr He. exact (proj2 (e2e_opens plain priv channel channel' r r' env Hr He)). Qed.
End e2e.

Section aes.
Context `{!Crypto} `{!CryptoLaws}.

Lemma aes_encrypted plain key aad r r' data :
  rand_fills r -> AESEncryptWithContext plain key aad r = (r', Ok data) ->
  AESDecryptWithContext data key aad = Ok plain /\ IsAESEncrypted data = true.
Proof.
  intros Hr. unfold AESEncryptWithContext, AESDecryptWithContext. destruct (aes_key key) as [k|] eqn:Ek; [|done].
  destruct (rand_Read 12 r) as [r1 [nonce|]] eqn:E1; [|done].
  destruct (rand_Read_fills 12 r Hr) as [_ Hn]. rewrite E1 in Hn. specialize (Hn _ eq_refl).
  intros Heq. apply pair_eq in Heq as [_ Heq]. injection Heq as <-.
  destruct (aes_text nonce (gcm_Seal k nonce plain aad)) as [Ht Hm]. split.
  - cbn [res_bind]. rewrite Ht. cbn [ae_Encrypted ae_Algorithm ae_Version ae_Nonce ae_Ciphertext negb].
    rewrite !bool_decide_true by done. cbn [negb]. rewrite !base64_roundtrip, Hn. cbn [Nat.eqb negb]. by rewrite open_seal.
  - unfold IsAESEncrypted. by rewrite Hm.
Qed.

Context `{!Box} `{!BoxLaws} {R : Type} `{!Repository R}.

(** The publication policy fails closed: when a channel's mode asks for
    encryption, whatever is handed to the broker is an encrypted document of
    that mode, server-side payloads open under the channel's key to the body,
    and only the other modes pass the body through. *)
Theorem publish_fail_closed (s : Service R) channel body r r' out mode key pub :
  rand_fills r -> channel_policy s channel = Ok (mode, key, pub) ->
  EncryptForChannel s channel body r = (r', Ok out) ->
  (mode = "server_side" -> IsAESEncrypted out = true /\ AESDecryptWithContext out key (ChannelContext channel) = Ok body) /\
  (mode = "e2e" -> IsEncrypted out = true) /\
  (mode <> "server_side" -> mode <> "e2e" -> out = body).
Proof.
  intros Hr Hp. unfold EncryptForChannel, apply_policy. rewrite Hp. case_bool_decide as E1.
  - subst mode. case_bool_decide; [done|]. intros (Hd & Hi)%aes_encrypted; [|exact Hr]. by split_and!.
  - case_bool_decide as E2.
    + subst mode. case_bool_decide; [done|]. destruct (IsEncrypted body) eqn:Eb.
      * intros [= _ <-]. by split_and!.
      * destruct (ParsePublicKey pub) as [pk|]; [|done].
        intros (eph & nonce & ct & He & Hn & Hct & ->)%seal_ok; [|exact Hr].
        assert (ct <> "") as Hne by (rewrite Hct; apply box_seal_not_empty).
        split_and!; [done | | done]. intros _. by apply parse_sealed; [right|..].
    + intros [= _ <-]. by split_and!.
Qed.
End aes.
End theory.

(** ** Witnesses *)

Definition zero_key : string := string_of_list_ascii (replicate 32 (Ascii.ascii_of_nat 0)).

Lemma e2e_channel_bound_witness :
  exists r' env, EncryptWithContext "secret" (box_public zero_key) (ChannelContext "build") zero_rand = (r', Ok env) /\
    DecryptWithContext env zero_key (ChannelContext "build") = Ok "secret" /\
    DecryptWithContext env zero_key (ChannelContext "deploy") = Err (errorf "envelope context mismatch").
Proof.
  eexists _, _. split; [reflexivity|].
  split; (erewrite (e2e_channel_bound "secret" zero_key "build" _ zero_rand _ _ zero_rand_fills); [|reflexivity]);
    reflexivity.
Defined.

(** A channel that wants server-side encryption. *)
Definition sealed_channel : Channel :=
  channel_zero <| ch_ID := "build" |> <| ch_EncryptionMode := "server_side" |>
    <| ch_EncryptionKey := EncodeToString false zero_key |>.
Definition sealed_service : Service (RaftStore mapdb) :=
  mkService (demo_store {[ channel_key "build" := jenc sealed_channel ]}) None.

Lemma publish_fail_closed_witness :
  exists r' out, EncryptForChannel sealed_service "build" "hello" zero_rand = (r', Ok out) /\
    IsAESEncrypted out = true /\
    AESDecryptWithContext out (EncodeToString false zero_key) (ChannelContext "build") = Ok "hello".
Proof.
  destruct (EncryptForChannel sealed_service "build" "hello" zero_rand) as [r' x] eqn:E.
  assert (exists out, x = Ok out) as [out ->].
  { apply (f_equal snd) in E. cbn [snd] in E. subst x. eexists. vm_compute. reflexivity. }
  exists r', out. split; [reflexivity|].
  refine (proj1 (publish_fail_closed sealed_service "build" "hello" zero_rand r' out "server_side"
                   (EncodeToString false zero_key) "" zero_rand_fills _ E) eq_refl).
  vm_compute. reflexivity.
Defined.
