(* ===== verification/Middleware.v ===== *)
(** * Middleware: internal/handler/middleware.go, security.go, ratelimit.go and
    leader_forward.go

    A [World] is the mutable state the handlers of one node share.  A middleware
    wraps a handler; all but one are [Guard]s, which decide before the next
    handler runs. *)

From S2P Require Import Prelude Json Domain Bolt Crypto Store Repo Authorization RateLimit Http Service Buffer Broker.

(** net/url as requestOrigin uses it: scheme and host of a parsed URL. *)
Class Url := { url_parse : string -> option (string * string) }.

Section middleware.
Context {R : Type} `{!Repository R} `{!Net} `{!Url} `{!Crypto} `{!JsonText}.

Record ipRanges := mkRanges { ir_networks : list IPNet; ir_ips : list IP }.
Record ipCacheEntry := mkCacheEntry { ce_ranges : ipRanges; ce_at : Z }.

Record World := mkWorld {
  w_svc : Service R; w_bans : BanTracker; w_limiter : RateLimiter; w_throttle : LoginThrottle;
  w_ipcache : gmap string ipCacheEntry; w_broker : Broker; w_wire : list (string * string); w_connected : bool;
  w_rand : Rand; w_now : Z }.
#[export] Instance eta_world : Eta World := fun x =>
  mkWorld (w_svc x) (w_bans x) (w_limiter x) (w_throttle x) (w_ipcache x) (w_broker x) (w_wire x) (w_connected x)
    (w_rand x) (w_now x).

Abbreviation HD := (Handler World).
Abbreviation MW := (Middleware World).

(** Seconds and milliseconds since 1970 of an instant. *)
Definition unix_epoch : Z := 62135596800.
Definition time_Unix (t : Z) : Z := (t / second - unix_epoch)%Z.
Definition time_UnixMilli (t : Z) : Z := (t / 1000000 - unix_epoch * 1000)%Z.

(** ** Guards *)

(** Every middleware but the header one either answers the request itself or
    hands it on, possibly with a new context: [return] after http.Error against
    [next.ServeHTTP]. *)
Inductive Verdict := Next (r : Request) (w : World) | Answer (w : World) (resp : Response).
Definition Guard : Type := Request -> World -> Verdict.

Definition guarded (g : Guard) : MW := fun next r w =>
  match g r w with Next r w => next r w | Answer w resp => (w, resp) end.

(** [r.With(g1, ..., gn)]: the first one runs first. *)
Fixpoint all_of (gs : list Guard) : Guard := fun r w =>
  match gs with
  | [] => Next r w
  | g :: gs => match g r w with Next r w => all_of gs r w | Answer w resp => Answer w resp end
  end.

(** ** Request context *)

Definition GetUsernameFromContext (c : Ctx) : string := cx_username c.
Definition GetGroupsFromContext (c : Ctx) : list string := cx_groups c.
Definition GetPrincipalFromContext (c : Ctx) : option User := cx_principal c.

Definition resolveRequestUser (s : Service R) (r : Request) : option User :=
  match GetPrincipalFromContext (rq_Ctx r) with
  | Some user => Some user
  | None => ResolvePrincipalByUsername s (GetUsernameFromContext (rq_Ctx r))
  end.

Definition withPrincipal (c : Ctx) (user : User) (groups : list string) : Ctx :=
  let c := c <| cx_principal := Some user |> <| cx_username := u_Username user |> in
  match groups with [] => c | _ => c <| cx_groups := groups |> end.

Definition ChannelContext_mw : Guard := fun r w =>
  let channel := URLParam r "channel" in
  Next (if negb (bool_decide (channel = "")) then r <| rq_Ctx := (rq_Ctx r) <| cx_channel := Some channel |> |> else r) w.

Definition request_channel (r : Request) : string := default "" (cx_channel (rq_Ctx r)).

(** ** Permissions *)

Definition RequirePermission (perm : string) : Guard := fun r w =>
  match resolveRequestUser (w_svc w) r with
  | None => Answer w (http_Error "Unauthorized" 401)
  | Some user =>
      if negb (UserHasPermission (w_svc w) (Some user) (GetGroupsFromContext (rq_Ctx r)) perm (request_channel r))
      then Answer w (http_Error "Forbidden" 403)
      else Next r w
  end.

Definition RequireChannelACLPermission : Guard := fun r w =>
  match resolveRequestUser (w_svc w) r with
  | None => Answer w (http_Error "Unauthorized" 401)
  | Some user =>
      let has perm := UserHasPermission (w_svc w) (Some user) (GetGroupsFromContext (rq_Ctx r)) perm (request_channel r) in
      if has PermChannelWrite then Next r w
      else if has PermRBACWrite then Next r w
      else if has PermAll then Next r w
      else Answer w (http_Error "Forbidden" 403)
  end.

(** ** IP allowlists *)

Fixpoint parseIPRanges (ranges : list string) : res ipRanges :=
  match ranges with
  | [] => Ok (mkRanges [] [])
  | r :: ranges =>
      if Contains r "/" then
        match ParseCIDR r with
        | None => Err (errorf ("invalid CIDR range " +:+ r))
        | Some ipnet => res_bind (parseIPRanges ranges) (fun x => Ok (mkRanges (ipnet :: ir_networks x) (ir_ips x)))
        end
      else
        match ParseIP r with
        | None => Err (errorf ("invalid IP address " +:+ r))
        | Some ip => res_bind (parseIPRanges ranges) (fun x => Ok (mkRanges (ir_networks x) (ip :: ir_ips x)))
        end
  end.

Definition ranges_contains (r : ipRanges) (ip : IP) : bool :=
  any (fun allowedIP => ip_Equal ip allowedIP) (ir_ips r) || any (fun network => net_Contains network ip) (ir_networks r).

Definition ipCacheTTL : Z := (5 * minute)%Z.
Definition ipCacheMax : nat := 10 * 10 * 10 * 10.

Definition allowedIPsHash (allowedIPs : list string) : string :=
  hex_encode (sha256 (Join allowedIPs (String Ascii.zero EmptyString))).

(** The map is iterated in some order, here that of [map_to_list]. *)
Definition evictOldestIPCache (cache : gmap string ipCacheEntry) : gmap string ipCacheEntry :=
  let '(oldestKey, _) := fold_left (fun '(oldestKey, oldest) '(k, e) =>
    if bool_decide (oldestKey = "") || time_Before (ce_at e) oldest then (k, ce_at e) else (oldestKey, oldest))
    (map_to_list cache) ("", 0%Z) in
  if negb (bool_decide (oldestKey = "")) then delete oldestKey cache else cache.

(** The parsed ranges of an allowlist, through the cache. *)
Definition cached_ranges (now : Z) (allowedIPs : list string) (cache : gmap string ipCacheEntry)
  : gmap string ipCacheEntry * res ipRanges :=
  let key := allowedIPsHash allowedIPs in
  let '(cache, hit) :=
    match cache !! key with
    | Some e => if (ipCacheTTL <? time_Sub now (ce_at e))%Z then (delete key cache, None) else (cache, Some e)
    | None => (cache, None)
    end in
  match hit with
  | Some e => (cache, Ok (ce_ranges e))
  | None =>
      match parseIPRanges allowedIPs with
      | Err e => (cache, Err e)
      | Ok ranges =>
          let cache := if (ipCacheMax <=? size cache)%nat then evictOldestIPCache cache else cache in
          (<[key := mkCacheEntry ranges now]> cache, Ok ranges)
      end
  end.

Definition IPRestrictMiddleware : Guard := fun r w =>
  if negb (bool_decide (rq_Method r = "POST")) then Next r w
  else
    let s := w_svc w in
    let allowedIPs := match ResolveChannelAllowedIPs s (URLParam r "channel") with Ok l => l | Err _ => [] end in
    if bool_decide (allowedIPs = []) then Next r w
    else
      match GetRealIP r (ResolveBehindReverseProxy s) (ParseTrustedProxyCIDRs (ResolveTrustedProxyCIDRs s)) with
      | Err _ => Answer w (http_Error "Failed to determine client IP" 400)
      | Ok clientIP =>
          let '(cache, ranges) := cached_ranges (w_now w) allowedIPs (w_ipcache w) in
          let w := w <| w_ipcache := cache |> in
          match ranges with
          | Err _ => Answer w (http_Error "Invalid IP configuration" 500)
          | Ok ranges =>
              if negb (ranges_contains ranges clientIP)
              then Answer w (http_Error ("IP address " +:+ ip_String clientIP +:+ " not allowed") 403)
              else Next r w
          end
      end.

(** ** Channel access *)

Definition sessionCookieName : string := "gohookbridge_session".

Definition record_failure (r : Request) (fingerprint : string) (w : World) : World :=
  w <| w_bans := RecordCredentialFailure (w_now w) r fingerprint (w_svc w) (w_bans w) |>.

(** The session of the request's cookie, when it has a valid one. *)
Definition cookie_session (secret : string) (r : Request) (w : World) : option SessionToken :=
  match rq_Cookies r !! sessionCookieName with
  | None => None
  | Some v => res_option (DecodeSession (time_Unix (w_now w)) v secret)
  end.

Definition bearer_token (r : Request) : string :=
  let token := hdr_Get (rq_Query r) "token" in
  if negb (bool_decide (token = "")) then token
  else let auth := hdr_Get (rq_Header r) "Authorization" in
       if HasPrefix auth "Bearer " then TrimPrefix auth "Bearer " else "".

Definition scope_perm (requiredScope : string) : string :=
  if bool_decide (requiredScope = "produce") then PermChannelWrite else PermChannelRead.

Definition ChannelAccessMiddleware (requiredScope : string) : Guard := fun r w =>
  let s := w_svc w in
  let channel := URLParam r "channel" in
  let sessionSecret := DeriveSessionSecret (SessionSecret s) in
  match cookie_session sessionSecret r w with
  | Some token =>
      match ResolvePrincipal s (Some token) with
      | Some user =>
          if SessionEpochValid s (Some token) &&
             UserHasPermission s (Some user) (st_Groups token) (scope_perm requiredScope) channel
          then Next (r <| rq_Ctx := withPrincipal (rq_Ctx r) user (st_Groups token) |>) w
          else Answer w (http_Error "Forbidden" 403)
      | None => Answer w (http_Error "Forbidden" 403)
      end
  | None =>
      match svc_ResolveChannelConfig s channel with
      | Err e => Answer w (if errors_Is e KNotFound then http_Error "channel not found" 404
                     else http_Error "channel configuration unavailable" 503)
      | Ok chConfig =>
          if negb (bool_decide (ch_AccessMode chConfig = "token")) then Next r w
          else
            let token := bearer_token r in
            if bool_decide (token = "") then Answer w (http_Error "Unauthorized" 401)
            else if negb (ValidateChannelToken channel token requiredScope s)
            then Answer (record_failure r (FingerprintToken token) w) (http_Error "Unauthorized" 401)
            else Next r w
      end
  end.

(** ** ratelimit.go *)

Definition banned_error : Response := json_error "IP address is banned due to suspicious activity" 403.
Definition limited_error : Response := json_error "rate limit exceeded" 429.

Definition BanMiddleware : Guard := fun r w =>
  match repo_GetGlobalConfig (svc_repo (w_svc w)) with
  | Err _ => Next r w
  | Ok cfg =>
      let sc := gc_Server cfg in
      if negb (sc_BanEnabled sc) then Next r w
      else match GetRealIP r (sc_BehindReverseProxy sc) (ParseTrustedProxyCIDRs (sc_TrustedProxyCIDRs sc)) with
           | Err _ => Next r w
           | Ok ip =>
               let '(bans, banned) := IsBanned (w_now w) (ip_String ip) (w_bans w) in
               let w := w <| w_bans := bans |> in
               if banned then Answer w banned_error else Next r w
           end
  end.

Definition RateLimitMiddleware : Guard := fun r w =>
  match repo_GetGlobalConfig (svc_repo (w_svc w)) with
  | Err _ => Next r w
  | Ok cfg =>
      let sc := gc_Server cfg in
      if negb (sc_RateLimitEnabled sc) then Next r w
      else match GetRealIP r (sc_BehindReverseProxy sc) (ParseTrustedProxyCIDRs (sc_TrustedProxyCIDRs sc)) with
           | Err _ => Next r w
           | Ok ip =>
               let '(limiter, allowed) := rl_Allow (w_now w) (ip_String ip) (sc_RateLimitRequests sc)
                                            (sc_RateLimitWindowSeconds sc) (w_limiter w) in
               let w := w <| w_limiter := limiter |> in
               if negb allowed then Answer w limited_error else Next r w
           end
  end.

Definition ban_json (b : BanInfo) : json :=
  JObj [("ip", JStr (bi_IP b)); ("banned_until", JTime (bi_Until b)); ("unique_failures", JNum (Z.of_nat (bi_UniqueFailures b)))].

Definition APIBansHandler : HD := fun r w =>
  let '(bans, infos) := ListBans (w_now w) (w_bans w) in
  (w <| w_bans := bans |>, json_ok 200 (JArr (ban_json <$> infos))).

Definition APIUnbanHandler : HD := fun r w =>
  let ip := URLParam r "ip" in
  if bool_decide (ip = "") then (w, json_error "IP address required" 400)
  else match ParseIP ip with
       | None => (w, json_error ("invalid IP address " +:+ ip) 400)
       | Some _ => (w <| w_bans := Unban ip (w_bans w) |>, mkResponse 204 ∅ NoBody)
       end.

(** ** security.go *)

Definition security_headers (r : Request) : Header :=
  let h : Header := hdr_Set "Content-Security-Policy" "frame-ancestors 'none'" (hdr_Set "Referrer-Policy" "no-referrer"
    (hdr_Set "X-Content-Type-Options" "nosniff" (hdr_Set "X-Frame-Options" "DENY" ∅))) in
  let h := if HasPrefix (rq_Path r) "/api/" then hdr_Set "Cache-Control" "no-store" h else h in
  if rq_TLS r then hdr_Set "Strict-Transport-Security" "max-age=31536000; includeSubDomains" h else h.

(** Headers set before the next handler writes: its own assignments win. *)
Definition SecurityHeadersMiddleware : MW := fun next r w =>
  let (w, resp) := next r w in (w, resp <| rp_Header := rp_Header resp ∪ security_headers r |>).

Definition requestOrigin (r : Request) : string :=
  let origin := hdr_Get (rq_Header r) "Origin" in
  if negb (bool_decide (origin = "")) then origin
  else
    let referer := hdr_Get (rq_Header r) "Referer" in
    if bool_decide (referer = "") then ""
    else match url_parse referer with
         | None => ""
         | Some (scheme, host) =>
             if bool_decide (scheme = "") || bool_decide (host = "") then "" else scheme +:+ "://" +:+ host
         end.

Definition mutating (method : string) : bool :=
  bool_decide (method = "POST") || bool_decide (method = "PUT") || bool_decide (method = "PATCH") || bool_decide (method = "DELETE").

Definition MutationOriginValidation : Guard := fun r w =>
  if negb (mutating (rq_Method r)) then Next r w
  else
    let origin := requestOrigin r in
    if bool_decide (origin = "") then Next r w
    else
      let allowed := ResolveCORSOrigin (w_svc w) in
      if bool_decide (allowed = "") || bool_decide (allowed = "*") || bool_decide (origin = allowed) then Next r w
      else Answer w (http_Error "origin not allowed" 403).

(** ** leader_forward.go *)

Definition leaderForwardedHeader : string := "X-Gohookbridge-Leader-Forwarded".

Definition StripForwardMarker : Guard := fun r w =>
  Next (r <| rq_Header := hdr_Del leaderForwardedHeader (rq_Header r) |>) w.

Definition isReadOnlyMethod (method : string) : bool :=
  bool_decide (method = "GET") || bool_decide (method = "HEAD") || bool_decide (method = "OPTIONS").

(** [is_leader] and [leader_addr] are what raft reports; [proxy target] is the
    reverse proxy to that host and port. *)
Definition LeaderForwardMiddleware (is_leader : bool) (leader_addr : string) (proxy : string -> HD) : Guard := fun r w =>
  if isReadOnlyMethod (rq_Method r) || is_leader || negb (bool_decide (hdr_Get (rq_Header r) leaderForwardedHeader = ""))
  then Next r w
  else
    match SplitHostPort leader_addr with
    | Some (host, _) =>
        if bool_decide (leader_addr = "") then Answer w (http_Error (error_text "no Raft leader available") 503)
        else let (w, resp) := proxy host (r <| rq_Header := hdr_Set leaderForwardedHeader "1" (rq_Header r) |>) w in Answer w resp
    | None => Answer w (http_Error (error_text "no Raft leader available") 503)
    end.

(** buildWebhookRouter *)
Definition webhook_guards : list Guard :=
  [BanMiddleware; RateLimitMiddleware; IPRestrictMiddleware; ChannelAccessMiddleware "produce"].
End middleware.

Arguments World R {_}.
Arguments mkWorld {R _}.

(** ** A node without state, for the witnesses *)

#[export] Instance toy_url : Url := {| url_parse s := Some ("https", s) |}.

Definition demo_world (m : gmap string json) : World (RaftStore mapdb) :=
  mkWorld (mkService (demo_store m) None) NewBanTracker NewRateLimiter ∅ ∅ demo_broker [] true zero_rand 1.
