(* ===== verification/MiddlewareTheory.v ===== *)
(** * MiddlewareTheory: what the guards let through

    Who gets past each guard, that the allowlist cache is invisible and bounded,
    and what becomes of the leader-forward marker when every hop strips it. *)

From S2P Require Import Prelude Json Domain Bolt Crypto Store Repo Authorization RateLimit Http Service Buffer Broker Middleware.

(** ** The allowlist cache *)

Lemma elem_str_false_app c a b : elem_str c (a +:+ b) = false <-> elem_str c a = false /\ elem_str c b = false.
Proof. rewrite elem_str_app. apply orb_false_iff. Qed.

Section cache.
Context `{!Net} `{!Crypto}.

(** Allowlists as an operator writes them: at least one entry, no NUL byte. *)
Definition clean (l : list string) : Prop := l <> [] /\ forall x, x ∈ l -> elem_str Ascii.zero x = false.

Lemma clean_cons x l : l <> [] -> clean (x :: l) -> elem_str Ascii.zero x = false /\ clean l.
Proof. intros Hl [_ Hc]. split; [apply Hc; by left|]. split; [done|]. intros y Hy. apply Hc. by right. Qed.

Lemma Join_no_nul x : elem_str Ascii.zero x = false -> forall a b, x <> a +:+ String Ascii.zero b.
Proof.
  intros Hx a b ->. apply elem_str_false_app in Hx as [_ Hx]. discriminate.
Qed.

(** Entries that hold no NUL can be read back from the NUL-separated text. *)
Lemma Join_inj l l' :
  clean l -> clean l' -> Join l (String Ascii.zero EmptyString) = Join l' (String Ascii.zero EmptyString) -> l = l'.
Proof.
  set (nul := String Ascii.zero EmptyString). revert l'.
  assert (forall x y s, y <> [] -> Join (x :: y) s = x +:+ s +:+ Join y s) as Hcons by (intros x [|y0 y] s; done).
  induction l as [|x l IH]; intros l' Hc Hc' E; [by destruct Hc|]. destruct l' as [|x' l']; [by destruct Hc'|].
  destruct (decide (l = [])) as [->|Hl]; destruct (decide (l' = [])) as [->|Hl'].
  - simpl in E. by rewrite E.
  - rewrite (Hcons x' l') in E by done. simpl in E. exfalso. eapply (Join_no_nul x); [|exact E]. apply Hc. by left.
  - rewrite (Hcons x l) in E by done. simpl in E. symmetry in E. exfalso. eapply (Join_no_nul x'); [|exact E]. apply Hc'. by left.
  - rewrite !Hcons in E by done. destruct (clean_cons x l Hl Hc) as [Hx Hcl]. destruct (clean_cons x' l' Hl' Hc') as [Hx' Hcl'].
    pose proof (Cut_app x (Join l nul) Ascii.zero Hx) as E1. pose proof (Cut_app x' (Join l' nul) Ascii.zero Hx') as E2.
    change (nul +:+ Join l nul) with (String Ascii.zero (Join l nul)) in E.
    change (nul +:+ Join l' nul) with (String Ascii.zero (Join l' nul)) in E.
    rewrite E, E2 in E1. injection E1 as -> E1. f_equal. by apply IH.
Qed.

(** SHA-256 as the cache relies on it: no collisions, never empty. *)
Definition sha_ok : Prop := (forall a b, sha256 a = sha256 b -> a = b) /\ (forall a, sha256 a <> "").

Lemma hash_inj l l' : sha_ok -> clean l -> clean l' -> allowedIPsHash l = allowedIPsHash l' -> l = l'.
Proof.
  intros [Hinj _] Hc Hc' E. apply Join_inj; [done..|]. apply Hinj.
  apply (f_equal hex_decode) in E. unfold allowedIPsHash in E. rewrite !hex_roundtrip in E. by injection E.
Qed.

Lemma hash_not_empty l : sha_ok -> allowedIPsHash l <> "".
Proof.
  intros [_ Hne] E. apply (f_equal String.length) in E. unfold allowedIPsHash in E. rewrite length_hex in E.
  simpl in E. specialize (Hne (Join l (String Ascii.zero EmptyString))). by destruct (sha256 _).
Qed.

(** Every entry is what parsing its allowlist gives, under a real key. *)
Record coherent (cache : gmap string ipCacheEntry) : Prop := {
  coh_parse : forall l e, clean l -> cache !! allowedIPsHash l = Some e -> parseIPRanges l = Ok (ce_ranges e);
  coh_keys : cache !! "" = None;
  coh_size : size cache <= ipCacheMax }.

Lemma coherent_sub c c' : coherent c -> c' ⊆ c -> coherent c'.
Proof.
  intros [Hp Hk Hs] Hsub. split.
  - intros l e Hc He. eapply Hp; [done|]. by eapply lookup_weaken.
  - by eapply lookup_weaken_None.
  - etrans; [|exact Hs]. by apply map_subseteq_size.
Qed.

(** Eviction removes one entry of a non-empty cache. *)
Lemma evict_fold l (k0 : string) (t0 : Z) :
  (forall k e, (k, e) ∈ l -> k <> "") -> k0 <> "" \/ l <> [] ->
  let k := (fold_left (fun '(oldestKey, oldest) '(k, e) =>
    if bool_decide (oldestKey = "") || time_Before (ce_at e) oldest then (k, ce_at e) else (oldestKey, oldest))
    l (k0, t0)).1 in
  k <> "" /\ (k = k0 \/ k ∈ l.*1).
Proof.
  revert k0 t0. induction l as [|[k e] l IH]; intros k0 t0 Hl Hne; cbn [fold_left].
  - destruct Hne; [|done]. split; [done | by left].
  - assert (Hl' : forall k' e', (k', e') ∈ l -> k' <> "") by (intros k' e' Hin; apply (Hl k' e'); by right).
    destruct (bool_decide (k0 = "") || time_Before (ce_at e) t0) eqn:Eb.
    + destruct (IH k (ce_at e) Hl' (or_introl (Hl k e ltac:(left)))) as [Hk Hin]. split; [exact Hk|].
      right. cbn. destruct Hin as [->|Hin]; [left | by right].
    + apply orb_false_iff in Eb as [Eb _]. apply bool_decide_eq_false in Eb.
      destruct (IH k0 t0 Hl' (or_introl Eb)) as [Hk Hin]. split; [exact Hk|].
      destruct Hin as [Hin|Hin]; [by left | right; by right].
Qed.

Lemma evict_shrinks cache :
  cache !! "" = None -> size cache <> 0 ->
  evictOldestIPCache cache ⊆ cache /\ size (evictOldestIPCache cache) = pred (size cache).
Proof.
  intros Hk Hs. unfold evictOldestIPCache.
  pose proof (evict_fold (map_to_list cache) "" 0%Z) as Hf. cbv zeta in Hf.
  destruct (fold_left _ (map_to_list cache) ("", 0%Z)) as [k t]. cbn [fst] in Hf. destruct Hf as [Hne Hin].
  - intros k' e Hin%elem_of_map_to_list ->. congruence.
  - right. intros E. apply Hs. by apply map_size_empty_iff, map_to_list_empty_iff.
  - rewrite (bool_decide_false _ Hne). cbn [negb]. split; [apply delete_subseteq|].
    destruct Hin as [->|Hin]; [done|]. apply list_elem_of_fmap in Hin as ([k' e] & -> & Hin%elem_of_map_to_list).
    apply map_size_delete_Some. by exists e.
Qed.

Lemma cached_ranges_spec now l cache :
  sha_ok -> clean l -> coherent cache ->
  (cached_ranges now l cache).2 = parseIPRanges l /\ coherent (cached_ranges now l cache).1.
Proof.
  intros Hsha Hc Hcoh. unfold cached_ranges.
  assert (forall cache', coherent cache' ->
    let x := match parseIPRanges l with
      | Err e => (cache', Err e)
      | Ok ranges =>
          let cache' := if (ipCacheMax <=? size cache')%nat then evictOldestIPCache cache' else cache' in
          (<[allowedIPsHash l := mkCacheEntry ranges now]> cache', Ok ranges)
      end in x.2 = parseIPRanges l /\ coherent x.1) as Hmiss.
  { intros c Hcc. destruct (parseIPRanges l) as [ranges|e] eqn:Ep; [|done]. cbv zeta. split; [done|]. cbn [fst].
    set (c' := if (ipCacheMax <=? size c)%nat then _ else _).
    assert (c' ⊆ c /\ size c' < ipCacheMax) as [Hsub Hsz].
    { pose proof (coh_size _ Hcc) as Hle. assert (0 < ipCacheMax) by (unfold ipCacheMax; lia).
      unfold c'. destruct (Nat.leb_spec ipCacheMax (size c)); [|done].
      destruct (evict_shrinks c (coh_keys _ Hcc)) as [Hs1 Hs2]; [lia|]. split; [done|lia]. }
    pose proof (coherent_sub _ _ Hcc Hsub) as [Hp Hk _]. split.
    - intros l' e' Hc' He'. destruct (decide (allowedIPsHash l' = allowedIPsHash l)) as [E|E].
      + apply hash_inj in E; [|done..]. subst l'. rewrite lookup_insert_eq in He'. by injection He' as <-.
      + rewrite lookup_insert_ne in He' by done. by eapply Hp.
    - rewrite lookup_insert_ne by (by apply hash_not_empty). exact Hk.
    - rewrite map_size_insert. clearbody c'. destruct (c' !! allowedIPsHash l); unfold id, size in *; lia. }
  destruct (cache !! allowedIPsHash l) as [e|] eqn:Ee; [|by apply Hmiss].
  destruct (_ <? _)%Z.
  - apply Hmiss. apply (coherent_sub cache); [done|]. apply delete_subseteq.
  - split; [|done]. symmetry. by apply (coh_parse _ Hcoh).
Qed.
End cache.

(** ** Guards *)

Section guards.
Context {R : Type} `{!Repository R} `{!Net} `{!Url} `{!Crypto} `{!JsonText}.
Implicit Types (r : Request) (w : World R) (g : Guard (R := R)).

Lemma all_of_inv g gs r w r'' w'' :
  all_of (g :: gs) r w = Next r'' w'' -> exists r' w', g r w = Next r' w' /\ all_of gs r' w' = Next r'' w''.
Proof. simpl. destruct (g r w) as [r' w'|]; [|done]. by exists r', w'. Qed.

(** Composing guards as handlers is composing their verdicts. *)
Lemma guarded_all g gs next r w : guarded g (guarded (all_of gs) next) r w = guarded (all_of (g :: gs)) next r w.
Proof. unfold guarded. simpl. by destruct (g r w). Qed.

(** What the guards may change of the state: none touches the service, the wire,
    the broker or the clock. *)
Record same_world w w' : Prop := {
  sw_svc : w_svc w' = w_svc w; sw_now : w_now w' = w_now w; sw_wire : w_wire w' = w_wire w;
  sw_broker : w_broker w' = w_broker w; sw_connected : w_connected w' = w_connected w; sw_rand : w_rand w' = w_rand w }.

#[export] Instance same_world_pre : PreOrder same_world.
Proof. split; [by constructor|]. intros w1 w2 w3 [] []. constructor; congruence. Qed.

(** The limits in force for a request and the client they apply to; none when
    the configuration cannot be read or the address not determined. *)
Definition client_of r w : option (ServerConfig * string) :=
  match repo_GetGlobalConfig (svc_repo (w_svc w)) with
  | Err _ => None
  | Ok cfg =>
      let sc := gc_Server cfg in
      match GetRealIP r (sc_BehindReverseProxy sc) (ParseTrustedProxyCIDRs (sc_TrustedProxyCIDRs sc)) with
      | Err _ => None
      | Ok ip => Some (sc, ip_String ip)
      end
  end.

Definition banned_now (now : Z) (ip : string) (bt : BanTracker) : Prop :=
  exists until, bt_banned bt !! ip = Some until /\ (now < until)%Z.

Lemma IsBanned_true now ip bt : (IsBanned now ip bt).2 = true <-> banned_now now ip bt.
Proof.
  unfold IsBanned, banned_now, time_Before. destruct (bt_banned bt !! ip) as [until|].
  - case_bool_decide as Hu; simpl; split; try done; [by eauto|]. intros (u & [= <-] & ?). by destruct Hu.
  - split; [done|]. by intros (u & ? & _).
Qed.

Lemma ban_next r w r' w' :
  BanMiddleware r w = Next r' w' ->
  r' = r /\ same_world w w' /\ w_limiter w' = w_limiter w /\ w_ipcache w' = w_ipcache w /\
  forall sc ip, client_of r w = Some (sc, ip) -> sc_BanEnabled sc = true -> ~ banned_now (w_now w) ip (w_bans w).
Proof.
  unfold BanMiddleware, client_of. destruct (repo_GetGlobalConfig _) as [cfg|]; [|by intros [= <- <-]].
  cbv zeta. destruct (GetRealIP r _ _) as [ip|].
  - destruct (sc_BanEnabled (gc_Server cfg)) eqn:Eb; cbn [negb].
    + pose proof (IsBanned_true (w_now w) (ip_String ip) (w_bans w)) as Hb.
      destruct (IsBanned _ _ _) as [bans []]; [done|]. intros [= <- <-]. split_and!; try done.
      intros sc ip' [= <- <-] _ Hn. by apply Hb in Hn.
    + intros [= <- <-]. split_and!; try done. intros sc ip' [= <- <-]. congruence.
  - destruct (negb _); intros [= <- <-]; done.
Qed.

Lemma limit_next r w r' w' :
  RateLimitMiddleware r w = Next r' w' ->
  r' = r /\ same_world w w' /\ w_ipcache w' = w_ipcache w /\
  forall sc ip, client_of r w = Some (sc, ip) -> sc_RateLimitEnabled sc = true ->
    (rl_Allow (w_now w) ip (sc_RateLimitRequests sc) (sc_RateLimitWindowSeconds sc) (w_limiter w)).2 = true.
Proof.
  unfold RateLimitMiddleware, client_of. destruct (repo_GetGlobalConfig _) as [cfg|]; [|by intros [= <- <-]].
  cbv zeta. destruct (GetRealIP r _ _) as [ip|].
  - destruct (sc_RateLimitEnabled (gc_Server cfg)) eqn:Eb; cbn [negb].
    + destruct (rl_Allow _ _ _ _ _) as [limiter []] eqn:Ea; [|done]. intros [= <- <-]. split_and!; try done.
      intros sc ip' [= <- <-] _. by rewrite Ea.
    + intros [= <- <-]. split_and!; try done. intros sc ip' [= <- <-]. congruence.
  - destruct (negb _); intros [= <- <-]; done.
Qed.

(** The client's address is on the list, read without any cache. *)
Definition ip_listed (allowedIPs : list string) r w : Prop :=
  exists ip ranges,
    GetRealIP r (ResolveBehindReverseProxy (w_svc w)) (ParseTrustedProxyCIDRs (ResolveTrustedProxyCIDRs (w_svc w))) = Ok ip /\
    parseIPRanges allowedIPs = Ok ranges /\ ranges_contains ranges ip = true.

Lemma ip_next r w r' w' :
  IPRestrictMiddleware r w = Next r' w' -> rq_Method r = "POST" ->
  r' = r /\ same_world w w' /\
  forall allowedIPs, ResolveChannelAllowedIPs (w_svc w) (URLParam r "channel") = Ok allowedIPs ->
    clean allowedIPs -> sha_ok -> coherent (w_ipcache w) -> ip_listed allowedIPs r w.
Proof.
  unfold IPRestrictMiddleware. intros Hn Hm. rewrite bool_decide_true in Hn by done. cbn [negb] in Hn. cbv zeta in Hn.
  destruct (ResolveChannelAllowedIPs _ _) as [l|].
  2:{ cbn in Hn. by injection Hn as <- <-. }
  case_bool_decide as El.
  { injection Hn as <- <-. split_and!; try done. intros l' [= <-] [Hl _]. done. }
  destruct (GetRealIP _ _ _) as [ip|] eqn:Eip; [|done].
  pose proof (cached_ranges_spec (w_now w) l (w_ipcache w)) as Hsp.
  destruct (cached_ranges _ _ _) as [cache [ranges|]]; [|done].
  destruct (ranges_contains ranges ip) eqn:Ec; [|done]. injection Hn as <- <-. split_and!; try done.
  intros l' [= <-] Hc Hsha Hcoh. destruct (Hsp Hsha Hc Hcoh) as [Hp _]. exists ip, ranges. done.
Qed.

(** ** Channel access *)

(** Who may use a channel: a session with the permission, anyone on a public
    channel, or the holder of a token of the right scope. *)
Inductive admitted (scope channel : string) r w : Prop :=
  | adm_session tok user :
      cookie_session (DeriveSessionSecret (SessionSecret (w_svc w))) r w = Some tok ->
      ResolvePrincipal (w_svc w) (Some tok) = Some user -> SessionEpochValid (w_svc w) (Some tok) = true ->
      UserHasPermission (w_svc w) (Some user) (st_Groups tok) (scope_perm scope) channel = true ->
      admitted scope channel r w
  | adm_public ch :
      cookie_session (DeriveSessionSecret (SessionSecret (w_svc w))) r w = None ->
      svc_ResolveChannelConfig (w_svc w) channel = Ok ch -> ch_AccessMode ch <> "token" ->
      admitted scope channel r w
  | adm_token ch :
      cookie_session (DeriveSessionSecret (SessionSecret (w_svc w))) r w = None ->
      svc_ResolveChannelConfig (w_svc w) channel = Ok ch -> ch_AccessMode ch = "token" ->
      bearer_token r <> "" -> ValidateChannelToken channel (bearer_token r) scope (w_svc w) = true ->
      admitted scope channel r w.

Lemma access_next scope r w r' w' :
  ChannelAccessMiddleware scope r w = Next r' w' ->
  w' = w /\ (exists ctx, r' = r <| rq_Ctx := ctx |>) /\ admitted scope (URLParam r "channel") r w.
Proof.
  unfold ChannelAccessMiddleware. cbv zeta. destruct (cookie_session _ r w) as [tok|] eqn:Ec.
  - destruct (ResolvePrincipal _ _) as [user|] eqn:Eu; [|done].
    destruct (_ && _) eqn:Ep; [|done]. intros [= <- <-]. split; [done|]. split; [by eexists|].
    apply andb_true_iff in Ep as [He Hp]. by eapply adm_session.
  - destruct (svc_ResolveChannelConfig _ _) as [ch|] eqn:Er; [|done].
    assert (exists ctx, r = r <| rq_Ctx := ctx |>) as Hself by (exists (rq_Ctx r); by destruct r).
    case_bool_decide as Em; cbn [negb].
    + case_bool_decide as Et; [done|]. destruct (ValidateChannelToken _ _ _ _) eqn:Ev; [|done].
      intros [= <- <-]. split_and!; [done..|]. by eapply adm_token.
    + intros [= <- <-]. split_and!; [done..|]. by eapply adm_public.
Qed.

(** C40. Channel access: the guard lets a request on exactly when it is admitted, and
    answers every other one with 401, 403, 404 or 503. *)
Theorem ChannelAccess_spec scope r w :
  (exists r' w', ChannelAccessMiddleware scope r w = Next r' w') <-> admitted scope (URLParam r "channel") r w.
Proof.
  split; [by intros (r' & w' & (_ & _ & Ha)%access_next)|].
  intros [tok user Hc Hu He Hp | ch Hc Hr Hm | ch Hc Hr Hm Ht Hv]; unfold ChannelAccessMiddleware; cbv zeta; rewrite Hc.
  - rewrite Hu, He, Hp. by eexists _, _.
  - rewrite Hr, (bool_decide_false _ Hm). by eexists _, _.
  - rewrite Hr, (bool_decide_true _ Hm), (bool_decide_false _ Ht), Hv. by eexists _, _.
Qed.

(** ** The webhook chain *)

Lemma webhook_next r w r' w' :
  all_of webhook_guards r w = Next r' w' -> rq_Method r = "POST" ->
  same_world w w' /\ (exists ctx, r' = r <| rq_Ctx := ctx |>) /\
  (forall sc ip, client_of r w = Some (sc, ip) ->
    (sc_BanEnabled sc = true -> ~ banned_now (w_now w) ip (w_bans w)) /\
    (sc_RateLimitEnabled sc = true ->
      (rl_Allow (w_now w) ip (sc_RateLimitRequests sc) (sc_RateLimitWindowSeconds sc) (w_limiter w)).2 = true)) /\
  (forall ips, ResolveChannelAllowedIPs (w_svc w) (URLParam r "channel") = Ok ips ->
    clean ips -> sha_ok -> coherent (w_ipcache w) -> ip_listed ips r w) /\
  admitted "produce" (URLParam r "channel") r w.
Proof.
  intros Hn Hm. unfold webhook_guards in Hn.
  apply all_of_inv in Hn as (r1 & w1 & (-> & S1 & Hl1 & Hi1 & Hban)%ban_next & Hn).
  apply all_of_inv in Hn as (r2 & w2 & (-> & S2 & Hi2 & Hlim)%limit_next & Hn).
  apply all_of_inv in Hn as (r3 & w3 & Hip & Hn). apply ip_next in Hip as (-> & S3 & Hip); [|exact Hm].
  apply all_of_inv in Hn as (r4 & w4 & (-> & Hctx & Hadm)%access_next & [= <- <-]).
  assert (same_world w w3) as Hsw by (etrans; [exact S1|]; etrans; [exact S2|exact S3]).
  destruct S1 as [E1 N1 _ _ _ _], S2 as [E2 N2 _ _ _ _], S3 as [E3 N3 _ _ _ _].
  split; [exact Hsw|]. split; [exact Hctx|]. split_and!.
  - intros sc ip Hc. split; [by eapply Hban|]. intros Hen. rewrite <- N1, <- Hl1. apply Hlim; [|done].
    unfold client_of in *. by rewrite E1.
  - intros ips Hips Hcl Hsha Hcoh. unfold ip_listed in *. rewrite <- E1, <- E2. apply Hip; try done.
    + by rewrite E2, E1.
    + by rewrite Hi2, Hi1.
  - assert (w_svc w3 = w_svc w) as Es by congruence. assert (w_now w3 = w_now w) as En by congruence.
    assert (forall k, cookie_session k r w3 = cookie_session k r w) as Ec by (intros k; unfold cookie_session; by rewrite En).
    destruct Hadm as [tok user Hc Hu He Hp | ch Hc Hr Hmd | ch Hc Hr Hmd Ht Hv]; rewrite Ec, Es in Hc; rewrite Es in *.
    + by eapply adm_session.
    + by eapply adm_public.
    + by eapply adm_token.
Qed.

(** ** Leader forwarding across nodes *)

Section forwarding.
(** What each host believes of the leadership, and its API behind the guards. *)
Context (belief : string -> bool * string) (api : string -> Handler (World R)).

Definition gateway_timeout : Response := http_Error "timeout" 504.

(** The internal listener of a host: mainRouter strips the marker, apiRouter
    forwards; the proxy reaches the same listener of the target. *)
Fixpoint node (fuel : nat) (host : string) : Handler (World R) := fun r w =>
  match fuel with
  | O => (w, gateway_timeout)
  | S fuel =>
      guarded StripForwardMarker
        (guarded (LeaderForwardMiddleware (belief host).1 (belief host).2 (node fuel)) (api host)) r w
  end.

Lemma stripped_marker r : hdr_Get (hdr_Del leaderForwardedHeader (rq_Header r)) leaderForwardedHeader = "".
Proof. unfold hdr_Get, hdr_Del. by rewrite lookup_delete_eq. Qed.

(** One hop: a follower hands a mutating request to the host it believes leads. *)
Lemma node_forwards fuel host leader port r w :
  isReadOnlyMethod (rq_Method r) = false -> (belief host).1 = false -> (belief host).2 <> "" ->
  SplitHostPort (belief host).2 = Some (leader, port) ->
  exists r', node (S fuel) host r w = node fuel leader r' w /\ rq_Method r' = rq_Method r.
Proof.
  intros Hm Hl Hne Hsp. cbn [node]. unfold guarded at 1, StripForwardMarker. cbn [rq_Header set_fld].
  unfold guarded, LeaderForwardMiddleware. cbn [rq_Header rq_Method set_fld].
  rewrite stripped_marker, Hm, Hl, Hsp, (bool_decide_false _ Hne). cbn [orb negb bool_decide].
  exists (r <| rq_Header := hdr_Set leaderForwardedHeader "1" (hdr_Del leaderForwardedHeader (rq_Header r)) |>).
  split; [|done]. cbn [set_fld]. by destruct (node fuel leader _ w).
Qed.

(** The forwarding marker does not prevent loops: two followers that each
    believe the other leads (as right after a change of leadership) pass a
    mutating request back and forth for as long as the clients wait, and no API
    handler ever sees it. *)
Theorem leader_forward_loops a b pa pb fuel r w :
  belief a = (false, pb) -> belief b = (false, pa) -> pa <> "" -> pb <> "" ->
  (exists port, SplitHostPort pa = Some (a, port)) -> (exists port, SplitHostPort pb = Some (b, port)) ->
  isReadOnlyMethod (rq_Method r) = false ->
  node fuel a r w = (w, gateway_timeout).
Proof.
  intros Ha Hb Hpa Hpb [port1 Hsa] [port2 Hsb].
  assert (forall fuel r, isReadOnlyMethod (rq_Method r) = false ->
    node fuel a r w = (w, gateway_timeout) /\ node fuel b r w = (w, gateway_timeout)) as Hboth.
  { clear fuel r. induction fuel as [|fuel IH]; intros r Hm; [done|]. split.
    - destruct (node_forwards fuel a b port2 r w) as (r' & -> & Hm'); rewrite ?Ha; try done. apply IH. by rewrite Hm'.
    - destruct (node_forwards fuel b a port1 r w) as (r' & -> & Hm'); rewrite ?Hb; try done. apply IH. by rewrite Hm'. }
  intros Hm. by apply Hboth.
Qed.

(** With a settled leadership a mutating request is served by the leader, once,
    after one hop, whatever marker the client sent. *)
Theorem leader_forward_once a leader pl fuel r w :
  belief a = (false, pl) -> pl <> "" -> (exists port, SplitHostPort pl = Some (leader, port)) ->
  (belief leader).1 = true -> isReadOnlyMethod (rq_Method r) = false ->
  exists r', node (S (S fuel)) a r w = api leader r' w /\ rq_Method r' = rq_Method r.
Proof.
  intros Ha Hpl [port Hs] Hl Hm.
  destruct (node_forwards (S fuel) a leader port r w) as (r1 & -> & Hm1); rewrite ?Ha; try done.
  cbn [node]. unfold guarded at 1, StripForwardMarker, guarded, LeaderForwardMiddleware. rewrite Hl, orb_true_r.
  eexists. by split.
Qed.
End forwarding.
End guards.
