(* ===== verification/Webhook.v ===== *)
(** * Webhook: internal/handler/webhook.go

    Ingestion of webhooks, test payloads, replays and key generation, on the
    [World] of Middleware.v.  Bodies are bytes; reading one to its end is
    [rq_Body], reading it under a limit is [read_limited].  Log lines are left
    out. *)

From S2P Require Import Prelude Json Domain Bolt Crypto Store Repo Authorization RateLimit Http Service Buffer Broker Encryption Middleware.

Definition contentType : string := "application/json".
Definition versionHeaderName : string := "X-Gohookbridge-Version".
Definition maxChannelLength : nat := 64.

(** "^[a-zA-Z0-9-]{1,64}$" *)
Definition eventIDPattern (s : string) : bool :=
  (0 <? String.length s)%nat && (String.length s <=? 64)%nat &&
  all_str (fun c => is_alnum c || bool_decide (c = "-"%char)) s.

Definition EffectivePublicURL (publicURL portAddr : string) (sslEnabled : bool) : string :=
  if negb (bool_decide (publicURL = "")) then publicURL
  else (if sslEnabled then "https://" else "http://") +:+ portAddr.

(** errorIt *)
Definition errorIt (status : Z) (e : goerr) : Response := mkResponse status ∅ (TextBody (err_msg e)).

(** io.ReadAll over http.MaxBytesReader; a negative limit counts as zero. *)
Definition too_large : goerr := errorf "http: request body too large".
Definition read_limited (limit : Z) (r : Request) : res string :=
  match rq_Body r with
  | Err e => Err e
  | Ok body => if (Z.max 0 limit <? Z.of_nat (String.length body))%Z then Err too_large else Ok body
  end.

Definition read_error (e : goerr) : Response :=
  if Contains (err_msg e) "http: request body too large" then http_Error "request body too large" 413
  else http_Error (err_msg e) 500.

Definition config_error (e : goerr) : Response :=
  if errors_Is e KNotFound then http_Error "channel not found" 404
  else http_Error "channel configuration unavailable" 503.

(** ** Headers *)

Definition forwardedHeaderAllowlist : list string := [
  "content-type"; "user-agent"; "x-event-type"; "x-github-event"; "x-github-delivery"; "x-github-hook-id";
  "x-gitlab-event"; "x-gitlab-event-uuid"; "x-gitea-event"; "x-gitea-delivery"; "x-gitea-signature"; "x-event-key";
  "x-bitbucket-event"; "x-bitbucket-delivery"; "x-hub-signature"; "x-hub-signature-256" ].
Definition forwardedHeader (name : string) : bool := contains_str forwardedHeaderAllowlist (ToLower name).

Definition sensitiveHeaderForLogs (header : string) : bool :=
  contains_str [ "authorization"; "proxy-authorization"; "cookie"; "x-api-key"; "x-auth-token"; "password"; "secret";
                 "x-gitlab-token"; "x-hub-signature"; "x-hub-signature-256"; "x-gitea-signature"; "x-amz-signature" ]
    (ToLower header).

(** [for k, v := range r.Header { if forwardedHeader(k) { payload[ToLower(k)] = v[0] } }] *)
Definition forwarded_headers (h : Header) : gmap string json :=
  fold_right (fun '(k, v) payload => if forwardedHeader k then <[ToLower k := JStr (hd "" v)]> payload else payload)
    ∅ (map_to_list h).

(** The event document, keys in map order. *)
Definition event_doc (payload : gmap string json) : json := JObj (map_to_list payload).

Record keyRequest := mkKeyRequest { kr_Mode : string }.
#[export] Instance eta_key_request : Eta keyRequest := fun x => mkKeyRequest (kr_Mode x).
#[export] Instance codec_key_request : JsonCodec keyRequest :=
  struct_codec (mkKeyRequest "") [fld "mode" kr_Mode (set_fld kr_Mode)].

Section webhook.
Context `{!Crypto}.

(** ** Signatures *)

Definition validateGitHubWebhookSignature (secret payload signatureHeader : string) : bool :=
  if negb (HasPrefix signatureHeader "sha256=") then false
  else String.eqb (TrimPrefix signatureHeader "sha256=") (hex_encode (hmac_sha256 secret payload)).

Definition validateBitbucketHMAC (secret payload signatureHeader : string) : bool :=
  String.eqb signatureHeader (hex_encode (hmac_sha256 secret payload)).

Definition validateGiteaSignature (secret payload signatureHeader : string) : bool :=
  if negb (HasPrefix signatureHeader "sha256=") then false
  else String.eqb (TrimPrefix signatureHeader "sha256=") (hex_encode (hmac_sha256 secret payload)).

Definition validateWebhookSignature (secret payload : string) (r : Request) : bool :=
  let get k := hdr_Get (rq_Header r) k in
  if bool_decide (secret = "") then true
  else if negb (bool_decide (get "X-Gitlab-Token" = "")) then String.eqb (get "X-Gitlab-Token") secret
  else if negb (bool_decide (get "X-Hub-Signature-256" = "")) then
    validateGitHubWebhookSignature secret payload (get "X-Hub-Signature-256")
  else if negb (bool_decide (get "X-Hub-Signature" = "")) then validateBitbucketHMAC secret payload (get "X-Hub-Signature")
  else if negb (bool_decide (get "X-Gitea-Signature" = "")) then
    validateGiteaSignature secret payload (get "X-Gitea-Signature")
  else false.

Context {R : Type} `{!Repository R} `{!Net} `{!Url} `{!JsonText} `{!Box} (version : string).
Abbreviation W := (World R).
Abbreviation HD := (Handler W).

(** publishEvent: what NATS is given; nothing when the connection is gone. *)
Definition publishEvent (channel : string) (data : string) (w : W) : W * option goerr :=
  if negb (w_connected w) then (w, Some (errorf "nats not connected"))
  else (w <| w_wire := w_wire w ++ [(subject_prefix +:+ channel, data)] |>, None).

Definition set_ttl (channel : string) (ttl : Z) (w : W) : W :=
  if (0 <? ttl)%Z then w <| w_broker := br_SetChannelTTL channel (seconds ttl) (w_broker w) |> else w.

Definition encrypt (channel body : string) (w : W) : W * res string :=
  let (rnd, x) := EncryptForChannel (w_svc w) channel body (w_rand w) in (w <| w_rand := rnd |>, x).

(** The payload of an accepted body: ciphertext of an e2e channel as it is, any
    other JSON document through the policy. *)
Definition ingest_payload (channel body : string) (w : W) : W * (string + Response) :=
  let mode := match ResolveChannelEncryption (w_svc w) channel with Ok (mode, _, _) => mode | Err _ => "" end in
  if bool_decide (mode = "e2e") && IsEncrypted body then (w, inl body)
  else match js_parse body with
       | None => (w, inr (http_Error "invalid character" 400))
       | Some _ =>
           let (w, x) := encrypt channel body w in
           (w, match x with Err _ => inr (http_Error "encryption unavailable" 503) | Ok p => inl p end)
       end.

(** The checks before the body is read: channel, limit, secret, strict mode. *)
Definition webhook_config (channel : string) (w : W) : (Channel * Z * string) + Response :=
  match svc_ResolveChannelConfig (w_svc w) channel with
  | Err e => inr (config_error e)
  | Ok chConfig =>
      match (if bool_decide (ch_MaxBodySize chConfig = 0%Z) then ResolveChannelMaxBodySize (w_svc w) channel
             else Ok (ch_MaxBodySize chConfig)) with
      | Err _ => inr (http_Error "channel configuration unavailable" 503)
      | Ok maxBodySize =>
          match ResolveChannelWebhookSecret (w_svc w) channel with
          | Err _ => inr (http_Error "channel configuration unavailable" 503)
          | Ok webhookSecret =>
              match repo_GetGlobalConfig (svc_repo (w_svc w)) with
              | Err _ => inr (http_Error "channel configuration unavailable" 503)
              | Ok globalCfg =>
                  if sc_RequireKnownChannels (gc_Server globalCfg) && bool_decide (webhookSecret = "")
                  then inr (http_Error "channel signature validation unavailable" 503)
                  else inl (chConfig, maxBodySize, webhookSecret)
              end
          end
      end
  end.

Definition HandleWebhookPost : HD := fun r w =>
  if negb (Contains (hdr_Get (rq_Header r) "Content-Type") contentType)
  then (w, http_Error "content-type must be application/json" 400)
  else
    let channel := URLParam r "channel" in
    match webhook_config channel w with
    | inr resp => (w, resp)
    | inl (chConfig, maxBodySize, webhookSecret) =>
        match read_limited maxBodySize r with
        | Err e => (w, read_error e)
        | Ok body =>
            if negb (bool_decide (webhookSecret = "")) && negb (validateWebhookSignature webhookSecret body r)
            then (record_failure r (FingerprintSignature channel (ExtractSignatureValue r)) w, http_Error "invalid signature" 401)
            else
              match ingest_payload channel body w with
              | (w, inr resp) => (w, resp)
              | (w, inl payloadBytes) =>
                  let payload := <["timestamp" := JStr (Itoa (time_UnixMilli (w_now w)))]> (forwarded_headers (rq_Header r)) in
                  let payload := <["bodyB" := JStr (EncodeToString false payloadBytes)]> payload in
                  let (rnd, id) := GenerateUUID (w_rand w) in
                  let w := w <| w_rand := rnd |> in
                  match id with
                  | Err _ => (w, http_Error "Failed to generate event id" 500)
                  | Ok eventID =>
                      let payload := <["event_id" := JStr eventID]> payload in
                      let w := set_ttl channel (ch_MessageTTLSeconds chConfig) w in
                      match publishEvent channel (js_text (event_doc payload)) w with
                      | (w, Some _) => (w, http_Error "event broker unavailable" 502)
                      | (w, None) =>
                          (w, mkResponse 202 {[ versionHeaderName := [TrimSpace version] ]}
                                (JsonBody (JObj [("status", JNum 202); ("channel", JStr channel); ("message", JStr "ok");
                                                 ("version", JStr (TrimSpace version)); ("event_id", JStr eventID)])))
                      end
                  end
              end
        end
    end.

(** Behind its guards, as the webhook router mounts it. *)
Definition webhook_route : HD := guarded (all_of webhook_guards) HandleWebhookPost.

Definition HandleTestPayloadSend : HD := fun r w =>
  let channel := URLParam r "channel" in
  if bool_decide (channel = "") then (w, http_Error "Channel name missing in URL" 400)
  else if (maxChannelLength <? String.length channel)%nat then (w, http_Error "Channel name exceeds maximum length" 400)
  else
    match ResolveChannelMaxBodySize (w_svc w) channel with
    | Err _ => (w, http_Error "channel configuration unavailable" 503)
    | Ok maxBodySize =>
        match read_limited maxBodySize r with
        | Err e => (w, read_error e)
        | Ok body =>
            match js_parse body with
            | None => (w, http_Error "invalid JSON" 400)
            | Some _ =>
                let (w, x) := encrypt channel body w in
                match x with
                | Err _ => (w, http_Error "encryption unavailable" 503)
                | Ok encryptedBody =>
                    let payload : gmap string json :=
                      list_to_map [("timestamp", JStr (Itoa (time_UnixMilli (w_now w))));
                                   ("bodyB", JStr (EncodeToString false encryptedBody));
                                   ("content-type", JStr contentType); ("x-test-payload", JStr "true")] in
                    match publishEvent channel (js_text (event_doc payload)) w with
                    | (w, Some _) => (w, http_Error "event broker unavailable" 502)
                    | (w, None) =>
                        (w, mkResponse 202 ∅ (JsonBody (JObj [("status", JNum 202); ("channel", JStr channel);
                                                             ("message", JStr "test payload sent")])))
                    end
                end
            end
        end
    end.

Definition HandleEventReplay : HD := fun r w =>
  let channel := URLParam r "channel" in
  let eventID := URLParam r "eventId" in
  if bool_decide (channel = "") || bool_decide (eventID = "") then (w, http_Error "channel and eventId required" 400)
  else if negb (eventIDPattern eventID) then (w, http_Error "invalid eventId" 400)
  else
    match svc_ResolveChannelConfig (w_svc w) channel with
    | Err e => (w, config_error e)
    | Ok ch =>
        if bool_decide (ch_EncryptionMode ch = "server_side") && negb (bool_decide (ch_EncryptionKey ch = ""))
        then (w, http_Error "cannot replay events for server-side encrypted channels via API" 400)
        else
          let replayBody := js_text (JObj [("original_event_id", JStr eventID); ("replayed", JBool true)]) in
          let (w, x) := encrypt channel replayBody w in
          match x with
          | Err _ => (w, http_Error "encryption unavailable" 503)
          | Ok encryptedBody =>
              let payload : gmap string json :=
                list_to_map [("timestamp", JStr (Itoa (time_UnixMilli (w_now w)))); ("event_id", JStr eventID);
                             ("bodyB", JStr (EncodeToString false encryptedBody)); ("x-replay", JStr "true")] in
              match publishEvent channel (js_text (event_doc payload)) w with
              | (w, Some _) => (w, http_Error "publish failed" 502)
              | (w, None) =>
                  (w, mkResponse 202 ∅ (JsonBody (JObj [("event_id", JStr eventID); ("status", JStr "replayed")])))
              end
          end
    end.

(** The anonymous request struct; a document that does not decode keeps the
    default mode. *)
Definition key_mode `{!JsonDecoder} (r : Request) : string :=
  let mode := match decodeJSON (A := keyRequest) r with inl q => kr_Mode q | inr _ => "" end in
  if bool_decide (mode = "") then "server_side" else mode.

Definition internal_error (e : goerr) : Response := http_Error (err_msg e) 500.

Definition HandleGenerateEncryptionKey `{!JsonDecoder} : HD := fun r w =>
  let channel := URLParam r "channel" in
  match repo_GetChannel channel (svc_repo (w_svc w)) with
  | Err e => (w, if errors_Is e KNotFound then http_Error "channel not found" 404 else internal_error e)
  | Ok ch =>
      if negb (bool_decide (key_mode r = "server_side"))
      then (w, http_Error ("unsupported encryption mode: " +:+ key_mode r) 400)
      else
        let (rnd, key) := GenerateAESKey (w_rand w) in
        let w := w <| w_rand := rnd |> in
        match key with
        | Err e => (w, internal_error e)
        | Ok key =>
            let ch := ch <| ch_EncryptionMode := "server_side" |> <| ch_EncryptionKey := key |> in
            let '(s, _, x) := svc_UpdateChannel ch (w_svc w) in
            let w := w <| w_svc := s |> in
            match x with
            | Err e => (w, internal_error e)
            | Ok _ => (w, json_ok 200 (JObj [("encryption_key", JStr key); ("encryption_mode", JStr "server_side")]))
            end
        end
  end.
End webhook.
