(* ===== verification/WebhookTheory.v ===== *)
(** * WebhookTheory: from the socket to the wire

    The whole ingestion path: what must hold of a request for something to be
    published, and what is then on the wire. *)

From S2P Require Import Prelude Json Domain Bolt Crypto Store Repo Authorization StoreTheory RateLimit Http Service ServiceTheory Buffer Broker Encryption Middleware MiddlewareTheory Webhook.

Section theory.
Context {R : Type} `{!Repository R} `{!Net} `{!Url} `{!Crypto} `{!JsonText} `{!Box} (version : string).
Implicit Types (r : Request) (w : World R).

(** Refusals: nothing is published and the answer is no 202. *)
Definition refused w w' (resp : Response) : Prop := w_wire w' = w_wire w /\ rp_Status resp <> 202%Z.

Lemma guard_refuses g r w w' resp :
  g ∈ webhook_guards (R := R) -> g r w = Answer w' resp -> refused w w' resp.
Proof.
  unfold webhook_guards, refused. intros Hg. set_unfold in Hg. destruct Hg as [->|[->|[->|[->|[]]]]].
  - unfold BanMiddleware. go_cases; intros [= <- <-]; done.
  - unfold RateLimitMiddleware. go_cases; intros [= <- <-]; done.
  - unfold IPRestrictMiddleware. go_cases; intros [= <- <-]; done.
  - unfold ChannelAccessMiddleware. go_cases; intros [= <- <-]; done.
Qed.

Lemma guards_refuse gs r w w' resp :
  (forall g, g ∈ gs -> forall r w w' resp, g r w = Answer w' resp -> refused w w' resp) ->
  (forall g, g ∈ gs -> forall r w r' w', g r w = Next r' w' -> w_wire w' = w_wire w) ->
  all_of gs r w = Answer w' resp -> refused w w' resp.
Proof.
  revert r w. induction gs as [|g gs IH]; intros r w Ha Hn; [done|]. simpl.
  destruct (g r w) as [r1 w1|w1 resp1] eqn:Eg.
  - intros [Hw Hs]%IH; [|intros; eapply Ha; [by right|done] | intros; eapply Hn; [by right|done]].
    split; [|done]. rewrite Hw. by apply (Hn g ltac:(left) r w r1 w1).
  - intros [= <- <-]. by apply (Ha g ltac:(left) r w).
Qed.

(** ** Headers of the event *)

Lemma forwarded_keys h k v : forwarded_headers h !! k = Some v -> k ∈ forwardedHeaderAllowlist.
Proof.
  unfold forwarded_headers. induction (map_to_list h) as [|[k' v'] l IH]; [cbn; by rewrite lookup_empty|]. cbn [fold_right].
  destruct (forwardedHeader k') eqn:Ef; [|exact IH]. rewrite lookup_insert. case_decide as Ek; [|exact IH].
  intros _. subst k. by apply contains_str_true.
Qed.

(** ** The handler *)

(** What an accepted webhook puts on the wire. *)
Record published r w (channel : string) (c : Channel) (body payload : string) (event : gmap string json) w' : Prop := {
  pub_config : svc_ResolveChannelConfig (w_svc w) channel = Ok c;
  pub_body : rq_Body r = Ok body;
  pub_signed : ch_WebhookSecret c <> "" -> validateWebhookSignature (ch_WebhookSecret c) body r = true;
  pub_strict : forall g, repo_GetGlobalConfig (svc_repo (w_svc w)) = Ok g -> sc_RequireKnownChannels (gc_Server g) = true ->
    ch_WebhookSecret c <> "";
  pub_payload : (exists rnd', EncryptForChannel (w_svc w) channel body (w_rand w) = (rnd', Ok payload)) \/
    (payload = body /\ IsEncrypted body = true);
  pub_event : event !! "bodyB" = Some (JStr (EncodeToString false payload));
  pub_exact : exists ts id, event = <["event_id" := JStr id]> (<["bodyB" := JStr (EncodeToString false payload)]>
    (<["timestamp" := JStr ts]> (forwarded_headers (rq_Header r))));
  pub_headers : forall k v, event !! k = Some v -> k ∈ forwardedHeaderAllowlist \/ k ∈ ["timestamp"; "bodyB"; "event_id"];
  pub_wire : w_wire w' = w_wire w ++ [(subject_prefix +:+ channel, js_text (event_doc event))] }.

Lemma config_ok channel w c n secret :
  webhook_config channel w = inl (c, n, secret) ->
  svc_ResolveChannelConfig (w_svc w) channel = Ok c /\ secret = ch_WebhookSecret c /\
  forall g, repo_GetGlobalConfig (svc_repo (w_svc w)) = Ok g -> sc_RequireKnownChannels (gc_Server g) = true -> secret <> "".
Proof.
  unfold webhook_config. destruct (svc_ResolveChannelConfig _ _) as [c'|] eqn:Er; [|done].
  destruct (resolvers_agree _ _ _ Er) as (Hs & _ & _). rewrite Hs.
  destruct (if bool_decide _ then _ else _) as [n'|]; [|done].
  destruct (repo_GetGlobalConfig _) as [g|]; [|done]. destruct (_ && _) eqn:Ek; [done|]. intros [= -> -> <-].
  split_and!; try done. intros g' [= <-] Hk E. rewrite Hk, E in Ek. done.
Qed.

Lemma config_refuses channel w resp : webhook_config channel w = inr resp -> rp_Status resp <> 202%Z.
Proof.
  unfold webhook_config, config_error. go_cases; by intros [= <-].
Qed.

Lemma ingest_spec channel body w w' x :
  ingest_payload channel body w = (w', x) ->
  w_svc w' = w_svc w /\ w_wire w' = w_wire w /\ w_now w' = w_now w /\
  match x with
  | inl payload => (exists rnd', EncryptForChannel (w_svc w) channel body (w_rand w) = (rnd', Ok payload)) \/
      (payload = body /\ IsEncrypted body = true)
  | inr resp => rp_Status resp <> 202%Z
  end.
Proof.
  unfold ingest_payload, encrypt. destruct (bool_decide _ && IsEncrypted body) eqn:Ee.
  - intros [= <- <-]. apply andb_true_iff in Ee as [_ Ee]. split_and!; try done. by right.
  - destruct (js_parse body); [|by intros [= <- <-]].
    destruct (EncryptForChannel _ _ _ _) as [rnd [p|]] eqn:En; intros [= <- <-]; split_and!; try done.
    left. by eexists.
Qed.

Lemma HandleWebhookPost_spec r w w' resp :
  HandleWebhookPost version r w = (w', resp) ->
  refused w w' resp \/
  rp_Status resp = 202%Z /\ exists c body payload event, published r w (URLParam r "channel") c body payload event w'.
Proof.
  unfold HandleWebhookPost. destruct (negb (Contains _ _)); [intros [= <- <-]; by left|]. cbv zeta.
  set (channel := URLParam r "channel").
  destruct (webhook_config channel w) as [[[c n] secret]|e] eqn:Ec.
  2:{ intros [= <- <-]. left. split; [done|]. by eapply config_refuses. }
  destruct (config_ok _ _ _ _ _ Ec) as (Hr & -> & Hstrict).
  destruct (read_limited n r) as [body|e] eqn:Eb.
  2:{ intros [= <- <-]. left. split; [done|]. unfold read_error. by destruct (Contains _ _). }
  assert (rq_Body r = Ok body) as Hbody.
  { unfold read_limited in Eb. destruct (rq_Body r) as [b|]; [|done]. destruct (_ <? _)%Z; [done|]. by injection Eb as ->. }
  destruct (negb _ && negb _) eqn:Esig; [intros [= <- <-]; by left|].
  destruct (ingest_payload channel body w) as [w1 x] eqn:Ei.
  destruct (ingest_spec _ _ _ _ _ Ei) as (Hs1 & Hw1 & Hn1 & Hx). destruct x as [payload|resp1].
  2:{ intros [= <- <-]. left. by split. }
  destruct (GenerateUUID (w_rand w1)) as [rnd [id|]]; [|intros [= <- <-]; left; by split].
  set (w2 := set_ttl _ _ _). assert (w_wire w2 = w_wire w1 /\ w_connected w2 = w_connected w1) as [Hw2 Hc2].
  { unfold w2, set_ttl. by destruct (0 <? _)%Z. }
  unfold publishEvent. destruct (w_connected w2); cbn [negb]; [|intros [= <- <-]; left; split; [by rewrite Hw2|done]].
  intros [= <- <-]. right. split; [done|]. exists c, body, payload,
    (<["event_id" := JStr id]> (<["bodyB" := JStr (EncodeToString false payload)]>
       (<["timestamp" := JStr (Itoa (time_UnixMilli (w_now w1)))]> (forwarded_headers (rq_Header r))))).
  split; try done.
  - intros Hne. apply andb_false_iff in Esig as [E|E]; apply negb_false_iff in E; [|done].
    by apply bool_decide_eq_true in E.
  - rewrite lookup_insert_ne by discriminate. by rewrite lookup_insert_eq.
  - by eexists _, _.
  - intros k v. rewrite !lookup_insert.
    destruct (decide ("event_id" = k)) as [<-|_]; [intros _; right; by apply (bool_decide_unpack _)|].
    destruct (decide ("bodyB" = k)) as [<-|_]; [intros _; right; by apply (bool_decide_unpack _)|].
    destruct (decide ("timestamp" = k)) as [<-|_]; [intros _; right; by apply (bool_decide_unpack _)|].
    intros Hk. left. by eapply forwarded_keys.
  - cbn [w_wire set_fld]. by rewrite Hw2, Hw1.
Qed.

(** Same service, same resolution: what the guards leave alone. *)
Lemma published_same r ctx w w1 channel c body payload event w' :
  same_world w w1 -> published (r <| rq_Ctx := ctx |>) w1 channel c body payload event w' ->
  published r w channel c body payload event w'.
Proof. intros [Es _ Ew _ _ Er] []. rewrite Es, Ew, Er in *. by split. Qed.

(** C1. Ingestion, end to end: a POST through the webhook route either publishes
    nothing and does not answer 202, or it answers 202 and puts exactly one event
    on its channel's subject, in which case the channel's configuration resolved,
    its client was admitted to produce on the channel, was not banned and was
    within its rate, came from the channel's allowlist when there is one, signed
    the body with the channel's secret when there is one (strict mode requires
    one); the event carries the body as the channel's encryption policy wants it
    and no header outside the fixed allowlist. *)
Theorem webhook_end_to_end r w w' resp :
  rq_Method r = "POST" -> webhook_route version r w = (w', resp) ->
  refused w w' resp \/
  rp_Status resp = 202%Z /\ exists c body payload event,
    published r w (URLParam r "channel") c body payload event w' /\
    admitted "produce" (URLParam r "channel") r w /\
    (clean (ch_AllowedIPs c) -> sha_ok -> coherent (w_ipcache w) -> ip_listed (ch_AllowedIPs c) r w) /\
    (forall sc ip, client_of r w = Some (sc, ip) ->
      (sc_BanEnabled sc = true -> ~ banned_now (w_now w) ip (w_bans w)) /\
      (sc_RateLimitEnabled sc = true ->
        (rl_Allow (w_now w) ip (sc_RateLimitRequests sc) (sc_RateLimitWindowSeconds sc) (w_limiter w)).2 = true)).
Proof.
  intros Hm. unfold webhook_route, guarded. destruct (all_of webhook_guards r w) as [r1 w1|w1 resp1] eqn:Eg.
  - destruct (webhook_next _ _ _ _ Eg Hm) as (Hsw & [ctx ->] & Hclient & Hip & Hadm).
    intros [[Hw Hst]|[Hst (c & body & payload & event & Hpub)]]%HandleWebhookPost_spec.
    + left. split; [|done]. by rewrite Hw, (sw_wire _ _ Hsw).
    + right. split; [done|]. change (URLParam (r <| rq_Ctx := ctx |>) "channel") with (URLParam r "channel") in Hpub.
      apply (published_same r ctx w w1) in Hpub; [|done]. exists c, body, payload, event.
      split_and!; try done. apply Hip. by destruct (resolvers_agree _ _ _ (pub_config _ _ _ _ _ _ _ _ Hpub)) as (_ & ? & _).
  - intros [= <- <-]. left. eapply guards_refuse; [| |exact Eg].
    + intros g Hg r0 w0 w2 resp2. by apply guard_refuses.
    + intros g Hg r0 w0 r2 w2 Hn. unfold webhook_guards in Hg. set_unfold in Hg. destruct Hg as [->|[->|[->|[->|[]]]]].
      * apply ban_next in Hn as (_ & S & _). apply S.
      * apply limit_next in Hn as (_ & S & _). apply S.
      * revert Hn. unfold IPRestrictMiddleware. go_cases; intros [= <- <-]; done.
      * apply access_next in Hn as (-> & _). done.
Qed.
End theory.

(** ** Witnesses *)

Definition demo_body : string := js_text (JObj []).
Definition signed_post : Request :=
  demo_request <| rq_Method := "POST" |> <| rq_Params := {[ "channel" := "build" ]} |> <| rq_Body := Ok demo_body |>
    <| rq_Header := {[ "Content-Type" := ["application/json"]; "X-Gitlab-Token" := ["s3cret"]; "Cookie" := ["k=v"] ]} |>.
Definition build_world : World (RaftStore mapdb) := demo_world {[ channel_key "build" := jenc demo_channel ]}.

(** The secret authenticates the request and never reaches the wire. *)
Lemma webhook_end_to_end_witness :
  let x := webhook_route "1.0" signed_post build_world in
  rp_Status x.2 = 202%Z /\ length (w_wire x.1) = 1 /\ admitted "produce" "build" signed_post build_world.
Proof.
  intros x. assert (rp_Status x.2 = 202%Z) as Hst by (vm_compute; reflexivity).
  destruct (webhook_end_to_end "1.0" signed_post build_world x.1 x.2 eq_refl (surjective_pairing x))
    as [[_ Hno]|[_ (c & body & payload & event & Hpub & Hadm & _)]]; [destruct (Hno Hst)|].
  split; [exact Hst|]. split; [|exact Hadm]. by rewrite (pub_wire _ _ _ _ _ _ _ _ Hpub).
Defined.

(** Two followers, each believing in the other. *)
Definition split_belief (host : string) : bool * string :=
  if bool_decide (host = "a") then (false, "b:1") else (false, "a:1").
Definition demo_api (host : string) : Handler (World (RaftStore mapdb)) := fun r w => (w, json_ok 200 JNull).

Lemma leader_forward_loops_witness :
  node split_belief demo_api 50 "a" (demo_request <| rq_Method := "PUT" |>) build_world = (build_world, gateway_timeout).
Proof.
  apply (leader_forward_loops split_belief demo_api "a" "b" "a:1" "b:1" 50);
    [reflexivity | reflexivity | discriminate | discriminate | by exists "1" | by exists "1" | reflexivity].
Defined.

Definition settled_belief (host : string) : bool * string := (bool_decide (host = "b"), "b:1").

Lemma leader_forward_once_witness :
  node settled_belief demo_api 3 "a" (demo_request <| rq_Method := "PUT" |>) build_world = (build_world, json_ok 200 JNull).
Proof.
  destruct (leader_forward_once settled_belief demo_api "a" "b" "b:1" 1 (demo_request <| rq_Method := "PUT" |>) build_world)
    as (r' & Hn & _); [reflexivity | discriminate | by exists "1" | reflexivity | reflexivity |].
  rewrite Hn. reflexivity.
Defined.
