(* ===== verification/Events.v ===== *)
(** * Events: internal/handler/events.go, the SSE streams

    A stream is a long-running handler, so it is a small program of its own: each
    open connection has a phase, and every phase's next action is one step on the
    state it shares with the other connections and with the NATS callback.  The
    write of a frame is given its outcome, since the client decides it. *)

From stdpp Require Import relations.
From S2P Require Import Prelude Json Domain Bolt Crypto Store Repo Authorization RateLimit Http Service Buffer Broker Middleware Webhook.

(** ** The connection limiter *)

Record sseConnLimiter := mkSem { sem_cap : nat; sem_used : nat }.
Definition newSSEConnLimiter (limit : Z) : sseConnLimiter :=
  mkSem (if bool_decide (limit <= 0)%Z then 1000 else Z.to_nat limit) 0.
Definition acquire (l : sseConnLimiter) : sseConnLimiter * bool :=
  if (sem_used l <? sem_cap l)%nat then (mkSem (sem_cap l) (S (sem_used l)), true) else (l, false).
(** [None]: the receive blocks for ever. *)
Definition release (l : sseConnLimiter) : option sseConnLimiter :=
  match sem_used l with O => None | S n => Some (mkSem (sem_cap l) n) end.

(** ** Connections *)

(** Where the handler is: before the greeting; before Subscribe, with its [since];
    registered but before the replay is read; writing the replay; in sseLoop; on
    its way out, through the code that saves the cursor or not. *)
Inductive Phase :=
  | Greeting | Joining (since : Z) | Joined (since : Z) | Replaying (pending : list Slice) | Live
  | Leaving (save : bool).
Record Conn := mkConn { cn_channel : string; cn_client : string; cn_phase : Phase; cn_out : list string; cn_lastMsgTs : Z }.
#[export] Instance eta_conn : Eta Conn := fun x =>
  mkConn (cn_channel x) (cn_client x) (cn_phase x) (cn_out x) (cn_lastMsgTs x).

Definition blank_line : string := String (Ascii.ascii_of_nat 10) (String (Ascii.ascii_of_nat 10) EmptyString).
Definition data_frame (text : string) : string := "data: " +:+ text +:+ blank_line.
Definition message_doc (msg : string) : string := "{" +:+ dquote +:+ "message" +:+ dquote +:+ ":" +:+ dquote +:+ msg +:+ dquote +:+ "}".
Definition greeting : list string := [data_frame (message_doc "connected"); data_frame (message_doc "ready")].
Definition keepalive : string := ": keepalive" +:+ blank_line.

(** writeSSE: the frame reaches the client, or the stream ends. *)
Definition writeSSE (frame : string) (ok : bool) (c : Conn) : Conn := if ok then c <| cn_out := cn_out c ++ [frame] |> else c.

Definition replay_limit : Z := 100.
(** time.UnixMilli *)
Definition UnixMilli (ms : Z) : Z := ((ms + unix_epoch * 1000) * 1000000)%Z.

Section events.
Context {R : Type} `{!Repository R}.

(** What the streams share: the service, the broker, the limiter, and the open
    connections by the address of their subscriber. *)
Record Events := mkEvents {
  ev_svc : Service R; ev_broker : Broker; ev_sem : sseConnLimiter; ev_conns : gmap nat Conn; ev_now : Z }.
#[export] Instance eta_events : Eta Events := fun x =>
  mkEvents (ev_svc x) (ev_broker x) (ev_sem x) (ev_conns x) (ev_now x).
Implicit Types (ev : Events) (c : Conn) (p : nat).

Definition set_conn p c ev : Events := ev <| ev_conns := <[p := c]> (ev_conns ev) |>.

(** The header of an event stream. *)
Definition sse_header ev : Header :=
  let h := {[ "Content-Type" := ["text/event-stream"]; "Cache-Control" := ["no-cache"];
              "Connection" := ["keep-alive"]; "X-Accel-Buffering" := ["no"] ]} in
  let cors := ResolveCORSOrigin (ev_svc ev) in
  if bool_decide (cors = "") then h else hdr_Set "Access-Control-Allow-Origin" cors h.

(** The beginning of HandleEventsGet: an answer, or a new connection. *)
Definition enter_stream p (r : Request) ev : Events * option Response :=
  let channel := URLParam r "channel" in
  if bool_decide (channel = "") then (ev, Some (http_Error "Channel name missing in URL" 400))
  else if (maxChannelLength <? String.length channel)%nat
  then (ev, Some (http_Error "Channel name exceeds maximum length" 400))
  else
    match acquire (ev_sem ev) with
    | (_, false) => (ev, Some (http_Error "too many event stream connections" 503))
    | (sem, true) => (set_conn p (mkConn channel (hdr_Get (rq_Query r) "client_id") Greeting [] 0) ev <| ev_sem := sem |>, None)
    end.

(** The cursor of a client that names itself. *)
Definition cursor_since ev c : Z :=
  if bool_decide (cn_client c = "") then 0%Z
  else match repo_GetClientCursor (cn_channel c) (cn_client c) (svc_repo (ev_svc ev)) with
       | Ok cur => if (0 <? cur_LastTimestampMs cur)%Z then UnixMilli (cur_LastTimestampMs cur) else 0%Z
       | Err _ => 0%Z
       end.

(** The deferred release, once the connection has no subscriber. *)
Definition hang_up p ev : option (res Events) :=
  match release (ev_sem ev) with
  | None => Some (Err (errorf "release of an empty semaphore blocks"))
  | Some sem => Some (Ok (ev <| ev_sem := sem |> <| ev_conns := delete p (ev_conns ev) |>))
  end.

(** SetClientCursor at the end of the handler; a failure is only logged. *)
Definition save_cursor c ev : Events :=
  if bool_decide (cn_client c = "") then ev
  else
    let lastTs := if (cn_lastMsgTs c =? 0)%Z then time_UnixMilli (ev_now ev) else cn_lastMsgTs c in
    ev <| ev_svc := (on_repo (repo_SetClientCursor (mkCursor (cn_channel c) (cn_client c) lastTs)) (ev_svc ev)).1 |>.

(** The actions of a connection, with the outcome of their writes. *)
Inductive Action :=
  | Greet (ok1 ok2 : bool) | Join | ReadHistory | WriteHistory (ok : bool)
  | ClientGone | Deliver (ok : bool) | Keepalive (ok : bool) | Finish.

Definition leave p (save : bool) c ev : option (res Events) := Some (Ok (set_conn p (c <| cn_phase := Leaving save |>) ev)).

(** One action of the connection [p]; [None] when it is not the next one. *)
Definition conn_step p (a : Action) ev : option (res Events) :=
  c ← ev_conns ev !! p;
  match cn_phase c, a with
  | Greeting, Greet ok1 ok2 =>
      if negb (ok1 && ok2) then hang_up p ev
      else
        let c := writeSSE (data_frame (message_doc "ready")) ok2 (writeSSE (data_frame (message_doc "connected")) ok1 c) in
        Some (Ok (set_conn p (c <| cn_phase := Joining (cursor_since ev c) |>) ev))
  | Joining since, Join =>
      Some (Ok (set_conn p (c <| cn_phase := Joined since |>) ev <| ev_broker := register (cn_channel c) p (ev_broker ev) |>))
  | Joined since, ReadHistory =>
      let hist := history (ev_now ev) (cn_channel c) since replay_limit (ev_broker ev) in
      Some (Ok (set_conn p (c <| cn_phase := Replaying hist |>) ev))
  | Replaying [], WriteHistory _ => Some (Ok (set_conn p (c <| cn_phase := Live |>) ev))
  | Replaying (d :: hist), WriteHistory ok =>
      if negb ok then leave p false c ev
      else Some (Ok (set_conn p (writeSSE (data_frame (slice_text (br_heap (ev_broker ev)) d)) ok c <| cn_phase := Replaying hist |>) ev))
  | Live, ClientGone => leave p true c ev
  | Live, Deliver ok =>
      s ← br_objs (ev_broker ev) !! p;
      match recv s with
      | None => if sub_closed s then leave p true c ev else None
      | Some (d, s) =>
          let ev := ev <| ev_broker := (ev_broker ev) <| br_objs := <[p := Ack (slice_len d) s]> (br_objs (ev_broker ev)) |> |> in
          if negb ok then leave p true c ev
          else Some (Ok (set_conn p (writeSSE (data_frame (slice_text (br_heap (ev_broker ev)) d)) ok c
                                     <| cn_lastMsgTs := time_UnixMilli (ev_now ev) |>) ev))
      end
  | Live, Keepalive ok => if negb ok then leave p true c ev else Some (Ok (set_conn p (writeSSE keepalive ok c) ev))
  | Leaving save, Finish =>
      let ev := if save then save_cursor c ev else ev in
      let (b, x) := Unsubscribe (cn_channel c) p (ev_broker ev) in
      match x with
      | Err e => Some (Err e)
      | Ok _ => hang_up p (ev <| ev_broker := b |>)
      end
  | _, _ => None
  end.

(** ** The system *)

(** The connections, the NATS callback in its two halves, TTL changes, the other
    users of the service, and time. *)
Inductive ev_step : Events -> Events -> Prop :=
  | step_admit p r ev ev' resp :
      ev_conns ev !! p = None -> br_objs (ev_broker ev) !! p = None -> enter_stream p r ev = (ev', resp) -> ev_step ev ev'
  | step_conn p a ev ev' : conn_step p a ev = Some (Ok ev') -> ev_step ev ev'
  | step_append now channel data ev :
      ev_step ev (ev <| ev_broker := append_step now channel data (ev_broker ev) |>)
  | step_fanout now channel data ev b :
      fanout now channel data (ev_broker ev) = Ok b -> ev_step ev (ev <| ev_broker := b |>)
  | step_ttl channel ttl ev : ev_step ev (ev <| ev_broker := br_SetChannelTTL channel ttl (ev_broker ev) |>)
  | step_service s ev : ev_step ev (ev <| ev_svc := s |>)
  | step_time now ev : ev_step ev (ev <| ev_now := now |>).
End events.
Arguments Events : clear implicits.

(** ** Health endpoints *)

Definition RetVersion (version : string) : Response :=
  let resp := json_ok 200 (JObj [("version", JStr (TrimSpace version))]) in
  resp <| rp_Header := hdr_Set versionHeaderName (TrimSpace version) (rp_Header resp) |>.
Definition status_json (s : string) : json := JObj [("status", JStr s)].
Definition RetReadyz (IsCleanState : bool) : Response :=
  if IsCleanState then json_ok 200 (status_json "ready") else json_ok 503 (status_json "not ready").
Definition RetStartup (IsStarted : bool) : Response :=
  if IsStarted then json_ok 200 (status_json "started") else json_ok 503 (status_json "starting").
