(* ===== verification/EventsTheory.v ===== *)
(** * EventsTheory: the invariant of the event streams

    Whatever the interleaving of connections, messages and failures, the limiter
    counts exactly the open streams, every registered subscriber belongs to one of
    them and is open, so no step panics, and every stream can be brought to its end. *)

From stdpp Require Import relations.
From S2P Require Import Prelude Json Domain Bolt Crypto Store Repo Authorization RateLimit Http Service Buffer Broker Middleware Webhook Events.

#[local] Arguments total : simpl never.

(** ** Subscribers under fan-out *)

(** Open, within its budgets, and charged exactly for its queue. *)
Record sub_ok (s : Subscriber) : Prop := {
  so_open : sub_closed s = false;
  so_bytes : sub_bytes s = total (sub_C s);
  so_depth : length (sub_C s) <= sub_cap s;
  so_budget : (0 < sub_maxBytes s -> sub_bytes s <= sub_maxBytes s)%Z }.

Lemma trySend_ok data s : sub_ok s -> exists s' ok, trySend data s = Ok (s', ok) /\ sub_ok s'.
Proof.
  intros [Ho Hb Hd Hm]. unfold trySend. destruct (_ && _) eqn:E1; [by eexists _, _|]. rewrite Ho.
  destruct (Nat.ltb_spec (length (sub_C s)) (sub_cap s)); eexists _, _; (split; [reflexivity|]); split; cbn; try done.
  - rewrite total_app, total_one. lia.
  - rewrite length_app. cbn. lia.
  - intros Hpos. apply andb_false_iff in E1 as [E1|E1]; apply Z.ltb_ge in E1; lia.
Qed.

Lemma recv_ack_ok d s s' : sub_ok s -> recv s = Some (d, s') -> sub_ok (Ack (slice_len d) s').
Proof.
  intros [Ho Hb Hd Hm]. unfold recv. destruct (sub_C s) as [|d' q] eqn:Eq; [done|]. intros [= <- <-].
  rewrite total_cons in Hb. pose proof (total_pos q). assert (0 <= slice_len d')%Z by (unfold slice_len; lia).
  split; cbn; try done.
  - destruct (Z.ltb_spec (sub_bytes s - slice_len d') 0); lia.
  - cbn in Hd. lia.
  - intros Hpos. destruct (Z.ltb_spec (sub_bytes s - slice_len d') 0); lia.
Qed.

(** The subscriber objects after a fan-out: the same ones, as good as before. *)
Definition objs_keep (o o' : gmap nat Subscriber) : Prop :=
  forall p, match o !! p with
            | None => o' !! p = None
            | Some s => exists s', o' !! p = Some s' /\ (sub_ok s -> sub_ok s')
            end.
#[export] Instance objs_keep_pre : PreOrder objs_keep.
Proof.
  split.
  - intros o p. destruct (o !! p); eauto.
  - intros o1 o2 o3 H12 H23 p. specialize (H12 p). specialize (H23 p). destruct (o1 !! p).
    + destruct H12 as (s' & Hs & Hk). rewrite Hs in H23. destruct H23 as (s'' & Hs' & Hk'). eauto.
    + by rewrite H12 in H23.
Qed.

(** Every address of [ps] has a good subscriber. *)
Definition all_ok (o : gmap nat Subscriber) (ps : list nat) : Prop :=
  forall p, p ∈ ps -> exists s, o !! p = Some s /\ sub_ok s.

Lemma all_ok_keep o o' ps : objs_keep o o' -> all_ok o ps -> all_ok o' ps.
Proof.
  intros Hk Ha p Hp. destruct (Ha p Hp) as (s & Hs & Hok). specialize (Hk p). rewrite Hs in Hk.
  destruct Hk as (s' & Hs' & Hk). eauto.
Qed.

Lemma send_all_ok now data ps b :
  all_ok (br_objs b) ps -> exists b', send_all now data ps b = Ok b' /\ br_subs b' = br_subs b /\ objs_keep (br_objs b) (br_objs b').
Proof.
  revert b. induction ps as [|p ps IH]; intros b Ha; [by exists b|]. cbn [send_all].
  destruct (Ha p (list_elem_of_here _ _)) as (s & Hs & Hok). unfold send_to. rewrite Hs.
  destruct (trySend_ok data s Hok) as (s' & ok & Ht & Hok'). rewrite Ht. cbn [res_bind].
  match goal with |- context [send_all _ _ _ ?b0] => set (b1 := b0) end.
  assert (br_objs b1 = <[p := s']> (br_objs b) /\ br_subs b1 = br_subs b) as [Ho Hsub]
    by (unfold b1; destruct ok; rewrite ?logThrottledDrop_objs, ?logThrottledDrop_subs; done).
  assert (objs_keep (br_objs b) (br_objs b1)) as Hk.
  { intros q. rewrite Ho. destruct (decide (p = q)) as [<-|Hne].
    - rewrite Hs, lookup_insert_eq. eauto.
    - rewrite lookup_insert_ne by done. destruct (br_objs b !! q); eauto. }
  destruct (IH b1) as (b' & Hb & Hsub' & Hk').
  { apply (all_ok_keep (br_objs b)); [exact Hk|]. intros q Hq. apply Ha. by right. }
  exists b'. split; [exact Hb|]. split; [congruence|]. by etransitivity.
Qed.

Lemma fanout_ok now channel data b :
  all_ok (br_objs b) (elements (default ∅ (br_subs b !! channel))) ->
  exists b', fanout now channel data b = Ok b' /\ br_subs b' = br_subs b /\ objs_keep (br_objs b) (br_objs b').
Proof.
  unfold fanout. destruct (br_subs b !! channel) as [S|]; [apply send_all_ok|]. intros _. by exists b.
Qed.

(** ** The invariant *)

Definition subscribed (c : Conn) : bool := match cn_phase c with Greeting | Joining _ => false | _ => true end.

Section theory.
Context {R : Type} `{!Repository R}.
Implicit Types (ev : Events R) (c : Conn) (p : nat).
Abbreviation subs ev ch := (default ∅ (br_subs (ev_broker ev) !! ch)).

Record ev_inv ev : Prop := {
  ei_count : sem_used (ev_sem ev) = size (ev_conns ev);
  ei_bound : sem_used (ev_sem ev) <= sem_cap (ev_sem ev);
  ei_sub : forall p c, ev_conns ev !! p = Some c -> subscribed c = true ->
    p ∈ subs ev (cn_channel c) /\ exists s, br_objs (ev_broker ev) !! p = Some s /\ sub_ok s;
  ei_fresh : forall p c, ev_conns ev !! p = Some c -> subscribed c = false -> br_objs (ev_broker ev) !! p = None;
  ei_reg : forall ch p, p ∈ subs ev ch -> exists c, ev_conns ev !! p = Some c /\ subscribed c = true /\ cn_channel c = ch }.

(** A change of the broker that keeps the registry and the subscribers. *)
Lemma ev_inv_broker ev b :
  ev_inv ev -> br_subs b = br_subs (ev_broker ev) -> objs_keep (br_objs (ev_broker ev)) (br_objs b) ->
  ev_inv (ev <| ev_broker := b |>).
Proof.
  intros [Hc Hb Hs Hf Hr] Hsub Hk. split; cbn; rewrite ?Hsub; try done.
  - intros p c Hp Hsc. destruct (Hs p c Hp Hsc) as (Hin & s & Ho & Hok). split; [exact Hin|].
    specialize (Hk p). rewrite Ho in Hk. destruct Hk as (s' & Ho' & Hk). eauto.
  - intros p c Hp Hsc. specialize (Hk p). by rewrite (Hf p c Hp Hsc) in Hk.
Qed.

(** A connection that moves on between two phases on the same side of Subscribe. *)
Lemma ev_inv_set p c c' ev :
  ev_inv ev -> ev_conns ev !! p = Some c -> subscribed c' = subscribed c -> cn_channel c' = cn_channel c ->
  ev_inv (set_conn p c' ev).
Proof.
  intros [Hc Hb Hs Hf Hr] Hp Hsc Hch. split; cbn; try done.
  - rewrite map_size_insert. by rewrite Hp.
  - intros q d. destruct (decide (p = q)) as [<-|Hne].
    + rewrite lookup_insert_eq. intros [= <-]. rewrite Hsc, Hch. by apply Hs.
    + rewrite lookup_insert_ne by done. apply Hs.
  - intros q d. destruct (decide (p = q)) as [<-|Hne].
    + rewrite lookup_insert_eq. intros [= <-]. rewrite Hsc. by apply Hf.
    + rewrite lookup_insert_ne by done. apply Hf.
  - intros ch q Hq. destruct (Hr ch q Hq) as (d & Hd & Hds & Hdc). destruct (decide (p = q)) as [<-|Hne].
    + rewrite lookup_insert_eq. exists c'. rewrite Hp in Hd. injection Hd as ->. split; [done|]. split; congruence.
    + rewrite lookup_insert_ne by done. eauto.
Qed.

Lemma ev_inv_admit p r ev ev' resp :
  ev_inv ev -> ev_conns ev !! p = None -> br_objs (ev_broker ev) !! p = None -> enter_stream p r ev = (ev', resp) -> ev_inv ev'.
Proof.
  intros Hinv Hp Ho. unfold enter_stream. case_bool_decide; [by intros [= <- _]|]. destruct (_ <? _)%nat; [by intros [= <- _]|].
  unfold acquire. destruct (Nat.ltb_spec (sem_used (ev_sem ev)) (sem_cap (ev_sem ev))); [|by intros [= <- _]].
  intros [= <- _]. destruct Hinv as [Hc Hb Hs Hf Hr]. split; cbn; try done.
  - rewrite map_size_insert, Hp. by rewrite Hc.
  - intros q d. destruct (decide (p = q)) as [<-|Hne].
    + rewrite lookup_insert_eq. by intros [= <-].
    + rewrite lookup_insert_ne by done. apply Hs.
  - intros q d. destruct (decide (p = q)) as [<-|Hne].
    + rewrite lookup_insert_eq. by intros [= <-].
    + rewrite lookup_insert_ne by done. apply Hf.
  - intros ch q Hq. destruct (Hr ch q Hq) as (d & Hd & Hds & Hdc). rewrite lookup_insert_ne by congruence. eauto.
Qed.

Lemma ev_inv_join p c since ev :
  ev_inv ev -> ev_conns ev !! p = Some c -> cn_phase c = Joining since ->
  ev_inv ((set_conn p (c <| cn_phase := Joined since |>) ev) <| ev_broker := register (cn_channel c) p (ev_broker ev) |>).
Proof.
  intros [Hc Hb Hs Hf Hr] Hp Hph. assert (subscribed c = false) as Hsc by (unfold subscribed; by rewrite Hph).
  assert (forall ch q, q ∈ default ∅ (br_subs (register (cn_channel c) p (ev_broker ev)) !! ch) <->
            q ∈ subs ev ch \/ ch = cn_channel c /\ q = p) as Hin.
  { intros ch q. cbn. destruct (decide (cn_channel c = ch)) as [<-|Hne].
    - rewrite lookup_insert_eq. cbn. rewrite elem_of_union, elem_of_singleton. naive_solver.
    - rewrite lookup_insert_ne by done. naive_solver. }
  split; cbn [ev_sem ev_conns ev_broker set_conn set_fld]; try done.
  - rewrite map_size_insert. by rewrite Hp.
  - intros q d. destruct (decide (p = q)) as [<-|Hne].
    + rewrite lookup_insert_eq. intros [= <-] _. split; [apply Hin; by right|]. cbn. rewrite lookup_insert_eq.
      eexists. split; [reflexivity|]. split; cbn; try done; lia.
    + rewrite lookup_insert_ne by done. intros Hq Hds. destruct (Hs q d Hq Hds) as (Hi & s & Ho & Hok).
      split; [apply Hin; by left|]. cbn. rewrite lookup_insert_ne by done. eauto.
  - intros q d. destruct (decide (p = q)) as [<-|Hne].
    + rewrite lookup_insert_eq. by intros [= <-].
    + rewrite lookup_insert_ne by done. cbn. rewrite lookup_insert_ne by done. apply Hf.
  - intros ch q [Hq|[-> ->]]%Hin.
    + destruct (Hr ch q Hq) as (d & Hd & Hds & Hdc). rewrite lookup_insert_ne by congruence. eauto.
    + rewrite lookup_insert_eq. by eexists.
Qed.

(** Hanging up the connection [p], whose subscriber is already gone. *)
Lemma ev_inv_hang_up p c ev b :
  ev_inv ev -> ev_conns ev !! p = Some c ->
  (forall q d, q <> p -> ev_conns ev !! q = Some d -> br_objs b !! q = br_objs (ev_broker ev) !! q) ->
  (forall ch q, q ∈ default ∅ (br_subs b !! ch) <-> q ∈ subs ev ch /\ q <> p) ->
  exists ev', hang_up p (ev <| ev_broker := b |>) = Some (Ok ev') /\ ev_inv ev' /\
    ev_conns ev' = delete p (ev_conns ev) /\ ev_broker ev' = b /\ ev_sem ev = mkSem (sem_cap (ev_sem ev')) (S (sem_used (ev_sem ev'))).
Proof.
  intros [Hc Hb Hs Hf Hr] Hp Ho Hin. unfold hang_up, release. cbn [ev_sem set_fld].
  assert (size (ev_conns ev) = S (size (delete p (ev_conns ev)))) as Hsz.
  { rewrite map_size_delete, Hp. cbn. assert (size (ev_conns ev) <> 0); [|lia].
    apply map_size_non_empty_iff. intros E. by rewrite E, lookup_empty in Hp. }
  destruct (ev_sem ev) as [cap used] eqn:Es. cbn [sem_used sem_cap] in *. rewrite Hc, Hsz in *.
  eexists. split; [reflexivity|]. split; [|done]. split; cbn; try done.
  - lia.
  - intros q d Hq Hds. apply lookup_delete_Some in Hq as [Hne Hq]. destruct (Hs q d Hq Hds) as (Hi & s & Hos & Hok).
    split; [by apply Hin|]. rewrite (Ho q d) by done. eauto.
  - intros q d Hq Hds. apply lookup_delete_Some in Hq as [Hne Hq]. rewrite (Ho q d) by done. by eapply Hf.
  - intros ch q [Hq Hne]%Hin. destruct (Hr ch q Hq) as (d & Hd & Hds & Hdc). exists d.
    split; [by apply lookup_delete_Some|done].
Qed.

Lemma Unsubscribe_open p c ev :
  ev_inv ev -> ev_conns ev !! p = Some c -> subscribed c = true ->
  exists b, Unsubscribe (cn_channel c) p (ev_broker ev) = (b, Ok tt) /\
    (forall q, q <> p -> br_objs b !! q = br_objs (ev_broker ev) !! q) /\
    (forall ch q, q ∈ default ∅ (br_subs b !! ch) <-> q ∈ subs ev ch /\ q <> p).
Proof.
  intros [Hc Hb Hs Hf Hr] Hp Hsc. destruct (Hs p c Hp Hsc) as (Hi & s & Ho & Hok). unfold Unsubscribe.
  destruct (br_subs (ev_broker ev) !! cn_channel c) as [S|] eqn:ES; [|by apply not_elem_of_empty in Hi].
  cbn [br_objs set_fld default id] in *. rewrite Ho, (so_open s Hok).
  assert (forall ch q, q ∈ subs ev ch /\ q <> p <-> if decide (cn_channel c = ch) then q ∈ S ∖ {[ p ]} else q ∈ subs ev ch) as Hq.
  { intros ch q. case_decide as Hd.
    - subst ch. rewrite ES. cbn. set_solver.
    - split; [by intros [? _]|]. intros Hq. split; [done|]. intros ->. destruct (Hr ch p Hq) as (d & Hpd & _ & Hdc). congruence. }
  eexists. split; [reflexivity|]. split.
  - intros q Hne. case_bool_decide; cbn; by rewrite lookup_insert_ne.
  - intros ch q. rewrite Hq. case_bool_decide as Hem; cbn; case_decide as Hd; subst;
      rewrite ?lookup_delete_eq, ?lookup_insert_eq, ?lookup_delete_ne, ?lookup_insert_ne by done; cbn; rewrite ?Hem; done.
Qed.

Lemma ev_inv_service s ev : ev_inv ev -> ev_inv (ev <| ev_svc := s |>).
Proof. by intros [? ? ? ? ?]; split. Qed.

Lemma Finish_ok p c ev :
  ev_inv ev -> ev_conns ev !! p = Some c -> subscribed c = true ->
  exists ev', (let (b, x) := Unsubscribe (cn_channel c) p (ev_broker ev) in
      match x with Err e => Some (Err e) | Ok _ => hang_up p (ev <| ev_broker := b |>) end) = Some (Ok ev') /\
    ev_inv ev' /\ ev_conns ev' = delete p (ev_conns ev) /\ ev_sem ev = mkSem (sem_cap (ev_sem ev')) (S (sem_used (ev_sem ev'))) /\
    (forall ch, p ∉ subs ev' ch).
Proof.
  intros Hinv Hp Hsc. destruct (Unsubscribe_open p c ev Hinv Hp Hsc) as (b & Hu & Ho & Hin). rewrite Hu.
  destruct (ev_inv_hang_up p c ev b Hinv Hp) as (ev' & Hh & Hinv' & Hd & Hb & Hsem); [by intros; apply Ho | exact Hin|].
  exists ev'. split_and!; try done. intros ch. rewrite Hb. by intros [_ Hne]%Hin.
Qed.

Lemma leave_keeps p save c ev :
  ev_inv ev -> ev_conns ev !! p = Some c -> subscribed c = true -> ev_inv (set_conn p (c <| cn_phase := Leaving save |>) ev).
Proof. intros Hinv Hp Hsc. by apply (ev_inv_set p c). Qed.

(** An action never panics or blocks, and keeps the invariant. *)
Definition safe_result (o : option (res (Events R))) : Prop :=
  match o with None => True | Some (Ok ev') => ev_inv ev' | Some (Err _) => False end.

Lemma Deliver_safe p c ok ev :
  ev_inv ev -> ev_conns ev !! p = Some c -> cn_phase c = Live -> safe_result (conn_step p (Deliver ok) ev).
Proof.
  intros Hinv Hp Hph. assert (subscribed c = true) as Hsc by (unfold subscribed; by rewrite Hph).
  unfold conn_step. rewrite Hp. cbn [mbind option_bind]. rewrite Hph.
  destruct (ei_sub ev Hinv p c Hp Hsc) as (_ & s & Ho & Hok). rewrite Ho. cbn [mbind option_bind].
  destruct (recv s) as [[d s']|] eqn:Er; [|destruct (sub_closed s); [by apply leave_keeps | done]].
  cbv zeta. match goal with |- context [ev <| ev_broker := ?b |>] => set (ev1 := ev <| ev_broker := b |>) end.
  assert (ev_inv ev1) as Hinv1.
  { apply ev_inv_broker; [done|done|]. intros q. cbn. destruct (decide (p = q)) as [<-|Hne].
    - rewrite Ho, lookup_insert_eq. eexists. split; [done|]. intros _. by eapply recv_ack_ok.
    - rewrite lookup_insert_ne by done. destruct (br_objs (ev_broker ev) !! q); eauto. }
  destruct ok; cbn [negb]; [|by apply leave_keeps]. apply (ev_inv_set p c); [exact Hinv1|exact Hp|..]; try done.
Qed.

Lemma conn_step_safe p a ev : ev_inv ev -> safe_result (conn_step p a ev).
Proof.
  intros Hinv. destruct (ev_conns ev !! p) as [c|] eqn:Hp; [|unfold conn_step; by rewrite Hp].
  assert (subscribed c = match cn_phase c with Greeting | Joining _ => false | _ => true end) as Hsc by done.
  assert (forall ok, a = Deliver ok -> cn_phase c = Live -> safe_result (conn_step p a ev)) as Hdel
    by (intros ok -> ?; by eapply Deliver_safe).
  destruct a as [ok1 ok2| | |ok| |ok|ok|], (cn_phase c) as [|since|since|hist| |save] eqn:Hph;
    try (by eapply Hdel); clear Hdel; unfold conn_step; rewrite Hp; cbn [mbind option_bind]; rewrite Hph; try done; try by destruct hist.
  - destruct (negb (ok1 && ok2)).
    + destruct (ev_inv_hang_up p c ev (ev_broker ev) Hinv Hp) as (ev' & Hh & Hev' & _).
      * done.
      * intros ch q. split; [|by intros [? _]]. intros Hq. split; [done|]. intros ->.
        destruct (ei_reg ev Hinv ch p Hq) as (d & Hd & Hds & _). congruence.
      * by assert (hang_up p ev = Some (Ok ev')) as -> by (rewrite <- Hh; by destruct ev).
    + by apply (ev_inv_set p c); try (by destruct ok1, ok2).
  - exact (ev_inv_join p c since ev Hinv Hp Hph).
  - by apply (ev_inv_set p c).
  - destruct hist as [|d hist]; [by apply (ev_inv_set p c)|].
    destruct ok; cbn [negb]; [by apply (ev_inv_set p c) | by apply leave_keeps].
  - by apply leave_keeps.
  - destruct ok; cbn [negb]; [by apply (ev_inv_set p c) | by apply leave_keeps].
  - cbv zeta. set (ev1 := if save then save_cursor c ev else ev).
    assert (ev_inv ev1 /\ ev_conns ev1 = ev_conns ev) as [Hinv1 Hc1].
    { unfold ev1, save_cursor. destruct save; [|done]. case_bool_decide; [done|]. split; [by apply ev_inv_service | done]. }
    destruct (Finish_ok p c ev1 Hinv1 ltac:(by rewrite Hc1) Hsc) as (ev' & -> & Hev' & _). exact Hev'.
Qed.

Lemma ev_step_inv ev ev' : ev_inv ev -> ev_step ev ev' -> ev_inv ev'.
Proof.
  intros Hinv Hs. destruct Hs as [p r ev ev' resp Hp Ho Ha|p a ev ev' Ha|now ch data ev|now ch data ev b Hf|ch ttl ev|s ev|now ev].
  - by eapply ev_inv_admit.
  - pose proof (conn_step_safe p a ev Hinv) as Hsafe. by rewrite Ha in Hsafe.
  - destruct (append_step_same now ch data (ev_broker ev)) as (Ho & Hs & _). by apply ev_inv_broker; rewrite ?Ho.
  - destruct (fanout_ok now ch data (ev_broker ev)) as (b' & Hb & Hs & Hk).
    { intros p Hp%elem_of_elements. destruct (ei_reg ev Hinv ch p Hp) as (c & Hc & Hsc & _).
      by destruct (ei_sub ev Hinv p c Hc Hsc) as (_ & s & ? & ?); exists s. }
    rewrite Hf in Hb. injection Hb as <-. by apply ev_inv_broker.
  - by apply ev_inv_broker.
  - by apply ev_inv_service.
  - destruct Hinv. by split.
Qed.

(** A state reached from a broker without subscribers and no connection. *)
Definition reachable ev : Prop :=
  exists ev0, sem_used (ev_sem ev0) = 0 /\ ev_conns ev0 = ∅ /\ br_subs (ev_broker ev0) = ∅ /\ rtc ev_step ev0 ev.

Lemma reachable_inv ev : reachable ev -> ev_inv ev.
Proof.
  intros (ev0 & Hu & Hc & Hb & Hr). assert (ev_inv ev0) as Hinv.
  { split; rewrite ?Hu, ?Hc, ?Hb; try done; try lia; intros ? ?; by rewrite lookup_empty. }
  clear Hu Hc Hb. induction Hr as [|ev0 ev1 ev2 Hs _ IH]; [done|]. apply IH. by eapply ev_step_inv.
Qed.


(** ** Every stream can be brought to its end *)

Fixpoint run_actions p (acts : list Action) ev : option (res (Events R)) :=
  match acts with
  | [] => Some (Ok ev)
  | a :: acts => match conn_step p a ev with Some (Ok ev) => run_actions p acts ev | o => o end
  end.

(** [p] is gone from [ev], its slot is free again and the broker has forgotten it. *)
Definition ended p ev ev' : Prop :=
  ev_conns ev' = delete p (ev_conns ev) /\ ev_sem ev = mkSem (sem_cap (ev_sem ev')) (S (sem_used (ev_sem ev'))) /\
  forall ch, p ∉ subs ev' ch.
Definition can_end (n : nat) p ev : Prop :=
  exists acts ev', length acts <= n /\ run_actions p acts ev = Some (Ok ev') /\ ended p ev ev'.

Lemma can_end_step n p a ev ev1 :
  conn_step p a ev = Some (Ok ev1) -> delete p (ev_conns ev1) = delete p (ev_conns ev) -> ev_sem ev1 = ev_sem ev ->
  can_end n p ev1 -> can_end (S n) p ev.
Proof.
  intros Ha Hd Hs (acts & ev' & Hn & Hr & He1 & He2 & He3). exists (a :: acts), ev'. split; [cbn; lia|].
  split; [cbn [run_actions]; by rewrite Ha|]. split_and!; congruence.
Qed.

(** An action that moves the connection on to [c']. *)
Lemma can_end_move n p a c' ev b :
  ev_inv ev -> conn_step p a ev = Some (Ok (set_conn p c' (ev <| ev_broker := b |>))) ->
  (forall ev1, ev_inv ev1 -> ev_conns ev1 !! p = Some c' -> can_end n p ev1) -> can_end (S n) p ev.
Proof.
  intros Hinv Ha He. pose proof (conn_step_safe p a ev Hinv) as Hsafe. rewrite Ha in Hsafe.
  eapply can_end_step; [exact Ha| |done|].
  - cbn. apply delete_insert_eq.
  - apply He; [exact Hsafe|]. cbn. apply lookup_insert_eq.
Qed.
Lemma can_end_mono n m p ev : n <= m -> can_end n p ev -> can_end m p ev.
Proof. intros Hnm (acts & ev' & Hn & He). exists acts, ev'. split; [lia|done]. Qed.

Lemma leaving_ends p c save ev :
  ev_inv ev -> ev_conns ev !! p = Some c -> cn_phase c = Leaving save -> can_end 1 p ev.
Proof.
  intros Hinv Hp Hph. set (ev1 := if save then save_cursor c ev else ev).
  assert (ev_inv ev1 /\ ev_conns ev1 = ev_conns ev /\ ev_sem ev1 = ev_sem ev) as (Hinv1 & Hc1 & Hs1).
  { unfold ev1, save_cursor. destruct save; [|done]. case_bool_decide; [done|]. split; [by apply ev_inv_service | done]. }
  assert (subscribed c = true) as Hsc by (unfold subscribed; by rewrite Hph).
  destruct (Finish_ok p c ev1 Hinv1 ltac:(by rewrite Hc1) Hsc) as (ev' & Hf & _ & Hd & Hs & Hn).
  exists [Finish], ev'. split; [done|]. split; [|split_and!; congruence].
  cbn [run_actions]. unfold conn_step. rewrite Hp. cbn [mbind option_bind]. rewrite Hph. cbv zeta. fold ev1. by rewrite Hf.
Qed.

Ltac show_step Hp Hph :=
  unfold conn_step; rewrite Hp; cbn [mbind option_bind]; rewrite Hph; cbn [negb andb];
  match goal with |- context [set_conn _ _ ?ev] => destruct ev; reflexivity | |- context [leave _ _ _ ?ev] => destruct ev; reflexivity end.

Lemma live_ends p c ev : ev_inv ev -> ev_conns ev !! p = Some c -> cn_phase c = Live -> can_end 2 p ev.
Proof.
  intros Hinv Hp Hph. apply (can_end_move 1 p ClientGone (c <| cn_phase := Leaving true |>) ev (ev_broker ev) Hinv).
  - show_step Hp Hph.
  - intros ev1 Hinv1 Hp1. by apply (leaving_ends p (c <| cn_phase := Leaving true |>) true).
Qed.

Lemma replaying_ends p c hist ev :
  ev_inv ev -> ev_conns ev !! p = Some c -> cn_phase c = Replaying hist -> can_end 3 p ev.
Proof.
  intros Hinv Hp Hph. destruct hist as [|d hist].
  - apply (can_end_move 2 p (WriteHistory true) (c <| cn_phase := Live |>) ev (ev_broker ev) Hinv).
    + show_step Hp Hph.
    + intros ev1 Hinv1 Hp1. by apply (live_ends p (c <| cn_phase := Live |>)).
  - apply (can_end_mono 2); [lia|].
    apply (can_end_move 1 p (WriteHistory false) (c <| cn_phase := Leaving false |>) ev (ev_broker ev) Hinv).
    + show_step Hp Hph.
    + intros ev1 Hinv1 Hp1. by apply (leaving_ends p (c <| cn_phase := Leaving false |>) false).
Qed.

Lemma joined_ends p c since ev : ev_inv ev -> ev_conns ev !! p = Some c -> cn_phase c = Joined since -> can_end 4 p ev.
Proof.
  intros Hinv Hp Hph. set (hist := history (ev_now ev) (cn_channel c) since replay_limit (ev_broker ev)).
  apply (can_end_move 3 p ReadHistory (c <| cn_phase := Replaying hist |>) ev (ev_broker ev) Hinv).
  - unfold hist. show_step Hp Hph.
  - intros ev1 Hinv1 Hp1. by apply (replaying_ends p (c <| cn_phase := Replaying hist |>) hist).
Qed.


(** ** What a live stream delivers *)

Definition with_sub p (s : Subscriber) ev : Events R := ev <| ev_broker := (ev_broker ev) <| br_objs := <[p := s]> (br_objs (ev_broker ev)) |> |>.

Lemma Deliver_true p c s d q ev :
  ev_conns ev !! p = Some c -> cn_phase c = Live -> br_objs (ev_broker ev) !! p = Some s -> sub_C s = d :: q ->
  conn_step p (Deliver true) ev =
    Some (Ok (set_conn p (c <| cn_out := cn_out c ++ [data_frame (slice_text (br_heap (ev_broker ev)) d)] |>
                            <| cn_lastMsgTs := time_UnixMilli (ev_now ev) |>)
                       (with_sub p (Ack (slice_len d) (s <| sub_C := q |>)) ev))).
Proof.
  intros Hp Hph Ho Hq. unfold conn_step. rewrite Hp. cbn [mbind option_bind]. rewrite Hph, Ho.
  cbn [mbind option_bind]. unfold recv. by rewrite Hq.
Qed.

(** A live stream whose client keeps reading writes exactly its queue, in order, and
    ends with an empty queue whose byte budget is free again. *)
Theorem live_drains p c ev :
  reachable ev -> ev_conns ev !! p = Some c -> cn_phase c = Live ->
  exists s ev' c', br_objs (ev_broker ev) !! p = Some s /\
    run_actions p (replicate (length (sub_C s)) (Deliver true)) ev = Some (Ok ev') /\
    ev_conns ev' !! p = Some c' /\ cn_phase c' = Live /\
    cn_out c' = cn_out c ++ ((fun d => data_frame (slice_text (br_heap (ev_broker ev)) d)) <$> sub_C s) /\
    exists s', br_objs (ev_broker ev') !! p = Some s' /\ sub_C s' = [] /\ sub_bytes s' = 0%Z.
Proof.
  intros Hinv%reachable_inv Hp Hph. assert (subscribed c = true) as Hsc by (unfold subscribed; by rewrite Hph).
  destruct (ei_sub ev Hinv p c Hp Hsc) as (_ & s & Ho & Hok). exists s. remember (sub_C s) as q eqn:Hq.
  revert ev c s Hinv Hp Hph Hsc Ho Hok Hq. induction q as [|d q IH]; intros ev c s Hinv Hp Hph Hsc Ho Hok Hq.
  { exists ev, c. split_and!; try done. { by rewrite app_nil_r. } exists s. rewrite (so_bytes s Hok), <- Hq. done. }
  pose proof (Deliver_true p c s d q ev Hp Hph Ho ltac:(done)) as Ha. pose proof (conn_step_safe p (Deliver true) ev Hinv) as Hsafe.
  rewrite Ha in Hsafe. cbn [safe_result] in Hsafe. match type of Hsafe with ev_inv ?e => set (ev1 := e) in * end.
  destruct (IH ev1 (c <| cn_out := cn_out c ++ [data_frame (slice_text (br_heap (ev_broker ev)) d)] |>
                      <| cn_lastMsgTs := time_UnixMilli (ev_now ev) |>)
              (Ack (slice_len d) (s <| sub_C := q |>))) as (ev' & c' & Hs1 & Hrun & Hc' & Hph' & Hout & Hend); try done.
  - cbn. apply lookup_insert_eq.
  - cbn. apply lookup_insert_eq.
  - eapply recv_ack_ok; [exact Hok|]. unfold recv. by rewrite <- Hq.
  - exists ev', c'. split; [exact Ho|]. split; [cbn [length replicate run_actions]; by rewrite Ha|].
    split_and!; try done. rewrite Hout. cbn. by rewrite <- app_assoc.
Qed.
End theory.

(** ** Runs *)

Inductive Cmd := Open (p : nat) (r : Request) | Act (p : nat) (a : Action) | Message (channel : string) (data : Slice) | At (now : Z).

Section runs.
Context {R : Type} `{!Repository R}.
Implicit Types (ev : Events R).

Definition exec_cmd ev (cmd : Cmd) : option (Events R) :=
  match cmd with
  | Open p r =>
      match ev_conns ev !! p, br_objs (ev_broker ev) !! p with None, None => Some (enter_stream p r ev).1 | _, _ => None end
  | Act p a => match conn_step p a ev with Some (Ok ev) => Some ev | _ => None end
  | Message channel data =>
      let ev := ev <| ev_broker := append_step (ev_now ev) channel data (ev_broker ev) |> in
      match fanout (ev_now ev) channel data (ev_broker ev) with Ok b => Some (ev <| ev_broker := b |>) | Err _ => None end
  | At now => Some (ev <| ev_now := now |>)
  end.
Fixpoint exec (cmds : list Cmd) ev : option (Events R) :=
  match cmds with [] => Some ev | cmd :: cmds => ev ← exec_cmd ev cmd; exec cmds ev end.

Lemma exec_steps cmds ev ev' : exec cmds ev = Some ev' -> rtc ev_step ev ev'.
Proof.
  revert ev. induction cmds as [|cmd cmds IH]; intros ev; cbn [exec]; [by intros [= <-]|].
  destruct (exec_cmd ev cmd) as [ev1|] eqn:E; [|done]. cbn [mbind option_bind]. intros Hr%IH.
  etransitivity; [|exact Hr]. clear Hr IH. destruct cmd as [p r|p a|ch d|now]; cbn [exec_cmd] in E.
  - destruct (ev_conns ev !! p) eqn:Hp; [done|]. destruct (br_objs (ev_broker ev) !! p) eqn:Ho; [done|].
    injection E as <-. destruct (enter_stream p r ev) as [ev1 resp] eqn:Ha. by eapply rtc_once, step_admit.
  - destruct (conn_step p a ev) as [[ev2|]|] eqn:Ha; [|done..]. injection E as ->. by eapply rtc_once, step_conn.
  - cbv zeta in E. destruct (fanout _ _ _ _) as [b|] eqn:Hf; [|done]. injection E as <-.
    eapply rtc_l; [apply (step_append (ev_now ev) ch d)|]. apply rtc_once.
    exact (step_fanout (ev_now ev) ch d (ev <| ev_broker := append_step (ev_now ev) ch d (ev_broker ev) |>) b Hf).
  - injection E as <-. apply rtc_once, step_time.
Qed.
End runs.

Definition events_request (client : string) : Request :=
  demo_request <| rq_Params := {[ "channel" := "a" ]} |> <| rq_Query := {[ "client_id" := [client] ]} |>.
(** [s] seconds after 1970. *)
Definition unix (s : Z) : Z := ((unix_epoch + s) * second)%Z.
Definition quiet_world : Events (RaftStore mapdb) :=
  mkEvents (mkService (demo_store ∅) None) demo_broker (newSSEConnLimiter 2) ∅ (unix 1).
Definition run_demo (cmds : list Cmd) : Events (RaftStore mapdb) := default quiet_world (exec cmds quiet_world).
Definition connect (p : nat) (client : string) : list Cmd :=
  [Open p (events_request client); Act p (Greet true true); Act p Join; Act p ReadHistory; Act p (WriteHistory true)].
Definition shown (p : nat) (ev : Events (RaftStore mapdb)) : option (list string) := cn_out <$> (ev_conns ev !! p).

Lemma run_demo_reachable cmds : reachable (run_demo cmds).
Proof.
  exists quiet_world. split_and!; [reflexivity..|]. unfold run_demo. destruct (exec cmds quiet_world) eqn:E; [|apply rtc_refl].
  by eapply exec_steps.
Qed.

(** The cursor is the time of the last write, not of the message written: a client
    that leaves with a message still queued, and comes back, never sees it although
    the ring still holds it. *)
Theorem cursor_skips_queued :
  let before := run_demo (connect 7 "c1" ++ [At (unix 5); Message "a" (payload 1 3); Message "a" (payload 2 3)]) in
  let away := run_demo (connect 7 "c1" ++ [At (unix 5); Message "a" (payload 1 3); Message "a" (payload 2 3);
    At (unix 10); Act 7 (Deliver true); Act 7 ClientGone; Act 7 Finish]) in
  let back := run_demo (connect 7 "c1" ++ [At (unix 5); Message "a" (payload 1 3); Message "a" (payload 2 3);
    At (unix 10); Act 7 (Deliver true); Act 7 ClientGone; Act 7 Finish; At (unix 11)] ++ connect 8 "c1") in
  queued 7 (ev_broker before) = [payload 1 3; payload 2 3] /\ shown 7 away = None /\ size (ev_conns away) = 0 /\
  Get (unix 11) "a" 0 0 (br_buffer (ev_broker away)) = [payload 1 3; payload 2 3] /\
  shown 8 back = Some greeting /\ queued 8 (ev_broker back) = [].
Proof. vm_compute. split_and!; reflexivity. Qed.

(** ** Witnesses *)

Definition two_streams : list Cmd := connect 7 "c1" ++ connect 8 "" ++ [At (unix 5); Message "a" (payload 1 3); Message "a" (payload 2 3)].



Lemma live_drains_witness :
  exists ev', run_actions 7 [Deliver true; Deliver true] (run_demo two_streams) = Some (Ok ev') /\
    shown 7 ev' = Some (greeting ++ [data_frame "one"; data_frame "two"]).
Proof.
  destruct (live_drains 7 (mkConn "a" "c1" Live greeting 0) (run_demo two_streams) (run_demo_reachable _))
    as (s & ev' & c' & Hs & Hr & Hc & _ & Ho & _); [vm_compute; reflexivity | reflexivity|].
  assert (Some s = Some (mkSub [payload 1 3; payload 2 3] 100 false 0 6 0)) as [= ->] by (rewrite <- Hs; vm_compute; reflexivity).
  exists ev'. split; [exact Hr|]. unfold shown. rewrite Hc. cbn [fmap option_fmap option_map]. rewrite Ho. vm_compute. reflexivity.
Defined.
