(* ===== verification/AuthHandler.v ===== *)
(** * AuthHandler: internal/handler/auth.go

    Login, logout and the guard of the API, on the [World] of Middleware.v. *)

From S2P Require Import Prelude Json Domain Bolt Crypto Store Repo Authorization RateLimit Http Service Buffer Broker Middleware.

(** ** Cookies *)

Definition sessionMaxAge : Z := 86400.

(** http.Cookie.String of the session cookie. *)
Definition session_cookie (token : string) (secure : bool) (maxAge : string) : string :=
  sessionCookieName +:+ "=" +:+ token +:+ "; Path=/; Max-Age=" +:+ maxAge +:+ "; HttpOnly" +:+
  (if secure then "; Secure" else "") +:+ "; SameSite=Lax".

Definition setSessionCookie (token : string) (secure : bool) (resp : Response) : Response :=
  resp <| rp_Header := hdr_Set "Set-Cookie" (session_cookie token secure (Itoa sessionMaxAge)) (rp_Header resp) |>.
Definition clearSessionCookie (secure : bool) (resp : Response) : Response :=
  resp <| rp_Header := hdr_Set "Set-Cookie" (session_cookie "" secure "0") (rp_Header resp) |>.

(** http.Redirect with 302; the text of its body is left out. *)
Definition http_Redirect (url : string) : Response := mkResponse 302 {[ "Location" := [url] ]} NoBody.

Definition unauthorizedResponse (secure : bool) (r : Request) : Response :=
  clearSessionCookie secure
    (if bool_decide (rq_Method r = "GET") then http_Redirect ("/?redirect=" +:+ rq_URL r) else http_Error "Unauthorized" 401).

Definition ok_json : Response := json_ok 200 (JObj [("ok", JBool true)]).

Record loginRequest := mkLogin { lr_Username : string; lr_Password : string }.
#[export] Instance eta_login : Eta loginRequest := fun x => mkLogin (lr_Username x) (lr_Password x).
#[export] Instance codec_login : JsonCodec loginRequest := struct_codec (mkLogin "" "") [
  fld "username" lr_Username (set_fld lr_Username); fld "password" lr_Password (set_fld lr_Password) ].

Section auth.
Context {R : Type} `{!Repository R} `{!Net} `{!Url} `{!Crypto} `{!JsonText} `{!JsonDecoder}.
(** The session secret and the Secure flag, fixed at startup. *)
Context (secret : string) (secure : bool).
Abbreviation W := (World R).
Abbreviation HD := (Handler W).

(** The service is always wired outside the unit tests. *)
Definition RequireAuth : Guard (R := R) := fun r w =>
  let refuse := Answer w (unauthorizedResponse secure r) in
  match rq_Cookies r !! sessionCookieName with
  | None => refuse
  | Some cookie =>
      match DecodeSession (time_Unix (w_now w)) cookie secret with
      | Err _ => refuse
      | Ok token =>
          match ResolvePrincipal (w_svc w) (Some token) with
          | Some user =>
              if SessionEpochValid (w_svc w) (Some token)
              then Next (r <| rq_Ctx := withPrincipal (rq_Ctx r) user (st_Groups token) |>) w
              else refuse
          | None => refuse
          end
      end
  end.

Definition RequireAuthDynamic : Guard (R := R) := fun r w =>
  match BuildAuthConfig (w_svc w) with None => Next r w | Some _ => RequireAuth r w end.

Definition LogoutHandler : HD := fun _ w => (w, clearSessionCookie secure (http_Redirect "/")).
Definition APILogoutHandler : HD := fun _ w => (w, clearSessionCookie secure ok_json).

Definition provider_json (p : OIDCProvider) : json := JObj [("id", JStr (op_ID p)); ("name", JStr (op_Name p))].

Definition APIAuthMethodsHandler : HD := fun _ w =>
  let '(localEnabled, providers) :=
    match BuildAuthConfig (w_svc w) with
    | None => (false, [])
    | Some cfg => (ic_Enabled (ac_Internal cfg),
                   if oc_Enabled (ac_OIDC cfg) then oc_Providers (ac_OIDC cfg) else [])
    end in
  (w, json_ok 200 (JObj [("local_enabled", JBool localEnabled); ("oidc_providers", JArr (provider_json <$> providers))])).

Definition positive_or (dflt v : Z) : Z := if bool_decide (0 < v)%Z then v else dflt.

Definition loginThrottleConfig (s : Service R) : Z * Z :=
  match repo_GetGlobalConfig (svc_repo s) with
  | Err _ => (10, 300)%Z
  | Ok cfg => (positive_or 10 (sc_LoginThrottleAttempts (gc_Server cfg)),
               positive_or 300 (sc_LoginThrottleCooldown (gc_Server cfg)))
  end.

(** [http.Error(w, `{"error":"..."}`, status)] *)
Definition text_error (msg : string) (status : Z) : Response := http_Error (error_text msg) status.

(** The first user of the name decides. *)
Definition password_matches (users : list InternalUser) (body : loginRequest) : bool :=
  match find (fun u => bool_decide (iu_Username u = lr_Username body)) users with
  | Some u => ValidatePassword (iu_PasswordHash u) (lr_Password body)
  | None => false
  end.

Definition login_session (user : User) (w : W) : W * res string :=
  let (rnd, sessionID) := GenerateRandomHex (w_rand w) in
  let w := w <| w_rand := rnd |> in
  (w, res_bind sessionID (fun sid =>
        let token := session_zero <| st_UserID := u_ID user |> <| st_Username := u_Username user |>
          <| st_Method := "internal" |> <| st_SessionID := sid |> <| st_AuthEpoch := svc_GetAuthEpoch (w_svc w) |>
          <| st_ExpiresAt := wrap64 (time_Unix (w_now w) + sessionMaxAge) |> in
        Ok (EncodeSession token secret))).

(** The comparison with a dummy hash for unknown users only takes time. *)
Definition APILoginHandler : HD := fun r w =>
  match BuildAuthConfig (w_svc w) with
  | Some cfg =>
      if negb (ic_Enabled (ac_Internal cfg)) then (w, text_error "local auth not enabled" 404)
      else
        match decodeJSON (A := loginRequest) r with
        | inr resp => (w, resp)
        | inl body =>
            let throttleKey := FingerprintLogin (lr_Username body) in
            let (attempts, cooldown) := loginThrottleConfig (w_svc w) in
            let (throttle, allowed) := lt_Allow (w_now w) throttleKey attempts cooldown (w_throttle w) in
            let w := w <| w_throttle := throttle |> in
            if negb allowed then (w, text_error "too many login attempts; try again later" 429)
            else if negb (password_matches (ic_Users (ac_Internal cfg)) body)
            then (record_failure r throttleKey w, text_error "invalid credentials" 401)
            else
              let w := w <| w_throttle := lt_Clear throttleKey (w_throttle w) |> in
              match repo_GetUserByUsername (lr_Username body) (svc_repo (w_svc w)) with
              | Err _ => (w, text_error "invalid credentials" 401)
              | Ok user =>
                  match login_session user w with
                  | (w, Err _) => (w, text_error "failed to create session" 500)
                  | (w, Ok encoded) => (w, setSessionCookie encoded secure ok_json)
                  end
              end
        end
  | None => (w, text_error "local auth not enabled" 404)
  end.
End auth.
