(* ===== verification/ApiDto.v ===== *)
(** * ApiDto: internal/handler/dto.go and the request bodies of api.go

    Update requests have pointer fields: [None] preserves the stored value,
    [Some] sets it, zero values included.  Responses are projections without
    secrets. *)

From S2P Require Import Prelude Json Domain.

(** ** Update requests *)

Record ChannelUpdateRequest := mkChannelUpdate {
  cu_Description : option string; cu_WebhookSecret : option string; cu_AllowedIPs : option (list string);
  cu_MaxBodySize : option Z; cu_MessageTTLSeconds : option Z; cu_EncryptionMode : option string;
  cu_EncryptionKey : option string; cu_EncryptionPublicKey : option string }.
#[export] Instance eta_cu : Eta ChannelUpdateRequest := fun x =>
  mkChannelUpdate (cu_Description x) (cu_WebhookSecret x) (cu_AllowedIPs x) (cu_MaxBodySize x)
    (cu_MessageTTLSeconds x) (cu_EncryptionMode x) (cu_EncryptionKey x) (cu_EncryptionPublicKey x).
#[export] Instance codec_cu : JsonCodec ChannelUpdateRequest :=
  struct_codec (mkChannelUpdate None None None None None None None None) [
    fld "description" cu_Description (set_fld cu_Description);
    fld "webhook_secret" cu_WebhookSecret (set_fld cu_WebhookSecret);
    fld "allowed_ips" cu_AllowedIPs (set_fld cu_AllowedIPs);
    fld "max_body_size" cu_MaxBodySize (set_fld cu_MaxBodySize);
    fld "message_ttl_seconds" cu_MessageTTLSeconds (set_fld cu_MessageTTLSeconds);
    fld "encryption_mode" cu_EncryptionMode (set_fld cu_EncryptionMode);
    fld "encryption_key" cu_EncryptionKey (set_fld cu_EncryptionKey);
    fld "encryption_public_key" cu_EncryptionPublicKey (set_fld cu_EncryptionPublicKey) ].

Record ServerConfigUpdateRequest := mkServerUpdate {
  su_MaxBodySize : option Z; su_BehindReverseProxy : option bool; su_CORSOrigin : option string;
  su_Footer : option string; su_TrustedProxyCIDRs : option (list string); su_RateLimitEnabled : option bool;
  su_RateLimitRequests : option Z; su_RateLimitWindowSeconds : option Z; su_BanEnabled : option bool;
  su_BanMaxUniqueFailures : option Z; su_BanWindowSeconds : option Z; su_BanDurationSeconds : option Z;
  su_RequireKnownChannels : option bool; su_LoginThrottleAttempts : option Z; su_LoginThrottleCooldown : option Z;
  su_SessionSecret : option string }.
#[export] Instance eta_su : Eta ServerConfigUpdateRequest := fun x =>
  mkServerUpdate (su_MaxBodySize x) (su_BehindReverseProxy x) (su_CORSOrigin x) (su_Footer x) (su_TrustedProxyCIDRs x)
    (su_RateLimitEnabled x) (su_RateLimitRequests x) (su_RateLimitWindowSeconds x) (su_BanEnabled x)
    (su_BanMaxUniqueFailures x) (su_BanWindowSeconds x) (su_BanDurationSeconds x) (su_RequireKnownChannels x)
    (su_LoginThrottleAttempts x) (su_LoginThrottleCooldown x) (su_SessionSecret x).
#[export] Instance codec_su : JsonCodec ServerConfigUpdateRequest :=
  struct_codec (mkServerUpdate None None None None None None None None None None None None None None None None) [
    fld "max_body_size" su_MaxBodySize (set_fld su_MaxBodySize);
    fld "behind_reverse_proxy" su_BehindReverseProxy (set_fld su_BehindReverseProxy);
    fld "cors_origin" su_CORSOrigin (set_fld su_CORSOrigin);
    fld "footer" su_Footer (set_fld su_Footer);
    fld "trusted_proxy_cidrs" su_TrustedProxyCIDRs (set_fld su_TrustedProxyCIDRs);
    fld "rate_limit_enabled" su_RateLimitEnabled (set_fld su_RateLimitEnabled);
    fld "rate_limit_requests" su_RateLimitRequests (set_fld su_RateLimitRequests);
    fld "rate_limit_window_seconds" su_RateLimitWindowSeconds (set_fld su_RateLimitWindowSeconds);
    fld "ban_enabled" su_BanEnabled (set_fld su_BanEnabled);
    fld "ban_max_unique_failures" su_BanMaxUniqueFailures (set_fld su_BanMaxUniqueFailures);
    fld "ban_window_seconds" su_BanWindowSeconds (set_fld su_BanWindowSeconds);
    fld "ban_duration_seconds" su_BanDurationSeconds (set_fld su_BanDurationSeconds);
    fld "require_known_channels" su_RequireKnownChannels (set_fld su_RequireKnownChannels);
    fld "login_throttle_attempts" su_LoginThrottleAttempts (set_fld su_LoginThrottleAttempts);
    fld "login_throttle_cooldown_seconds" su_LoginThrottleCooldown (set_fld su_LoginThrottleCooldown);
    fld "session_secret" su_SessionSecret (set_fld su_SessionSecret) ].

Record DefaultsUpdateRequest := mkDefaultsUpdate {
  du_WebhookSecret : option string; du_AllowedIPs : option (list string); du_MessageTTLSeconds : option Z }.
#[export] Instance eta_du : Eta DefaultsUpdateRequest := fun x =>
  mkDefaultsUpdate (du_WebhookSecret x) (du_AllowedIPs x) (du_MessageTTLSeconds x).
#[export] Instance codec_du : JsonCodec DefaultsUpdateRequest := struct_codec (mkDefaultsUpdate None None None) [
  fld "webhook_secret" du_WebhookSecret (set_fld du_WebhookSecret);
  fld "allowed_ips" du_AllowedIPs (set_fld du_AllowedIPs);
  fld "message_ttl_seconds" du_MessageTTLSeconds (set_fld du_MessageTTLSeconds) ].

Record GlobalConfigUpdateRequest := mkGlobalUpdate {
  gu_Server : option ServerConfigUpdateRequest; gu_Defaults : option DefaultsUpdateRequest }.
#[export] Instance eta_gu : Eta GlobalConfigUpdateRequest := fun x => mkGlobalUpdate (gu_Server x) (gu_Defaults x).
#[export] Instance codec_gu : JsonCodec GlobalConfigUpdateRequest := struct_codec (mkGlobalUpdate None None) [
  fld "server" gu_Server (set_fld gu_Server); fld "defaults" gu_Defaults (set_fld gu_Defaults) ].

(** The body of createUser and updateUser: a nil slice is [None]. *)
Record userInput := mkUserInput {
  ui_Username : string; ui_Password : string; ui_Roles : option (list string); ui_Channels : option (list string) }.
#[export] Instance eta_ui : Eta userInput := fun x =>
  mkUserInput (ui_Username x) (ui_Password x) (ui_Roles x) (ui_Channels x).
#[export] Instance codec_ui : JsonCodec userInput := struct_codec (mkUserInput "" "" None None) [
  fld "username" ui_Username (set_fld ui_Username); fld "password" ui_Password (set_fld ui_Password);
  fld "roles" ui_Roles (set_fld ui_Roles); fld "channels" ui_Channels (set_fld ui_Channels) ].

Record tokenInput := mkTokenInput { ti_Name : string; ti_Scope : string }.
#[export] Instance eta_ti : Eta tokenInput := fun x => mkTokenInput (ti_Name x) (ti_Scope x).
#[export] Instance codec_ti : JsonCodec tokenInput := struct_codec (mkTokenInput "" "") [
  fld "name" ti_Name (set_fld ti_Name); fld "scope" ti_Scope (set_fld ti_Scope) ].

Record modeInput := mkModeInput { mi_AccessMode : string }.
#[export] Instance eta_mi : Eta modeInput := fun x => mkModeInput (mi_AccessMode x).
#[export] Instance codec_mi : JsonCodec modeInput :=
  struct_codec (mkModeInput "") [fld "access_mode" mi_AccessMode (set_fld mi_AccessMode)].

Record enabledInput := mkEnabledInput { en_Enabled : bool }.
#[export] Instance eta_en : Eta enabledInput := fun x => mkEnabledInput (en_Enabled x).
#[export] Instance codec_en : JsonCodec enabledInput :=
  struct_codec (mkEnabledInput false) [fld "enabled" en_Enabled (set_fld en_Enabled)].

(** ** Responses *)

Record AccessTokenResponse := mkTokenResponse {
  atr_ID : string; atr_Name : string; atr_Scope : string; atr_CreatedAt : string }.
#[export] Instance eta_atr : Eta AccessTokenResponse := fun x =>
  mkTokenResponse (atr_ID x) (atr_Name x) (atr_Scope x) (atr_CreatedAt x).
#[export] Instance codec_atr : JsonCodec AccessTokenResponse := struct_codec (mkTokenResponse "" "" "" "") [
  fld "id" atr_ID (set_fld atr_ID); fld "name" atr_Name (set_fld atr_Name);
  fld "scope" atr_Scope (set_fld atr_Scope); fld "created_at" atr_CreatedAt (set_fld atr_CreatedAt) ].

Record ChannelResponse := mkChannelResponse {
  cr_ID : string; cr_Description : string; cr_CreatedBy : string; cr_WebhookSecretConfigured : bool;
  cr_AllowedIPs : list string; cr_MaxBodySize : Z; cr_MessageTTLSeconds : Z; cr_EncryptionMode : string;
  cr_EncryptionPublicKey : string; cr_EncryptionKeyConfigured : bool; cr_AccessMode : string;
  cr_AccessTokens : list AccessTokenResponse }.
#[export] Instance eta_cr : Eta ChannelResponse := fun x =>
  mkChannelResponse (cr_ID x) (cr_Description x) (cr_CreatedBy x) (cr_WebhookSecretConfigured x) (cr_AllowedIPs x)
    (cr_MaxBodySize x) (cr_MessageTTLSeconds x) (cr_EncryptionMode x) (cr_EncryptionPublicKey x)
    (cr_EncryptionKeyConfigured x) (cr_AccessMode x) (cr_AccessTokens x).
#[export] Instance codec_cr : JsonCodec ChannelResponse :=
  struct_codec (mkChannelResponse "" "" "" false [] 0 0 "" "" false "" []) [
    fld "id" cr_ID (set_fld cr_ID);
    fld_omit "description" cr_Description (set_fld cr_Description);
    fld_omit "created_by" cr_CreatedBy (set_fld cr_CreatedBy);
    fld "webhook_secret_configured" cr_WebhookSecretConfigured (set_fld cr_WebhookSecretConfigured);
    fld_omit "allowed_ips" cr_AllowedIPs (set_fld cr_AllowedIPs);
    fld_omit "max_body_size" cr_MaxBodySize (set_fld cr_MaxBodySize);
    fld_omit "message_ttl_seconds" cr_MessageTTLSeconds (set_fld cr_MessageTTLSeconds);
    fld_omit "encryption_mode" cr_EncryptionMode (set_fld cr_EncryptionMode);
    fld_omit "encryption_public_key" cr_EncryptionPublicKey (set_fld cr_EncryptionPublicKey);
    fld "encryption_key_configured" cr_EncryptionKeyConfigured (set_fld cr_EncryptionKeyConfigured);
    fld_omit "access_mode" cr_AccessMode (set_fld cr_AccessMode);
    fld_omit "access_tokens" cr_AccessTokens (set_fld cr_AccessTokens) ].

Record DefaultsResponse := mkDefaultsResponse {
  dr_WebhookSecretConfigured : bool; dr_AllowedIPs : list string; dr_MessageTTLSeconds : Z }.
#[export] Instance eta_dr : Eta DefaultsResponse := fun x =>
  mkDefaultsResponse (dr_WebhookSecretConfigured x) (dr_AllowedIPs x) (dr_MessageTTLSeconds x).
#[export] Instance codec_dr : JsonCodec DefaultsResponse := struct_codec (mkDefaultsResponse false [] 0) [
  fld "webhook_secret_configured" dr_WebhookSecretConfigured (set_fld dr_WebhookSecretConfigured);
  fld_omit "allowed_ips" dr_AllowedIPs (set_fld dr_AllowedIPs);
  fld_omit "message_ttl_seconds" dr_MessageTTLSeconds (set_fld dr_MessageTTLSeconds) ].

Record ServerConfigResponse := mkServerResponse {
  sr_MaxBodySize : Z; sr_BehindReverseProxy : bool; sr_CORSOrigin : string; sr_Footer : string;
  sr_TrustedProxyCIDRs : list string; sr_RequireKnownChannels : bool; sr_RateLimitEnabled : bool;
  sr_RateLimitRequests : Z; sr_RateLimitWindowSeconds : Z; sr_BanEnabled : bool; sr_BanMaxUniqueFailures : Z;
  sr_BanWindowSeconds : Z; sr_BanDurationSeconds : Z; sr_LoginThrottleAttempts : Z; sr_LoginThrottleCooldown : Z }.
#[export] Instance eta_sr : Eta ServerConfigResponse := fun x =>
  mkServerResponse (sr_MaxBodySize x) (sr_BehindReverseProxy x) (sr_CORSOrigin x) (sr_Footer x) (sr_TrustedProxyCIDRs x)
    (sr_RequireKnownChannels x) (sr_RateLimitEnabled x) (sr_RateLimitRequests x) (sr_RateLimitWindowSeconds x)
    (sr_BanEnabled x) (sr_BanMaxUniqueFailures x) (sr_BanWindowSeconds x) (sr_BanDurationSeconds x)
    (sr_LoginThrottleAttempts x) (sr_LoginThrottleCooldown x).
#[export] Instance codec_sr : JsonCodec ServerConfigResponse :=
  struct_codec (mkServerResponse 0 false "" "" [] false false 0 0 false 0 0 0 0 0) [
    fld "max_body_size" sr_MaxBodySize (set_fld sr_MaxBodySize);
    fld "behind_reverse_proxy" sr_BehindReverseProxy (set_fld sr_BehindReverseProxy);
    fld "cors_origin" sr_CORSOrigin (set_fld sr_CORSOrigin);
    fld "footer" sr_Footer (set_fld sr_Footer);
    fld_omit "trusted_proxy_cidrs" sr_TrustedProxyCIDRs (set_fld sr_TrustedProxyCIDRs);
    fld "require_known_channels" sr_RequireKnownChannels (set_fld sr_RequireKnownChannels);
    fld "rate_limit_enabled" sr_RateLimitEnabled (set_fld sr_RateLimitEnabled);
    fld "rate_limit_requests" sr_RateLimitRequests (set_fld sr_RateLimitRequests);
    fld "rate_limit_window_seconds" sr_RateLimitWindowSeconds (set_fld sr_RateLimitWindowSeconds);
    fld "ban_enabled" sr_BanEnabled (set_fld sr_BanEnabled);
    fld "ban_max_unique_failures" sr_BanMaxUniqueFailures (set_fld sr_BanMaxUniqueFailures);
    fld "ban_window_seconds" sr_BanWindowSeconds (set_fld sr_BanWindowSeconds);
    fld "ban_duration_seconds" sr_BanDurationSeconds (set_fld sr_BanDurationSeconds);
    fld "login_throttle_attempts" sr_LoginThrottleAttempts (set_fld sr_LoginThrottleAttempts);
    fld "login_throttle_cooldown_seconds" sr_LoginThrottleCooldown (set_fld sr_LoginThrottleCooldown) ].

Record GlobalConfigResponse := mkGlobalResponse { gr_Server : ServerConfigResponse; gr_Defaults : DefaultsResponse }.
#[export] Instance eta_gr : Eta GlobalConfigResponse := fun x => mkGlobalResponse (gr_Server x) (gr_Defaults x).
#[export] Instance codec_gr : JsonCodec GlobalConfigResponse := struct_codec (mkGlobalResponse jzero jzero) [
  fld "server" gr_Server (set_fld gr_Server); fld "defaults" gr_Defaults (set_fld gr_Defaults) ].

(** ** Projections and merges (api.go) *)

(** [if req.F != nil { x.F = *req.F }] *)
Definition assign {T A} (o : option T) (set : T -> A -> A) (x : A) : A :=
  match o with Some v => set v x | None => x end.

Definition token_response (t : ChannelAccessToken) : AccessTokenResponse :=
  mkTokenResponse (tok_ID t) (tok_Name t) (tok_Scope t) (tok_CreatedAt t).

Definition configured (secret : string) : bool := negb (bool_decide (secret = "")).

Definition toChannelResponse (p : Channel) : ChannelResponse :=
  let p := MigrateChannel p in
  mkChannelResponse (ch_ID p) (ch_Description p) (ch_CreatedBy p) (configured (ch_WebhookSecret p)) (ch_AllowedIPs p)
    (ch_MaxBodySize p) (ch_MessageTTLSeconds p) (ch_EncryptionMode p) (ch_EncryptionPublicKey p)
    (configured (ch_EncryptionKey p)) (ch_AccessMode p) (token_response <$> ch_AccessTokens p).

Definition toGlobalConfigResponse (cfg : GlobalConfig) : GlobalConfigResponse :=
  let sc := gc_Server cfg in
  let d := gc_Defaults cfg in
  mkGlobalResponse
    (mkServerResponse (sc_MaxBodySize sc) (sc_BehindReverseProxy sc) (sc_CORSOrigin sc) (sc_Footer sc)
       (sc_TrustedProxyCIDRs sc) (sc_RequireKnownChannels sc) (sc_RateLimitEnabled sc) (sc_RateLimitRequests sc)
       (sc_RateLimitWindowSeconds sc) (sc_BanEnabled sc) (sc_BanMaxUniqueFailures sc) (sc_BanWindowSeconds sc)
       (sc_BanDurationSeconds sc) (sc_LoginThrottleAttempts sc) (sc_LoginThrottleCooldown sc))
    (mkDefaultsResponse (configured (dc_WebhookSecret d)) (dc_AllowedIPs d) (dc_MessageTTLSeconds d)).

Definition applyServerUpdate (req : ServerConfigUpdateRequest) (sc : ServerConfig) : ServerConfig :=
  let sc := assign (su_MaxBodySize req) (set_fld sc_MaxBodySize) sc in
  let sc := assign (su_BehindReverseProxy req) (set_fld sc_BehindReverseProxy) sc in
  let sc := assign (su_CORSOrigin req) (set_fld sc_CORSOrigin) sc in
  let sc := assign (su_Footer req) (set_fld sc_Footer) sc in
  let sc := assign (su_TrustedProxyCIDRs req) (set_fld sc_TrustedProxyCIDRs) sc in
  let sc := assign (su_RateLimitEnabled req) (set_fld sc_RateLimitEnabled) sc in
  let sc := assign (su_RateLimitRequests req) (set_fld sc_RateLimitRequests) sc in
  let sc := assign (su_RateLimitWindowSeconds req) (set_fld sc_RateLimitWindowSeconds) sc in
  let sc := assign (su_BanEnabled req) (set_fld sc_BanEnabled) sc in
  let sc := assign (su_BanMaxUniqueFailures req) (set_fld sc_BanMaxUniqueFailures) sc in
  let sc := assign (su_BanWindowSeconds req) (set_fld sc_BanWindowSeconds) sc in
  let sc := assign (su_BanDurationSeconds req) (set_fld sc_BanDurationSeconds) sc in
  let sc := assign (su_RequireKnownChannels req) (set_fld sc_RequireKnownChannels) sc in
  let sc := assign (su_LoginThrottleAttempts req) (set_fld sc_LoginThrottleAttempts) sc in
  assign (su_LoginThrottleCooldown req) (set_fld sc_LoginThrottleCooldown) sc.

(** The eight assignments of updateChannel. *)
Definition applyChannelUpdate (req : ChannelUpdateRequest) (ch : Channel) : Channel :=
  let ch := assign (cu_Description req) (set_fld ch_Description) ch in
  let ch := assign (cu_WebhookSecret req) (set_fld ch_WebhookSecret) ch in
  let ch := assign (cu_AllowedIPs req) (set_fld ch_AllowedIPs) ch in
  let ch := assign (cu_MaxBodySize req) (set_fld ch_MaxBodySize) ch in
  let ch := assign (cu_MessageTTLSeconds req) (set_fld ch_MessageTTLSeconds) ch in
  let ch := assign (cu_EncryptionMode req) (set_fld ch_EncryptionMode) ch in
  let ch := assign (cu_EncryptionKey req) (set_fld ch_EncryptionKey) ch in
  assign (cu_EncryptionPublicKey req) (set_fld ch_EncryptionPublicKey) ch.
