(* ===== verification/Api.v ===== *)
(** * Api: internal/handler/api.go

    The handlers behind RegisterAPIHandlers, on the [World] of Middleware.v, and
    the table of their routes with the guards of each.  The struct validator is
    the class [Validator]: the failed (field, tag) pairs of a value. *)

From S2P Require Import Prelude Json Domain Bolt Crypto Store Repo Authorization RateLimit Http Service Buffer Broker Middleware AuthHandler ApiDto.

Class Validator := {
  invalid_channel : Channel -> list (string * string);
  invalid_createUser : userInput -> list (string * string);
  invalid_updateUser : userInput -> list (string * string);
  invalid_binding : UserBinding -> list (string * string)
}.

(** The documented rules of the struct tags the theorems use. *)
Class ValidatorLaws `{!Validator} := {
  channel_id_valid : forall c, invalid_channel c = [] -> channelid_match (ch_ID c) = true;
  username_required : forall u, invalid_createUser u = [] -> ui_Username u <> ""
}.

(** "" when every rule holds. *)
Definition validateStruct (failed : list (string * string)) : string :=
  Join ((fun '(field, tag) => field +:+ ": " +:+ tag) <$> failed) "; ".

Definition validEncryptionMode (mode : string) : bool :=
  bool_decide (mode = "") || bool_decide (mode = "server_side") || bool_decide (mode = "e2e").
Definition bad_encryption_mode : Response := writeError 400 "encryption_mode must be '', 'server_side', or 'e2e'".

Definition hasAdminRole (roles : list string) : bool := any (fun r => bool_decide (r = "admin")) roles.

Definition internal_failure (e : goerr) : Response := writeError 500 (err_msg e).
Definition missing_or_failure (msg : string) (e : goerr) : Response :=
  if errors_Is e KNotFound then writeError 404 msg else internal_failure e.
Definition no_content : Response := mkResponse 204 ∅ NoBody.
Definition forbidden : Response := writeError 403 "forbidden: insufficient privileges".

(** The JSON object of a map[string]any: sorted keys. *)
Definition user_json (u : User) : json :=
  JObj [("channels", jenc (u_Channels u)); ("id", JStr (u_ID u)); ("roles", jenc (u_Roles u)); ("username", JStr (u_Username u))].
Definition created_user_json (u : User) : json := JObj [("id", JStr (u_ID u)); ("username", JStr (u_Username u))].

(** writeCSV *)
Definition newline : string := String (Ascii.ascii_of_nat 10) EmptyString.
Definition writeCSV (channels : list Channel) : Response :=
  mkResponse 200 {[ "Content-Type" := ["text/csv"]; "Content-Disposition" := ["attachment; filename=channels.csv"] ]}
    (TextBody ("id" +:+ newline +:+ Join ((fun ch => ch_ID ch +:+ newline) <$> channels) "")).

Section api.
Context {R : Type} `{!Repository R} `{!Net} `{!Url} `{!Crypto} `{!JsonText} `{!JsonDecoder} `{!Validator}.
Context (rfc3339 : Z -> string).
Abbreviation W := (World R).
Abbreviation HD := (Handler W).
Abbreviation GD := (Guard (R := R)).
Abbreviation repo w := (svc_repo (w_svc w)).

(** A service call on the world. *)
Definition call {A} (f : Service R -> Service R * A) (w : W) : W * A :=
  let (s, a) := f (w_svc w) in (w <| w_svc := s |>, a).
Definition call' {A B} (f : Service R -> Service R * A * B) (w : W) : W * A * B :=
  let '(s, a, b) := f (w_svc w) in (w <| w_svc := s |>, a, b).

(** A handler that decodes its body first. *)
Definition with_body {A} `{JsonCodec A} (k : A -> W -> W * Response) : HD := fun r w =>
  match decodeJSON (A := A) r with inr resp => (w, resp) | inl a => k a w end.

(** A write answered by a bare status, or 500. *)
Definition write_then (f : Service R -> Service R * res unit) (resp : Response) (w : W) : W * Response :=
  let (w, x) := call f w in (w, match x with Ok _ => resp | Err e => internal_failure e end).

(** A read answered with its value. *)
Definition read_json {A} `{JsonCodec A} (x : res A) (w : W) : W * Response :=
  (w, match x with Ok a => writeJSON 200 a | Err e => internal_failure e end).

Definition bump_epoch (w : W) : W := (call svc_BumpAuthEpoch w).1.

(** ** Channels *)

Definition channelCtx : GD := fun r w => Next (r <| rq_Ctx := (rq_Ctx r) <| cx_channel := Some (URLParam r "id") |> |>) w.

Definition request_user (r : Request) (w : W) : option User := resolveRequestUser (w_svc w) r.

Definition listChannels : HD := fun r w =>
  let allowedChannels := match UserChannels (w_svc w) (request_user r w) (GetGroupsFromContext (rq_Ctx r)) with
                         | Ok l => l | Err _ => [] end in
  match repo_ListChannels (repo w) with
  | Err e => (w, internal_failure e)
  | Ok channels =>
      let filtered := MigrateChannel <$> filter (fun p => HasChannelAccess allowedChannels (ch_ID p) = true) channels in
      if bool_decide (hdr_Get (rq_Query r) "format" = "csv") then (w, writeCSV filtered)
      else (w, writeJSON 200 (toChannelResponse <$> filtered))
  end.

Definition validateChannelUpdate (ch : Channel) : string :=
  let msg := validateStruct (invalid_channel ch) in
  if negb (bool_decide (msg = "")) then msg
  else if (ch_MaxBodySize ch <? 0)%Z then "max_body_size must be >= 0"
  else if (ch_MessageTTLSeconds ch <? 0)%Z then "message_ttl_seconds must be >= 0"
  else match parseIPRanges (ch_AllowedIPs ch) with Err e => err_msg e | Ok _ => "" end.

(** The fields createChannel takes from the body. *)
Definition client_channel (username : string) (ch : Channel) : Channel :=
  ch <| ch_CreatedBy := username |> <| ch_AccessTokens := [] |> <| ch_AccessMode := "" |>
     <| ch_WebhookSignatures := [] |> <| ch_EncryptionEnabled := false |>.

Definition createChannel : HD := fun r => with_body (fun (ch : Channel) w =>
  let username := GetUsernameFromContext (rq_Ctx r) in
  let ch := client_channel username ch in
  if negb (validEncryptionMode (ch_EncryptionMode ch)) then (w, bad_encryption_mode)
  else
    let msg := validateChannelUpdate ch in
    if negb (bool_decide (msg = "")) then (w, writeError 400 msg)
    else
      let '(w, ch, x) := call' (svc_CreateChannel ch) w in
      match x with
      | Err e => (w, if errors_Is e KAlreadyExists then writeError 409 (err_msg e) else internal_failure e)
      | Ok _ =>
          let '(w, _, _) := call' (on_repo' (repo_CreateChannelRoleMapping (mkACL "" (ch_ID ch) "user" username "owner"))) w in
          (w, writeJSON 201 (toChannelResponse ch))
      end) r.

(** A channel handler that reads its channel first. *)
Definition with_channel (k : Channel -> W -> W * Response) : HD := fun r w =>
  match repo_GetChannel (URLParam r "id") (repo w) with
  | Err e => (w, missing_or_failure "channel not found" e)
  | Ok ch => k ch w
  end.

Definition getChannel : HD := with_channel (fun ch w => (w, writeJSON 200 (toChannelResponse ch))).

Definition updateChannel : HD := fun r => with_body (fun (req : ChannelUpdateRequest) =>
  if match cu_EncryptionMode req with Some m => negb (validEncryptionMode m) | None => false end
  then fun w => (w, bad_encryption_mode)
  else with_channel (fun ch w =>
    let ch := applyChannelUpdate req ch in
    let msg := validateChannelUpdate ch in
    if negb (bool_decide (msg = "")) then (w, writeError 400 msg)
    else
      let '(w, ch, x) := call' (svc_UpdateChannel ch) w in
      (w, match x with Ok _ => writeJSON 200 (toChannelResponse ch) | Err e => internal_failure e end)) r) r.

Definition deleteChannel : HD := fun r => write_then (on_repo (repo_DeleteChannel (URLParam r "id"))) no_content.

Definition generateSecret : HD := with_channel (fun ch w =>
  let (rnd, b) := rand_Read 32 (w_rand w) in
  let w := w <| w_rand := rnd |> in
  match b with
  | Err _ => (w, writeError 500 "failed to generate secret")
  | Ok b =>
      let secret := hex_encode b in
      let '(w, _, x) := call' (svc_UpdateChannel (ch <| ch_WebhookSecret := secret |>)) w in
      (w, match x with Ok _ => json_ok 200 (JObj [("webhook_secret", JStr secret)]) | Err e => internal_failure e end)
  end).

Definition or_default (dflt s : string) : string := if bool_decide (s = "") then dflt else s.

Definition createAccessToken : HD := fun r => with_body (fun (body : tokenInput) w =>
  let name := or_default "default" (ti_Name body) in
  let scope := or_default "both" (ti_Scope body) in
  if negb (bool_decide (scope = "produce")) && negb (bool_decide (scope = "consume")) && negb (bool_decide (scope = "both"))
  then (w, writeError 400 "scope must be 'produce', 'consume', or 'both'")
  else
    let '(rnd, s, x) := CreateAccessToken rfc3339 (w_now w) (URLParam r "id") name scope (w_rand w) (w_svc w) in
    let w := w <| w_svc := s |> <| w_rand := rnd |> in
    (w, match x with
        | Ok (raw, token) => json_ok 201 (JObj [("created_at", JStr (tok_CreatedAt token)); ("id", JStr (tok_ID token));
              ("name", JStr (tok_Name token)); ("scope", JStr (tok_Scope token)); ("token", JStr raw)])
        | Err e => internal_failure e
        end)) r.

Definition listed_token (t : ChannelAccessToken) : json :=
  JObj [("created_at", JStr (tok_CreatedAt t)); ("id", JStr (tok_ID t)); ("name", JStr (tok_Name t)); ("scope", JStr (tok_Scope t))].

Definition listAccessTokens : HD := with_channel (fun ch w =>
  (w, json_ok 200 (JObj [("access_mode", JStr (ch_AccessMode ch)); ("tokens", JArr (listed_token <$> ch_AccessTokens ch))]))).

Definition deleteAccessToken : HD := fun r =>
  write_then (DeleteAccessToken (URLParam r "id") (URLParam r "tokenID")) no_content.

Definition updateAccessMode : HD := fun r => with_body (fun (body : modeInput) =>
  let mode := mi_AccessMode body in
  if negb (bool_decide (mode = "public")) && negb (bool_decide (mode = "token"))
  then fun w => (w, writeError 400 "access_mode must be 'public' or 'token'")
  else with_channel (fun ch w =>
    if bool_decide (mode = "token") && bool_decide (ch_AccessTokens ch = [])
    then (w, writeError 400 "cannot enable token access without tokens")
    else
      let '(w, ch, x) := call' (svc_UpdateChannel (ch <| ch_AccessMode := mode |>)) w in
      (w, match x with Ok _ => json_ok 200 (JObj [("access_mode", JStr (ch_AccessMode ch))]) | Err e => internal_failure e end)) r) r.

Definition listChannelACL : HD := fun r w => read_json (repo_ListChannelRoleMappings (URLParam r "id") (repo w)) w.

Definition mapping_type_ok (ty : string) : bool := bool_decide (ty = "user") || bool_decide (ty = "group").

Definition addChannelACLEntry : HD := fun r => with_body (fun (m : ChannelRoleMapping) w =>
  if negb (mapping_type_ok (acl_Type m)) then (w, writeError 400 "type must be 'user' or 'group'")
  else if bool_decide (acl_Subject m = "") then (w, writeError 400 "subject required")
  else if bool_decide (roleLevel (acl_Role m) = 0) then (w, writeError 400 "role must be 'owner', 'write', or 'read'")
  else
    let '(w, m, x) := call' (on_repo' (repo_CreateChannelRoleMapping (m <| acl_ChannelID := URLParam r "id" |>))) w in
    (w, match x with Ok _ => writeJSON 201 m | Err e => internal_failure e end)) r.

Definition deleteChannelACLEntry : HD := fun r =>
  write_then (on_repo (repo_DeleteChannelRoleMapping (URLParam r "id") (URLParam r "entryID"))) no_content.

(** ** Global configuration *)

Definition getGlobalConfig : HD := fun _ w =>
  match repo_GetGlobalConfig (repo w) with
  | Err e => (w, internal_failure e)
  | Ok cfg => (w, writeJSON 200 (toGlobalConfigResponse cfg))
  end.

(** The defaults section of the update, checked field by field. *)
Definition applyDefaultsUpdate (req : DefaultsUpdateRequest) (d : DefaultChannelConfig) : DefaultChannelConfig + string :=
  let d := assign (du_WebhookSecret req) (set_fld dc_WebhookSecret) d in
  match match du_AllowedIPs req with Some ips => parseIPRanges ips | None => Ok (mkRanges [] []) end with
  | Err e => inr (err_msg e)
  | Ok _ =>
      let d := assign (du_AllowedIPs req) (set_fld dc_AllowedIPs) d in
      if match du_MessageTTLSeconds req with Some n => (n <? 0)%Z | None => false end
      then inr "message_ttl_seconds must be >= 0"
      else inl (assign (du_MessageTTLSeconds req) (set_fld dc_MessageTTLSeconds) d)
  end.

Definition merge_config (req : GlobalConfigUpdateRequest) (cfg : GlobalConfig) : GlobalConfig + string :=
  let cfg := match gu_Server req with
             | Some u => cfg <| gc_Server := applyServerUpdate u (gc_Server cfg) |>
             | None => cfg
             end in
  match gu_Defaults req with
  | None => inl cfg
  | Some u => match applyDefaultsUpdate u (gc_Defaults cfg) with
              | inl d => inl (cfg <| gc_Defaults := d |>)
              | inr msg => inr msg
              end
  end.

Definition sets_session_secret (req : GlobalConfigUpdateRequest) : bool :=
  match gu_Server req with
  | Some u => match su_SessionSecret u with Some s => negb (bool_decide (s = "")) | None => false end
  | None => false
  end.

Definition updateGlobalConfig : HD := with_body (fun (req : GlobalConfigUpdateRequest) w =>
  if sets_session_secret req then (w, writeError 400 "session_secret cannot be changed via API")
  else
    match repo_GetGlobalConfig (repo w) with
    | Err e => (w, internal_failure e)
    | Ok cfg =>
        match merge_config req cfg with
        | inr msg => (w, writeError 400 msg)
        | inl cfg => write_then (svc_UpdateGlobalConfig (Some cfg)) (writeJSON 200 (toGlobalConfigResponse cfg)) w
        end
    end).

(** ** Users *)

Definition listUsers : HD := fun _ w =>
  match repo_ListUsers (repo w) with
  | Err e => (w, internal_failure e)
  | Ok users => (w, json_ok 200 (JArr (user_json <$> users)))
  end.

(** The actor and its groups; no groups without an actor. *)
Definition resolveActor (r : Request) (w : W) : option User * list string :=
  match request_user r w with None => (None, []) | Some u => (Some u, GetGroupsFromContext (rq_Ctx r)) end.

Definition may_assign (r : Request) (w : W) (roles : list string) (scope : string) : bool :=
  let (actor, groups) := resolveActor r w in CanAssignRoles (w_svc w) actor groups roles scope.
Definition may_assign_channels (r : Request) (w : W) (channels : list string) : bool :=
  CanAssignChannels (resolveActor r w).1 channels.

Definition hash_password (password : string) (w : W) : W * res string :=
  let (rnd, salt) := rand_Read 16 (w_rand w) in
  (w <| w_rand := rnd |>, res_bind salt (fun salt => bcrypt_hash salt password)).

Definition createUser : HD := fun r => with_body (fun (input : userInput) w =>
  let msg := validateStruct (invalid_createUser input) in
  if negb (bool_decide (msg = "")) then (w, writeError 400 msg)
  else
    let roles := default [] (ui_Roles input) in
    let channels := default [] (ui_Channels input) in
    if negb (may_assign r w roles "*") then (w, forbidden)
    else if negb (may_assign_channels r w channels) then (w, forbidden)
    else
      let (w, hash) := hash_password (ui_Password input) w in
      match hash with
      | Err _ => (w, writeError 500 "failed to hash password")
      | Ok hash =>
          let user := mkUser (ui_Username input) (ui_Username input) hash [] [] roles channels in
          let '(w, user, x) := call' (on_repo' (repo_CreateUser user)) w in
          (w, match x with
              | Ok _ => json_ok 201 (created_user_json user)
              | Err e => if errors_Is e KAlreadyExists then writeError 409 "user already exists" else internal_failure e
              end)
      end) r.

Definition getUser : HD := fun r w =>
  match repo_GetUser (URLParam r "id") (repo w) with
  | Err e => (w, missing_or_failure "user not found" e)
  | Ok u => (w, json_ok 200 (user_json u))
  end.

(** The checks of updateUser on the stored user, in order. *)
Definition update_refused (r : Request) (w : W) (input : userInput) (u : User) : option Response :=
  if negb (may_assign r w (u_Roles u) "*") then Some forbidden
  else if match ui_Roles input with Some roles => negb (may_assign r w roles "*") | None => false end then Some forbidden
  else if match ui_Roles input with Some roles => hasAdminRole (u_Roles u) && negb (hasAdminRole roles) | None => false end
  then Some (writeError 400 "cannot remove admin role")
  else if match ui_Channels input with Some chs => negb (may_assign_channels r w chs) | None => false end then Some forbidden
  else None.

Definition merge_user (input : userInput) (hash : option string) (u : User) : User :=
  let u := if bool_decide (ui_Username input = "") then u else u <| u_Username := ui_Username input |> in
  let u := assign hash (set_fld u_PasswordHash) u in
  let u := assign (ui_Roles input) (set_fld u_Roles) u in
  assign (ui_Channels input) (set_fld u_Channels) u.

Definition revokes_sessions (input : userInput) : bool :=
  negb (bool_decide (ui_Password input = "")) || match ui_Roles input with Some _ => true | None => false end.

(** The new password hash, [None] without a new password. *)
Definition new_hash (input : userInput) (w : W) : W * res (option string) :=
  if bool_decide (ui_Password input = "") then (w, Ok None)
  else let (w, hash) := hash_password (ui_Password input) w in (w, res_bind hash (fun h => Ok (Some h))).

Definition updateUser : HD := fun r => with_body (fun (input : userInput) w =>
  let msg := validateStruct (invalid_updateUser input) in
  if negb (bool_decide (msg = "")) then (w, writeError 400 msg)
  else
    match (resolveActor r w).1 with
    | None => (w, writeError 401 "Unauthorized")
    | Some _ =>
        match repo_GetUser (URLParam r "id") (repo w) with
        | Err _ => (w, writeError 404 "user not found")
        | Ok u =>
            match update_refused r w input u with
            | Some resp => (w, resp)
            | None =>
                let (w, hash) := new_hash input w in
                match hash with
                | Err _ => (w, writeError 500 "failed to hash password")
                | Ok hash =>
                    let u := merge_user input hash u in
                    let (w, x) := call (on_repo (repo_UpdateUser u)) w in
                    match x with
                    | Err e => (w, internal_failure e)
                    | Ok _ => (if revokes_sessions input then bump_epoch w else w, json_ok 200 (created_user_json u))
                    end
                end
            end
        end
    end) r.

(** deleteUser in its two halves: the checks, and the deletion. *)
Definition delete_refused (id : string) (w : W) : option Response :=
  match repo_GetUser id (repo w) with
  | Err _ => Some (writeError 404 "user not found")
  | Ok u =>
      if hasAdminRole (u_Roles u) then
        match repo_ListUsers (repo w) with
        | Err _ => Some (writeError 500 "failed to list users")
        | Ok users =>
            if bool_decide (length (filter (fun usr => hasAdminRole (u_Roles usr) = true /\ u_ID usr <> id) users) = 0)
            then Some (writeError 400 "cannot delete the last admin user") else None
        end
      else None
  end.

Definition delete_commit (id : string) (w : W) : W * Response :=
  let (w, x) := call (on_repo (repo_DeleteUser id)) w in
  match x with
  | Err e => (w, internal_failure e)
  | Ok _ => (bump_epoch w, no_content)
  end.

Definition deleteUser : HD := fun r w =>
  match delete_refused (URLParam r "id") w with
  | Some resp => (w, resp)
  | None => delete_commit (URLParam r "id") w
  end.

(** ** Roles, bindings and mappings *)

Definition listRoles : HD := fun _ w => read_json (repo_ListRoles (repo w)) w.
Definition listBindings : HD := fun _ w => read_json (ListBindings (w_svc w)) w.

Definition binding_refused (r : Request) (w : W) (binding : UserBinding) (u : User) : option Response :=
  if negb (may_assign r w (u_Roles u) "*") || negb (may_assign r w (ub_Roles binding) "*") then Some forbidden
  else if negb (may_assign_channels r w (ub_Channels binding)) then Some forbidden
  else if hasAdminRole (u_Roles u) && negb (hasAdminRole (ub_Roles binding))
  then Some (writeError 400 "cannot remove admin role") else None.

Definition updateBinding : HD := fun r => with_body (fun (binding : UserBinding) w =>
  let userID := URLParam r "userID" in
  let binding := binding <| ub_UserID := userID |> in
  let msg := validateStruct (invalid_binding binding) in
  if negb (bool_decide (msg = "")) then (w, writeError 400 msg)
  else
    match repo_GetUser userID (repo w) with
    | Err _ => (w, writeError 500 "failed to get user")
    | Ok u =>
        match binding_refused r w binding u with
        | Some resp => (w, resp)
        | None =>
            let (w, x) := call (UpdateUserBinding binding) w in
            match x with
            | Err e => (w, internal_failure e)
            | Ok _ => (bump_epoch w, writeJSON 200 binding)
            end
        end
    end) r.

Definition listRoleMappings : HD := fun _ w => read_json (repo_ListRoleMappings (repo w)) w.

Definition createRoleMapping : HD := fun r => with_body (fun (m : RoleMapping) w =>
  if negb (mapping_type_ok (rm_Type m)) then (w, writeError 400 "type must be 'user' or 'group'")
  else if bool_decide (rm_Subject m = "") then (w, writeError 400 "subject required")
  else if bool_decide (rm_Role m = "") then (w, writeError 400 "role required")
  else
    let m := m <| rm_ChannelScope := or_default "*" (rm_ChannelScope m) |> in
    if negb (may_assign r w [rm_Role m] (rm_ChannelScope m)) then (w, forbidden)
    else
      let '(w, m, x) := call' (on_repo' (repo_CreateRoleMapping m)) w in
      (w, match x with Ok _ => writeJSON 201 m | Err e => internal_failure e end)) r.

Definition deleteRoleMapping : HD := fun r => write_then (on_repo (repo_DeleteRoleMapping (URLParam r "id"))) no_content.

(** ** The caller *)

Definition bool_json (key : string) (b : bool) : json := JObj [(key, JBool b)].

Definition getMe : HD := fun r w =>
  let s := w_svc w in
  if IsSetupMode s then (w, json_ok 200 (bool_json "setup_mode" true))
  else
    match request_user r w with
    | None => (w, writeError 401 "Unauthorized")
    | Some user =>
        let groups := GetGroupsFromContext (rq_Ctx r) in
        let channels := match UserChannels s (Some user) groups with Ok l => l | Err _ => [] end in
        (w, json_ok 200 (JObj [
           ("auth_methods", JObj [("local_enabled", JBool (IsInternalAuthEnabled s));
                                  ("oidc_providers", JArr (provider_json <$> providers_or_empty s))]);
           ("channels", jenc channels); ("permissions", jenc (GetUserPermissions s (Some user) groups));
           ("roles", jenc (u_Roles user)); ("username", JStr (u_Username user))]))
    end.

(** ** Authentication providers *)

Definition redact (p : OIDCProvider) : OIDCProvider :=
  if bool_decide (op_ClientSecret p = "") then p else p <| op_ClientSecret := "<redacted>" |>.

Definition listOIDCProviders : HD := fun _ w =>
  match repo_OIDCProviders (repo w) with
  | Err e => (w, internal_failure e)
  | Ok providers => (w, writeJSON 200 (redact <$> providers))
  end.

Definition with_groups_claim (p : OIDCProvider) : OIDCProvider :=
  p <| op_GroupsClaim := or_default "groups" (op_GroupsClaim p) |>.

Definition last_provider : Response :=
  writeError 400 "cannot remove the last OIDC provider while internal auth is disabled: at least one auth provider is required".

(** SetOIDCProviders and the revocation of sessions. *)
Definition store_providers (providers : list OIDCProvider) (resp : Response) (w : W) : W * Response :=
  let (w, x) := call (on_repo (repo_SetOIDCProviders providers)) w in
  match x with Err e => (w, internal_failure e) | Ok _ => (bump_epoch w, resp) end.

Definition updateAllOIDCProviders : HD := with_body (fun (providers : list OIDCProvider) w =>
  let providers := with_groups_claim <$> providers in
  if negb (IsInternalAuthEnabled (w_svc w)) && bool_decide (providers = []) then (w, last_provider)
  else store_providers providers (writeJSON 200 providers) w).

(** The loop replaces the first provider of the ID; otherwise it is appended. *)
Fixpoint replace_provider (id : string) (updated : OIDCProvider) (l : list OIDCProvider) : list OIDCProvider :=
  match l with
  | [] => [updated]
  | p :: l => if bool_decide (op_ID p = id) then updated :: l else p :: replace_provider id updated l
  end.

Definition updateOIDCProvider : HD := fun r => with_body (fun (updated : OIDCProvider) w =>
  match repo_OIDCProviders (repo w) with
  | Err e => (w, internal_failure e)
  | Ok providers =>
      let updated := with_groups_claim updated in
      store_providers (replace_provider (URLParam r "id") updated providers) (writeJSON 200 updated) w
  end) r.

Definition deleteOIDCProvider : HD := fun r w =>
  match repo_OIDCProviders (repo w) with
  | Err e => (w, internal_failure e)
  | Ok providers =>
      let updated := filter (fun p => op_ID p <> URLParam r "id") providers in
      if negb (IsInternalAuthEnabled (w_svc w)) && bool_decide (updated = []) then (w, last_provider)
      else store_providers updated no_content w
  end.

Definition getInternalAuth : HD := fun _ w => (w, json_ok 200 (bool_json "enabled" (IsInternalAuthEnabled (w_svc w)))).

Definition setInternalAuth : HD := with_body (fun (body : enabledInput) w =>
  let (w, x) := call (svc_SetInternalAuthEnabled (en_Enabled body)) w in
  (w, match x with
      | Ok _ => json_ok 200 (bool_json "enabled" (en_Enabled body))
      | Err e => if errors_Is e KInvalidArgument then writeError 400 (err_msg e) else internal_failure e
      end)).

(** ** Setup mode *)

(** The end of the setup window: the stored one, or now plus five minutes, which
    is then stored. *)
Definition setup_window (w : W) : W * res Z :=
  let setupEnd := repo_GetSetupModeEndTime (repo w) in
  if negb (time_IsZero setupEnd) then (w, Ok setupEnd)
  else
    let setupEnd := time_Add (w_now w) (5 * minute) in
    let (w, x) := call (on_repo (repo_SetSetupModeEndTime setupEnd)) w in
    (w, res_bind x (fun _ => Ok setupEnd)).

Definition setup_failed : Response := writeError 500 "failed to set setup mode end time".

Definition SetupModeMiddleware : GD := fun r w =>
  let expired := http_Error "Setup mode expired" 401 in
  if IsSetupMode (w_svc w) then
    let (w, x) := setup_window w in
    match x with
    | Err _ => Answer w setup_failed
    | Ok setupEnd => if time_Before (w_now w) setupEnd then Next r w else Answer w expired
    end
  else Answer w expired.

Definition AdaptiveAuthMiddleware : GD := fun r w =>
  if IsSetupMode (w_svc w) then
    let (w, x) := setup_window w in
    match x with Err _ => Answer w setup_failed | Ok _ => Next r w end
  else Next r w.

(** ** Routes *)

Record Route := mkRoute { rt_Method : string; rt_Path : string; rt_Guards : list GD; rt_Handler : HD }.
Definition run_route (t : Route) : HD := guarded (all_of (rt_Guards t)) (rt_Handler t).

Definition channel_guards (g : GD) : list GD := [channelCtx; g].

(** RegisterAPIHandlers, under the /api mount. *)
Definition api_routes : list Route :=
  let need perm : list GD := [RequirePermission perm] in
  let chan perm := channel_guards (RequirePermission perm) in
  let acl := channel_guards RequireChannelACLPermission in
  [ mkRoute "POST" "/channels/" (need PermChannelWrite) createChannel;
    mkRoute "GET" "/channels/" (need PermChannelRead) listChannels;
    mkRoute "GET" "/channels/{id}/" (chan PermChannelRead) getChannel;
    mkRoute "PUT" "/channels/{id}/" (chan PermChannelWrite) updateChannel;
    mkRoute "DELETE" "/channels/{id}/" (chan PermChannelWrite) deleteChannel;
    mkRoute "POST" "/channels/{id}/generate-secret" (chan PermChannelWrite) generateSecret;
    mkRoute "POST" "/channels/{id}/access-tokens" (chan PermChannelWrite) createAccessToken;
    mkRoute "GET" "/channels/{id}/access-tokens" (chan PermChannelRead) listAccessTokens;
    mkRoute "DELETE" "/channels/{id}/access-tokens/{tokenID}" (chan PermChannelWrite) deleteAccessToken;
    mkRoute "PUT" "/channels/{id}/access-mode" (chan PermChannelWrite) updateAccessMode;
    mkRoute "GET" "/channels/{id}/acl" (chan PermChannelRead) listChannelACL;
    mkRoute "POST" "/channels/{id}/acl" acl addChannelACLEntry;
    mkRoute "DELETE" "/channels/{id}/acl/{entryID}" acl deleteChannelACLEntry;
    mkRoute "GET" "/global/" (need PermGlobalRead) getGlobalConfig;
    mkRoute "PUT" "/global/" (need PermGlobalWrite) updateGlobalConfig;
    mkRoute "GET" "/users/" (need PermUsersRead) listUsers;
    mkRoute "POST" "/users/" (need PermUsersWrite) createUser;
    mkRoute "GET" "/users/{id}/" (need PermUsersRead) getUser;
    mkRoute "PUT" "/users/{id}/" (need PermUsersWrite) updateUser;
    mkRoute "DELETE" "/users/{id}/" (need PermUsersWrite) deleteUser;
    mkRoute "GET" "/rbac/roles" (need PermRBACRead) listRoles;
    mkRoute "GET" "/rbac/bindings" (need PermRBACRead) listBindings;
    mkRoute "PUT" "/rbac/bindings/{userID}" (need PermRBACWrite) updateBinding;
    mkRoute "GET" "/rbac/mappings" (need PermRBACRead) listRoleMappings;
    mkRoute "POST" "/rbac/mappings" (need PermRBACWrite) createRoleMapping;
    mkRoute "DELETE" "/rbac/mappings/{id}" (need PermRBACWrite) deleteRoleMapping;
    mkRoute "GET" "/oidc/providers" (need PermGlobalWrite) listOIDCProviders;
    mkRoute "PUT" "/oidc/providers" (need PermGlobalWrite) updateAllOIDCProviders;
    mkRoute "PUT" "/oidc/providers/{id}" (need PermGlobalWrite) updateOIDCProvider;
    mkRoute "DELETE" "/oidc/providers/{id}" (need PermGlobalWrite) deleteOIDCProvider;
    mkRoute "GET" "/auth/internal" (need PermGlobalWrite) getInternalAuth;
    mkRoute "PUT" "/auth/internal" (need PermGlobalWrite) setInternalAuth;
    mkRoute "GET" "/me" [] getMe ].
End api.

(** The two rules the theorems use, for the witnesses. *)
#[export] Instance toy_validator : Validator := {|
  invalid_channel c := if channelid_match (ch_ID c) then [] else [("ID", "channelid")];
  invalid_createUser u := if bool_decide (ui_Username u = "") then [("Username", "required")] else [];
  invalid_updateUser _ := [];
  invalid_binding _ := []
|}.
#[export] Instance toy_validator_laws : ValidatorLaws.
Proof. split; [intros c | intros u]; cbn; [by destruct (channelid_match _) | by case_bool_decide]. Qed.
