(* ===== verification/Server.v ===== *)
(** * Server: internal/server/server.go

    The wiring of the listeners: the routers with the middlewares each applies, and
    the pure helpers of the start-up.  chi's matching of a method and a path against
    a table of patterns is the class [Mux]; logging, request IDs and panic recovery
    are left out. *)

From S2P Require Import Prelude Json Domain Bolt Crypto Store Repo Authorization RateLimit Http Service Buffer Broker Encryption Middleware Webhook Events AuthHandler ApiDto Api.

(** [fmt.Errorf("...: %w", err)] *)
Definition wrap_err (prefix : string) (e : goerr) : goerr := mkErr (err_is e) (prefix +:+ err_msg e).

(** ** Listeners *)

Record listenerConfig := mkListener { lc_internalAddr : string; lc_publicAddr : string }.

Definition resolveListenerConfig (address : string) (port : Z) (publicAddress : string) (publicPort : Z) : res listenerConfig :=
  if (port <=? 0)%Z then Err (errorf "port must be greater than 0")
  else if (publicPort <? 0)%Z then Err (errorf "public-port must be >= 0")
  else if (publicPort =? port)%Z then Err (errorf ("public-port (" +:+ Itoa publicPort +:+ ") must differ from port (" +:+ Itoa port +:+ ")"))
  else Ok (mkListener (JoinHostPort address (Itoa port))
                      (if (0 <? publicPort)%Z then JoinHostPort publicAddress (Itoa publicPort) else "")).

Definition effectivePublicAddr (address : string) (port : Z) : string := JoinHostPort address (Itoa port).

(** brokerTTLNotifier.OnChannelChanged *)
Definition OnChannelChanged (channelID : string) (ttlSeconds : Z) (b : Broker) : Broker :=
  if (0 <? ttlSeconds)%Z then br_SetChannelTTL channelID (seconds ttlSeconds) b else b.

(** ** Routing *)

(** What chi makes of a request: the position of the route in the table with the
    URL parameters, a path known under other methods only, or nothing. *)
Inductive Match := Found (i : nat) (params : gmap string string) | WrongMethod | NoRoute.
Class Mux := { mux_match : list (string * string) -> string -> string -> Match }.

Section server.
Context {R : Type} `{!Repository R} `{!Net} `{!Url} `{!Crypto} `{!JsonText} `{!JsonDecoder} `{!Validator} `{!Box} `{!Mux}.
Context (rfc3339 : Z -> string).
(** Fixed at start-up: the derived session secret, the cookies' Secure flag, the version, the icon. *)
Context (secret : string) (secure : bool) (version faviconSVG : string).
(** Raft's view of this node, and the reverse proxy to a leader. *)
Context (is_leader IsCleanState IsStarted : bool) (leader_addr : string) (proxy : string -> Handler (World R)).
(** The SPA's files, the event streams of Events.v and the OIDC routes. *)
Context (spa : Request -> Response) (event_stream : Handler (World R)) (oidc_routes : list (Route (R := R))).
Abbreviation W := (World R).
Abbreviation HD := (Handler W).
Abbreviation RT := (Route (R := R)).

Definition ChannelPath : string := "/{channel:[a-zA-Z0-9_-]{1,64}}".
Definition EventsPath : string := "/events" +:+ ChannelPath.

Definition not_found : HD := fun _ w => (w, http_Error "404 page not found" 404).
Definition method_not_allowed : Response := mkResponse 405 ∅ NoBody.

Definition dispatch (routes : list RT) (nf : HD) : HD := fun r w =>
  match mux_match ((fun t => (rt_Method t, rt_Path t)) <$> routes) (rq_Method r) (rq_Path r) with
  | Found i params =>
      match routes !! i with
      | Some t => run_route t (r <| rq_Params := params |>) w
      | None => nf r w
      end
  | WrongMethod => (w, method_not_allowed)
  | NoRoute => nf r w
  end.

Definition answers (resp : Response) : HD := fun _ w => (w, resp).

(** buildWebhookRouter *)
Definition webhook_post : RT := mkRoute "POST" ChannelPath webhook_guards (HandleWebhookPost version).

(** The probes both listeners serve. *)
Definition health_routes : list RT :=
  [ mkRoute "GET" "/health" [] (answers (RetVersion version)); mkRoute "GET" "/livez" [] (answers (RetVersion version));
    mkRoute "GET" "/version" [] (answers (RetVersion version)); mkRoute "GET" "/readyz" [] (answers (RetReadyz IsCleanState));
    mkRoute "GET" "/startup" [] (answers (RetStartup IsStarted)) ].

Definition buildPublicRouter : HD := dispatch (health_routes ++ [webhook_post]) not_found.

(** The /api router: its own routes besides those of RegisterAPIHandlers. *)
Definition operational_routes : list RT :=
  let write : list Guard := [ChannelContext_mw; RequirePermission PermChannelWrite] in
  [ mkRoute "POST" "/send/{channel}" write HandleTestPayloadSend;
    mkRoute "POST" "/channels/{channel}/events/{eventId}/replay" write HandleEventReplay;
    mkRoute "POST" "/channels/{channel}/generate-encryption-key" [RequirePermission PermAll] HandleGenerateEncryptionKey;
    mkRoute "GET" "/bans" [RequirePermission PermGlobalRead] APIBansHandler;
    mkRoute "DELETE" "/bans/{ip}" [RequirePermission PermGlobalRead; RequirePermission PermGlobalWrite] APIUnbanHandler ].

Definition api_table : list RT := api_routes rfc3339 ++ operational_routes.
Definition api_guards : list Guard :=
  [LeaderForwardMiddleware is_leader leader_addr proxy; MutationOriginValidation; RequireAuthDynamic secret secure].
Definition apiRouter : HD := fun r =>
  guarded (all_of api_guards) (dispatch api_table not_found) (r <| rq_Path := TrimPrefix (rq_Path r) "/api" |>).

Definition main_routes : list RT :=
  health_routes ++ oidc_routes ++
  [ mkRoute "GET" "/favicon.ico" [] (answers (mkResponse 200 {[ "Content-Type" := ["image/svg+xml"] ]} (TextBody faviconSVG)));
    mkRoute "GET" EventsPath [ChannelAccessMiddleware "consume"] event_stream;
    mkRoute "GET" "/api/auth/methods" [] APIAuthMethodsHandler;
    mkRoute "POST" "/api/auth/login" [] (APILoginHandler secret secure);
    mkRoute "POST" "/api/auth/logout" [] (APILogoutHandler secure);
    mkRoute "*" "/api/*" [] apiRouter ].

Definition mainRouter : HD :=
  guarded StripForwardMarker
    (SecurityHeadersMiddleware
      (guarded (all_of [BanMiddleware; RateLimitMiddleware])
        (dispatch main_routes (fun r w => (w, spa r))))).

Definition restrictedRouter : HD := dispatch [webhook_post] not_found.

(** The internal listener. *)
Definition finalRouter : HD := fun r =>
  if bool_decide (rq_Method r = "POST") && negb (HasPrefix (rq_Path r) "/api/") then restrictedRouter r else mainRouter r.

(** ** Start-up *)

(** The TTLs of the stored channels, handed to the broker; a channel that does not
    resolve is a nil dereference. *)
Fixpoint restore_ttls (s : Service R) (channels : list Channel) (b : Broker) : res Broker :=
  match channels with
  | [] => Ok b
  | ch :: channels =>
      match svc_ResolveChannelConfig s (ch_ID ch) with
      | Err _ => Err (mkErr KPanic "invalid memory address or nil pointer dereference")
      | Ok resolved => restore_ttls s channels (OnChannelChanged (ch_ID ch) (ch_MessageTTLSeconds resolved) b)
      end
  end.

(** The session secret of a leader that has none yet. *)
Definition leader_session_secret (w : W) : W * res string :=
  let secret := SessionSecret (w_svc w) in
  if negb (bool_decide (secret = "")) then (w, Ok secret)
  else
    let (rnd, b) := rand_Read 32 (w_rand w) in
    let w := w <| w_rand := rnd |> in
    match b with
    | Err e => (w, Err (errorf ("generate session secret: " +:+ err_msg e)))
    | Ok b =>
        let secret := hex_encode b in
        let (s, x) := SetSessionSecret (w_svc w) secret in
        (w <| w_svc := s |>, match x with Err e => Err (wrap_err "persist generated session secret: " e) | Ok _ => Ok secret end)
    end.

Definition cookie_secure (sslEnabled autoCert : bool) (publicURL : string) : bool :=
  sslEnabled || autoCert || HasPrefix publicURL "https://".

(** initDevAdmin, up to the password file; the password it reports. *)
Definition initDevAdmin (salt password : string) (w : W) : W * res (option string) :=
  if negb (IsSetupMode (w_svc w)) then (w, Ok None)
  else
    let (w, pw) :=
      if bool_decide (password = "")
      then let (rnd, x) := GenerateRandomHex (w_rand w) in (w <| w_rand := rnd |>, x)
      else (w, Ok password) in
    match pw with
    | Err e => (w, Err (wrap_err "generate dev admin password: " e))
    | Ok pw =>
        let (s, x) := CreateDevAdmin salt pw (w_svc w) in
        (w <| w_svc := s |>, match x with Err e => Err (wrap_err "create dev admin: " e) | Ok _ => Ok (Some pw) end)
    end.
End server.
