(* ===== verification/Governance.v ===== *)
(** * Governance: who can still administer a deployment

    [GovernanceLaws] is what the API relies on to keep one: how every repository
    write, accepted, refused or lost by raft, changes the listed users, the OIDC
    providers and the internal-authentication flag.  The raft store discharges
    it. *)

From S2P Require Import Prelude Json Domain Bolt Fsm Crypto Store Repo Authorization StoreTheory RateLimit Http Service.

#[local] Arguments jenc : simpl never.
#[local] Arguments jdec : simpl never.

(** The IDs ListUsers reports: a path segment that is not the index. *)
Definition listable (id : string) : Prop := id <> "" /\ id <> "by-username" /\ plain_id id.
#[export] Instance listable_dec id : Decision (listable id).
Proof. unfold listable, plain_id. apply _. Defined.

(** ** The contract *)

(** What a write may not change. *)
Record same_auth {R} `{!Repository R} (r r' : R) : Prop := {
  sa_providers : repo_OIDCProviders r' = repo_OIDCProviders r;
  sa_internal : repo_InternalAuthEnabled r' = repo_InternalAuthEnabled r }.

#[export] Instance same_auth_pre {R} `{!Repository R} : PreOrder (same_auth (R := R)).
Proof. split; [by constructor|]. intros r1 r2 r3 [] []. constructor; congruence. Qed.

(** The record CreateUser stores: a user without an ID is keyed by its name. *)
Definition named (u : User) : User := if bool_decide (u_ID u = "") then u <| u_ID := u_Username u |> else u.

Class GovernanceLaws (R : Type) `{!Repository R} := {
  gov_ok : R -> Prop;
  gov_user : R -> string -> option User;
  law_keyed : forall r id u, gov_ok r -> gov_user r id = Some u -> u_ID u = id /\ listable id;
  law_GetUser_keyed : forall r id u, gov_ok r -> plain_id id -> repo_GetUser id r = Ok u -> u_ID u = id;
  law_ListUsers : forall r, gov_ok r ->
    exists l, repo_ListUsers r = Ok l /\ forall u, u ∈ l <-> exists id, gov_user r id = Some u;
  law_GetUser : forall r id u, gov_ok r -> listable id -> repo_GetUser id r = Ok u <-> gov_user r id = Some u;
  gov_frame : R -> R -> Prop := fun r r' =>
    gov_ok r' /\ (forall id, gov_user r' id = gov_user r id) /\ same_auth r r';
  law_CreateChannel : forall r c, gov_ok r -> gov_frame r (repo_CreateChannel c r).1.1;
  law_UpdateChannel' : forall r c, gov_ok r -> gov_frame r (repo_UpdateChannel c r).1.1;
  law_DeleteChannel : forall r id, gov_ok r -> gov_frame r (repo_DeleteChannel id r).1;
  law_CreateChannelRoleMapping : forall r m, gov_ok r -> gov_frame r (repo_CreateChannelRoleMapping m r).1.1;
  law_DeleteChannelRoleMapping : forall r c id, gov_ok r -> gov_frame r (repo_DeleteChannelRoleMapping c id r).1;
  law_CreateRoleMapping : forall r m, gov_ok r -> gov_frame r (repo_CreateRoleMapping m r).1.1;
  law_DeleteRoleMapping : forall r id, gov_ok r -> gov_frame r (repo_DeleteRoleMapping id r).1;
  law_UpdateGlobalConfig : forall r c, gov_ok r -> gov_frame r (repo_UpdateGlobalConfig c r).1;
  law_BumpAuthEpoch' : forall r, gov_ok r -> gov_frame r (repo_BumpAuthEpoch r).1;
  law_SetSetupModeEndTime : forall r t, gov_ok r -> gov_frame r (repo_SetSetupModeEndTime t r).1;
  law_CreateUser : forall r u, gov_ok r ->
    let r' := (repo_CreateUser u r).1.1 in
    gov_ok r' /\ same_auth r r' /\ (forall id v, gov_user r id = Some v -> gov_user r' id = Some v) /\
    forall id v, gov_user r' id = Some v -> gov_user r id = Some v \/ v = named u;
  law_UpdateUser : forall r u, gov_ok r -> plain_id (u_ID u) ->
    let r' := (repo_UpdateUser u r).1 in
    gov_ok r' /\ same_auth r r' /\
    forall id, gov_user r' id = gov_user r id \/ id = u_ID u /\ gov_user r' id = Some u;
  law_DeleteUser : forall r id, gov_ok r -> plain_id id ->
    let r' := (repo_DeleteUser id r).1 in
    gov_ok r' /\ same_auth r r' /\ (forall id', id' <> id -> gov_user r' id' = gov_user r id') /\
    forall v, gov_user r' id = Some v -> gov_user r id = Some v;
  law_ExternalIdentity : forall r p i sub u, gov_ok r -> repo_GetUserByExternalIdentity p i sub r = Ok u ->
    (exists id, gov_user r id = Some u) /\ u_ExternalIdentities u <> [];
  law_SetOIDCProviders : forall r ps, gov_ok r ->
    let r' := (repo_SetOIDCProviders ps r).1 in
    gov_ok r' /\ (forall id, gov_user r' id = gov_user r id) /\
    repo_InternalAuthEnabled r' = repo_InternalAuthEnabled r /\
    (repo_OIDCProviders r' = repo_OIDCProviders r \/ repo_OIDCProviders r' = Ok ps);
  law_SetInternalAuthEnabled' : forall r b, gov_ok r ->
    let r' := (repo_SetInternalAuthEnabled b r).1 in
    gov_ok r' /\ (forall id, gov_user r' id = gov_user r id) /\
    repo_OIDCProviders r' = repo_OIDCProviders r /\
    (repo_InternalAuthEnabled r' = repo_InternalAuthEnabled r \/ repo_InternalAuthEnabled r' = Ok (Some b))
}.

(** ** What a submission writes *)

Section raft.
Context {DB B : Type} `{!Bolt DB B} `{!BoltLaws DB B} `{!Crypto} `{!JsonText} `{!CryptoLaws} `{!JsonTextLaws}.
Implicit Types rs : RaftStore DB.

(** [ws] was written and the rest of the node is as before, but for the entropy
    consumed. *)
Record wrote_store rs rs' (ws : list (string * option json)) : Prop := {
  ws_get : forall k, store_get rs' k = writes (store_get rs) ws k;
  ws_ready : fsm_ready (rs_db rs');
  ws_keeper : rs_keeper rs' = rs_keeper rs;
  ws_rand : rnd_src (rs_rand rs') = rnd_src (rs_rand rs) }.

Definition either_wrote rs rs' ws : Prop := wrote_store rs rs' [] \/ wrote_store rs rs' ws.

Lemma submit_either cmd rs : fsm_ready (rs_db rs) -> either_wrote rs (submit cmd rs).1 (command_writes cmd).
Proof.
  intros Hr. unfold submit, Apply. destruct (negb (IsLeader rs)); [by left|].
  destruct (FSM_Apply (rs_db rs) (jenc cmd)) as [db' resp] eqn:Ea.
  assert (either_wrote rs (tick rs <| rs_db := db' |>) (command_writes cmd)) as Hw.
  { destruct resp as [[]|e].
    - right. apply (FSM_transacted _ _ _ cmd) in Ea as (Hw & Hrdy & _); [|done|apply cmd_roundtrip].
      split; [exact Hw | by apply Hrdy | done | done].
    - left. apply FSM_unchanged in Ea as ->. by split. }
  destruct (rf_fate _ _); [exact Hw | by left | exact Hw].
Qed.

Lemma applyMulti_either es rs : fsm_ready (rs_db rs) -> either_wrote rs (applyMulti es rs).1 (kv_write <$> es).
Proof. intros Hr. rewrite <- applyMulti_writes. by apply submit_either. Qed.

(** Consuming entropy first changes nothing stored. *)
Lemma either_rand rs r rs' ws :
  rnd_src r = rnd_src (rs_rand rs) -> either_wrote (rs <| rs_rand := r |>) rs' ws -> either_wrote rs rs' ws.
Proof. intros Hr [[G D K S]|[G D K S]]; [left|right]; split; try done; cbn in S; congruence. Qed.

Lemma either_refl rs ws : fsm_ready (rs_db rs) -> either_wrote rs rs ws.
Proof. by left. Qed.

Lemma sealString_src ko r s : rnd_src (sealString ko r s).1 = rnd_src r.
Proof.
  unfold sealString, Encrypt. destruct ko as [k|]; [|done]. case_bool_decide; [done|].
  destruct (ck_keys k !! ck_primary k); [|done]. by destruct (negb _).
Qed.

Lemma seal_sigs_src ko l r : rnd_src (seal_sigs ko r l).1.1 = rnd_src r.
Proof.
  revert r. induction l as [|s l IH]; intros r; [done|]. cbn [seal_sigs]. pose proof (sealString_src ko r s) as Hs.
  destruct (sealString ko r s) as [r1 [s1|]]; [|done]. specialize (IH r1).
  destruct (seal_sigs ko r1 l) as [[r2 l2] x]. cbn in *. congruence.
Qed.

Lemma sealChannel_src ko r p : rnd_src (sealChannel ko r p).1.1 = rnd_src r.
Proof.
  unfold sealChannel. destruct ko as [k|]; [|done].
  pose proof (sealString_src (Some k) r (ch_WebhookSecret p)) as Hq1.
  destruct (sealString _ r _) as [r1 [s1|]]; [|done]. cbn [fst] in Hq1. cbn iota beta zeta.
  pose proof (sealString_src (Some k) r1 (ch_EncryptionKey p)) as Hq2. cbn [ch_EncryptionKey set_fld].
  destruct (sealString _ r1 _) as [r2 [s2|]]; cbn [fst] in Hq2; [|by cbn; congruence]. cbn iota beta zeta.
  pose proof (sealString_src (Some k) r2 (ch_EncryptionPrivateKey p)) as Hq3. cbn [ch_EncryptionPrivateKey set_fld].
  destruct (sealString _ r2 _) as [r3 [s3|]]; cbn [fst] in Hq3; [|by cbn; congruence]. cbn iota beta zeta.
  pose proof (seal_sigs_src (Some k) (ch_WebhookSignatures p) r3) as Hq4. cbn [ch_WebhookSignatures set_fld].
  destruct (seal_sigs _ r3 _) as [[r4 sigs] x]. cbn in *. congruence.
Qed.

Lemma sealConfig_src ko r c : rnd_src (sealConfig ko r c).1 = rnd_src r.
Proof.
  unfold sealConfig. destruct ko as [k|]; [|done].
  pose proof (sealString_src (Some k) r (sc_SessionSecret (gc_Server c))) as Hq1.
  destruct (sealString _ r _) as [r1 [s1|]]; [|done].
  pose proof (sealString_src (Some k) r1 (dc_WebhookSecret (gc_Defaults c))) as Hq2.
  destruct (sealString _ r1 _) as [r2 y]. cbn in *. congruence.
Qed.

Lemma seal_providers_spec ko l r :
  keeper_opt_ok ko -> rand_fills r ->
  rnd_src (seal_providers ko r l).1 = rnd_src r /\
  forall l', (seal_providers ko r l).2 = Ok l' ->
    res_map (fun p => res_bind (openString ko (op_ClientSecret p)) (fun s => Ok (p <| op_ClientSecret := s |>))) l' = Ok l.
Proof.
  intros Hk. revert r. induction l as [|p l IH]; intros r Hr; cbn [seal_providers]; [split; [done|]; by intros l' [= <-]|].
  pose proof (sealString_src ko r (op_ClientSecret p)) as Hs.
  destruct (sealString ko r (op_ClientSecret p)) as [r1 [s1|]] eqn:E; [|by split].
  destruct (seal_open _ _ _ _ _ Hk Hr E) as [Ho Hr1]. destruct (IH r1 Hr1) as [Hsrc Hl].
  destruct (seal_providers ko r1 l) as [r2 [l2|]]; cbn in *; (split; [congruence|]); [|done].
  intros l' [= <-]. cbn [res_map]. cbn [op_ClientSecret set_fld]. rewrite Ho. cbn [res_bind].
  rewrite (Hl _ eq_refl). cbn [res_bind]. by destruct p.
Qed.

(** ** The raft store's view *)

Definition providers_key : string := "/global/auth/oidc_providers".
Definition internal_key : string := "/global/auth/internal_enabled".

(** The keys the view depends on. *)
Definition governed (k : string) : bool :=
  HasPrefix k "/users/" || bool_decide (k = providers_key) || bool_decide (k = internal_key).

Definition stored_user rs (id : string) : option User := j ← store_get rs (user_key id); Unmarshal (A := User) j.
Definition raft_user rs (id : string) : option User := if decide (listable id) then stored_user rs id else None.

Definition raft_gov rs : Prop :=
  store_ready rs /\ forall id u, plain_id id -> stored_user rs id = Some u -> u_ID u = id.

Definition raft_frame rs rs' : Prop :=
  raft_gov rs' /\ (forall id, raft_user rs' id = raft_user rs id) /\ same_auth rs rs'.

Lemma writes_other (m : fsm_state) ws k : Forall (fun w => w.1 <> k) ws -> writes m ws k = m k.
Proof.
  revert m. induction ws as [|w ws IH]; intros m Hf; [done|]. inversion_clear Hf. simpl. rewrite IH by done.
  unfold write. by rewrite decide_False.
Qed.

Lemma user_key_governed id : governed (user_key id) = true.
Proof. unfold governed, user_key, HasPrefix. by rewrite prefix_app. Qed.

Lemma OIDCProviders_stored rs : fsm_ready (rs_db rs) ->
  OIDCProviders rs = match store_get rs providers_key with
    | None => Ok []
    | Some val => res_bind (Unmarshal_err (A := list OIDCProvider) val)
          (res_map (fun p => res_bind (openString (rs_keeper rs) (op_ClientSecret p))
                               (fun s => Ok (p <| op_ClientSecret := s |>))))
    end.
Proof. intros Hr. unfold OIDCProviders. by rewrite getFSMValue_ready by exact Hr. Qed.

Lemma InternalAuthEnabled_stored rs : fsm_ready (rs_db rs) ->
  InternalAuthEnabled rs = match store_get rs internal_key with
    | None => Ok None
    | Some val => res_bind (Unmarshal_err (A := bool) val) (fun b => Ok (Some b))
    end.
Proof. intros Hr. unfold InternalAuthEnabled. by rewrite getFSMValue_ready by exact Hr. Qed.

Lemma wrote_ready rs rs' ws : store_ready rs -> wrote_store rs rs' ws -> store_ready rs'.
Proof.
  intros (Hr & Hk & Hf) [_ Hr' Hk' Hs]. split; [exact Hr'|]. split; [by rewrite Hk'|].
  unfold rand_fills. by rewrite Hs.
Qed.

(** The flag and the providers are what their keys hold. *)
Lemma wrote_auth rs rs' ws :
  store_ready rs -> wrote_store rs rs' ws -> Forall (fun w => w.1 <> providers_key /\ w.1 <> internal_key) ws ->
  same_auth rs rs'.
Proof.
  intros (Hr & _) [Hg Hr' Hk _] Hf. split; cbn [repo_OIDCProviders repo_InternalAuthEnabled raft_repository].
  - rewrite !OIDCProviders_stored, Hk, Hg by done. rewrite writes_other; [done|].
    eapply Forall_impl; [exact Hf|]. by intros w [? _].
  - rewrite !InternalAuthEnabled_stored, Hg by done. rewrite writes_other; [done|].
    eapply Forall_impl; [exact Hf|]. by intros w [_ ?].
Qed.

Lemma wrote_user rs rs' ws id :
  wrote_store rs rs' ws -> Forall (fun w => w.1 <> user_key id) ws -> stored_user rs' id = stored_user rs id.
Proof. intros [Hg _ _ _] Hf. unfold stored_user. by rewrite Hg, writes_other. Qed.

Lemma listed_same rs rs' : (forall id, stored_user rs' id = stored_user rs id) -> forall id, raft_user rs' id = raft_user rs id.
Proof. intros Hs id. unfold raft_user. by rewrite Hs. Qed.

Lemma governed_other k ws : governed k = true -> Forall (fun w => governed w.1 = false) ws -> Forall (fun w : string * option json => w.1 <> k) ws.
Proof. intros Hk Hf. eapply Forall_impl; [exact Hf|]. intros w Hw <-. cbn beta in Hw. congruence. Qed.

Lemma wrote_frame rs rs' ws :
  raft_gov rs -> wrote_store rs rs' ws -> Forall (fun w => governed w.1 = false) ws -> raft_frame rs rs'.
Proof.
  intros [Hrdy Hkeyed] Hw Hf.
  assert (forall id, stored_user rs' id = stored_user rs id) as Hu.
  { intros id. eapply wrote_user; [exact Hw|]. apply governed_other; [apply user_key_governed | exact Hf]. }
  split; [|split; [by apply listed_same|]].
  - split; [by eapply wrote_ready|]. intros id u. rewrite Hu. apply Hkeyed.
  - eapply wrote_auth; [exact Hrdy|exact Hw|]. eapply Forall_impl; [exact Hf|]. intros w Hn.
    cbn beta in Hn. split; intros E; rewrite E in Hn; discriminate Hn.
Qed.

Lemma either_frame rs rs' ws :
  raft_gov rs -> either_wrote rs rs' ws -> Forall (fun w => governed w.1 = false) ws -> raft_frame rs rs'.
Proof. intros Hg [Hw|Hw] Hf; by eapply wrote_frame. Qed.

(** A command on one key outside the view. *)
Lemma apply_frame op key v rs :
  raft_gov rs -> op = "set" \/ op = "create-channel" \/ op = "delete" -> governed key = false ->
  raft_frame rs (applyCommand op key v rs).1.
Proof.
  intros Hg Hop Hk. eapply either_frame; [exact Hg | apply submit_either, Hg|].
  destruct Hop as [-> | [-> | ->]]; by repeat constructor.
Qed.

Lemma frame_rand rs r rs' :
  rnd_src r = rnd_src (rs_rand rs) -> (raft_gov (rs <| rs_rand := r |>) -> raft_frame (rs <| rs_rand := r |>) rs') ->
  raft_gov rs -> raft_frame rs rs'.
Proof.
  intros Hr Hf [(Hrdy & Hk & Hf') Hkeyed]. destruct Hf as (Hg & Hu & [Hp Hi]).
  - split; [|exact Hkeyed]. split; [exact Hrdy|]. split; [exact Hk|]. unfold rand_fills. cbn. by rewrite Hr.
  - split; [exact Hg|]. split; [exact Hu|]. split; [exact Hp | exact Hi].
Qed.

Lemma frame_refl rs : raft_gov rs -> raft_frame rs rs.
Proof. intros Hg. by split_and!. Qed.

(** ** ListUsers *)

Lemma Split_head_plain s sep w ws : Split s sep = w :: ws -> elem_str sep w = false.
Proof.
  revert w ws. induction s as [|c s IH]; intros w ws; simpl; [by intros [= <- _]|].
  case_bool_decide as Hc; [by intros [= <- _]|].
  destruct (Split s sep) as [|w' ws']; intros [= <- _]; simpl; rewrite bool_decide_false by congruence; [done|].
  simpl. by eapply IH.
Qed.

Lemma first_part_plain prefix key : plain_id (first_part prefix key).
Proof.
  unfold plain_id, first_part. destruct (Split _ _) as [|w ws] eqn:E; [done|]. by eapply Split_head_plain.
Qed.

Lemma first_part_user id : plain_id id -> first_part "/users/" (user_key id) = id.
Proof.
  intros Hid. unfold first_part, user_key. rewrite TrimPrefix_app. unfold plain_id in Hid.
  induction id as [|c id IH]; [done|]. simpl in Hid. apply orb_false_iff in Hid as [Hc Hid].
  apply bool_decide_eq_false in Hc.
  change (String c id +:+ "/") with (String c (id +:+ "/")). cbn [Split].
  rewrite bool_decide_false by congruence. specialize (IH Hid). destruct (Split (id +:+ "/") "/"); by subst.
Qed.

(** A key of the list, of an ID not yet seen, holds the user. *)
Definition listed rs (keys : list string) (seen : gset string) (u : User) : Prop :=
  exists key, key ∈ keys /\ (first_part "/users/" key ∉ seen) /\ raft_user rs (first_part "/users/" key) = Some u.

Lemma listed_cons rs key keys seen u :
  listed rs (key :: keys) seen u <->
  ((first_part "/users/" key ∉ seen) /\ raft_user rs (first_part "/users/" key) = Some u) \/ listed rs keys seen u.
Proof. unfold listed. setoid_rewrite elem_of_cons. naive_solver. Qed.

(** Marking an ID seen only hides the user it holds. *)
Lemma listed_seen rs keys seen id u :
  raft_user rs id = Some u \/ listed rs keys ({[id]} ∪ seen) u <-> raft_user rs id = Some u \/ listed rs keys seen u.
Proof.
  unfold listed. split; (intros [Hu|(k & Hk & Hns & Hu)]; [by left|]).
  - right. exists k. split_and!; [done|set_solver|done].
  - destruct (decide (first_part "/users/" k = id)) as [<-|Hne]; [by left|].
    right. exists k. split_and!; [done|set_solver|done].
Qed.

Lemma list_users_elem rs keys seen u :
  fsm_ready (rs_db rs) -> u ∈ list_users rs keys seen <-> listed rs keys seen u.
Proof.
  intros Hr. revert seen. induction keys as [|key keys IH]; intros seen; cbn [list_users].
  { unfold listed. split; [by intros ?%not_elem_of_nil | by intros (? & ?%not_elem_of_nil & _)]. }
  rewrite listed_cons. set (id := first_part "/users/" key).
  assert (plain_id id) as Hpl by apply first_part_plain.
  destruct (bool_decide (id = "") || bool_decide (id = "by-username")) eqn:Eb.
  { rewrite IH. split; [by right|]. intros [[_ Hu]|Hin]; [|done]. exfalso. revert Hu. unfold raft_user.
    rewrite decide_False; [done|]. unfold listable. gobool. tauto. }
  assert (listable id) as Hl by (unfold listable; gobool; tauto).
  destruct (decide (id ∈ seen)) as [Es|Es]; [rewrite bool_decide_true, IH by exact Es; tauto|].
  rewrite bool_decide_false by exact Es.
  rewrite getFSMValue_ready by exact Hr. change (fsm_get (rs_db rs) (user_key id)) with (store_get rs (user_key id)).
  assert (raft_user rs id = (j ← store_get rs (user_key id); Unmarshal (A := User) j)) as Hid
    by (unfold raft_user; by rewrite decide_True by exact Hl).
  transitivity (raft_user rs id = Some u \/ listed rs keys ({[id]} ∪ seen) u).
  - rewrite <- IH. destruct (store_get rs (user_key id)) as [val|]; cbn in Hid; [|rewrite Hid; naive_solver].
    destruct (Unmarshal (A := User) val) as [v|]; rewrite Hid; [|naive_solver].
    rewrite elem_of_cons. naive_solver.
  - rewrite listed_seen. tauto.
Qed.

Lemma raft_ListUsers rs : raft_gov rs ->
  exists l, ListUsers rs = Ok l /\ forall u, u ∈ l <-> exists id, raft_user rs id = Some u.
Proof.
  intros [(Hr & _) _]. unfold ListUsers. rewrite listFSMKeys_filter by apply Hr. cbn [res_bind].
  eexists. split; [done|]. intros u. rewrite list_users_elem by exact Hr. split; [intros (k & _ & _ & Hu); eauto|].
  intros (id & Hu). assert (listable id) as (Hne & Hni & Hpl).
  { unfold raft_user in Hu. destruct (decide (listable id)); [done|discriminate Hu]. }
  exists (user_key id). rewrite first_part_user by exact Hpl. split_and!; [|set_solver|exact Hu].
  apply list_elem_of_filter. split; [apply prefix_app|]. apply fsm_keys_elem.
  unfold raft_user in Hu. destruct (decide _); [|discriminate Hu]. unfold stored_user, store_get in Hu.
  destruct (fsm_get _ _); [done|discriminate Hu].
Qed.

Lemma raft_GetUser rs id u : raft_gov rs -> listable id -> GetUser id rs = Ok u <-> raft_user rs id = Some u.
Proof.
  intros [(Hr & _) _] Hl. rewrite GetUser_stored by exact Hr. unfold raft_user, stored_user. rewrite decide_True by exact Hl.
  destruct (store_get rs (user_key id)) as [j|]; [|naive_solver]. unfold Unmarshal_err. cbn.
  destruct (Unmarshal j); naive_solver.
Qed.

(** ** Writes of users *)

Definition index_write (w : string * option json) : Prop := exists n, w.1 = index_key n.

Lemma wrote_one_user rs rs' i o ws id :
  wrote_store rs rs' ((user_key i, o) :: ws) -> Forall index_write ws -> plain_id id ->
  stored_user rs' id = if decide (i = id) then (j ← o; Unmarshal (A := User) j) else stored_user rs id.
Proof.
  intros [Hg _ _ _] Hf Hl. unfold stored_user. rewrite Hg.
  change (writes ?m (?w :: ?l)) with (writes (write m w) l). rewrite writes_other.
  - unfold write. cbn [fst snd]. destruct (decide (i = id)) as [->|Hne].
    + by rewrite !decide_True.
    + rewrite !decide_False; [done | by intros ?%user_key_inj].
  - eapply Forall_impl; [exact Hf|]. intros w [n ->] E. symmetry in E. by apply user_key_not_index in E.
Qed.

(** What the listing shows of such a write. *)
Lemma wrote_one_listed rs rs' i o ws id :
  wrote_store rs rs' ((user_key i, o) :: ws) -> Forall index_write ws ->
  raft_user rs' id =
    if decide (listable id /\ i = id) then (j ← o; Unmarshal (A := User) j) else raft_user rs id.
Proof.
  intros Hw Hf. unfold raft_user. destruct (decide (listable id)) as [Hl|Hl]; [|by rewrite decide_False by tauto].
  rewrite (wrote_one_user _ _ _ _ _ _ Hw Hf) by apply Hl. destruct (decide (i = id)) as [->|Hne].
  - by rewrite decide_True.
  - rewrite decide_False; [done|tauto].
Qed.

(** The keys of a user write stay clear of the providers and the flag. *)
Lemma user_write_auth i o ws :
  Forall index_write ws -> Forall (fun w : string * option json => w.1 <> providers_key /\ w.1 <> internal_key) ((user_key i, o) :: ws).
Proof. intros Hf. constructor; [by split|]. eapply Forall_impl; [exact Hf|]. by intros w [n ->]. Qed.

Lemma FSM_create_user (db db' : DB) key v :
  fsm_ready db -> FSM_Apply db (jenc (mkCommand "create-user" key (Raw (Some v)))) = (db', Ok tt) -> fsm_get db key = None.
Proof.
  intros [Hb [b Hbk]]. unfold FSM_Apply, Unmarshal_err. rewrite cmd_roundtrip.
  change (cmd_Op (mkCommand "create-user" key (Raw (Some v)))) with "create-user".
  cbn [cmd_Key cmd_Value raw doc default bool_decide decide_rel negb andb].
  change (if negb (bool_decide ("create-user" = "bootstrap")) && negb (bool_decide ("create-user" = "set-multi")) then validateKey key else None)
    with (validateKey key).
  destruct (validateKey key); [done|].
  change (applyCreateUser db key v = (db', Ok tt) -> fsm_get db key = None). unfold applyCreateUser.
  intros [[Ha _]|(b' & Ha & _)]%db_Update_ok; rewrite Hbk in Ha; cbn [bucket_required] in Ha.
  - by apply res_bind_Ok in Ha as (? & _ & [=]).
  - apply res_bind_Ok in Ha as (b1 & Ha & _). apply wrote_create_user in Ha as [Hn _].
    unfold fsm_get. by rewrite Hbk.
Qed.

Lemma create_user_either key v rs :
  fsm_ready (rs_db rs) ->
  let rs' := (applyCommand "create-user" key (Some v) rs).1 in
  wrote_store rs rs' [] \/
  store_get rs key = None /\ wrote_store rs rs' (command_writes (mkCommand "create-user" key (Raw (Some v)))).
Proof.
  intros Hr. unfold applyCommand, submit, Apply. destruct (negb (IsLeader rs)); [by left|].
  destruct (FSM_Apply (rs_db rs) _) as [db' resp] eqn:Ea.
  assert (forall rs', rs' = tick rs <| rs_db := db' |> -> wrote_store rs rs' [] \/ store_get rs key = None /\
     wrote_store rs rs' (command_writes (mkCommand "create-user" key (Raw (Some v))))) as Hw.
  { intros rs' ->. destruct resp as [[]|e].
    - right. split; [by eapply FSM_create_user|].
      eapply FSM_transacted in Ea as (Hw & Hrdy & _); [|done|apply cmd_roundtrip].
      split; [exact Hw | by apply Hrdy | done | done].
    - left. apply FSM_unchanged in Ea as ->. by split. }
  destruct (rf_fate _ _); [by apply Hw | by left | by apply Hw].
Qed.

Lemma create_user_writes (u : User) key :
  command_writes (mkCommand "create-user" key (Raw (Some (jenc u)))) =
  [(key, Some (jenc u)); (index_key (u_Username u), Some (usernameIndexValue (u_ID u)))].
Proof.
  change (command_writes _) with
    (match Unmarshal (A := User) (jenc u) with
     | Some u' => [(key, Some (jenc u)); (usernameIndexKey (u_Username u') +:+ "/", Some (usernameIndexValue (u_ID u')))]
     | None => [] end).
  rewrite Unmarshal_jenc by done. by rewrite index_key_eq.
Qed.

(** A written user record is keyed by its ID. *)
Lemma user_written_gov rs rs' (u : User) ws :
  raft_gov rs -> wrote_store rs rs' ((user_key (u_ID u), Some (jenc u)) :: ws) -> Forall index_write ws -> raft_gov rs'.
Proof.
  intros [Hrdy Hkeyed] Hw Hf. split; [by eapply wrote_ready|]. intros id v Hl.
  rewrite (wrote_one_user _ _ _ _ _ _ Hw Hf Hl). destruct (decide _) as [<-|_]; [|by apply Hkeyed].
  cbn. rewrite Unmarshal_jenc by done. by intros [= <-].
Qed.

Lemma raft_CreateUser rs u : raft_gov rs ->
  let rs' := (CreateUser u rs).1.1 in
  raft_gov rs' /\ same_auth rs rs' /\ (forall id v, raft_user rs id = Some v -> raft_user rs' id = Some v) /\
  forall id v, raft_user rs' id = Some v -> raft_user rs id = Some v \/ v = named u.
Proof.
  intros Hg rs'. assert (raft_frame rs rs' -> raft_gov rs' /\ same_auth rs rs' /\
    (forall id v, raft_user rs id = Some v -> raft_user rs' id = Some v) /\
    forall id v, raft_user rs' id = Some v -> raft_user rs id = Some v \/ v = named u) as Hframe.
  { intros (Hg' & Hu & Ha). split_and!; [done..| |]; intros id v; rewrite Hu; auto. }
  revert Hframe. subst rs'. unfold CreateUser. fold (named u). generalize (named u). clear u.
  intros v. case_bool_decide; [intros Hframe; by apply Hframe, frame_refl|].
  pose proof (create_user_either (user_key (u_ID v)) (jenc v) rs (proj1 (proj1 Hg))) as He.
  destruct (applyCommand _ _ _ _) as [rs1 x]. cbn [fst] in *. intros Hframe.
  destruct He as [Hw|[Hnone Hw]]; [apply Hframe; eapply wrote_frame; [exact Hg|exact Hw|constructor]|].
  rewrite create_user_writes in Hw.
  assert (Forall index_write [(index_key (u_Username v), Some (usernameIndexValue (u_ID v)))]) as Hi
    by (repeat constructor; by eexists).
  split; [by eapply user_written_gov|]. split; [eapply wrote_auth; [apply Hg|exact Hw|by apply user_write_auth]|].
  split; intros id v0; rewrite (wrote_one_listed _ _ _ _ _ _ Hw Hi); destruct (decide _) as [[Hl <-]|_]; auto.
  - unfold raft_user, stored_user. rewrite decide_True by exact Hl. by rewrite Hnone.
  - cbn. rewrite Unmarshal_jenc by done. intros [= <-]. by right.
Qed.

Lemma raft_UpdateUser rs u : raft_gov rs -> plain_id (u_ID u) ->
  let rs' := (UpdateUser u rs).1 in
  raft_gov rs' /\ same_auth rs rs' /\
  forall id, raft_user rs' id = raft_user rs id \/ id = u_ID u /\ raft_user rs' id = Some u.
Proof.
  intros Hg Hl rs'. subst rs'. unfold UpdateUser. cbv zeta.
  set (old := match GetUser (u_ID u) rs with Ok _ => _ | Err _ => _ end). clearbody old.
  destruct (applyMulti_either ([put_kv (user_key (u_ID u)) (jenc u);
      put_kv (usernameIndexKey (u_Username u) +:+ "/") (usernameIndexValue (u_ID u))] ++
      (if bool_decide (old = "") then [] else [del_kv ("/users/by-username/" +:+ old +:+ "/")])) rs (proj1 (proj1 Hg)))
    as [Hw|Hw].
  { eapply wrote_frame in Hw as (Hg' & Hu & Ha); [|exact Hg|constructor]. split_and!; [done..|]. by left. }
  change (kv_write <$> _) with ((user_key (u_ID u), Some (jenc u)) ::
    (kv_write <$> (put_kv (usernameIndexKey (u_Username u) +:+ "/") (usernameIndexValue (u_ID u)) ::
      (if bool_decide (old = "") then [] else [del_kv ("/users/by-username/" +:+ old +:+ "/")])))) in Hw.
  match type of Hw with wrote_store _ _ (_ :: ?l) => assert (Forall index_write l) as Hi end.
  { case_bool_decide; repeat constructor; eexists; first [apply index_key_eq | reflexivity]. }
  split; [by eapply user_written_gov|]. split; [eapply wrote_auth; [apply Hg|exact Hw|by apply user_write_auth]|].
  intros id. rewrite (wrote_one_listed _ _ _ _ _ _ Hw Hi). destruct (decide _) as [[_ <-]|_]; [|by left].
  right. split; [done|]. cbn. by rewrite Unmarshal_jenc.
Qed.

Lemma raft_DeleteUser rs i : raft_gov rs -> plain_id i ->
  let rs' := (DeleteUser i rs).1 in
  raft_gov rs' /\ same_auth rs rs' /\ (forall id, id <> i -> raft_user rs' id = raft_user rs id) /\
  forall v, raft_user rs' i = Some v -> raft_user rs i = Some v.
Proof.
  intros Hg Hl rs'. subst rs'. unfold DeleteUser. destruct (GetUser i rs) as [u|]; [|by split_and!].
  destruct (applyMulti_either [del_kv (user_key i); del_kv ("/users/by-username/" +:+ u_Username u +:+ "/")] rs
    (proj1 (proj1 Hg))) as [Hw|Hw].
  { eapply wrote_frame in Hw as (Hg' & Hu & Ha); [|exact Hg|constructor].
    split; [exact Hg'|]. split; [exact Ha|]. split; [intros id _; apply Hu|intros v; by rewrite Hu]. }
  change (kv_write <$> _) with [(user_key i, None : option json); (index_key (u_Username u), None)] in Hw.
  assert (Forall index_write [(index_key (u_Username u), None)]) as Hi by (repeat constructor; by eexists).
  split; [|split; [eapply wrote_auth; [apply Hg|exact Hw|by apply user_write_auth]|]].
  - split; [by eapply wrote_ready, Hw; apply Hg|]. intros id v Hpl. rewrite (wrote_one_user _ _ _ _ _ _ Hw Hi Hpl).
    destruct (decide _); [done | by apply Hg].
  - split.
    + intros id Hne. rewrite (wrote_one_listed _ _ _ _ _ _ Hw Hi), decide_False; [done|]. intros [_ ->]. done.
    + intros v. rewrite (wrote_one_listed _ _ _ _ _ _ Hw Hi). by destruct (decide _).
Qed.

Lemma raft_ExternalIdentity rs p i sub u : raft_gov rs -> GetUserByExternalIdentity p i sub rs = Ok u ->
  (exists id, raft_user rs id = Some u) /\ u_ExternalIdentities u <> [].
Proof.
  intros Hg. unfold GetUserByExternalIdentity. destruct (_ || _ || _); [done|].
  destruct (raft_ListUsers rs Hg) as (l & -> & Hin). cbn [res_bind].
  destruct (find _ l) as [v|] eqn:Ef; [|done]. intros [= <-]. apply find_some in Ef as [Hv Ha].
  split; [by apply Hin, list_elem_of_In|]. intros E. by rewrite E in Ha.
Qed.

(** ** Writes outside the view *)

Lemma governed_channel id k : governed ("/channels/" +:+ id +:+ k) = false.
Proof. reflexivity. Qed.
Lemma governed_mapping id : governed ("/rbac/mappings/" +:+ id) = false.
Proof. reflexivity. Qed.

Lemma raft_write_channel op rs p : raft_gov rs -> op = "set" \/ op = "create-channel" -> raft_frame rs (write_channel op p rs).1.1.
Proof.
  intros Hg Hop. unfold write_channel. case_bool_decide; [by apply frame_refl|].
  pose proof (sealChannel_src (rs_keeper rs) (rs_rand rs) p) as Hs.
  destruct (sealChannel _ _ p) as [[r sealed] x]. cbn [fst] in Hs.
  apply (frame_rand rs r); [exact Hs| |exact Hg]. intros Hg'. destruct x as [?|e]; [|by apply frame_refl].
  cbn [ch_ID set_fld].
  pose proof (apply_frame op (channel_key (ch_ID p)) (Some (jenc sealed)) (rs <| rs_rand := r |>) Hg'
    ltac:(naive_solver) (governed_channel _ _)) as Hf.
  destruct (applyCommand _ _ _ _). exact Hf.
Qed.

Lemma draw_uuid_src rs : (draw_uuid rs).1 = rs <| rs_rand := (GenerateUUID (rs_rand rs)).1 |> /\
  rnd_src (GenerateUUID (rs_rand rs)).1 = rnd_src (rs_rand rs).
Proof. unfold draw_uuid, GenerateUUID, rand_Read. by destruct (rnd_src _ _ _). Qed.

(** A fresh record under a drawn UUID. *)
Lemma draw_frame rs (k : RaftStore DB -> res string -> RaftStore DB) :
  raft_gov rs -> (forall rs id, raft_gov rs -> raft_frame rs (k rs id)) ->
  raft_frame rs (k (draw_uuid rs).1 (draw_uuid rs).2).
Proof.
  intros Hg Hk. destruct (draw_uuid_src rs) as [-> Hs]. eapply frame_rand; [exact Hs| |exact Hg]. intros Hg'. by apply Hk.
Qed.

Lemma raft_CreateRoleMapping rs m : raft_gov rs -> raft_frame rs (CreateRoleMapping m rs).1.1.
Proof.
  intros Hg. unfold CreateRoleMapping. destruct (any _ _); [by apply frame_refl|].
  pose proof (draw_frame rs (fun rs id => (match id with Err e => (rs, m, Err e) | Ok id =>
    let m := m <| rm_ID := id |> in
    let (rs, x) := applyCommand "set" ("/rbac/mappings/" +:+ rm_ID m +:+ "/") (Some (jenc m)) rs in (rs, m, x) end).1.1) Hg) as Hd.
  destruct (draw_uuid rs) as [rs1 id]. apply Hd. clear rs rs1 id Hg Hd. intros rs id Hg. destruct id as [id|]; [|by apply frame_refl].
  cbv zeta. pose proof (apply_frame "set" ("/rbac/mappings/" +:+ rm_ID (m <| rm_ID := id |>) +:+ "/")
    (Some (jenc (m <| rm_ID := id |>))) rs Hg (or_introl eq_refl) (governed_mapping _)) as Hf.
  destruct (applyCommand _ _ _ _). exact Hf.
Qed.

Lemma raft_CreateChannelRoleMapping rs m : raft_gov rs -> raft_frame rs (CreateChannelRoleMapping m rs).1.1.
Proof.
  intros Hg. unfold CreateChannelRoleMapping. destruct (any _ _); [by apply frame_refl|].
  pose proof (draw_frame rs (fun rs id => (match id with Err e => (rs, m, Err e) | Ok id =>
    let m := m <| acl_ID := id |> in
    if bool_decide (acl_ChannelID m = "") then (rs, m, Err (mkErr KInvalidArgument "channel_id required")) else
    let (rs, x) := applyCommand "set" (acl_prefix (acl_ChannelID m) +:+ acl_ID m +:+ "/") (Some (jenc m)) rs in (rs, m, x) end).1.1) Hg) as Hd.
  destruct (draw_uuid rs) as [rs1 id]. apply Hd. clear rs rs1 id Hg Hd. intros rs id Hg. destruct id as [id|]; [|by apply frame_refl].
  cbv zeta. case_bool_decide; [by apply frame_refl|].
  pose proof (apply_frame "set" (acl_prefix (acl_ChannelID (m <| acl_ID := id |>)) +:+ acl_ID (m <| acl_ID := id |>) +:+ "/")
    (Some (jenc (m <| acl_ID := id |>))) rs Hg (or_introl eq_refl)) as Hf.
  destruct (applyCommand _ _ _ _). apply Hf. reflexivity.
Qed.

Lemma raft_UpdateGlobalConfig rs c : raft_gov rs -> raft_frame rs (UpdateGlobalConfig c rs).1.
Proof.
  intros Hg. unfold UpdateGlobalConfig. destruct c as [c|]; [|by apply frame_refl].
  pose proof (sealConfig_src (rs_keeper rs) (rs_rand rs) c) as Hs.
  destruct (sealConfig _ _ c) as [r sealed]. cbn [fst] in Hs.
  apply (frame_rand rs r); [exact Hs| |exact Hg]. intros Hg'. destruct sealed as [sealed|]; [|by apply frame_refl].
  eapply either_frame; [exact Hg' | apply applyMulti_either, Hg'|]. by repeat constructor.
Qed.

Lemma raft_BumpAuthEpoch rs : raft_gov rs -> raft_frame rs (BumpAuthEpoch rs).1.
Proof.
  intros Hg. unfold BumpAuthEpoch. destruct (GetAuthEpoch rs); [|by apply frame_refl].
  apply apply_frame; [exact Hg | by left | reflexivity].
Qed.

(** ** Writes of the providers and the flag *)

Lemma one_key_users rs rs' k v :
  raft_gov rs -> wrote_store rs rs' [(k, v)] -> k = providers_key \/ k = internal_key ->
  raft_gov rs' /\ forall id, raft_user rs' id = raft_user rs id.
Proof.
  intros Hg Hw Hk. assert (forall id, stored_user rs' id = stored_user rs id) as Hu.
  { intros id. eapply wrote_user; [exact Hw|]. constructor; [|constructor]. by destruct Hk as [-> | ->]. }
  split; [|by apply listed_same]. split; [eapply wrote_ready, Hw; apply Hg|]. intros id u. rewrite Hu. apply Hg.
Qed.

Lemma raft_SetInternalAuthEnabled' rs b : raft_gov rs ->
  let rs' := (SetInternalAuthEnabled b rs).1 in
  raft_gov rs' /\ (forall id, raft_user rs' id = raft_user rs id) /\ OIDCProviders rs' = OIDCProviders rs /\
  (InternalAuthEnabled rs' = InternalAuthEnabled rs \/ InternalAuthEnabled rs' = Ok (Some b)).
Proof.
  intros Hg. pose proof (proj1 (proj1 Hg)) as Hr. cbv zeta.
  pose proof (submit_either (mkCommand "set-json" internal_key (Raw (Some (jenc b)))) rs Hr) as Hw.
  change (SetInternalAuthEnabled b rs) with (submit (mkCommand "set-json" internal_key (Raw (Some (jenc b)))) rs).
  generalize dependent (submit (mkCommand "set-json" internal_key (Raw (Some (jenc b)))) rs).1. intros rs' [Hw|Hw].
  { eapply wrote_frame in Hw as (Hg' & Hu & [Hp Hi]); [|exact Hg|constructor]. split_and!; try done. by left. }
  destruct (one_key_users _ _ _ _ Hg Hw (or_intror eq_refl)) as [Hg' Hu]. destruct Hw as [Hget Hr' Hk _].
  split_and!; try done.
  - by rewrite !OIDCProviders_stored, Hk, Hget by done.
  - right. rewrite InternalAuthEnabled_stored, Hget by done. by destruct b.
Qed.

Lemma raft_SetOIDCProviders rs ps : raft_gov rs ->
  let rs' := (SetOIDCProviders ps rs).1 in
  raft_gov rs' /\ (forall id, raft_user rs' id = raft_user rs id) /\ InternalAuthEnabled rs' = InternalAuthEnabled rs /\
  (OIDCProviders rs' = OIDCProviders rs \/ OIDCProviders rs' = Ok ps).
Proof.
  intros Hg. unfold SetOIDCProviders. cbv zeta. destruct (proj1 Hg) as (Hr & Hk & Hf).
  destruct (seal_providers_spec (rs_keeper rs) ps (rs_rand rs) Hk Hf) as [Hs Hopen].
  destruct (seal_providers _ _ ps) as [r sealed]. cbn [fst snd] in *.
  destruct sealed as [sealed|]; cbn [fst].
  2:{ destruct (frame_rand rs r (rs <| rs_rand := r |>) Hs (frame_refl _) Hg) as (Hg' & Hu & [Hp Hi]). split_and!; try done. by left. }
  assert (fsm_ready (rs_db (rs <| rs_rand := r |>))) as Hr1 by exact Hr.
  destruct (either_rand rs r _ _ Hs (submit_either (mkCommand "set-json" providers_key (Raw (Some (jenc sealed)))) _ Hr1))
    as [Hw|Hw].
  { eapply wrote_frame in Hw as (Hg' & Hu & [Hp Hi]); [|exact Hg|constructor]. split_and!; try done. by left. }
  fold (applyCommand "set-json" providers_key (Some (jenc sealed)) (rs <| rs_rand := r |>)) in Hw.
  fold providers_key. set (rs' := (applyCommand _ _ _ _).1) in *.
  destruct (one_key_users _ _ _ _ Hg Hw (or_introl eq_refl)) as [Hg' Hu]. destruct Hw as [Hget Hr' Hk' _].
  split_and!; try done.
  - by rewrite !InternalAuthEnabled_stored, Hget by done.
  - right. rewrite OIDCProviders_stored, Hget, Hk' by done. 
    change (writes _ _ providers_key) with (Some (jenc sealed)). cbn iota. unfold Unmarshal_err.
    rewrite Unmarshal_jenc by (by apply Forall_true). cbn [res_bind]. by apply Hopen.
Qed.

#[export] Instance raft_governance : GovernanceLaws (RaftStore DB).
Proof.
  refine {| gov_ok := raft_gov; gov_user := raft_user |}.
  - intros r id u [_ Hkeyed]. unfold raft_user. destruct (decide (listable id)) as [Hl|]; [|done].
    intros Hu. split; [|done]. apply Hkeyed; [apply Hl | exact Hu].
  - intros r id u [(Hr & _) Hkeyed] Hpl Hu. apply Hkeyed; [exact Hpl|]. change (repo_GetUser id r) with (GetUser id r) in Hu.
    rewrite GetUser_stored in Hu by exact Hr. unfold stored_user. destruct (store_get r (user_key id)) as [j|]; [|done].
    cbn. unfold Unmarshal_err in Hu. destruct (Unmarshal j); [by injection Hu as -> | done].
  - apply raft_ListUsers.
  - apply raft_GetUser.
  - intros r c Hg. apply raft_write_channel; [done|by right].
  - intros r c Hg. apply raft_write_channel; [done|by left].
  - intros r id Hg. apply apply_frame; [done|by right; right|reflexivity].
  - intros r m. apply raft_CreateChannelRoleMapping.
  - intros r c id Hg. apply apply_frame; [done|by right; right|reflexivity].
  - intros r m. apply raft_CreateRoleMapping.
  - intros r id Hg. apply apply_frame; [done|by right; right|reflexivity].
  - intros r c. apply raft_UpdateGlobalConfig.
  - intros r. apply raft_BumpAuthEpoch.
  - intros r t Hg. apply apply_frame; [done|by left|reflexivity].
  - intros r u. apply raft_CreateUser.
  - intros r u. apply raft_UpdateUser.
  - intros r id. apply raft_DeleteUser.
  - intros r p i sub u. apply raft_ExternalIdentity.
  - intros r ps. apply raft_SetOIDCProviders.
  - intros r b. apply raft_SetInternalAuthEnabled'.
Defined.
End raft.
