(* ===== verification/Bootstrap.v ===== *)
(** * Bootstrap: the initial content of the store

    internal/repository/bootstrap.go, internal/server/bootstrap_secrets.go and
    applyBootstrapOnce of internal/server/server.go.  The parsed bootstrap file and
    the Kubernetes secrets are arguments.  The caller drops the configuration after
    the call, so that the fields sealed in place are only those of the payload. *)

From S2P Require Import Prelude Json Domain Bolt Fsm Crypto Store Repo Authorization RateLimit Http Service.

(** ** The bootstrap file *)

Record SecretRef := mkSecretRef { sr_Name : string; sr_Key : string }.
Record BootstrapOIDCProvider := mkBootProvider {
  bo_ID : string; bo_Name : string; bo_ClientID : string; bo_ClientSecret : string; bo_ClientSecretRef : option SecretRef;
  bo_IssuerURL : string; bo_Scopes : list string; bo_GroupsClaim : string }.
#[export] Instance eta_boot_provider : Eta BootstrapOIDCProvider := fun x =>
  mkBootProvider (bo_ID x) (bo_Name x) (bo_ClientID x) (bo_ClientSecret x) (bo_ClientSecretRef x) (bo_IssuerURL x) (bo_Scopes x)
    (bo_GroupsClaim x).

(** [ba_Internal] is auth.internal.enabled, [ba_OIDC] the list auth.oidc.providers. *)
Record BootstrapAuth := mkBootAuth { ba_Internal : option bool; ba_OIDC : option (list BootstrapOIDCProvider) }.
#[export] Instance eta_boot_auth : Eta BootstrapAuth := fun x => mkBootAuth (ba_Internal x) (ba_OIDC x).
Record BootstrapUser := mkBUser { b_Username : string; b_Password : string; b_Roles : list string; b_Channels : list string }.
Record BootstrapAccessToken := mkBToken { bt_ID : string; bt_Name : string; bt_Token : string; bt_Scope : string }.
Record BootstrapChannel := mkBChannel {
  bc_ID : string; bc_Description : string; bc_WebhookSecret : string; bc_WebhookSignatures : list string;
  bc_AllowedIPs : list string; bc_AccessMode : string; bc_AccessTokens : list BootstrapAccessToken }.
Record BootstrapConfig := mkBootstrap {
  bs_Global : option GlobalConfig; bs_Users : list BootstrapUser; bs_Channels : list BootstrapChannel; bs_Auth : option BootstrapAuth }.
#[export] Instance eta_bootstrap : Eta BootstrapConfig := fun x =>
  mkBootstrap (bs_Global x) (bs_Users x) (bs_Channels x) (bs_Auth x).

(** ** bootstrap_secrets.go *)

Definition bootstrap_providers (cfg : BootstrapConfig) : list BootstrapOIDCProvider :=
  match bs_Auth cfg with Some a => default [] (ba_OIDC a) | None => [] end.

Definition hasBootstrapSecretRefs (cfg : BootstrapConfig) : bool :=
  existsb (fun p => bool_decide (is_Some (bo_ClientSecretRef p))) (bootstrap_providers cfg).

(** Secrets(namespace).Get(name): the data of a secret. *)
Abbreviation Clientset := (string -> string -> res (gmap string string)).

Definition resolve_ref (clientset : option Clientset) (namespace : string) (p : BootstrapOIDCProvider) : res BootstrapOIDCProvider :=
  match bo_ClientSecretRef p with
  | None => Ok p
  | Some ref =>
      if bool_decide (sr_Name ref = "") || bool_decide (sr_Key ref = "")
      then Err (errorf ("oidc provider " +:+ bo_ID p +:+ ": client_secret_ref requires both name and key"))
      else match clientset with
      | None => Err (errorf ("oidc provider " +:+ bo_ID p +:+ ": client_secret_ref requires a Kubernetes clientset"))
      | Some get =>
          match get namespace (sr_Name ref) with
          | Err e => Err (mkErr (err_is e) ("oidc provider " +:+ bo_ID p +:+ ": read secret"))
          | Ok data =>
              match data !! sr_Key ref with
              | None => Err (errorf ("oidc provider " +:+ bo_ID p +:+ ": secret has no key " +:+ sr_Key ref))
              | Some val => Ok (p <| bo_ClientSecret := val |> <| bo_ClientSecretRef := None |>)
              end
          end
      end
  end.

Definition resolveBootstrapSecretRefs (clientset : option Clientset) (namespace : string) (cfg : BootstrapConfig) : res BootstrapConfig :=
  match bs_Auth cfg with
  | Some a =>
      match ba_OIDC a with
      | Some providers =>
          res_bind (res_map (resolve_ref clientset namespace) providers) (fun ps =>
          Ok (cfg <| bs_Auth := Some (a <| ba_OIDC := Some ps |>) |>))
      | None => Ok cfg
      end
  | None => Ok cfg
  end.

(** ** The payload *)

Section payload.
Context `{!Crypto} `{!JsonText}.

Definition hashBootstrapToken (raw : string) : string := hex_encode (sha256 raw).

Fixpoint hash_users (users : list BootstrapUser) (r : Rand) : Rand * res (list fsmBootstrapUser) :=
  match users with
  | [] => (r, Ok [])
  | u :: users =>
      let (r, salt) := rand_Read 16 r in
      match res_bind salt (fun salt => bcrypt_hash salt (b_Password u)) with
      | Err e => (r, Err (mkErr (err_is e) ("hash bootstrap password for user " +:+ b_Username u)))
      | Ok hash =>
          let (r, rest) := hash_users users r in
          (r, res_bind rest (fun us => Ok (mkBootUser (b_Username u) hash "" (b_Roles u) (b_Channels u) :: us)))
      end
  end.

Definition bootstrap_token (channel : string) (t : BootstrapAccessToken) : res ChannelAccessToken :=
  if bool_decide (bt_Token t = "") then Err (errorf ("channel " +:+ channel +:+ ": access token " +:+ bt_Name t +:+ " has an empty token value"))
  else
    let scope := if negb (bool_decide (bt_Scope t = "produce")) && negb (bool_decide (bt_Scope t = "consume")) && negb (bool_decide (bt_Scope t = "both"))
                 then "both" else bt_Scope t in
    Ok (mkToken (bt_ID t) (bt_Name t) (hashBootstrapToken (bt_Token t)) scope "").

Definition bootstrap_channel (p : BootstrapChannel) : res Channel :=
  res_bind (res_map (bootstrap_token (bc_ID p)) (bc_AccessTokens p)) (fun tokens =>
  Ok (MigrateChannel (channel_zero
    <| ch_ID := bc_ID p |> <| ch_Description := bc_Description p |> <| ch_WebhookSecret := bc_WebhookSecret p |>
    <| ch_WebhookSignatures := bc_WebhookSignatures p |> <| ch_AllowedIPs := bc_AllowedIPs p |>
    <| ch_AccessMode := bc_AccessMode p |> <| ch_AccessTokens := tokens |>))).

Definition bootstrap_provider (p : BootstrapOIDCProvider) : res OIDCProvider :=
  if bool_decide (bo_ID p = "") then Err (errorf "oidc provider: id is required")
  else if bool_decide (bo_IssuerURL p = "") then Err (errorf ("oidc provider " +:+ bo_ID p +:+ ": issuer_url is required"))
  else if bool_decide (bo_ClientID p = "") then Err (errorf ("oidc provider " +:+ bo_ID p +:+ ": client_id is required"))
  else if bool_decide (bo_ClientSecret p = "") && bool_decide (is_Some (bo_ClientSecretRef p))
  then Err (errorf ("oidc provider " +:+ bo_ID p +:+ ": client_secret_ref is unresolved"))
  else if bool_decide (bo_ClientSecret p = "") then Err (errorf ("oidc provider " +:+ bo_ID p +:+ ": client_secret is required"))
  else Ok (mkProvider (bo_ID p) (bo_Name p) (bo_ClientID p) (bo_ClientSecret p) (bo_IssuerURL p) (bo_Scopes p)
             (if bool_decide (bo_GroupsClaim p = "") then "groups" else bo_GroupsClaim p) [] false).

Definition bootstrap_auth (auth : option BootstrapAuth) : res (option bool * list OIDCProvider) :=
  match auth with
  | None => Ok (None, [])
  | Some a =>
      let internalEnabled := default true (ba_Internal a) in
      let oidcCount := length (default [] (ba_OIDC a)) in
      if negb internalEnabled && bool_decide (oidcCount = 0)
      then Err (errorf "bootstrap auth: at least one auth provider is required")
      else res_bind (res_map bootstrap_provider (default [] (ba_OIDC a))) (fun ps => Ok (ba_Internal a, ps))
  end.

Fixpoint seal_channels (keeper : option CryptoKeeper) (r : Rand) (l : list Channel) : Rand * res (list Channel) :=
  match l with
  | [] => (r, Ok [])
  | ch :: l =>
      let '(r, ch, x) := sealChannel keeper r ch in
      match x with
      | Err e => (r, Err e)
      | Ok _ => let (r, rest) := seal_channels keeper r l in (r, res_bind rest (fun chs => Ok (ch :: chs)))
      end
  end.

Definition seal_global (keeper : option CryptoKeeper) (r : Rand) (g : option GlobalConfig) : Rand * res (option GlobalConfig) :=
  match g with
  | None => (r, Ok None)
  | Some g => let (r, x) := sealConfig keeper r g in (r, res_bind x (fun g => Ok (Some g)))
  end.

(** The payload before sealing, then sealed. *)
Definition plain_payload (cfg : BootstrapConfig) (r : Rand) : Rand * res fsmBootstrapPayload :=
  let (r, users) := hash_users (bs_Users cfg) r in
  (r, res_bind users (fun users =>
      res_bind (res_map bootstrap_channel (bs_Channels cfg)) (fun channels =>
      res_bind (bootstrap_auth (bs_Auth cfg)) (fun auth =>
      Ok (mkBootPayload (bs_Global cfg) users (Some <$> channels) auth.1 auth.2))))).

Definition seal_payload (keeper : option CryptoKeeper) (r : Rand) (p : fsmBootstrapPayload) : Rand * res fsmBootstrapPayload :=
  let (r, global) := seal_global keeper r (bp_Global p) in
  match global with
  | Err e => (r, Err e)
  | Ok global =>
      let (r, channels) := seal_channels keeper r (omap id (bp_Channels p)) in
      match channels with
      | Err e => (r, Err e)
      | Ok channels =>
          let (r, providers) := seal_providers keeper r (bp_OIDCProviders p) in
          (r, res_bind providers (fun ps =>
                Ok (p <| bp_Global := global |> <| bp_Channels := Some <$> channels |> <| bp_OIDCProviders := ps |>)))
      end
  end.
End payload.

(** ** ApplyBootstrap *)

Section bootstrap.
Context {DB B : Type} `{!Bolt DB B} `{!Crypto} `{!JsonText}.
Abbreviation Store := (RaftStore DB).

(** [_, err = rs.Apply(cmd)]: the response of the state machine is dropped. *)
Definition ApplyBootstrap (cfg : BootstrapConfig) (rs : Store) : Store * res unit :=
  match HasData rs with
  | Err e => (rs, Err e)
  | Ok true => (rs, Err (errorf "cannot apply bootstrap: FSM already has data"))
  | Ok false =>
      let (r, plain) := plain_payload cfg (rs_rand rs) in
      match plain with
      | Err e => (rs <| rs_rand := r |>, Err e)
      | Ok plain =>
          let (r, payload) := seal_payload (rs_keeper rs) r plain in
          let rs := rs <| rs_rand := r |> in
          match payload with
          | Err e => (rs, Err e)
          | Ok payload =>
              let (rs, x) := Apply (jenc (mkCommand "bootstrap" "" (Raw (Some (jenc payload))))) rs in
              (rs, res_bind x (fun _ => Ok tt))
          end
      end
  end.

(** [file] is what LoadBootstrap answers, [clientset] newK8sClientset. *)
Definition applyBootstrapOnce (path namespace : string) (file : res BootstrapConfig) (clientset : res Clientset) (rs : Store)
  : Store * res unit :=
  if bool_decide (path = "") || negb (IsLeader rs) then (rs, Ok tt)
  else match HasData rs with
  | Err e => (rs, Err e)
  | Ok true => (rs, Ok tt)
  | Ok false =>
      let wrap msg (e : goerr) := mkErr (err_is e) (msg +:+ err_msg e) in
      match file with
      | Err e => (rs, Err (wrap "load bootstrap: " e))
      | Ok cfg =>
          let resolved := if hasBootstrapSecretRefs cfg
                          then res_bind clientset (fun cs => resolveBootstrapSecretRefs (Some cs) namespace cfg) else Ok cfg in
          match resolved with
          | Err e => (rs, Err (wrap "resolve bootstrap secrets: " e))
          | Ok cfg =>
              match (match bs_Global cfg with Some g => ValidateSessionSecret (sc_SessionSecret (gc_Server g)) | None => None end) with
              | Some e => (rs, Err (wrap "bootstrap session_secret: " e))
              | None =>
                  let (rs, x) := ApplyBootstrap cfg rs in
                  (rs, match x with Ok _ => Ok tt | Err e => Err (wrap "apply bootstrap: " e) end)
              end
          end
      end
  end.
End bootstrap.
