(* ===== verification/BootstrapTheory.v ===== *)
(** * BootstrapTheory: bootstrap is all or nothing

    An accepted bootstrap is read back whole, secrets opened and passwords valid; a
    refused one leaves the store empty, and the caller is not told. *)

From S2P Require Import Prelude Json Domain Bolt Fsm Crypto Store Repo Authorization StoreTheory RateLimit Http Service Governance Bootstrap.

(** ** The payload round trips *)

#[local] Instance law_ptr {A} `{JsonLaw A} : JsonLaw (option A).
Proof.
  refine {| jwf o := match o with Some a => jwf a /\ jenc a <> JNull | None => True end |}.
  - intros [a|]; [|done]. intros [Hwf Hn].
    assert (forall j, j <> JNull -> jdec (A := option A) j None = Some <$> jdec j jzero) as Hj by (by intros []).
    change (jenc (Some a)) with (jenc a). rewrite Hj by done. by rewrite jdec_enc.
  - by intros [].
Defined.

#[local] Instance law_gc : JsonLaw GlobalConfig.
Proof.
  refine {| jwf := global_wf |}; [|done]. intros g [Hs Hd]. assert (jwf (gc_Server g)) by exact Hs.
  assert (jwf (gc_Defaults g)) by exact Hd. unfold codec_gc. solve_codec_law.
Defined.
#[local] Instance law_boot_user : JsonLaw fsmBootstrapUser.
Proof. refine {| jwf _ := True |}; [|done]. unfold codec_bu. solve_codec_law. Defined.

Definition payload_wf (p : fsmBootstrapPayload) : Prop :=
  (forall g, bp_Global p = Some g -> global_wf g) /\ Forall (fun o => forall ch, o = Some ch -> channel_wf ch) (bp_Channels p).

Lemma payload_roundtrip p : payload_wf p -> Unmarshal (jenc p) = Some p.
Proof.
  intros [Hg Hc]. unfold Unmarshal.
  assert (jwf (bp_Global p)) as Hg' by (destruct (bp_Global p); [split; [by apply Hg | done] | done]).
  assert (jwf (bp_Channels p)) as Hc'.
  { eapply Forall_impl; [exact Hc|]. intros [ch|] Hch; [split; [by apply Hch | done] | done]. }
  assert (jwf (bp_Users p)) as Hu by (by apply Forall_true).
  assert (jwf (bp_InternalAuthEnabled p)) as Hi by (by destruct (bp_InternalAuthEnabled p)).
  assert (jwf (bp_OIDCProviders p)) as Ho by (by apply Forall_true).
  unfold codec_bp. solve_codec_law.
Qed.

#[local] Arguments jenc : simpl never.
#[local] Arguments jdec : simpl never.

(** ** Building and sealing the payload *)

Lemma res_map_Forall2 {A C} (f : A -> res C) l l' : res_map f l = Ok l' -> Forall2 (fun x y => f x = Ok y) l l'.
Proof.
  revert l'. induction l as [|x l IH]; intros l'; simpl; [by intros [= <-]|].
  intros (y & Hy & (ys & Hys & [= <-])%res_bind_Ok)%res_bind_Ok. constructor; auto.
Qed.

(** A user of the payload carries the hash of the password and not the password. *)
Definition hashed `{!Crypto} (u : BootstrapUser) (v : fsmBootstrapUser) : Prop :=
  bu_Username v = b_Username u /\ bu_Password v = "" /\ bu_Roles v = b_Roles u /\ bu_Channels v = b_Channels u /\
  bcrypt_compare (bu_PasswordHash v) (b_Password u) = true.

Section sealing.
Context `{!Crypto} `{!CryptoLaws} `{!JsonText} `{!JsonTextLaws}.

Lemma hash_users_src us r : rnd_src (hash_users us r).1 = rnd_src r.
Proof.
  revert r. induction us as [|u us IH]; intros r; [done|]. cbn [hash_users].
  unfold rand_Read. destruct (res_bind _ _); [|done]. specialize (IH (r <| rnd_pos := S (rnd_pos r) |>)).
  destruct (hash_users us _); simpl in *. done.
Qed.

Lemma hash_users_spec us r r' l : hash_users us r = (r', Ok l) -> Forall2 hashed us l.
Proof.
  revert r r' l. induction us as [|u us IH]; intros r r' l; cbn [hash_users]; [by intros [= _ <-]|].
  destruct (rand_Read 16 r) as [r1 salt]. destruct (res_bind salt _) as [h|] eqn:Eh; [|done].
  apply res_bind_Ok in Eh as (s & -> & Eh). apply bcrypt_ok in Eh.
  destruct (hash_users us r1) as [r2 [l2|]] eqn:E; [|done]. intros [= <- <-]. constructor; [by repeat split | by eapply IH].
Qed.

(** The stored form of a channel. *)
Definition sealed_as (ko : option CryptoKeeper) (ch ch' : Channel) : Prop :=
  openChannel ko ch' = Ok ch /\ ch_ID ch' = ch_ID ch /\ (channel_wf ch -> channel_wf ch').

Lemma seal_channels_spec ko l r r' l' : keeper_opt_ok ko -> rand_fills r -> seal_channels ko r l = (r', Ok l') ->
  rand_fills r' /\ Forall2 (sealed_as ko) l l'.
Proof.
  intros Hk. revert r r' l'. induction l as [|ch l IH]; intros r r' l' Hr; cbn [seal_channels]; [by intros [= <- <-]|].
  destruct (sealChannel ko r ch) as [[r1 ch1] [[]|]] eqn:E; [|done].
  destruct (seal_channel_open _ _ _ _ _ Hk Hr E) as (Ho & Hr1 & Hid & Hb & Ht).
  destruct (seal_channels ko r1 l) as [r2 [l2|]] eqn:E2; [|done]. intros [= <- <-].
  destruct (IH _ _ _ Hr1 E2) as [Hr2 Hl]. split; [done|]. constructor; [|done].
  split; [done|]. split; [done|]. unfold channel_wf. by rewrite Hb, Ht.
Qed.

Lemma omap_Some {A} (l : list A) : omap id (Some <$> l) = l.
Proof. induction l as [|x l IH]; [done|]. cbn. by rewrite IH. Qed.

(** The sealed payload opens to the plain one. *)
Record seals (ko : option CryptoKeeper) (p q : fsmBootstrapPayload) : Prop := mkSeals {
  sl_global : match bp_Global p, bp_Global q with
              | Some g, Some g' => openConfig ko g' = Ok g /\ (global_wf g -> global_wf g')
              | None, None => True
              | _, _ => False
              end;
  sl_users : bp_Users q = bp_Users p;
  sl_channels : exists l', bp_Channels q = Some <$> l' /\ Forall2 (sealed_as ko) (omap id (bp_Channels p)) l';
  sl_internal : bp_InternalAuthEnabled q = bp_InternalAuthEnabled p;
  sl_providers : res_map (fun p => res_bind (openString ko (op_ClientSecret p)) (fun s => Ok (p <| op_ClientSecret := s |>))) (bp_OIDCProviders q)
    = Ok (bp_OIDCProviders p)
}.

Lemma sealConfig_fills ko r g : rand_fills r -> rand_fills (sealConfig ko r g).1.
Proof. unfold rand_fills. by rewrite sealConfig_src. Qed.

Lemma seal_payload_spec ko r p r' q : keeper_opt_ok ko -> rand_fills r -> seal_payload ko r p = (r', Ok q) -> seals ko p q.
Proof.
  intros Hk Hr. unfold seal_payload.
  assert (exists r1 g, seal_global ko r (bp_Global p) = (r1, g) /\ rand_fills r1 /\ forall g', g = Ok g' ->
    match bp_Global p, g' with
    | Some g, Some g' => openConfig ko g' = Ok g /\ (global_wf g -> global_wf g') | None, None => True | _, _ => False end)
    as (r1 & g & -> & Hr1 & Hg).
  { unfold seal_global. destruct (bp_Global p) as [g|]; [|exists r, (Ok None); split; [done|]; split; [done|]; by intros g' [= <-]].
    pose proof (sealConfig_fills ko r g Hr) as Hf. destruct (sealConfig ko r g) as [r1 x] eqn:E. eexists r1, _. split; [done|].
    split; [done|]. intros g' Hx. apply res_bind_Ok in Hx as (g1 & -> & [= <-]).
    destruct (seal_config_open _ _ _ _ _ Hk Hr E) as [Ho (s & w & ->)]. split; [done|]. by destruct g as [[] []]. }
  destruct g as [g'|]; [|done]. specialize (Hg g' eq_refl).
  destruct (seal_channels ko r1 _) as [r2 [chs|]] eqn:Ec; [|done].
  destruct (seal_channels_spec _ _ _ _ _ Hk Hr1 Ec) as [Hr2 Hc].
  destruct (seal_providers_spec ko (bp_OIDCProviders p) r2 Hk Hr2) as [_ Hp].
  destruct (seal_providers ko r2 _) as [r3 [ps|]]; [|done]. intros [= <- <-]. split; simpl; [done|done|by exists chs|done|by apply Hp].
Qed.
End sealing.

Definition same_sizes (p q : Channel) : Prop :=
  ch_ID q = ch_ID p /\ ch_MaxBodySize q = ch_MaxBodySize p /\ ch_MessageTTLSeconds q = ch_MessageTTLSeconds p.

Lemma MigrateChannel_sizes p : same_sizes p (MigrateChannel p).
Proof.
  assert (forall q, same_sizes q (migrate_secret q)) as H1.
  { intros q. unfold migrate_secret. destruct (ch_WebhookSignatures q); [done|]. by case_bool_decide. }
  assert (forall q, same_sizes q (migrate_enabled q)) as H2 by (intros q; unfold migrate_enabled; by destruct (_ && _)).
  assert (forall q, same_sizes q (migrate_provider_side q)) as H3 by (intros q; unfold migrate_provider_side; by case_bool_decide).
  unfold MigrateChannel. destruct (H1 p) as (E1 & E2 & E3), (H2 (migrate_secret p)) as (E4 & E5 & E6),
    (H3 (migrate_enabled (migrate_secret p))) as (E7 & E8 & E9). unfold same_sizes. by rewrite E7, E8, E9, E4, E5, E6, E1, E2, E3.
Qed.

Lemma bootstrap_channel_wf `{!Crypto} p ch : bootstrap_channel p = Ok ch -> ch_ID ch = bc_ID p /\ channel_wf ch.
Proof.
  unfold bootstrap_channel. destruct (res_map _ _) as [tokens|]; [|done]. cbn [res_bind].
  match goal with |- Ok (MigrateChannel ?c) = _ -> _ => assert (ch_ID c = bc_ID p /\ ch_MaxBodySize c = 0%Z /\ ch_MessageTTLSeconds c = 0%Z) as Hc by done;
    generalize dependent c end.
  intros c (Hid & Hb & Ht) Heq. assert (ch = MigrateChannel c) as -> by congruence.
  destruct (MigrateChannel_sizes c) as (-> & Hb' & Ht'). split; [done|]. unfold channel_wf. by rewrite Hb', Ht', Hb, Ht.
Qed.

(** What a bootstrap entry becomes. *)
Definition token_of `{!Crypto} (t : BootstrapAccessToken) (k : ChannelAccessToken) : Prop :=
  tok_ID k = bt_ID t /\ tok_Name k = bt_Name t /\ tok_TokenHash k = HashToken (bt_Token t) /\
  (tok_Scope k = bt_Scope t \/ tok_Scope k = "both") /\ tok_Scope k ∈ ["produce"; "consume"; "both"].
Definition channel_of `{!Crypto} (p : BootstrapChannel) (ch : Channel) : Prop :=
  ch_ID ch = bc_ID p /\ ch_Description ch = bc_Description p /\ ch_AllowedIPs ch = bc_AllowedIPs p /\ ch_AccessMode ch = bc_AccessMode p /\
  ch_WebhookSecret ch = (if bool_decide (bc_WebhookSecret p = "") then default "" (head (bc_WebhookSignatures p)) else bc_WebhookSecret p) /\
  Forall2 token_of (bc_AccessTokens p) (ch_AccessTokens ch).
Definition provider_of (p : BootstrapOIDCProvider) (o : OIDCProvider) : Prop :=
  op_ID o = bo_ID p /\ op_IssuerURL o = bo_IssuerURL p /\ op_ClientID o = bo_ClientID p /\ op_ClientSecret o = bo_ClientSecret p /\
  bo_ID p <> "" /\ bo_IssuerURL p <> "" /\ bo_ClientID p <> "" /\ bo_ClientSecret p <> "".

Lemma bootstrap_token_of `{!Crypto} c t k : bootstrap_token c t = Ok k -> token_of t k.
Proof.
  unfold bootstrap_token. case_bool_decide; [done|]. intros [= <-]. unfold token_of, HashToken, hashBootstrapToken. cbn [tok_ID tok_Name tok_TokenHash tok_Scope].
  split_and!; [done..| |].
  - destruct (_ && _ && _); [by right | by left].
  - repeat case_bool_decide; simpl; rewrite ?elem_of_cons; tauto.
Qed.

Lemma bootstrap_channel_of `{!Crypto} p ch : bootstrap_channel p = Ok ch -> channel_of p ch.
Proof.
  unfold bootstrap_channel. destruct (res_map _ _) as [tokens|] eqn:Et; [|done]. cbn [res_bind]. apply res_map_Forall2 in Et.
  intros Heq. set (c := channel_zero <| ch_ID := _ |> <| ch_Description := _ |> <| ch_WebhookSecret := _ |> <| ch_WebhookSignatures := _ |>
    <| ch_AllowedIPs := _ |> <| ch_AccessMode := _ |> <| ch_AccessTokens := _ |>) in Heq.
  assert (ch = MigrateChannel c) as -> by congruence. assert (channel_of p (migrate_secret c)) as Hm.
  { unfold migrate_secret. change (ch_WebhookSignatures c) with (bc_WebhookSignatures p). change (ch_WebhookSecret c) with (bc_WebhookSecret p).
    assert (Forall2 token_of (bc_AccessTokens p) tokens) as Htok by (eapply Forall2_impl; [exact Et|]; intros t k; apply bootstrap_token_of).
    unfold channel_of. destruct (bc_WebhookSignatures p) as [|sig l]; [|case_bool_decide]; simpl;
      (split_and!; [reflexivity..| |exact Htok]); first [reflexivity | by case_bool_decide]. }
  unfold MigrateChannel, migrate_provider_side, migrate_enabled. by repeat case_match.
Qed.

Lemma bootstrap_auth_of a i ps : bootstrap_auth a = Ok (i, ps) ->
  i = (a ← a; ba_Internal a) /\ (default true i = true \/ ps <> []) /\ Forall2 provider_of (default [] (a ← a; ba_OIDC a)) ps.
Proof.
  unfold bootstrap_auth. destruct a as [a|]; [|intros [= <- <-]; simpl; auto].
  destruct (negb _ && _) eqn:E; [done|]. intros (l & Hl%res_map_Forall2 & [= <- <-])%res_bind_Ok. simpl.
  assert (Forall2 provider_of (default [] (ba_OIDC a)) l) as Hall.
  { eapply Forall2_impl; [exact Hl|]. intros p o. unfold bootstrap_provider, provider_of. repeat case_bool_decide; simpl; try done; by intros [= <-]. }
  split; [done|]. split; [|exact Hall]. apply andb_false_iff in E as [E|E].
  - left. by destruct (default true (ba_Internal a)).
  - right. intros ->. apply bool_decide_eq_false in E. apply Forall2_length in Hall. done.
Qed.

(** ** Reading the bootstrap back *)

Lemma writes_given m ws k v : (k, v) ∈ ws -> (forall w, w ∈ ws -> w.1 = k -> w.2 = v) -> writes m ws k = v.
Proof.
  induction ws as [|w ws IH] using rev_ind; [by intros ?%not_elem_of_nil|]. intros Hin Hall.
  rewrite writes_app. cbn [writes fold_left]. unfold write at 1. destruct (decide (w.1 = k)) as [Hk|Hk].
  - apply Hall; [apply elem_of_app; right; by left | done].
  - apply IH; [|intros; apply Hall; [apply elem_of_app; by left | done]].
    apply elem_of_app in Hin as [|[= <-]%list_elem_of_singleton]; done.
Qed.

Lemma writes_absent m ws k : (forall w, w ∈ ws -> w.1 <> k) -> writes m ws k = m k.
Proof. intros Hw. apply writes_other. by apply Forall_forall. Qed.

(** The writes of a bootstrap, by section. *)
Lemma bootstrap_writes_elem p w : w ∈ bootstrap_writes p <->
  (exists g, bp_Global p = Some g /\ (w = ("/global/server/", Some (jenc (gc_Server g))) \/ w = ("/global/defaults/", Some (jenc (gc_Defaults g))))) \/
  (exists u, u ∈ bp_Users p /\ w ∈ boot_user_writes u) \/
  (exists ch, Some ch ∈ bp_Channels p /\ w = (channel_key (ch_ID ch), Some (jenc ch))) \/
  (exists e, bp_InternalAuthEnabled p = Some e /\ w = (internal_key, Some (jenc e))) \/
  (bp_OIDCProviders p <> [] /\ w = (providers_key, Some (jenc (bp_OIDCProviders p)))).
Proof.
  unfold bootstrap_writes. rewrite !elem_of_app.
  assert ((w ∈ match bp_Global p with None => [] | Some g => [("/global/server/", Some (jenc (gc_Server g))); ("/global/defaults/", Some (jenc (gc_Defaults g)))] end)
    <-> exists g, bp_Global p = Some g /\ (w = ("/global/server/", Some (jenc (gc_Server g))) \/ w = ("/global/defaults/", Some (jenc (gc_Defaults g))))) as ->.
  { destruct (bp_Global p) as [g|]; [|rewrite elem_of_nil; naive_solver].
    rewrite elem_of_cons, list_elem_of_singleton. naive_solver. }
  assert ((w ∈ (bp_Channels p ≫= boot_channel_writes)) <-> exists ch, Some ch ∈ bp_Channels p /\ w = (channel_key (ch_ID ch), Some (jenc ch))) as ->.
  { rewrite list_elem_of_bind. split.
    - intros ([ch|] & Hw & Hin); [|by apply not_elem_of_nil in Hw]. apply list_elem_of_singleton in Hw as ->. by exists ch.
    - intros (ch & Hin & ->). exists (Some ch). split; [by left | done]. }
  assert ((w ∈ match bp_InternalAuthEnabled p with None => [] | Some e => [("/global/auth/internal_enabled", Some (jenc e))] end)
    <-> exists e, bp_InternalAuthEnabled p = Some e /\ w = (internal_key, Some (jenc e))) as ->.
  { destruct (bp_InternalAuthEnabled p); [rewrite list_elem_of_singleton | rewrite elem_of_nil]; naive_solver. }
  assert ((w ∈ match bp_OIDCProviders p with [] => [] | l => [("/global/auth/oidc_providers", Some (jenc l))] end)
    <-> bp_OIDCProviders p <> [] /\ w = (providers_key, Some (jenc (bp_OIDCProviders p)))) as ->.
  { destruct (bp_OIDCProviders p); [rewrite elem_of_nil | rewrite list_elem_of_singleton]; naive_solver. }
  rewrite list_elem_of_bind. split.
  - intros [Hw | [(u & Hu & Hw) | Hw]]; [by left | right; left; by exists u | by right; right].
  - intros [Hw | [(u & Hu & Hw) | Hw]]; [by left | right; left; by exists u | by right; right].
Qed.

Lemma boot_user_writes_elem u w : w ∈ boot_user_writes u <->
  w = (user_key (bu_Username u), Some (jenc (mkUser (bu_Username u) (bu_Username u) (bu_PasswordHash u) [] [] (bu_Roles u) (bu_Channels u)))) \/
  w = (index_key (bu_Username u), Some (usernameIndexValue (bu_Username u))).
Proof. unfold boot_user_writes. rewrite elem_of_cons, list_elem_of_singleton, index_key_eq. done. Qed.

Section bootstrap.
Context {DB B : Type} `{!Bolt DB B} `{!BoltLaws DB B} `{!Crypto} `{!CryptoLaws} `{!JsonText} `{!JsonTextLaws}.
Implicit Types rs : RaftStore DB.

(** The names of a bootstrap file: users and channels are named, once each. *)
Record named (cfg : BootstrapConfig) : Prop := mkNamed {
  nm_users : NoDup (map b_Username (bs_Users cfg)) /\ forall u, u ∈ bs_Users cfg -> b_Username u <> "" /\ plain_id (b_Username u);
  nm_channels : NoDup (map bc_ID (bs_Channels cfg)) /\ forall p, p ∈ bs_Channels cfg -> bc_ID p <> "";
  nm_global : forall g, bs_Global cfg = Some g -> global_wf g
}.

(** The store reads as the file says. *)
Record bootstrapped (cfg : BootstrapConfig) rs : Prop := mkBootstrapped {
  bd_users u : u ∈ bs_Users cfg -> exists v, GetUserByUsername (b_Username u) rs = Ok v /\ GetUser (b_Username u) rs = Ok v /\
    u_Username v = b_Username u /\ u_Roles v = b_Roles u /\ u_Channels v = b_Channels u /\ bcrypt_compare (u_PasswordHash v) (b_Password u) = true;
  bd_channels p : p ∈ bs_Channels cfg -> exists ch, channel_of p ch /\ GetChannel (bc_ID p) rs = Ok ch;
  bd_global : GetGlobalConfig rs = Ok (default DefaultGlobalConfig (bs_Global cfg));
  bd_auth : exists i ps, InternalAuthEnabled rs = Ok i /\ OIDCProviders rs = Ok ps /\ i = (a ← bs_Auth cfg; ba_Internal a) /\
    (default true i = true \/ ps <> []) /\ Forall2 provider_of (default [] (a ← bs_Auth cfg; ba_OIDC a)) ps
}.

Lemma HasData_false rs : HasData rs = Ok false -> forall k, HasPrefix k "/" = true -> store_get rs k = None.
Proof.
  unfold HasData. intros (keys & Hkeys & [= Hlen])%res_bind_Ok k Hk.
  assert (db_begin (rs_db rs) = None) as Hb.
  { revert Hkeys. unfold listFSMKeys, db_View. by destruct (db_begin (rs_db rs)). }
  rewrite listFSMKeys_filter in Hkeys by done. injection Hkeys as <-.
  destruct (store_get rs k) as [v|] eqn:E; [exfalso|done].
  assert (k ∈ filter (fun k => HasPrefix k "/" = true) (fsm_keys (rs_db rs))) as Hin.
  { apply list_elem_of_filter. split; [done|]. apply fsm_keys_elem. by exists v. }
  destruct (filter _ _); [by apply not_elem_of_nil in Hin | done].
Qed.

Section applied.
Context (cfg : BootstrapConfig) (p q : fsmBootstrapPayload) (chs : list Channel) (rs rs' : RaftStore DB).
Context (Hnamed : named cfg) (Husers : Forall2 hashed (bs_Users cfg) (bp_Users p)).
Context (Hchs : Forall2 (fun c ch => bootstrap_channel c = Ok ch) (bs_Channels cfg) chs) (Hpc : bp_Channels p = Some <$> chs).
Context (Hglobal : bp_Global p = bs_Global cfg).
Context (Hauth : bootstrap_auth (bs_Auth cfg) = Ok (bp_InternalAuthEnabled p, bp_OIDCProviders p)).
Context (Hseals : seals (rs_keeper rs) p q) (Hkeeper : rs_keeper rs' = rs_keeper rs) (Hready : fsm_ready (rs_db rs')).
Context (Hempty : forall k, HasPrefix k "/" = true -> store_get rs k = None).
Context (Hget : forall k, store_get rs' k = writes (store_get rs) (bootstrap_writes q) k).

(** The only write under a key [k] is that of [v]. *)
Ltac only_write := intros w Hw Hk; apply bootstrap_writes_elem in Hw as
  [(gw & Hgw & [-> | ->]) | [(u' & Hu' & [-> | ->]%boot_user_writes_elem) | [(chw & Hchw & ->) | [(ew & Hew & ->) | (Hnilw & ->)]]]];
  simpl in Hk |- *; try discriminate.

Lemma users_applied u : u ∈ bs_Users cfg -> exists v, hashed u v /\
  GetUser (b_Username u) rs' = Ok (mkUser (b_Username u) (b_Username u) (bu_PasswordHash v) [] [] (b_Roles u) (b_Channels u)) /\
  GetUserByUsername (b_Username u) rs' = GetUser (b_Username u) rs'.
Proof using All.
  intros Hu. destruct (nm_users _ Hnamed) as [Hnd Hplain]. destruct (Hplain u Hu) as [_ Hpl].
  assert (map bu_Username (bp_Users p) = map b_Username (bs_Users cfg)) as Hnames.
  { apply (Forall2_map_eq _ _ _ _ _ Husers). by intros x y [? _]. }
  apply list_elem_of_lookup in Hu as [i Hi]. destruct (Forall2_lookup_l _ _ _ _ _ Husers Hi) as (v & Hv & Hh).
  exists v. split; [done|]. destruct Hh as (Hn & _ & Hr & Hc & _). apply list_elem_of_lookup_2 in Hv.
  rewrite <- (sl_users _ _ _ Hseals) in Hv.
  assert (forall v', v' ∈ bp_Users q -> bu_Username v' = b_Username u -> v' = v) as Huniq.
  { intros v' Hv' Hn'. apply (NoDup_map_inj bu_Username (bp_Users q)); [by rewrite (sl_users _ _ _ Hseals), Hnames|done|done|congruence]. }
  split.
  - rewrite GetUser_stored, Hget by done.
    rewrite (writes_given _ _ _ (Some (jenc (mkUser (b_Username u) (b_Username u) (bu_PasswordHash v) [] [] (b_Roles u) (b_Channels u))))).
    + apply user_jenc.
    + apply bootstrap_writes_elem. right. left. exists v. split; [done|]. apply boot_user_writes_elem. left. by rewrite Hn, Hr, Hc.
    + only_write.
      * apply user_key_inj in Hk. by rewrite (Huniq u' Hu' Hk), Hn, Hr, Hc.
      * symmetry in Hk. by apply user_key_not_index in Hk.
  - apply GetUserByUsername_stored; [done|]. rewrite Hget. apply writes_given.
    + apply bootstrap_writes_elem. right. left. exists v. split; [done|]. apply boot_user_writes_elem. right. by rewrite Hn.
    + only_write.
      * assert (plain_id (bu_Username u')) as Hpl'; [|by apply user_key_not_index in Hk].
        assert (bu_Username u' ∈ map b_Username (bs_Users cfg)) as Hin.
        { rewrite <- Hnames, <- (sl_users _ _ _ Hseals). by apply list_elem_of_fmap_2. }
        apply list_elem_of_fmap in Hin as (x & -> & Hx). by apply Hplain.
      * apply (between_inj "/users/by-username/" "/") in Hk. by rewrite Hk.
Qed.

Lemma channels_applied c : c ∈ bs_Channels cfg -> exists ch, bootstrap_channel c = Ok ch /\ GetChannel (bc_ID c) rs' = Ok ch.
Proof using All.
  intros Hc. destruct (nm_channels _ Hnamed) as [Hnd Hids]. destruct (sl_channels _ _ _ Hseals) as (l' & Hl' & Hsealed).
  rewrite Hpc, omap_Some in Hsealed. pose proof (Hids c Hc) as Hne.
  assert (map ch_ID l' = map bc_ID (bs_Channels cfg)) as Hmap.
  { transitivity (map ch_ID chs).
    - apply (Forall2_map_eq _ _ _ _ _ Hsealed). by intros x y (_ & ? & _).
    - apply (Forall2_map_eq _ _ _ _ _ Hchs). by intros x y [? _]%bootstrap_channel_wf. }
  apply list_elem_of_lookup in Hc as [i Hi]. destruct (Forall2_lookup_l _ _ _ _ _ Hchs Hi) as (ch & Hch & Hb).
  destruct (Forall2_lookup_l _ _ _ _ _ Hsealed Hch) as (ch' & Hch' & (Ho & Hid & Hwf)).
  destruct (bootstrap_channel_wf _ _ Hb) as [Hcid Hcwf]. apply list_elem_of_lookup_2 in Hch'.
  exists ch. split; [done|]. rewrite GetChannel_stored, Hget by done. rewrite (writes_given _ _ _ (Some (jenc ch'))).
  - unfold Unmarshal_err. rewrite Unmarshal_jenc by (by apply Hwf). simpl. by rewrite Hkeeper.
  - apply bootstrap_writes_elem. right; right; left. exists ch'. rewrite Hl', Hid, Hcid. split; [by apply list_elem_of_fmap_2 | done].
  - only_write. apply channel_key_inj in Hk. rewrite Hl' in Hchw. apply list_elem_of_fmap in Hchw as (x & [= ->] & Hx).
    rewrite (NoDup_map_inj ch_ID l' x ch'); [done|by rewrite Hmap|done|done|congruence].
Qed.

Ltac no_write := apply writes_absent; intros w Hw Hk; apply bootstrap_writes_elem in Hw as
  [(gw & Hgw & [-> | ->]) | [(u' & Hu' & [-> | ->]%boot_user_writes_elem) | [(chw & Hchw & ->) | [(ew & Hew & ->) | (Hnilw & ->)]]]];
  simpl in Hk; try discriminate.

Lemma global_applied : GetGlobalConfig rs' = Ok (default DefaultGlobalConfig (bs_Global cfg)).
Proof using All.
  pose proof (sl_global _ _ _ Hseals) as Hs. rewrite Hglobal in Hs. unfold GetGlobalConfig. rewrite !getFSMValue_ready by done.
  change (fsm_get (rs_db rs')) with (store_get rs').
  destruct (bs_Global cfg) as [g|] eqn:Eg, (bp_Global q) as [g'|] eqn:Eq; try done.
  - destruct Hs as [Ho Hwf]. destruct (Hwf (nm_global _ Hnamed g Eg)) as [Hsc Hdc].
    assert (store_get rs' "/global/server/" = Some (jenc (gc_Server g'))) as ->.
    { rewrite Hget. apply writes_given; [apply bootstrap_writes_elem; left; exists g'; auto|]. only_write. congruence. }
    assert (store_get rs' "/global/defaults/" = Some (jenc (gc_Defaults g'))) as ->.
    { rewrite Hget. apply writes_given; [apply bootstrap_writes_elem; left; exists g'; auto|]. only_write. congruence. }
    cbn [res_bind]. rewrite Unmarshal_jenc by exact Hsc. cbn [res_bind]. rewrite Unmarshal_jenc by exact Hdc.
    cbn [res_bind]. rewrite Hkeeper. simpl. rewrite <- Ho. f_equal. by destruct g'.
  - assert (store_get rs' "/global/server/" = None) as ->.
    { rewrite Hget. transitivity (store_get rs "/global/server/"); [no_write; congruence | by apply Hempty]. }
    assert (store_get rs' "/global/defaults/" = None) as ->.
    { rewrite Hget. transitivity (store_get rs "/global/defaults/"); [no_write; congruence | by apply Hempty]. }
    cbn [res_bind]. by destruct (rs_keeper rs').
Qed.

Lemma auth_applied : InternalAuthEnabled rs' = Ok (bp_InternalAuthEnabled p) /\ OIDCProviders rs' = Ok (bp_OIDCProviders p).
Proof using All.
  rewrite InternalAuthEnabled_stored, OIDCProviders_stored by done. split.
  - rewrite <- (sl_internal _ _ _ Hseals). destruct (bp_InternalAuthEnabled q) as [e|] eqn:Ee.
    + assert (store_get rs' internal_key = Some (jenc e)) as ->; [|by destruct e].
      rewrite Hget. apply writes_given; [apply bootstrap_writes_elem; right; right; right; left; by exists e|]. only_write. congruence.
    + assert (store_get rs' internal_key = None) as ->; [|done].
      rewrite Hget. transitivity (store_get rs internal_key); [no_write; congruence | by apply Hempty].
  - pose proof (sl_providers _ _ _ Hseals) as Hp. destruct (decide (bp_OIDCProviders q = [])) as [Hnil|Hne].
    + assert (store_get rs' providers_key = None) as ->; [|by rewrite Hnil in Hp].
      rewrite Hget. transitivity (store_get rs providers_key); [no_write; congruence | by apply Hempty].
    + assert (store_get rs' providers_key = Some (jenc (bp_OIDCProviders q))) as ->.
      { rewrite Hget. apply writes_given; [by apply bootstrap_writes_elem; do 4 right|]. only_write. done. }
      unfold Unmarshal_err. rewrite Unmarshal_jenc by (by apply Forall_true). cbn [res_bind]. by rewrite Hkeeper.
Qed.

Lemma bootstrap_applied : bootstrapped cfg rs'.
Proof using All.
  split.
  - intros u Hu. destruct (users_applied u Hu) as (v & (_ & _ & _ & _ & Hh) & Hgu & Hbu). eexists. rewrite Hbu, Hgu. by repeat split.
  - intros c Hc. destruct (channels_applied c Hc) as (ch & Hb%bootstrap_channel_of & Hg). by exists ch.
  - apply global_applied.
  - destruct auth_applied as [Hi Ho]. exists (bp_InternalAuthEnabled p), (bp_OIDCProviders p).
    split; [exact Hi|]. split; [exact Ho|]. by apply bootstrap_auth_of.
Qed.
End applied.

Lemma bootstrap_command q : payload_wf q ->
  command_writes (mkCommand "bootstrap" "" (Raw (Some (jenc q)))) = bootstrap_writes q.
Proof.
  intros Hwf. change (command_writes _) with (match Unmarshal (jenc q) with Some p => bootstrap_writes p | None => [] end).
  by rewrite payload_roundtrip.
Qed.

End bootstrap.

(** ** Witnesses *)

Definition bootstrap_with (secret : string) (ref : option SecretRef) : BootstrapConfig :=
  mkBootstrap (Some demo_global) [mkBUser "root" "hunter2" ["admin"] ["*"]]
    [mkBChannel "build" "CI" "s3cret" [] ["10.0.0.0/8"] "token" [mkBToken "t1" "ci" "tok" "deploy"]]
    (Some (mkBootAuth None (Some [mkBootProvider "corp" "" "cid" secret ref "https://idp" [] ""]))).
Definition demo_bootstrap : BootstrapConfig := bootstrap_with "" (Some (mkSecretRef "oidc" "secret")).
Definition resolved_bootstrap : BootstrapConfig := bootstrap_with "topsecret" None.
Definition demo_secrets : Clientset := fun ns name =>
  if bool_decide (ns = "prod") && bool_decide (name = "oidc") then Ok {[ "secret" := "topsecret" ]} else Err (errorf "not found").

Lemma resolved_named : named resolved_bootstrap.
Proof.
  split.
  - split; [apply NoDup_singleton|]. by intros u ->%list_elem_of_singleton.
  - split; [apply NoDup_singleton|]. by intros p ->%list_elem_of_singleton.
  - intros g [= <-]. by repeat split.
Qed.


(** The refusal of the state machine is dropped: a file with an unnamed user is
    accepted and nothing of it is stored, not even the administrator. *)
Theorem bootstrap_refusal_hidden :
  let rs := sealing_store ∅ in
  let cfg := resolved_bootstrap <| bs_Users := [mkBUser "root" "hunter2" ["admin"] ["*"]; mkBUser "" "x" [] []] |> in
  (ApplyBootstrap cfg rs).2 = Ok tt /\ HasData (ApplyBootstrap cfg rs).1 = Ok false.
Proof. split; vm_compute; reflexivity. Qed.
