(* ===== verification/ApiTheory.v ===== *)
(** * ApiTheory: what the administrative API keeps

    Against [GovernanceLaws]: no sequence of API requests locks the deployment
    out or reopens it; against [RepositoryLaws] and [Repository]: what updates
    change, who may grant what, and what responses reveal. *)

From stdpp Require Import relations.
From S2P Require Import Prelude Json Domain Bolt Fsm Crypto Store Repo Authorization StoreTheory RateLimit Http Service ServiceTheory Buffer Broker Middleware AuthHandler ApiDto Api Governance.

#[local] Arguments jenc : simpl never.
#[local] Arguments jdec : simpl never.

(** ** Administered deployments *)

Section governance.
Context {R : Type} `{!Repository R} `{!GovernanceLaws R}.
Implicit Types (s : Service R) (r : R).

(** Some listed user is an administrator, and the authentication configuration
    is one the server starts with. *)
Record administered s : Prop := {
  ad_ok : gov_ok (svc_repo s);
  ad_admin : exists id u, gov_user (svc_repo s) id = Some u /\ hasAdminRole (u_Roles u) = true;
  ad_auth : ValidateAuthConfig s = None }.

Lemma administered_closed s : administered s -> IsSetupMode s = false /\ BuildAuthConfig s <> None.
Proof.
  intros [Hok (id & u & Hu & Ha) Hv]. destruct (law_ListUsers _ Hok) as (l & Hl & Hin).
  assert (u ∈ l) as Hul by (apply Hin; eauto). destruct l as [|v l]; [by apply not_elem_of_nil in Hul|].
  unfold IsSetupMode, BuildAuthConfig, IsInternalAuthEnabled, ValidateAuthConfig, users_or_empty, providers_or_empty in *.
  rewrite Hl in *. split; [done|]. destruct (repo_InternalAuthEnabled (svc_repo s)) as [[[]|]|]; [done| |done|done].
  destruct (repo_OIDCProviders (svc_repo s)) as [[|p ps]|]; done.
Qed.

#[export] Instance gov_frame_trans : Transitive (gov_frame (R := R)).
Proof.
  intros r1 r2 r3 (_ & Hu & Ha) (Hok & Hu' & Ha'). split; [exact Hok|]. split; [|by etrans].
  intros id. by rewrite Hu', Hu.
Qed.

Lemma gov_frame_refl r : gov_ok r -> gov_frame r r.
Proof. intros Hok. split; [exact Hok|]. by split. Qed.

Lemma ValidateAuthConfig_same s s' : same_auth (svc_repo s) (svc_repo s') -> ValidateAuthConfig s' = ValidateAuthConfig s.
Proof. intros [Hp Hi]. unfold ValidateAuthConfig. by rewrite Hp, Hi. Qed.

Lemma frame_administered s s' : gov_frame (svc_repo s) (svc_repo s') -> administered s -> administered s'.
Proof.
  intros (Hok & Hu & Ha) [_ (id & u & Hid & Hadm) Hv]. split; [exact Hok| |by rewrite (ValidateAuthConfig_same s)].
  exists id, u. by rewrite Hu.
Qed.

(** Users change, authentication does not: an administrator must remain. *)
Lemma users_administered s s' :
  gov_ok (svc_repo s') -> same_auth (svc_repo s) (svc_repo s') -> administered s ->
  (exists id u, gov_user (svc_repo s') id = Some u /\ hasAdminRole (u_Roles u) = true) -> administered s'.
Proof. intros Hok Ha [_ _ Hv] Hadm. split; [exact Hok|exact Hadm|]. by rewrite (ValidateAuthConfig_same s). Qed.

Lemma notify_repo s id : svc_repo (notifyChannelChanged s id) = svc_repo s.
Proof. unfold notifyChannelChanged. go_cases. Qed.

Lemma on_repo_frame f s : gov_frame (svc_repo s) (f (svc_repo s)).1 -> gov_frame (svc_repo s) (svc_repo (on_repo f s).1).
Proof. unfold on_repo. by destruct (f (svc_repo s)). Qed.
Lemma on_repo'_frame {A} (f : R -> R * A * res unit) s :
  gov_frame (svc_repo s) (f (svc_repo s)).1.1 -> gov_frame (svc_repo s) (svc_repo (on_repo' f s).1.1).
Proof. unfold on_repo'. by destruct (f (svc_repo s)) as [[? ?] ?]. Qed.

Lemma svc_CreateChannel_frame ch s : gov_ok (svc_repo s) -> gov_frame (svc_repo s) (svc_repo (svc_CreateChannel ch s).1.1).
Proof.
  intros Hok. pose proof (on_repo'_frame (repo_CreateChannel ch) s (law_CreateChannel _ _ Hok)) as Hf.
  unfold svc_CreateChannel. destruct (on_repo' _ s) as [[s1 ch1] [?|?]]; [|exact Hf]. cbn. by rewrite notify_repo.
Qed.

Lemma svc_UpdateChannel_frame ch s : gov_ok (svc_repo s) -> gov_frame (svc_repo s) (svc_repo (svc_UpdateChannel ch s).1.1).
Proof.
  intros Hok. pose proof (on_repo'_frame (repo_UpdateChannel ch) s (law_UpdateChannel' _ _ Hok)) as Hf.
  unfold svc_UpdateChannel. destruct (on_repo' _ s) as [[s1 ch1] [?|?]]; [|exact Hf]. cbn. by rewrite notify_repo.
Qed.

Lemma svc_UpdateGlobalConfig_frame c s : gov_ok (svc_repo s) -> gov_frame (svc_repo s) (svc_repo (svc_UpdateGlobalConfig c s).1).
Proof.
  intros Hok. pose proof (on_repo_frame (repo_UpdateGlobalConfig c) s (law_UpdateGlobalConfig _ _ Hok)) as Hf.
  unfold svc_UpdateGlobalConfig. destruct (on_repo _ s) as [s1 [?|?]]; [|exact Hf].
  destruct (svc_notified s1); [|exact Hf]. cbn [fst] in *.
  match goal with |- context [fold_left ?g _ s1] =>
    assert (forall l s2, svc_repo (fold_left g l s2) = svc_repo s2) as Hfold end.
  { clear. intros l. induction l as [|ch l IH]; intros s2; [done|]. simpl. rewrite IH. go_cases. }
  by rewrite Hfold.
Qed.

Lemma CreateAccessToken_frame `{!Crypto} rfc now id name scope rnd s :
  gov_ok (svc_repo s) -> gov_frame (svc_repo s) (svc_repo (CreateAccessToken rfc now id name scope rnd s).1.2).
Proof.
  intros Hok. unfold CreateAccessToken. cbv zeta. destruct (repo_GetChannel id (svc_repo s)) as [ch|]; [|by apply gov_frame_refl].
  destruct (GenerateAccessToken rnd) as [r1 [[raw hash]|]]; [|by apply gov_frame_refl].
  destruct (GenerateUUID r1) as [r2 [uid|]]; [|by apply gov_frame_refl].
  match goal with |- context [on_repo' ?f s] => pose proof (on_repo'_frame f s (law_UpdateChannel' _ _ Hok)) as Hf end.
  destruct (on_repo' _ s) as [[s1 ?] ?]. exact Hf.
Qed.

Lemma DeleteAccessToken_frame id tid s :
  gov_ok (svc_repo s) -> gov_frame (svc_repo s) (svc_repo (DeleteAccessToken id tid s).1).
Proof.
  intros Hok. unfold DeleteAccessToken. destruct (repo_GetChannel id (svc_repo s)) as [ch|]; [|by apply gov_frame_refl].
  match goal with |- context [on_repo' ?f s] => pose proof (on_repo'_frame f s (law_UpdateChannel' _ _ Hok)) as Hf end.
  destruct (on_repo' _ s) as [[s1 ?] ?]. exact Hf.
Qed.
End governance.

Create HintDb gov.
#[export] Hint Resolve gov_frame_refl on_repo_frame on_repo'_frame svc_CreateChannel_frame svc_UpdateChannel_frame
  svc_UpdateGlobalConfig_frame DeleteAccessToken_frame law_CreateChannelRoleMapping law_DeleteChannelRoleMapping
  law_CreateRoleMapping law_DeleteRoleMapping law_DeleteChannel law_BumpAuthEpoch' law_SetSetupModeEndTime : gov.

(** ** Handlers that leave the governance alone *)

Section handlers.
Context {R : Type} `{!Repository R} `{!GovernanceLaws R} `{!Net} `{!Url} `{!Crypto} `{!JsonText} `{!JsonDecoder} `{!Validator}.
Context (rfc3339 : Z -> string).
Implicit Types (r : Request) (w : World R).
Abbreviation repo w := (svc_repo (w_svc w)).

Definition wframe w w' : Prop := gov_frame (repo w) (repo w').
Definition keeps (f : World R -> World R * Response) : Prop := forall w, gov_ok (repo w) -> wframe w (f w).1.

#[export] Instance wframe_trans : Transitive wframe.
Proof. intros w1 w2 w3. apply gov_frame_trans. Qed.

Lemma call_frame {A} (f : Service R -> Service R * A) w :
  gov_frame (repo w) (svc_repo (f (w_svc w)).1) -> wframe w (call f w).1.
Proof. unfold call, wframe. by destruct (f (w_svc w)). Qed.
Lemma call'_frame {A B} (f : Service R -> Service R * A * B) w :
  gov_frame (repo w) (svc_repo (f (w_svc w)).1.1) -> wframe w (call' f w).1.1.
Proof. unfold call', wframe. by destruct (f (w_svc w)) as [[? ?] ?]. Qed.

Lemma keeps_same f : (forall w, repo (f w).1 = repo w) -> keeps f.
Proof. intros Hs w Hok. unfold wframe. rewrite Hs. by apply gov_frame_refl. Qed.
Lemma keeps_body {A} `{JsonCodec A} (k : A -> World R -> World R * Response) r :
  (forall a, keeps (k a)) -> keeps (with_body k r).
Proof. intros Hk w Hok. unfold with_body. destruct (decodeJSON r) as [a|]; [by apply Hk | by apply gov_frame_refl]. Qed.
Lemma keeps_channel (k : Channel -> World R -> World R * Response) r : (forall ch, keeps (k ch)) -> keeps (with_channel k r).
Proof. intros Hk w Hok. unfold with_channel. destruct (repo_GetChannel _ _); [by apply Hk | by apply gov_frame_refl]. Qed.
Lemma keeps_write f resp :
  (forall s, gov_ok (svc_repo s) -> gov_frame (svc_repo s) (svc_repo (f s).1)) -> keeps (write_then f resp).
Proof.
  intros Hf w Hok. unfold write_then. pose proof (call_frame f w (Hf _ Hok)) as Hw. by destruct (call f w).
Qed.

(** A service call of the goal: its frame, by the laws. *)
Ltac frame_call :=
  match goal with
  | |- context [call' ?f ?w] =>
      let Hf := fresh "Hf" in
      assert (wframe w (call' f w).1.1) as Hf by (apply call'_frame; auto 6 with gov);
      destruct (call' f w) as [[? ?] ?]
  | |- context [call ?f ?w] =>
      let Hf := fresh "Hf" in
      assert (wframe w (call f w).1) as Hf by (apply call_frame; auto 6 with gov);
      destruct (call f w) as [? ?]
  end.

Lemma bump_frame w : gov_ok (repo w) -> wframe w (bump_epoch w).
Proof. intros Hok. apply call_frame. unfold svc_BumpAuthEpoch. auto with gov. Qed.

Lemma createChannel_keeps r : keeps (createChannel r).
Proof.
  apply keeps_body. intros ch w Hok. cbv zeta. destruct (negb _); [by apply gov_frame_refl|].
  destruct (negb _); [by apply gov_frame_refl|].
  frame_call. destruct r0 as [?|?]; [|exact Hf]. pose proof (proj1 Hf) as Hok1. cbn [fst] in *.
  frame_call. by etrans.
Qed.

Lemma updateChannel_keeps r : keeps (updateChannel r).
Proof.
  apply keeps_body. intros req. destruct (match cu_EncryptionMode req with Some _ => _ | None => _ end); [by apply keeps_same|].
  apply keeps_channel. intros ch w Hok. cbv zeta. destruct (negb _); [by apply gov_frame_refl|]. by frame_call.
Qed.

Lemma generateSecret_keeps r : keeps (generateSecret r).
Proof.
  apply keeps_channel. intros ch w Hok. destruct (rand_Read 32 (w_rand w)) as [rnd [b|]]; [|by apply gov_frame_refl].
  cbv zeta. by frame_call.
Qed.

Lemma createAccessToken_keeps r : keeps (createAccessToken rfc3339 r).
Proof.
  apply keeps_body. intros body w Hok. cbv zeta. destruct (_ && _ && _); [by apply gov_frame_refl|].
  match goal with |- context [CreateAccessToken ?a ?b ?c ?d ?e ?f ?g] =>
    pose proof (CreateAccessToken_frame a b c d e f g Hok) as Hf; destruct (CreateAccessToken a b c d e f g) as [[? ?] ?] end.
  exact Hf.
Qed.

Lemma updateAccessMode_keeps r : keeps (updateAccessMode r).
Proof.
  apply keeps_body. intros body. cbv zeta. destruct (_ && _); [by apply keeps_same|].
  apply keeps_channel. intros ch w Hok. destruct (_ && _); [by apply gov_frame_refl|]. by frame_call.
Qed.

Lemma addChannelACLEntry_keeps r : keeps (addChannelACLEntry r).
Proof.
  apply keeps_body. intros m w Hok. destruct (negb _); [by apply gov_frame_refl|].
  destruct (bool_decide _); [by apply gov_frame_refl|]. destruct (bool_decide _); [by apply gov_frame_refl|]. by frame_call.
Qed.

Lemma createRoleMapping_keeps r : keeps (createRoleMapping r).
Proof.
  apply keeps_body. intros m w Hok. destruct (negb _); [by apply gov_frame_refl|].
  destruct (bool_decide _); [by apply gov_frame_refl|]. destruct (bool_decide _); [by apply gov_frame_refl|].
  cbv zeta. destruct (negb _); [by apply gov_frame_refl|]. by frame_call.
Qed.

Lemma updateGlobalConfig_keeps r : keeps (updateGlobalConfig r).
Proof.
  apply keeps_body. intros req w Hok. destruct (sets_session_secret req); [by apply gov_frame_refl|].
  destruct (repo_GetGlobalConfig _) as [cfg|]; [|by apply gov_frame_refl].
  destruct (merge_config req cfg) as [cfg'|]; [|by apply gov_frame_refl].
  apply keeps_write; [|exact Hok]. intros s. apply svc_UpdateGlobalConfig_frame.
Qed.

Lemma listChannels_keeps r : keeps (listChannels r).
Proof. apply keeps_same. intros w. unfold listChannels. cbv zeta. destruct (repo_ListChannels _); [by destruct (bool_decide _) | done]. Qed.
Lemma getUser_keeps r : keeps (getUser r).
Proof. apply keeps_same. intros w. unfold getUser. by destruct (repo_GetUser _ _). Qed.
Lemma listUsers_keeps r : keeps (listUsers r).
Proof. apply keeps_same. intros w. unfold listUsers. by destruct (repo_ListUsers _). Qed.
Lemma getGlobalConfig_keeps r : keeps (getGlobalConfig r).
Proof. apply keeps_same. intros w. unfold getGlobalConfig. by destruct (repo_GetGlobalConfig _). Qed.
Lemma listOIDCProviders_keeps r : keeps (listOIDCProviders r).
Proof. apply keeps_same. intros w. unfold listOIDCProviders. by destruct (repo_OIDCProviders _). Qed.
Lemma getMe_keeps r : keeps (getMe r).
Proof. apply keeps_same. intros w. unfold getMe. cbv zeta. destruct (IsSetupMode _); [done|]. by destruct (request_user r w). Qed.

(** ** Handlers that change users or authentication *)

Definition stays (f : World R -> World R * Response) : Prop :=
  forall w, administered (w_svc w) -> administered (w_svc (f w).1).

Lemma keeps_stays f : keeps f -> stays f.
Proof. intros Hk w Ha. eapply frame_administered; [|exact Ha]. apply Hk, Ha. Qed.

Lemma stays_body {A} `{JsonCodec A} (k : A -> World R -> World R * Response) r : (forall a, stays (k a)) -> stays (with_body k r).
Proof. intros Hk w Ha. unfold with_body. destruct (decodeJSON r) as [a|]; [by apply Hk | done]. Qed.

Lemma bump_administered w : administered (w_svc w) -> administered (w_svc (bump_epoch w)).
Proof. intros Ha. eapply frame_administered; [|exact Ha]. apply bump_frame, Ha. Qed.

Lemma hash_password_repo p w : repo (hash_password p w).1 = repo w.
Proof. unfold hash_password. by destruct (rand_Read 16 (w_rand w)). Qed.
Lemma new_hash_repo input w : repo (new_hash input w).1 = repo w.
Proof.
  unfold new_hash. case_bool_decide; [done|]. pose proof (hash_password_repo (ui_Password input) w) as Hr.
  by destruct (hash_password _ w).
Qed.

Lemma same_repo_administered s s' : svc_repo s' = svc_repo s -> administered s -> administered s'.
Proof. intros Hr Ha. eapply frame_administered; [|exact Ha]. rewrite Hr. apply gov_frame_refl, Ha. Qed.

Lemma createUser_stays r : stays (createUser r).
Proof.
  apply stays_body. intros input w Ha. cbv zeta. destruct (negb _); [done|]. destruct (negb _); [done|].
  destruct (negb _); [done|]. pose proof (hash_password_repo (ui_Password input) w) as Hr.
  destruct (hash_password _ w) as [w1 [hash|]]; cbn [fst] in *.
  2:{ by eapply same_repo_administered. }
  assert (administered (w_svc w1)) as Ha1 by (by eapply same_repo_administered). clear Ha Hr.
  set (u := mkUser _ _ _ _ _ _ _). clearbody u.
  pose proof (law_CreateUser (repo w1) u (ad_ok _ Ha1)) as (Hok & Hs & Hkeep & _).
  unfold call', on_repo'. destruct (repo_CreateUser u (repo w1)) as [[r' u'] x]. cbn in *.
  eapply users_administered; [exact Hok|exact Hs|exact Ha1|].
  destruct (ad_admin _ Ha1) as (id & v & Hv & Hadm). exists id, v. split; [by apply Hkeep | exact Hadm].
Qed.

(** Replacing a user's record by one that is still an administrator if it was. *)
Lemma replace_user_administered w u :
  administered (w_svc w) -> plain_id (u_ID u) ->
  (forall v, gov_user (repo w) (u_ID u) = Some v -> hasAdminRole (u_Roles v) = true -> hasAdminRole (u_Roles u) = true) ->
  administered (w_svc (call (on_repo (repo_UpdateUser u)) w).1).
Proof.
  intros Ha Hpl Hadm. destruct (law_UpdateUser (repo w) u (ad_ok _ Ha) Hpl) as (Hok & Hs & Hu).
  unfold call, on_repo. destruct (repo_UpdateUser u (repo w)) as [r' x]. cbn in *.
  eapply users_administered; [exact Hok|exact Hs|exact Ha|].
  destruct (ad_admin _ Ha) as (id & v' & Hv & Hva). destruct (Hu id) as [E|[-> E]].
  - exists id, v'. split; [exact (eq_trans E Hv) | exact Hva].
  - exists (u_ID u), u. split; [exact E|]. by eapply Hadm.
Qed.

(** chi's URL parameters are single path segments. *)
Definition segment_params r : Prop := forall k, plain_id (URLParam r k).

Lemma merge_user_keeps input hash u :
  u_ID (merge_user input hash u) = u_ID u /\ u_Roles (merge_user input hash u) = default (u_Roles u) (ui_Roles input).
Proof.
  unfold merge_user. case_bool_decide; destruct hash, (ui_Roles input), (ui_Channels input); done.
Qed.

Lemma updateUser_stays r : segment_params r -> stays (updateUser r).
Proof.
  intros Hseg. apply stays_body. intros input w Ha. cbv zeta. destruct (negb _); [done|].
  destruct (resolveActor r w).1 as [actor|]; [|done]. destruct (repo_GetUser _ _) as [u|] eqn:Eg; [|done].
  destruct (update_refused r w input u) eqn:Er; [done|].
  pose proof (new_hash_repo input w) as Hr. destruct (new_hash input w) as [w1 [hash|]]; cbn [fst] in *.
  2:{ by eapply same_repo_administered. }
  assert (administered (w_svc w1)) as Ha1 by (by eapply same_repo_administered).
  destruct (merge_user_keeps input hash u) as [Hid Hroles].
  pose proof (law_GetUser_keyed _ _ _ (ad_ok _ Ha) (Hseg "id") Eg) as Hkey.
  assert (administered (w_svc (call (on_repo (repo_UpdateUser (merge_user input hash u))) w1).1)) as Ha2.
  { apply replace_user_administered; [exact Ha1|by rewrite Hid, Hkey; apply Hseg|].
    rewrite Hid, Hkey, Hr, Hroles. intros v Hv Hadm.
    apply law_GetUser in Hv; [|exact (ad_ok _ Ha)|by destruct (law_keyed _ _ _ (ad_ok _ Ha) Hv)].
    rewrite Eg in Hv. injection Hv as ->. unfold update_refused in Er.
    destruct (ui_Roles input) as [roles|]; [|exact Hadm]. rewrite Hadm in Er. cbn [default andb] in *.
    change (hasAdminRole roles = true). destruct (hasAdminRole roles); [done|]. cbn [negb] in Er.
    destruct (negb (may_assign r w (u_Roles v) "*")); [done|]. by destruct (negb (may_assign r w roles "*")). }
  destruct (call _ w1) as [w2 [?|?]]; cbn [fst] in *; [|exact Ha2].
  destruct (revokes_sessions input); [by apply bump_administered | exact Ha2].
Qed.

Lemma updateBinding_stays r : segment_params r -> stays (updateBinding r).
Proof.
  intros Hseg. apply stays_body. intros binding w Ha. cbv zeta. destruct (negb _); [done|].
  destruct (repo_GetUser _ _) as [u|] eqn:Eg; [|done].
  destruct (binding_refused _ _ _ _) eqn:Er; [done|].
  assert (administered (w_svc (call (UpdateUserBinding (binding <| ub_UserID := URLParam r "userID" |>)) w).1)) as Ha2.
  { unfold UpdateUserBinding, call. cbn [ub_UserID ub_Roles ub_Channels set_fld]. rewrite Eg.
    pose proof (law_GetUser_keyed _ _ _ (ad_ok _ Ha) (Hseg "userID") Eg) as Hkey.
    set (u' := u <| u_Roles := ub_Roles binding |> <| u_Channels := ub_Channels binding |>).
    pose proof (replace_user_administered w u' Ha) as Hrep. unfold call in Hrep. apply Hrep.
    - cbn. rewrite Hkey. apply Hseg.
    - cbn [u_ID u_Roles u' set_fld]. rewrite Hkey. intros v Hv Hadm. change (hasAdminRole (ub_Roles binding) = true).
      apply law_GetUser in Hv; [|exact (ad_ok _ Ha)|by destruct (law_keyed _ _ _ (ad_ok _ Ha) Hv)].
      rewrite Eg in Hv. injection Hv as ->. unfold binding_refused in Er.
      cbn [ub_Roles ub_Channels set_fld] in Er. rewrite Hadm in Er.
      destruct (hasAdminRole (ub_Roles binding)); [done|]. cbn [negb andb] in Er.
      destruct (negb _ || negb _); [done|]. by destruct (negb (may_assign_channels _ _ _)). }
  destruct (call _ w) as [w2 [?|?]]; cbn [fst] in *; [|exact Ha2]. by apply bump_administered.
Qed.

(** deleteUser's count: another listed administrator. *)
Lemma delete_refused_admin id w :
  gov_ok (repo w) -> delete_refused id w = None ->
  (forall u, repo_GetUser id (repo w) = Ok u -> hasAdminRole (u_Roles u) = false) \/
  exists id' u, id' <> id /\ gov_user (repo w) id' = Some u /\ hasAdminRole (u_Roles u) = true.
Proof.
  intros Hok. unfold delete_refused. destruct (repo_GetUser id (repo w)) as [u|]; [|done].
  destruct (hasAdminRole (u_Roles u)) eqn:Ea; [|intros _; left; by intros u' [= <-]].
  destruct (law_ListUsers _ Hok) as (l & -> & Hin). case_bool_decide as Hlen; [done|]. intros _. right.
  destruct (filter _ l) as [|v l'] eqn:Ef; [done|].
  assert (v ∈ filter (fun usr => hasAdminRole (u_Roles usr) = true /\ u_ID usr <> id) l) as Hv by (rewrite Ef; left).
  apply list_elem_of_filter in Hv as [[Hadm Hne] [id' Hu]%Hin].
  exists id', v. split_and!; try done. by destruct (law_keyed _ _ _ Hok Hu) as [<- _].
Qed.

Lemma delete_commit_administered id w :
  administered (w_svc w) -> plain_id id ->
  (exists id' u, id' <> id /\ gov_user (repo w) id' = Some u /\ hasAdminRole (u_Roles u) = true) ->
  administered (w_svc (delete_commit id w).1).
Proof.
  intros Ha Hpl (id' & u & Hne & Hu & Hadm). unfold delete_commit.
  destruct (law_DeleteUser (repo w) id (ad_ok _ Ha) Hpl) as (Hok & Hs & Hoth & _).
  assert (administered (w_svc (call (on_repo (repo_DeleteUser id)) w).1)) as Ha2.
  { unfold call, on_repo. destruct (repo_DeleteUser id (repo w)) as [r' x]. cbn in *.
    eapply users_administered; [exact Hok|exact Hs|exact Ha|]. exists id', u. split; [|exact Hadm].
    exact (eq_trans (Hoth _ Hne) Hu). }
  destruct (call _ w) as [w2 [?|?]]; cbn [fst] in *; [|exact Ha2]. by apply bump_administered.
Qed.

Lemma deleteUser_stays r : segment_params r -> stays (deleteUser r).
Proof.
  intros Hseg w Ha. unfold deleteUser. destruct (delete_refused _ w) eqn:Er; [done|].
  apply delete_commit_administered; [exact Ha|apply Hseg|].
  destruct (delete_refused_admin _ _ (ad_ok _ Ha) Er) as [Hno|Hyes]; [|exact Hyes].
  destruct (ad_admin _ Ha) as (id & u & Hu & Hadm). exists id, u. split_and!; [|exact Hu|exact Hadm].
  intros ->. pose proof Hu as Hg. apply law_GetUser in Hg; [|exact (ad_ok _ Ha)|by destruct (law_keyed _ _ _ (ad_ok _ Ha) Hu)].
  rewrite (Hno _ Hg) in Hadm. done.
Qed.

(** ** Providers and the flag *)

Lemma ValidateAuthConfig_iff s :
  ValidateAuthConfig s = None <->
  exists flag, repo_InternalAuthEnabled (svc_repo s) = Ok flag /\
    (flag = Some false -> exists p ps, repo_OIDCProviders (svc_repo s) = Ok (p :: ps)).
Proof.
  unfold ValidateAuthConfig. destruct (repo_InternalAuthEnabled (svc_repo s)) as [flag|]; [|naive_solver].
  split.
  - intros Hv. exists flag. split; [done|]. intros ->. destruct (repo_OIDCProviders (svc_repo s)) as [[|p ps]|]; [done|eauto|done].
  - intros (? & [= <-] & Hf). destruct flag as [[]|]; [done| |done]. by destruct (Hf eq_refl) as (p & ps & ->).
Qed.

Lemma store_providers_stays ps resp w :
  administered (w_svc w) -> IsInternalAuthEnabled (w_svc w) = true \/ ps <> [] ->
  administered (w_svc (store_providers ps resp w).1).
Proof.
  intros Ha Hps. unfold store_providers. destruct Ha as [Hok Hadm Hv].
  destruct (law_SetOIDCProviders _ ps Hok) as (Hok' & Hu & Hi & Hp).
  assert (administered (w_svc (call (on_repo (repo_SetOIDCProviders ps)) w).1)) as Ha2.
  { unfold call, on_repo. destruct (repo_SetOIDCProviders ps (repo w)) as [r' x]. cbn in *. split; cbn.
    - exact Hok'.
    - destruct Hadm as (id & u & Hid & Hadm). exists id, u. by rewrite Hu.
    - apply ValidateAuthConfig_iff in Hv as (flag & Hf & Hfp). apply ValidateAuthConfig_iff. cbn.
      exists flag. rewrite Hi. split; [exact Hf|]. intros ->. destruct Hp as [-> | ->]; [by apply Hfp|].
      unfold IsInternalAuthEnabled in Hps. rewrite Hf in Hps. destruct Hps as [|Hne]; [done|]. destruct ps; eauto. done. }
  destruct (call _ w) as [w2 [?|?]]; cbn [fst] in *; [|exact Ha2]. by apply bump_administered.
Qed.

Lemma updateAllOIDCProviders_stays r : stays (updateAllOIDCProviders r).
Proof.
  apply stays_body. intros ps w Ha. cbv zeta. destruct (_ && _) eqn:Eb; [done|]. apply store_providers_stays; [done|].
  apply andb_false_iff in Eb as [Eb|Eb]; [left; by apply negb_false_iff in Eb | right; by apply bool_decide_eq_false in Eb].
Qed.

Lemma replace_provider_ne id p l : replace_provider id p l <> [].
Proof. destruct l as [|q l]; [done|]. simpl. by case_bool_decide. Qed.

Lemma updateOIDCProvider_stays r : stays (updateOIDCProvider r).
Proof.
  apply stays_body. intros p w Ha. destruct (repo_OIDCProviders _) as [ps|]; [|done].
  apply store_providers_stays; [done|]. right. apply replace_provider_ne.
Qed.

Lemma deleteOIDCProvider_stays r : stays (deleteOIDCProvider r).
Proof.
  intros w Ha. unfold deleteOIDCProvider. destruct (repo_OIDCProviders _) as [ps|]; [|done].
  cbv zeta. destruct (_ && _) eqn:Eb; [done|]. apply store_providers_stays; [done|].
  apply andb_false_iff in Eb as [Eb|Eb]; [left; by apply negb_false_iff in Eb | right; by apply bool_decide_eq_false in Eb].
Qed.

Lemma setInternalAuth_stays r : stays (setInternalAuth r).
Proof.
  apply stays_body. intros body w Ha. destruct Ha as [Hok Hadm Hv].
  assert (administered (w_svc (call (svc_SetInternalAuthEnabled (en_Enabled body)) w).1)) as Ha2.
  { destruct (law_SetInternalAuthEnabled' _ (en_Enabled body) Hok) as (Hok' & Hu & Hp & Hi).
    assert (administered (w_svc w)) as Ha by done.
    unfold call, svc_SetInternalAuthEnabled, on_repo.
    destruct (repo_SetInternalAuthEnabled (en_Enabled body) (repo w)) as [r' x]. cbn in *.
    assert ((en_Enabled body = false -> exists p ps, repo_OIDCProviders (repo w) = Ok (p :: ps)) ->
      administered ((w_svc w) <| svc_repo := r' |>)) as Hdone.
    { intros Hen. split; cbn; [exact Hok'| |].
      - destruct Hadm as (id & u & Hid & Hadm). exists id, u. by rewrite Hu.
      - apply ValidateAuthConfig_iff in Hv as (flag & Hf & Hfp). apply ValidateAuthConfig_iff. cbn. rewrite Hp.
        destruct Hi as [-> | ->]; [by exists flag|]. exists (Some (en_Enabled body)). split; [done|]. intros [= E]. by apply Hen. }
    destruct (en_Enabled body) eqn:Een; cbn [negb]; [by apply Hdone|].
    destruct (repo_OIDCProviders (repo w)) as [[|p ps]|]; [done| |done]. apply Hdone. eauto. }
  by destruct (call _ w).
Qed.

(** ** Sequences of requests *)

(** One step of a deployment: a request through a route of the API, whatever its
    caller, body and guards, or anything that leaves users, providers and the
    flag alone: webhooks, logins, other writes, the clock, lost updates. *)
Inductive api_step : World R -> World R -> Prop :=
  | step_route t r w : t ∈ api_routes rfc3339 -> segment_params r -> api_step w (run_route t r w).1
  | step_other w w' : wframe w w' -> api_step w w'.

Lemma guards_same gs r w : 
  (forall g, g ∈ gs -> forall r0 w0, match g r0 w0 with Next r1 w1 => w1 = w0 /\ rq_Params r1 = rq_Params r0 | Answer w1 _ => w1 = w0 end) ->
  match all_of gs r w with Next r1 w1 => w1 = w /\ rq_Params r1 = rq_Params r | Answer w1 _ => w1 = w end.
Proof.
  revert r w. induction gs as [|g gs IH]; intros r w Hg; [done|]. cbn [all_of].
  pose proof (Hg g (list_elem_of_here _ _) r w) as Hh. destruct (g r w) as [r1 w1|w1 resp]; [|exact Hh].
  destruct Hh as [-> Hp]. specialize (IH r1 w ltac:(intros g' Hg'; apply Hg; by right)).
  destruct (all_of gs r1 w) as [r2 w2|]; [|exact IH]. destruct IH as [-> Hp2]. split; [done|congruence].
Qed.

(** The guards of a route change neither the state nor the URL parameters. *)
Lemma route_guards t : t ∈ api_routes rfc3339 ->
  forall g, g ∈ rt_Guards t -> forall r w,
    match g r w with Next r1 w1 => w1 = w /\ rq_Params r1 = rq_Params r | Answer w1 _ => w1 = w end.
Proof.
  assert (forall perm r w, match RequirePermission perm r w with
    Next r1 w1 => w1 = w /\ rq_Params r1 = rq_Params r | Answer w1 _ => w1 = w end) as Hperm.
  { intros perm r w. unfold RequirePermission. destruct (resolveRequestUser _ _); [|done]. by destruct (negb _). }
  assert (forall r w, match RequireChannelACLPermission r w with
    Next r1 w1 => w1 = w /\ rq_Params r1 = rq_Params r | Answer w1 _ => w1 = w end) as Hacl.
  { intros r w. unfold RequireChannelACLPermission. destruct (resolveRequestUser _ _); [|done]. cbv zeta.
    by repeat match goal with |- context [UserHasPermission ?a ?b ?c ?d ?e] => destruct (UserHasPermission a b c d e) end. }
  assert (Forall (fun t => Forall (fun g => forall r w, match g r w with
    Next r1 w1 => w1 = w /\ rq_Params r1 = rq_Params r | Answer w1 _ => w1 = w end) (rt_Guards t)) (api_routes rfc3339)) as Hall.
  { unfold api_routes, channel_guards. cbv beta zeta.
    repeat (constructor; [cbn [rt_Guards]; repeat (constructor; [first [by intros r w | exact (Hperm _) | exact Hacl] | ]); by constructor | ]).
    constructor. }
  intros Ht. rewrite Forall_forall in Hall. specialize (Hall t Ht). by rewrite Forall_forall in Hall.
Qed.

Lemma handler_stays t r : t ∈ api_routes rfc3339 -> segment_params r -> stays (rt_Handler t r).
Proof.
  intros Ht Hseg. revert t Ht. apply Forall_forall. unfold api_routes. cbv beta zeta.
  repeat (apply Forall_cons; split; [cbn [rt_Handler]|]); [..|by apply Forall_nil];
    first [ solve [auto using updateUser_stays, deleteUser_stays, updateBinding_stays, createUser_stays,
                     updateAllOIDCProviders_stays, updateOIDCProvider_stays, deleteOIDCProvider_stays, setInternalAuth_stays]
          | apply keeps_stays; first
              [ solve [auto using createChannel_keeps, updateChannel_keeps, generateSecret_keeps, createAccessToken_keeps,
                         updateAccessMode_keeps, addChannelACLEntry_keeps, createRoleMapping_keeps, updateGlobalConfig_keeps,
                         listChannels_keeps, getUser_keeps, listUsers_keeps, getGlobalConfig_keeps, listOIDCProviders_keeps,
                         getMe_keeps]
              | apply keeps_write; intros s Hok; auto with gov
              | apply keeps_channel; intros ch; by apply keeps_same
              | by apply keeps_same ] ].
Qed.

Lemma route_stays t r : t ∈ api_routes rfc3339 -> segment_params r -> stays (run_route t r).
Proof.
  intros Ht Hseg w Ha. unfold run_route, guarded.
  pose proof (guards_same (rt_Guards t) r w (route_guards t Ht)) as Hg.
  destruct (all_of (rt_Guards t) r w) as [r1 w1|w1 resp]; [|by subst].
  destruct Hg as [-> Hp]. apply handler_stays; [exact Ht| |exact Ha].
  intros k. unfold URLParam. rewrite Hp. apply Hseg.
Qed.

Lemma steps_administered w w' : rtc api_step w w' -> administered (w_svc w) -> administered (w_svc w').
Proof.
  induction 1 as [w|w w1 w2 Hs _ IH]; [done|]. intros Ha. apply IH.
  destruct Hs as [t r w Ht Hseg | w w' Hf]; [by apply route_stays | by eapply frame_administered].
Qed.

(** C4. No sequence of API requests, whoever sends them and however raft treats the
    writes, locks the deployment out or opens it: once it has an administrator
    and a valid authentication configuration, it keeps both, never returns to
    setup mode and never stops asking for authentication. *)
Theorem api_stays_administered w w' :
  rtc api_step w w' -> administered (w_svc w) ->
  (exists u l, repo_ListUsers (repo w') = Ok l /\ u ∈ l /\ hasAdminRole (u_Roles u) = true) /\
  ValidateAuthConfig (w_svc w') = None /\ IsSetupMode (w_svc w') = false /\ BuildAuthConfig (w_svc w') <> None.
Proof.
  intros Hs Ha. pose proof (steps_administered _ _ Hs Ha) as Ha'.
  split; [|split; [apply Ha' | by apply administered_closed]].
  destruct (ad_admin _ Ha') as (id & u & Hu & Hadm). destruct (law_ListUsers _ (ad_ok _ Ha')) as (l & Hl & Hin).
  exists u, l. split_and!; [done|apply Hin; eauto|done].
Qed.

(** C25. The user records stay well formed: whatever sequence of API requests is served,
    the listing of the users succeeds and has exactly the documents that read back
    under their own IDs, and every ID is one a URL can name. *)
Theorem users_stay_well_formed w w' :
  rtc api_step w w' -> administered (w_svc w) ->
  exists l, repo_ListUsers (repo w') = Ok l /\
    (forall u, u ∈ l <-> listable (u_ID u) /\ repo_GetUser (u_ID u) (repo w') = Ok u) /\
    forall id u, plain_id id -> repo_GetUser id (repo w') = Ok u -> u_ID u = id.
Proof.
  intros Hs Ha. pose proof (ad_ok _ (steps_administered _ _ Hs Ha)) as Hok. destruct (law_ListUsers _ Hok) as (l & Hl & Hin).
  exists l. split; [exact Hl|]. split; [|intros id u; by apply law_GetUser_keyed]. intros u. rewrite Hin. split.
  - intros (id & Hu). pose proof (law_keyed _ _ _ Hok Hu) as [<- Hlist]. split; [exact Hlist|]. by apply law_GetUser.
  - intros [Hlist Hu]. exists (u_ID u). by apply (law_GetUser _ _ _ Hok Hlist).
Qed.
End handlers.
