(* ===== verification/ApiSpec.v ===== *)
(** * ApiSpec: witnesses and behaviour of the administrative handlers

    A concrete administered store, the race of two deletions, and what user and
    channel requests do when they succeed. *)

From stdpp Require Import relations.
From S2P Require Import Prelude Json Domain Bolt Fsm Crypto Store Repo Authorization StoreTheory RateLimit Http Service ServiceTheory Buffer Broker Middleware AuthHandler ApiDto Api Governance ApiTheory.

#[local] Arguments jenc : simpl never.
#[local] Arguments jdec : simpl never.

(** ** A concrete deployment *)

Definition root : User := mkUser "root" "root" "$2a$pw" [] [] ["admin"] ["*"].
Definition user_docs (us : list User) : gmap string json :=
  list_to_map ((fun u => (user_key (u_ID u), jenc u)) <$> us).
Definition api_world (us : list User) : World (RaftStore mapdb) := demo_world (user_docs us).

(** A request of a logged-in principal. *)
Definition as_user (u : User) (r : Request) : Request := r <| rq_Ctx := withPrincipal (rq_Ctx r) u [] |>.
Definition api_request (method : string) (params : gmap string string) (body : json) : Request :=
  demo_request <| rq_Method := method |> <| rq_Params := params |> <| rq_Body := Ok (js_text body) |>.

Lemma demo_store_ready m : store_ready (demo_store m).
Proof. split; [apply db_of_ready|]. split; [done | apply zero_rand_fills]. Qed.

(** One user, an administrator, and the default configuration. *)
Lemma root_alone id u : stored_user (svc_repo (w_svc (api_world [root]))) id = Some u -> id = "root" /\ u = root.
Proof.
  intros Hu. assert (user_key id = user_key "root") as ->%user_key_inj.
  { unfold stored_user in Hu. change (store_get (svc_repo (w_svc (api_world [root]))) (user_key id))
      with (user_docs [root] !! user_key id) in Hu.
    change (user_docs [root]) with (<[user_key "root" := jenc root]> (∅ : gmap string json)) in Hu.
    destruct (decide (user_key id = user_key "root")) as [|Hne]; [done|].
    rewrite lookup_insert_ne, lookup_empty in Hu by congruence. discriminate Hu. }
  assert (stored_user (svc_repo (w_svc (api_world [root]))) "root" = Some root) as E by (vm_compute; reflexivity).
  rewrite E in Hu. by injection Hu as <-.
Qed.

Lemma root_administered : administered (w_svc (api_world [root])).
Proof.
  split.
  - split; [apply demo_store_ready|]. intros id u _ Hu. by apply root_alone in Hu as [-> ->].
  - exists "root", root. split; [vm_compute; reflexivity | reflexivity].
  - vm_compute. reflexivity.
Qed.

(** Deleting the last administrator, by itself, through its route. *)
Definition delete_route (rfc : Z -> string) : Route := mkRoute "DELETE" "/users/{id}/" [RequirePermission PermUsersWrite] deleteUser.

Lemma api_stays_administered_witness :
  let r := as_user root (api_request "DELETE" {[ "id" := "root" ]} JNull) in
  let x := run_route (delete_route Itoa) r (api_world [root]) in
  rp_Status x.2 = 400%Z /\ IsSetupMode (w_svc x.1) = false /\ BuildAuthConfig (w_svc x.1) <> None.
Proof.
  intros r x. split; [vm_compute; reflexivity|].
  refine (proj2 (proj2 (api_stays_administered Itoa (api_world [root]) x.1 _ root_administered))).
  apply rtc_once, step_route.
  - by apply (list_elem_of_lookup_2 _ 19).
  - intros k. unfold plain_id, URLParam. change (rq_Params r) with (<["id" := "root"]> (∅ : gmap string string)).
    rewrite lookup_insert. by destruct (decide ("id" = k)).
Defined.

Lemma users_stay_well_formed_witness :
  let r := as_user root (api_request "POST" ∅ (JObj [("username", JStr "bob"); ("password", JStr "pw"); ("roles", JArr [JStr "admin"])])) in
  let x := run_route (mkRoute "POST" "/users/" [RequirePermission PermUsersWrite] createUser) r (api_world [root]) in
  rp_Status x.2 = 201%Z /\ exists l, repo_ListUsers (svc_repo (w_svc x.1)) = Ok l /\ length l = 2 /\
    forall u, u ∈ l -> repo_GetUser (u_ID u) (svc_repo (w_svc x.1)) = Ok u.
Proof.
  intros r x. split; [vm_compute; reflexivity|].
  destruct (users_stay_well_formed Itoa (api_world [root]) x.1) as (l & Hl & Hin & _).
  - apply rtc_once, step_route; [by apply (list_elem_of_lookup_2 _ 16)|].
    intros k. unfold plain_id, URLParam. change (rq_Params r) with (∅ : gmap string string). by rewrite lookup_empty.
  - exact root_administered.
  - exists l. split; [exact Hl|]. split; [|intros u Hu; by apply Hin].
    assert (length (match repo_ListUsers (svc_repo (w_svc x.1)) with Ok l => l | Err _ => [] end) = 2) as E by (vm_compute; reflexivity).
    by rewrite Hl in E.
Defined.

(** ** Two administrators delete each other *)

Definition second_root : User := root <| u_ID := "eve" |> <| u_Username := "eve" |>.


(** ** A password reset whose revocation is lost *)

(** The second submission, the bump of the epoch, is lost by raft. *)
Definition unlucky_world : World (RaftStore mapdb) :=
  let w := api_world [root; second_root] in
  w <| w_svc := mkService ((svc_repo (w_svc w)) <| rs_raft :=
    mkRaft (fun _ => true) (fun n => if (n =? 0)%nat then Committed else Lost (errorf "leadership lost")) 0 |>) None |>.

(** The answer is 200 although the sessions of the old password stay valid. *)
Theorem reset_may_keep_sessions :
  let r := as_user root (api_request "PUT" {[ "id" := "eve" ]} (JObj [("password", JStr "new")])) in
  let x := updateUser r unlucky_world in
  let session := session_zero <| st_UserID := "eve" |> in
  rp_Status x.2 = 200%Z /\
  res_option (repo_GetUser "eve" (svc_repo (w_svc x.1))) = Some (second_root <| u_PasswordHash := "$2a$new" |>) /\
  ResolvePrincipal (w_svc x.1) (Some session) <> None /\ SessionEpochValid (w_svc x.1) (Some session) = true.
Proof. vm_compute. split_and!; try reflexivity. discriminate. Qed.

(** ** Nobody hands out more than they hold *)

Section users.
Context {R : Type} `{!Repository R} `{!Net} `{!Url} `{!Crypto} `{!JsonText} `{!JsonDecoder} `{!Validator}.
Implicit Types (r : Request) (w : World R).
Abbreviation repo w := (svc_repo (w_svc w)).

(** The caller exists and effectively holds every permission of the roles. *)
Definition grants_roles r w (roles : list string) : Prop :=
  exists a, (resolveActor r w).1 = Some a /\
    forall name, name ∈ roles -> covers (w_svc w) (Some a) (resolveActor r w).2 name.
Definition grants_channels r w (channels : list string) : Prop :=
  exists a, (resolveActor r w).1 = Some a /\ forall c, c ∈ channels -> in_scope a c.

Lemma may_assign_grants r w roles : may_assign r w roles "*" = true -> grants_roles r w roles.
Proof.
  unfold may_assign, grants_roles. destruct (resolveActor r w) as [actor groups].
  intros (a & -> & Hc & _)%CanAssignRoles_covers. by exists a.
Qed.
Lemma may_assign_channels_grants r w channels : may_assign_channels r w channels = true -> grants_channels r w channels.
Proof.
  unfold may_assign_channels, grants_channels, CanAssignChannels. destruct (resolveActor r w).1 as [a|]; [|done].
  rewrite forallb_elem. setoid_rewrite hasChannelAccessList_spec. eauto.
Qed.
Lemma grants_nothing r w roles : grants_roles r w roles -> grants_channels r w [].
Proof. intros (a & Ha & _). exists a. split; [done|]. by intros c ?%not_elem_of_nil. Qed.
Lemma grants_no_roles r w roles : grants_roles r w roles -> grants_roles r w [].
Proof. intros (a & Ha & _). exists a. split; [done|]. by intros c ?%not_elem_of_nil. Qed.


End users.


(** ** Channels *)

(** What the channel handlers rely on besides [RepositoryLaws]. *)
Class ChannelLaws (R : Type) `{!Repository R} `{!RepositoryLaws R} := {
  law_CreateChannel_reads : forall r p r' p',
    repo_ok r -> channel_wf p -> repo_CreateChannel p r = (r', p', Ok tt) ->
    repo_ok r' /\ repo_GetChannel (ch_ID p) r' = Ok p /\ (ch_WebhookSignatures p = [] -> p' = p) /\
    forall id, id <> ch_ID p -> repo_GetChannel id r' = repo_GetChannel id r;
  law_CreateACL_reads : forall r m id,
    repo_ok r -> plain_id id -> repo_GetChannel id (repo_CreateChannelRoleMapping m r).1.1 = repo_GetChannel id r
}.

Section raft.
Context {DB B : Type} `{!Bolt DB B} `{!BoltLaws DB B} `{!Crypto} `{!JsonText} `{!CryptoLaws} `{!JsonTextLaws}.
Implicit Types rs : RaftStore DB.

Lemma acl_key_not_channel c u id : plain_id id -> channel_key id <> acl_prefix c +:+ u.
Proof.
  unfold channel_key, acl_prefix, plain_id. intros Hid E. rewrite !str_app_assoc in E. apply str_app_inj in E.
  revert c E. induction id as [|a id IH]; intros c E.
  - destruct c as [|x c]; [discriminate E|]. cbn in E. injection E as _ E. by destruct c.
  - cbn [elem_str] in Hid. apply orb_false_iff in Hid as [Ha Hid]. apply bool_decide_eq_false in Ha.
    destruct c as [|x c]; [cbn in E; injection E as E _; congruence|]. cbn in E. injection E as _ E. by apply (IH Hid c).
Qed.

Lemma raft_CreateACL_reads rs m id :
  raft_ok rs -> plain_id id -> GetChannel id (CreateChannelRoleMapping m rs).1.1 = GetChannel id rs.
Proof.
  intros [(Hr & _) _] Hid. unfold CreateChannelRoleMapping. destruct (any _ _); [done|].
  destruct (draw_uuid_src rs) as [Hd Hs]. destruct (draw_uuid rs) as [rs1 x]. cbn [fst] in Hd. subst rs1.
  destruct x as [u|]; [|done]. cbv zeta. case_bool_decide; [done|].
  unfold applyCommand. match goal with |- context [submit ?c ?st] =>
    pose proof (submit_either c st Hr) as Hw; destruct (submit c st) as [rs2 x] end. cbn [fst] in *.
  destruct (decide (id = "")) as [->|Hne]; [done|].
  change (GetChannel id rs2 = GetChannel id rs).
  destruct Hw as [[Hg Hr2 Hk _]|[Hg Hr2 Hk _]]; rewrite !GetChannel_stored, Hg, Hk by done; [done|].
  cbn [command_writes cmd_Op cmd_Key]. rewrite writes_other; [done|]. repeat constructor. intros E. symmetry in E.
  by apply acl_key_not_channel in E.
Qed.

Lemma raft_CreateChannel_reads rs p rs' p' :
  raft_ok rs -> channel_wf p -> CreateChannel p rs = (rs', p', Ok tt) ->
  raft_ok rs' /\ GetChannel (ch_ID p) rs' = Ok p /\ (ch_WebhookSignatures p = [] -> p' = p) /\
  forall id, id <> ch_ID p -> GetChannel id rs' = GetChannel id rs.
Proof.
  intros [Hrdy Hkeyed] Hwf Hw.
  destruct (write_channel_stored _ _ _ _ _ (or_intror eq_refl) Hrdy Hw) as (r & sealed0 & Hseal & _ & _ & _ & _ & _ & _ & Hp').
  destruct (write_channel_reads _ _ _ _ _ (or_intror eq_refl) Hrdy Hwf Hw)
    as (Hrdy' & Hget & (sealed & Hs & Hwfs & Hid) & Hoth & Hread).
  split_and!; try done.
  - split; [exact Hrdy'|]. intros id j c Hj Hc. destruct (decide (id = ch_ID p)) as [->|Hne].
    + rewrite Hs in Hj. injection Hj as <-. rewrite Unmarshal_jenc in Hc by exact Hwfs. by injection Hc as <-.
    + rewrite Hoth in Hj by exact Hne. by eapply Hkeyed.
  - intros Hnil. rewrite Hp'. assert (ch_WebhookSignatures sealed0 = []) as ->.
    { revert Hseal. unfold sealChannel. destruct (rs_keeper rs) as [k|]; [|by intros [= _ <-]].
      destruct (sealString _ _ _) as [r1 [s1|]]; [|done]. cbn iota beta zeta.
      destruct (sealString _ r1 _) as [r2 [s2|]]; [|done]. cbn iota beta zeta.
      destruct (sealString _ r2 _) as [r3 [s3|]]; [|done]. cbn iota beta zeta.
      cbn [ch_WebhookSignatures set_fld]. rewrite Hnil. cbn [seal_sigs]. by intros [= _ <-]. }
    rewrite <- Hnil. by destruct p.
Qed.

#[export] Instance raft_channel_laws : ChannelLaws (RaftStore DB) := {|
  law_CreateChannel_reads := raft_CreateChannel_reads;
  law_CreateACL_reads := raft_CreateACL_reads
|}.
End raft.

Section channels.
Context {R : Type} `{!Repository R} `{!RepositoryLaws R} `{!ChannelLaws R}.
Context `{!Net} `{!Url} `{!Crypto} `{!JsonText} `{!JsonDecoder} `{!Validator} `{!ValidatorLaws}.
Implicit Types (r : Request) (w : World R).
Abbreviation repo w := (svc_repo (w_svc w)).

Lemma jdec_opt_range j (o o' : option Z) :
  (forall z, o = Some z -> int64_range z = true) -> jdec j o = Some o' -> forall z, o' = Some z -> int64_range z = true.
Proof.
  intros Ho. unfold jdec, codec_ptr, jdec, codec_int. destruct j; cbn -[int64_range]; try done; try (intros [= <-] z; done).
  destruct (int64_range z) eqn:E; [|done]. by intros [= <-] z' [= <-].
Qed.

(** A decoded update carries integers of their width. *)
Definition update_wf (req : ChannelUpdateRequest) : Prop :=
  (forall z, cu_MaxBodySize req = Some z -> int64_range z = true) /\
  (forall z, cu_MessageTTLSeconds req = Some z -> int64_range z = true).

Lemma decoded_update_wf r req : decodeJSON (A := ChannelUpdateRequest) r = inl req -> update_wf req.
Proof.
  unfold decodeJSON. destruct (rq_Body r) as [b|]; [|done]. destruct (js_decode _) as [j| |]; [|done..].
  destruct (Unmarshal j) as [a|] eqn:Eu; [|done]. intros [= <-]. revert Eu. unfold Unmarshal.
  destruct j; try done; [by intros [= <-]|].
  apply (dec_fields_inv update_wf); [|by split]. unfold update_wf. intros f Hf j y y' [Hb Ht].
  repeat (apply elem_of_cons in Hf as [->|Hf];
    [cbn [f_dec fld_gen]; match goal with |- context [jdec j ?v] => destruct (jdec j v) eqn:E end; [|done]; intros [= <-]; cbn;
     split; solve [assumption | eapply jdec_opt_range; [|exact E]; assumption] |]).
  by apply not_elem_of_nil in Hf.
Qed.

Lemma assign_spec {T A} (o : option T) (set : T -> A -> A) (get : A -> T) x :
  (forall v, get (set v x) = v) -> get (assign o set x) = default (get x) o.
Proof. intros Hs. destruct o; simpl; [apply Hs | done]. Qed.

(** The merge, field by field. *)
Lemma applyChannelUpdate_spec req ch :
  applyChannelUpdate req ch =
    ch <| ch_Description := default (ch_Description ch) (cu_Description req) |>
       <| ch_WebhookSecret := default (ch_WebhookSecret ch) (cu_WebhookSecret req) |>
       <| ch_AllowedIPs := default (ch_AllowedIPs ch) (cu_AllowedIPs req) |>
       <| ch_MaxBodySize := default (ch_MaxBodySize ch) (cu_MaxBodySize req) |>
       <| ch_MessageTTLSeconds := default (ch_MessageTTLSeconds ch) (cu_MessageTTLSeconds req) |>
       <| ch_EncryptionMode := default (ch_EncryptionMode ch) (cu_EncryptionMode req) |>
       <| ch_EncryptionKey := default (ch_EncryptionKey ch) (cu_EncryptionKey req) |>
       <| ch_EncryptionPublicKey := default (ch_EncryptionPublicKey ch) (cu_EncryptionPublicKey req) |>.
Proof. destruct req as [[] [] [] [] [] [] [] []], ch; reflexivity. Qed.

Lemma update_keeps_wf req ch : update_wf req -> channel_wf ch -> channel_wf (applyChannelUpdate req ch).
Proof.
  rewrite applyChannelUpdate_spec. intros [Hb Ht] [Hcb Hct]. split; cbn.
  - destruct (cu_MaxBodySize req); [by apply Hb | done].
  - destruct (cu_MessageTTLSeconds req); [by apply Ht | done].
Qed.

Lemma svc_UpdateChannel_reads w ch w' ch' :
  repo_ok (repo w) -> channel_wf ch -> call' (svc_UpdateChannel ch) w = (w', ch', Ok tt) ->
  repo_ok (repo w') /\ repo_GetChannel (ch_ID ch) (repo w') = Ok ch /\
  forall id, id <> ch_ID ch -> repo_GetChannel id (repo w') = repo_GetChannel id (repo w).
Proof.
  intros Hok Hwf. unfold call', svc_UpdateChannel, on_repo'.
  destruct (repo_UpdateChannel ch (repo w)) as [[r1 c1] [[]|]] eqn:Eu; [|done]. cbn [svc_repo set_fld].
  intros [= <- _]. cbn [w_svc set_fld]. rewrite notify_repo. by eapply law_UpdateChannel.
Qed.

(** C11. PUT /channels/{id}: an accepted update stores the channel with exactly the
    fields present in the body replaced.  Identity, provenance, tokens and mode
    are never touched, and the stored values pass the bounds; other channels keep
    their value. *)
Theorem updateChannel_spec r w req ch :
  repo_ok (repo w) -> decodeJSON (A := ChannelUpdateRequest) r = inl req ->
  repo_GetChannel (URLParam r "id") (repo w) = Ok ch -> rp_Status (updateChannel r w).2 = 200%Z ->
  let ch' := ch <| ch_Description := default (ch_Description ch) (cu_Description req) |>
                <| ch_WebhookSecret := default (ch_WebhookSecret ch) (cu_WebhookSecret req) |>
                <| ch_AllowedIPs := default (ch_AllowedIPs ch) (cu_AllowedIPs req) |>
                <| ch_MaxBodySize := default (ch_MaxBodySize ch) (cu_MaxBodySize req) |>
                <| ch_MessageTTLSeconds := default (ch_MessageTTLSeconds ch) (cu_MessageTTLSeconds req) |>
                <| ch_EncryptionMode := default (ch_EncryptionMode ch) (cu_EncryptionMode req) |>
                <| ch_EncryptionKey := default (ch_EncryptionKey ch) (cu_EncryptionKey req) |>
                <| ch_EncryptionPublicKey := default (ch_EncryptionPublicKey ch) (cu_EncryptionPublicKey req) |> in
  repo_GetChannel (URLParam r "id") (repo (updateChannel r w).1) = Ok ch' /\
  (forall id, id <> URLParam r "id" -> repo_GetChannel id (repo (updateChannel r w).1) = repo_GetChannel id (repo w)) /\
  (ch_ID ch', ch_CreatedBy ch', ch_AccessTokens ch', ch_AccessMode ch') =
    (ch_ID ch, ch_CreatedBy ch, ch_AccessTokens ch, ch_AccessMode ch) /\
  (forall m, cu_EncryptionMode req = Some m -> validEncryptionMode m = true) /\
  (0 <= ch_MaxBodySize ch' /\ 0 <= ch_MessageTTLSeconds ch')%Z /\ channelid_match (ch_ID ch') = true.
Proof.
  intros Hok Hd Hg. rewrite <- applyChannelUpdate_spec. unfold updateChannel, with_body, with_channel. rewrite Hd.
  destruct (match cu_EncryptionMode req with Some _ => _ | None => _ end) eqn:Em; [done|]. rewrite Hg. cbv zeta.
  set (ch' := applyChannelUpdate req ch). destruct (law_GetChannel _ _ _ Hok Hg) as [Hwf Hid].
  assert (ch_ID ch' = URLParam r "id") as Hid' by (unfold ch'; rewrite applyChannelUpdate_spec; exact Hid).
  case_bool_decide as Hv; [|done]. destruct (call' _ w) as [[w1 ch1] [[]|]] eqn:Ec; [|done]. intros _. cbn [fst].
  destruct (svc_UpdateChannel_reads w ch' w1 ch1 Hok (update_keeps_wf _ _ (decoded_update_wf _ _ Hd) Hwf) Ec) as (_ & Hr & Ho).
  rewrite Hid' in Hr, Ho. split; [exact Hr|]. split; [exact Ho|].
  split; [unfold ch'; by rewrite applyChannelUpdate_spec|]. split.
  { intros m Hm. rewrite Hm in Em. by apply negb_false_iff in Em. }
  unfold validateChannelUpdate in Hv. destruct (invalid_channel ch') as [|[f t] l] eqn:Ei.
  2:{ exfalso. revert Hv. cbn. intros Hv. case_bool_decide as Hj; [|done]. apply (f_equal String.length) in Hj.
      destruct l; cbn in Hj; rewrite !str_length_app in Hj; cbn in Hj; lia. }
  split; [|by apply channel_id_valid]. change (negb (bool_decide (validateStruct [] = ""))) with false in Hv. cbv iota in Hv.
  destruct (Z.ltb_spec (ch_MaxBodySize ch') 0); [done|]. destruct (Z.ltb_spec (ch_MessageTTLSeconds ch') 0); [done|]. done.
Qed.

Lemma decoded_channel_wf r ch : decodeJSON (A := Channel) r = inl ch -> channel_wf ch.
Proof.
  unfold decodeJSON. destruct (rq_Body r) as [b|]; [|done]. destruct (js_decode _) as [j| |]; [|done..].
  destruct (Unmarshal j) as [c|] eqn:Eu; [|done]. intros [= <-]. by eapply Unmarshal_channel_wf.
Qed.

Lemma validated_id ch : validateChannelUpdate ch = "" -> channelid_match (ch_ID ch) = true.
Proof.
  unfold validateChannelUpdate. destruct (invalid_channel ch) as [|[f t] l] eqn:Ei; [intros _; by apply channel_id_valid|].
  intros Hv. exfalso. revert Hv. case_bool_decide as Hj; [|done]. apply (f_equal String.length) in Hj.
  destruct l; cbn in Hj; rewrite !str_length_app in Hj; cbn in Hj; lia.
Qed.

Lemma valid_id_plain id : channelid_match id = true -> id <> "" /\ plain_id id.
Proof.
  unfold plain_id. destruct id as [|c id]; [done|]. cbn [channelid_match]. intros [Hc Hs]%andb_true_iff.
  split; [done|]. cbn [elem_str]. rewrite bool_decide_false by (intros <-; done). cbn [orb].
  induction id as [|d id IH]; [done|]. cbn [all_str] in Hs. apply andb_true_iff in Hs as [Hd Hs]. cbn [elem_str].
  rewrite bool_decide_false by (intros <-; done). by apply IH.
Qed.

Lemma svc_CreateChannel_reads w ch w' ch' :
  repo_ok (repo w) -> channel_wf ch -> call' (svc_CreateChannel ch) w = (w', ch', Ok tt) ->
  repo_ok (repo w') /\ repo_GetChannel (ch_ID ch) (repo w') = Ok ch /\
  (ch_WebhookSignatures ch = [] -> ch' = ch) /\
  forall id, id <> ch_ID ch -> repo_GetChannel id (repo w') = repo_GetChannel id (repo w).
Proof.
  intros Hok Hwf. unfold call', svc_CreateChannel, on_repo'.
  destruct (repo_CreateChannel ch (repo w)) as [[r1 c1] [[]|]] eqn:Ec; [|done]. cbn [svc_repo set_fld].
  intros [= <- <-]. cbn [w_svc set_fld]. rewrite notify_repo. by eapply law_CreateChannel_reads.
Qed.

(** Writing an ACL entry moves no channel. *)
Lemma create_acl_reads w m id : repo_ok (repo w) -> plain_id id ->
  repo_GetChannel id (repo (call' (on_repo' (repo_CreateChannelRoleMapping m)) w).1.1) = repo_GetChannel id (repo w).
Proof.
  intros Hok Hi. pose proof (law_CreateACL_reads (repo w) m id Hok Hi) as Hl. unfold call', on_repo'.
  destruct (repo_CreateChannelRoleMapping m (repo w)) as [[r2 m'] y]. exact Hl.
Qed.

(** POST /channels: an accepted creation stores the channel of the body without
    any of the server-owned fields, created by the caller, and leaves every other
    channel alone; whoever carries the caller's name or ID may then write it. *)
Theorem createChannel_spec r w ch :
  repo_ok (repo w) -> decodeJSON (A := Channel) r = inl ch -> rp_Status (createChannel r w).2 = 201%Z ->
  let name := GetUsernameFromContext (rq_Ctx r) in
  let w' := (createChannel r w).1 in
  let ch' := client_channel name ch in
  repo_GetChannel (ch_ID ch) (repo w') = Ok ch' /\
  (ch_CreatedBy ch', ch_AccessTokens ch', ch_AccessMode ch', ch_WebhookSignatures ch') = (name, [], "", []) /\
  channelid_match (ch_ID ch) = true /\
  (forall id, plain_id id -> id <> ch_ID ch -> repo_GetChannel id (repo w') = repo_GetChannel id (repo w)) /\
  (forall u groups, u_ID u = name \/ u_Username u = name ->
    UserHasPermission (w_svc w') (Some u) groups PermChannelWrite (ch_ID ch) = true).
Proof.
  intros Hok Hd. unfold createChannel, with_body. rewrite Hd. cbv zeta.
  set (name := GetUsernameFromContext (rq_Ctx r)). set (ch' := client_channel name ch).
  destruct (negb _); [done|]. case_bool_decide as Hv; [|done].
  pose proof (validated_id _ Hv) as Hid. destruct (valid_id_plain _ Hid) as [Hne Hpl].
  assert (channel_wf ch') as Hwf by exact (decoded_channel_wf _ _ Hd).
  destruct (call' (svc_CreateChannel ch') w) as [[w1 c1] [[]|e]] eqn:Ec; [|by destruct (errors_Is e KAlreadyExists)].
  destruct (svc_CreateChannel_reads _ _ _ _ Hok Hwf Ec) as (Hok1 & Hget & Hc1 & Hoth). rewrite (Hc1 eq_refl).
  pose proof (fun id Hi => create_acl_reads w1 (mkACL "" (ch_ID ch') "user" name "owner") id Hok1 Hi) as Hacl.
  destruct (call' (on_repo' _) w1) as [[w2 m] x2]. cbn [fst snd negb] in *. intros _.
  split; [by rewrite (Hacl (ch_ID ch) Hpl)|]. split; [done|]. split; [exact Hid|]. split.
  - intros id Hi Hn. rewrite (Hacl id Hi). by apply Hoth.
  - intros u groups Hu. apply UserHasPermission_granted. eapply (by_creation _ _ _ _ _ ch'); [exact Hne|done| |].
    + by rewrite (Hacl (ch_ID ch) Hpl).
    + cbn. destruct Hu as [<- | <-]; [by left | by right].
Qed.
End channels.

(** The store of ServiceTheory.v: one channel, sealed at rest. *)
Definition channel_world : World (RaftStore mapdb) :=
  (demo_world ∅) <| w_svc := mkService channel_store None |>.

Lemma updateChannel_spec_witness :
  let r := as_user root (api_request "PUT" {[ "id" := "build" ]} (JObj [("max_body_size", JNum 64); ("encryption_mode", JStr "")])) in
  repo_GetChannel "build" (svc_repo (w_svc (updateChannel r channel_world).1)) = Ok (demo_channel <| ch_MaxBodySize := 64%Z |>).
Proof.
  intros r.
  refine (proj1 (updateChannel_spec r channel_world
    (mkChannelUpdate None None None (Some 64%Z) None (Some "") None None) demo_channel channel_store_ok _ _ _));
    vm_compute; reflexivity.
Defined.

Lemma createChannel_spec_witness :
  let r := as_user root (api_request "POST" ∅ (JObj [("id", JStr "deploy"); ("created_by", JStr "mallory"); ("access_mode", JStr "token")])) in
  let w' := (createChannel r channel_world).1 in
  repo_GetChannel "deploy" (svc_repo (w_svc w')) = Ok (channel_zero <| ch_ID := "deploy" |> <| ch_CreatedBy := "root" |>) /\
  UserHasPermission (w_svc w') (Some root) [] PermChannelWrite "deploy" = true.
Proof.
  intros r w'.
  destruct (createChannel_spec r channel_world
    (channel_zero <| ch_ID := "deploy" |> <| ch_CreatedBy := "mallory" |> <| ch_AccessMode := "token" |>) channel_store_ok)
    as (Hg & _ & _ & _ & Hw); [vm_compute; reflexivity..|].
  split; [exact Hg|]. apply Hw. by left.
Defined.
