(* ===== verification/LoginTheory.v ===== *)
(** * LoginTheory: what the login handler gives and refuses

    A login opens a session the API accepts until it expires; guesses at a
    password are bounded per account; and, usernames not being unique, a login can
    open the session of another user. *)

From S2P Require Import Prelude Json Domain Bolt Crypto Store Repo Authorization RateLimit Http Service ServiceTheory Buffer Broker Middleware AuthHandler ApiDto Api.

#[local] Arguments jenc : simpl never.
#[local] Arguments jdec : simpl never.

(** ** The session of a login *)

Lemma hex_ascii s : ascii_str (hex_encode s) = true.
Proof.
  unfold ascii_str. induction s as [|c s IH]; [done|]. cbn [hex_encode all_str].
  assert (forall n, (0 <= n < 16)%Z -> (byte_val (hex_digit n) <? 128)%Z = true) as Hd.
  { intros n Hn. pose proof (hex_val_digit n Hn) as Hv. unfold hex_val in Hv. cbv zeta in Hv.
    repeat first [discriminate Hv | destruct (andb _ _) eqn:E; [lia | clear E]]. }
  pose proof (byte_val_bound c). rewrite !Hd by dlia. exact IH.
Qed.

Definition login_token (user : User) (sid : string) (epoch expires : Z) : SessionToken :=
  session_zero <| st_UserID := u_ID user |> <| st_Username := u_Username user |> <| st_Method := "internal" |>
    <| st_SessionID := sid |> <| st_AuthEpoch := epoch |> <| st_ExpiresAt := expires |>.

Lemma login_token_plain user sid epoch expires :
  ascii_str (u_ID user) = true -> ascii_str (u_Username user) = true -> ascii_str sid = true ->
  js_plain (jenc (login_token user sid epoch expires)) = true.
Proof.
  intros Hi Hu Hs. unfold login_token. destruct user as [id name ? ? ? ? ?]. cbn [u_ID u_Username] in *.
  destruct id as [|c id], name as [|d name], sid as [|e sid], epoch as [|p|p];
    repeat (lazy -[ascii_str]; first [reflexivity | match goal with |- context [ascii_str ?s] =>
      first [rewrite Hi | rewrite Hu | rewrite Hs | change (ascii_str s) with true] end]).
Qed.

Section login.
Context {R : Type} `{!Repository R} `{!Net} `{!Url} `{!Crypto} `{!JsonText} `{!JsonDecoder} `{!JsonTextLaws}.
Context (secret : string) (secure : bool).
Implicit Types (r : Request) (w : World R) (user : User).
Abbreviation repo w := (svc_repo (w_svc w)).
Abbreviation login := (APILoginHandler secret secure).

Lemma login_session_spec user w w' x :
  login_session secret user w = (w', x) ->
  w' = w <| w_rand := (GenerateRandomHex (w_rand w)).1 |> /\
  forall cookie, x = Ok cookie -> exists sid, ascii_str sid = true /\
    cookie = EncodeSession (login_token user sid (svc_GetAuthEpoch (w_svc w)) (wrap64 (time_Unix (w_now w) + sessionMaxAge))) secret.
Proof.
  unfold login_session, GenerateRandomHex. destruct (rand_Read 16 (w_rand w)) as [rnd [b|]]; cbn [res_bind fst].
  - intros [= <- <-]. split; [done|]. intros cookie [= <-]. exists (hex_encode b). split; [apply hex_ascii | done].
  - intros [= <- <-]. by split.
Qed.

(** The guard of the API on the cookie of a login, at any later time. *)
Lemma RequireAuth_login user sid epoch expires r w :
  ascii_str (u_ID user) = true -> ascii_str (u_Username user) = true -> ascii_str sid = true ->
  int64_range epoch = true -> int64_range expires = true ->
  rq_Cookies r !! sessionCookieName = Some (EncodeSession (login_token user sid epoch expires) secret) ->
  u_ID user <> "" -> repo_GetUser (u_ID user) (repo w) = Ok user ->
  RequireAuth secret secure r w =
    if bool_decide (time_Unix (w_now w) <= expires)%Z && bool_decide (epoch = svc_GetAuthEpoch (w_svc w))
    then Next (r <| rq_Ctx := withPrincipal (rq_Ctx r) user [] |>) w
    else Answer w (unauthorizedResponse secure r).
Proof.
  intros Hi Hu Hs He Hx Hc Hne Hg. unfold RequireAuth. rewrite Hc.
  rewrite session_roundtrip; [|by split | by apply login_token_plain]. cbn [st_ExpiresAt login_token set_fld].
  destruct (decide (time_Unix (w_now w) <= expires)%Z) as [Ht|Ht].
  - rewrite (bool_decide_true _ Ht). rewrite bool_decide_false by (cbn; lia).
    unfold ResolvePrincipal. cbn [st_Method st_UserID login_token set_fld]. rewrite bool_decide_false by done.
    rewrite (bool_decide_false _ Hne). cbn [negb]. rewrite Hg. cbn [andb].
    unfold SessionEpochValid. cbn. by case_bool_decide.
  - rewrite (bool_decide_false _ Ht). by rewrite bool_decide_true by (cbn; lia).
Qed.

(** A 200 of the login handler, unfolded. *)
Lemma login_ok r w body :
  decodeJSON (A := loginRequest) r = inl body -> rp_Status (login r w).2 = 200%Z ->
  exists cfg user cookie, BuildAuthConfig (w_svc w) = Some cfg /\
    password_matches (ic_Users (ac_Internal cfg)) body = true /\
    repo_GetUserByUsername (lr_Username body) (repo w) = Ok user /\ w_svc (login r w).1 = w_svc w /\
    (login r w).2 = setSessionCookie cookie secure ok_json /\
    exists sid, ascii_str sid = true /\ cookie = EncodeSession (login_token user sid (svc_GetAuthEpoch (w_svc w))
      (wrap64 (time_Unix (w_now w) + sessionMaxAge))) secret.
Proof.
  intros Hd. unfold APILoginHandler. destruct (BuildAuthConfig (w_svc w)) as [cfg|]; [|done].
  destruct (negb _); [done|]. rewrite Hd. destruct (loginThrottleConfig _) as [attempts cooldown].
  destruct (lt_Allow _ _ _ _ _) as [throttle [|]]; [|done]. cbn [negb].
  destruct (password_matches _ body) eqn:Ep; [|done]. cbn [negb w_svc set_fld w_throttle].
  destruct (repo_GetUserByUsername _ _) as [user|]; [|done].
  match goal with |- context [login_session secret user ?w1] =>
    pose proof (login_session_spec user w1) as Hs; destruct (login_session secret user w1) as [w2 x] end.
  destruct (Hs _ _ eq_refl) as [-> Hc]. destruct x as [cookie|]; [|done]. intros _.
  destruct (Hc cookie eq_refl) as (sid & Hsid & Hck). exists cfg, user, cookie. split_and!; try done.
  exists sid. split; [exact Hsid | exact Hck].
Qed.

Lemma password_matches_listed users body :
  password_matches users body = true -> exists listed, listed ∈ users /\
    iu_Username listed = lr_Username body /\ ValidatePassword (iu_PasswordHash listed) (lr_Password body) = true.
Proof.
  unfold password_matches. destruct (find _ users) as [u|] eqn:Ef; [|done]. intros Hv.
  apply find_some in Ef as [Hin Hu%bool_decide_eq_true]. exists u. split; [by apply list_elem_of_In|done].
Qed.

(** C5. A login answered 200 means that the password of a listed user of that name was
    right; the cookie it sets carries the user of the username index, and RequireAuth
    lets every request with that cookie through as this user for a day, and refuses it
    afterwards or once the auth epoch has moved. *)
Theorem login_authenticates r w body :
  decodeJSON (A := loginRequest) r = inl body -> rp_Status (login r w).2 = 200%Z ->
  exists user cookie,
    (exists cfg listed, BuildAuthConfig (w_svc w) = Some cfg /\ listed ∈ ic_Users (ac_Internal cfg) /\
       iu_Username listed = lr_Username body /\ ValidatePassword (iu_PasswordHash listed) (lr_Password body) = true) /\
    repo_GetUserByUsername (lr_Username body) (repo w) = Ok user /\
    rp_Header (login r w).2 !! "Set-Cookie" = Some [session_cookie cookie secure (Itoa sessionMaxAge)] /\
    (ascii_str (u_ID user) = true -> ascii_str (u_Username user) = true -> u_ID user <> "" ->
     int64_range (svc_GetAuthEpoch (w_svc w)) = true -> int64_range (time_Unix (w_now w) + sessionMaxAge) = true ->
     forall r' w', rq_Cookies r' !! sessionCookieName = Some cookie -> repo_GetUser (u_ID user) (repo w') = Ok user ->
       RequireAuth secret secure r' w' =
         if bool_decide (time_Unix (w_now w') <= time_Unix (w_now w) + sessionMaxAge)%Z &&
            bool_decide (svc_GetAuthEpoch (w_svc w) = svc_GetAuthEpoch (w_svc w'))
         then Next (r' <| rq_Ctx := withPrincipal (rq_Ctx r') user [] |>) w'
         else Answer w' (unauthorizedResponse secure r')).
Proof.
  intros Hd H200. destruct (login_ok r w body Hd H200) as (cfg & user & cookie & Hb & Hp & Hu & _ & Hr & sid & Hs & ->).
  exists user. eexists. split.
  { destruct (password_matches_listed _ _ Hp) as (listed & Hin & Hl & Hv). by exists cfg, listed. }
  split; [exact Hu|]. split.
  { rewrite Hr. unfold setSessionCookie, hdr_Set. cbn [rp_Header set_fld]. by rewrite lookup_insert_eq. }
  intros Hi Hn Hne He Ht r' w' Hc Hg. rewrite (wrap64_id _ Ht) in Hc.
  by apply (RequireAuth_login user sid).
Qed.
End login.

(** ** Usernames are not unique *)

(** [mia] may manage users and holds nothing else; [eve] holds nothing. *)
Definition mia : User := mkUser "mia" "mia" "$2a$mia" [] [] ["user-manager"] [].
Definition eve : User := mkUser "eve" "eve" "$2a$evepw" [] [] [] [].
Definition boss : User := mkUser "root" "root" "$2a$rootpw" [] [] ["admin"] ["*"].
Definition staffed_world : World (RaftStore mapdb) :=
  let add u rs := (CreateUser u rs).1.1 in
  let rs := add boss (add eve (add mia (demo_store {[ role_key "user-manager" := jenc (mkRole "user-manager" [PermUsersWrite]) ]}))) in
  (demo_world ∅) <| w_svc := mkService rs None |>.

Definition login_request (username password : string) : Request :=
  demo_request <| rq_Method := "POST" |>
    <| rq_Body := Ok (js_text (JObj [("username", JStr username); ("password", JStr password)])) |>.
(** The user a login of the request would act as. *)
Definition logs_in_as (r : Request) (w : World (RaftStore mapdb)) : option string :=
  if bool_decide (rp_Status (APILoginHandler "key" true r w).2 = 200%Z)
  then u_ID <$> res_option (repo_GetUserByUsername "root" (svc_repo (w_svc w))) else None.

(** PUT /api/users/{id}/ by [u]. *)
Definition put_user (u : User) (id : string) (body : json) (w : World (RaftStore mapdb)) : World (RaftStore mapdb) * Response :=
  let r := demo_request <| rq_Method := "PUT" |> <| rq_Params := {[ "id" := id ]} |> <| rq_Body := Ok (js_text body) |>
    <| rq_Ctx := withPrincipal (rq_Ctx demo_request) u [] |> in
  match find (fun t => bool_decide (rt_Method t = "PUT" /\ rt_Path t = "/users/{id}/")) (api_routes Itoa) with
  | Some t => run_route t r w
  | None => (w, http_Error "404 page not found" 404)
  end.

(** A user manager without any other permission renames [eve] to "root": the true
    root can no longer log in.  Once anything rewrites root's record, here its own
    channels, the password of [eve] opens a session of root. *)
Theorem rename_takes_over_root :
  let x1 := put_user mia "eve" (JObj [("username", JStr "root")]) staffed_world in
  let x2 := put_user boss "root" (JObj [("channels", JArr [JStr "*"])]) x1.1 in
  IsAdmin (w_svc staffed_world) (Some mia) [] = false /\
  logs_in_as (login_request "root" "rootpw") staffed_world = Some "root" /\
  rp_Status x1.2 = 200%Z /\ logs_in_as (login_request "root" "rootpw") x1.1 = None /\
  rp_Status x2.2 = 200%Z /\ logs_in_as (login_request "root" "evepw") x2.1 = Some "root".
Proof. vm_compute. split_and!; reflexivity. Qed.

(** ** Guessing a password *)

Section guesses.
Context {R : Type} `{!Repository R} `{!Net} `{!Url} `{!Crypto} `{!JsonText} `{!JsonDecoder}.
Context (secret : string) (secure : bool) (key : string).
Implicit Types (r : Request) (w : World R).
Abbreviation login := (APILoginHandler secret secure).

(** A login attempt on the account of the fingerprint [key]. *)
Definition attempt_on r : bool :=
  match decodeJSON (A := loginRequest) r with
  | inl body => bool_decide (FingerprintLogin (lr_Username body) = key)
  | inr _ => false
  end.
(** The password of the request is not the one of the account. *)
Definition wrong_guess w r : Prop :=
  forall body cfg, decodeJSON (A := loginRequest) r = inl body -> FingerprintLogin (lr_Username body) = key ->
  BuildAuthConfig (w_svc w) = Some cfg -> password_matches (ic_Users (ac_Internal cfg)) body = false.

(** The password was compared: the answer is 401. *)
Definition guessed r (resp : Response) : bool := attempt_on r && bool_decide (rp_Status resp = 401%Z).

Definition login_step (st : World R * list Z) (call : Z * Request) : World R * list Z :=
  let x := login call.2 (st.1 <| w_now := call.1 |>) in
  (x.1, if guessed call.2 x.2 then st.2 ++ [call.1] else st.2).
(** The world after a sequence of requests, and the times of the guesses. *)
Definition login_run (calls : list (Z * Request)) w : World R * list Z := fold_left login_step calls (w, []).

Lemma login_session_keeps user w :
  w_svc (login_session secret user w).1 = w_svc w /\ w_throttle (login_session secret user w).1 = w_throttle w.
Proof. unfold login_session. destruct (GenerateRandomHex (w_rand w)). by destruct w. Qed.

(** What one request does to the account. *)
Lemma login_effect r w :
  wrong_guess w r ->
  let x := login r w in
  let allow := lt_Allow (w_now w) key (loginThrottleConfig (w_svc w)).1 (loginThrottleConfig (w_svc w)).2 (w_throttle w) in
  w_svc x.1 = w_svc w /\
  (w_throttle x.1 !! key = w_throttle w !! key /\ guessed r x.2 = false \/
   w_throttle x.1 !! key = allow.1 !! key /\ guessed r x.2 = allow.2).
Proof.
  intros Hwrong. unfold guessed, attempt_on. unfold APILoginHandler.
  destruct (BuildAuthConfig (w_svc w)) as [cfg|] eqn:Eb; [|split; [done|left; by rewrite andb_false_r]].
  destruct (negb _); [split; [done|left; by rewrite andb_false_r]|].
  destruct (decodeJSON r) as [body|] eqn:Ed; [|split; [done|by left]].
  destruct (loginThrottleConfig (w_svc w)) as [attempts cooldown]. cbn [fst snd].
  destruct (decide (FingerprintLogin (lr_Username body) = key)) as [Hk|Hk].
  - rewrite Hk, (bool_decide_true (key = key)) by done. cbn [andb].
    rewrite (Hwrong body cfg Ed Hk Eb).
    destruct (lt_Allow _ _ _ _ _) as [throttle [|]]; cbn; split; try done; right; done.
  - rewrite (bool_decide_false _ Hk). cbn [andb].
    assert ((lt_Allow (w_now w) (FingerprintLogin (lr_Username body)) attempts cooldown (w_throttle w)).1 !! key =
      w_throttle w !! key) as Ha.
    { unfold lt_Allow. destruct (bool_decide (_ <= Z.of_nat _)%Z); cbn [fst]; by apply (lookup_insert_ne (M := gmap string)). }
    destruct (lt_Allow _ _ _ _ _) as [throttle [|]]; cbn [fst negb] in *; [|by split; [|left]].
    destruct (password_matches _ _); cbn [negb]; [|by split; [|left]].
    cbn [w_svc w_throttle set_fld]. destruct (repo_GetUserByUsername _ _) as [user|].
    + match goal with |- context [login_session secret user ?w1] =>
        pose proof (login_session_keeps user w1) as Hs; destruct (login_session secret user w1) as [w2 [?|?]] end;
        cbn [fst] in *; destruct Hs as [-> ->]; (split; [done|left]); split; [|done|..];
        (etransitivity; [by apply (lookup_delete_ne (M := gmap string)) | exact Ha]) || done.
    + split; [done|left]. split; [|done]. etransitivity; [by apply (lookup_delete_ne (M := gmap string)) | exact Ha].
Qed.

Lemma throttle_insert (lt : LoginThrottle) l : (<[key := l]> lt : LoginThrottle) !! key = Some l.
Proof. apply (lookup_insert_eq (M := gmap string)). Qed.

(** The throttle of the account against the guesses made so far. *)
Record guess_inv (max W T : Z) (lt : LoginThrottle) (times : list Z) : Prop := {
  gi_past : forall t, t ∈ times -> (t <= T)%Z;
  gi_recent : forall c, (T - W <= c)%Z -> after c (default [] (lt !! key)) = after c times;
  gi_bound : forall t, (Z.of_nat (length (in_window W t times)) <= max)%Z
}.

Lemma guess_inv_later max W T T' lt lt' times :
  (T <= T')%Z -> lt' !! key = lt !! key -> guess_inv max W T lt times -> guess_inv max W T' lt' times.
Proof.
  intros HT Hlt [Hp Hr Hb]. split; [intros t Ht; specialize (Hp t Ht); lia | | exact Hb].
  intros c Hc. rewrite Hlt. apply Hr. lia.
Qed.

Lemma guess_inv_allow max win now lt lt' times :
  small_window win -> (0 < max)%Z -> lt' !! key = (lt_Allow now key max win lt).1 !! key -> guess_inv max (win * second) now lt times ->
  guess_inv max (win * second) now lt' (if (lt_Allow now key max win lt).2 then times ++ [now] else times).
Proof.
  intros Hw Hm Hlt [Hp Hr Hb]. revert Hlt. unfold lt_Allow. rewrite (bool_decide_false (max <= 0)%Z) by lia.
  rewrite clamp_small, window_start_small by done.
  rewrite Hr by lia. set (valid := after (now - win * second) times).
  case_bool_decide as Hfull; cbn [fst snd]; rewrite throttle_insert; intros Hlt; split; try done.
  - intros c Hc. rewrite Hlt. apply after_after. lia.
  - intros t [Ht|Ht]%elem_of_app; [by apply Hp | apply list_elem_of_singleton in Ht; lia].
  - intros c Hc. rewrite Hlt. change (after c (valid ++ [now]) = after c (times ++ [now])).
    rewrite !after_app. unfold valid. by rewrite after_after by lia.
  - intros t. apply bound_snoc; [exact Hp | exact Hb | unfold valid in Hfull; lia].
Qed.

Lemma login_run_inv max win calls T (st : World R * list Z) s :
  small_window win -> (0 < max)%Z -> loginThrottleConfig s = (max, win) ->
  StronglySorted Z.le (T :: calls.*1) -> w_svc st.1 = s ->
  (forall call, call ∈ calls -> wrong_guess st.1 call.2) ->
  guess_inv max (win * second) T (w_throttle st.1) st.2 ->
  exists T', guess_inv max (win * second) T' (w_throttle (fold_left login_step calls st).1) (fold_left login_step calls st).2.
Proof.
  intros Hw Hm Hc. revert T st. induction calls as [|[now r] calls IH]; intros T st Hs Hsvc Hwrong Hinv; [by exists T|].
  simpl in Hs. inversion Hs as [|? ? Hs' Hall]; subst. apply Forall_cons in Hall as [HT _].
  set (w0 := st.1 <| w_now := now |>). assert (wrong_guess w0 r) as Hr by exact (Hwrong (now, r) (list_elem_of_here _ _)).
  destruct (login_effect r w0 Hr) as [Hk He]. cbn [fold_left].
  apply (IH now); [exact Hs' | exact Hk | |].
  - intros call Hin body cfg Hd Hf Hb. apply (Hwrong call (list_elem_of_further _ _ _ Hin) body cfg Hd Hf).
    change (BuildAuthConfig (w_svc (login r w0).1) = Some cfg) in Hb. by rewrite Hk in Hb.
  - unfold login_step. cbn [fst snd]. fold w0. change (w_svc w0) with (w_svc st.1) in He. rewrite Hc in He. cbn [fst snd] in He.
    destruct He as [[Ht ->]|[Ht ->]].
    + by apply (guess_inv_later max (win * second) T now (w_throttle st.1)).
    + apply guess_inv_allow; [done|done|exact Ht|]. by apply (guess_inv_later max (win * second) T now (w_throttle st.1)).
Qed.

(** C6. Brute force: as long as no attempt on the account succeeds and the clock does
    not go back, at most [login_throttle_attempts] guesses are compared with the
    password in any window of [login_throttle_cooldown] seconds, whatever other
    accounts log in meanwhile and from however many addresses the guesses come. *)
Theorem login_guesses_bounded w max win calls t :
  loginThrottleConfig (w_svc w) = (max, win) -> small_window win -> (0 < max)%Z -> StronglySorted Z.le calls.*1 ->
  w_throttle w !! key = None -> (forall call, call ∈ calls -> wrong_guess w call.2) ->
  (Z.of_nat (length (in_window (win * second) t (login_run calls w).2)) <= max)%Z.
Proof.
  intros Hc Hw Hm Hs Hk Hwrong. destruct calls as [|[t0 r0] calls]; [cbn; lia|].
  destruct (login_run_inv max win ((t0, r0) :: calls) t0 (w, []) (w_svc w) Hw Hm Hc) as [T' Hinv]; try done.
  - simpl in *. inversion Hs as [|? ? Hs' Hall]; subst. constructor; [by constructor|]. by constructor.
  - split; cbn [fst snd]; [by intros ? ?%not_elem_of_nil | by rewrite Hk | cbn; lia].
  - apply Hinv.
Qed.
End guesses.

(** ** Witnesses *)

Lemma login_authenticates_witness :
  let r := login_request "root" "rootpw" in
  rp_Status (APILoginHandler "key" true r staffed_world).2 = 200%Z /\
  exists cookie, forall r' w', rq_Cookies r' !! sessionCookieName = Some cookie ->
    repo_GetUser "root" (svc_repo (w_svc w')) = Ok boss -> svc_GetAuthEpoch (w_svc w') = 0%Z -> w_now w' = w_now staffed_world ->
    RequireAuth "key" true r' w' = Next (r' <| rq_Ctx := withPrincipal (rq_Ctx r') boss [] |>) w'.
Proof.
  intros r. assert (rp_Status (APILoginHandler "key" true r staffed_world).2 = 200%Z) as Hs by (vm_compute; reflexivity).
  split; [exact Hs|].
  destruct (login_authenticates "key" true r staffed_world (mkLogin "root" "rootpw")) as (user & cookie & _ & Hu & _ & Hg);
    [vm_compute; reflexivity | exact Hs|].
  assert (Ok user = Ok boss) as [= ->] by (rewrite <- Hu; vm_compute; reflexivity).
  exists cookie. intros r' w' Hc Hb He Ht.
  rewrite (Hg eq_refl eq_refl (fun E => ltac:(discriminate E)) ltac:(vm_compute; reflexivity) ltac:(vm_compute; reflexivity) r' w' Hc Hb).
  by rewrite He, Ht.
Defined.

Lemma login_guesses_bounded_witness :
  let calls := [(1 * second, login_request "root" "a"); (2 * second, login_request "eve" "b"); (3 * second, login_request "root" "c")]%Z in
  (Z.of_nat (length (in_window (300 * second) (3 * second) (login_run "key" true (FingerprintLogin "root") calls staffed_world).2)) <= 10)%Z.
Proof.
  intros calls. apply login_guesses_bounded.
  - vm_compute. reflexivity.
  - split; reflexivity || discriminate.
  - reflexivity.
  - sorted_times.
  - reflexivity.
  - intros call Hin body cfg Hd Hf Hb.
    assert (BuildAuthConfig (w_svc staffed_world) = Some cfg) as Hb' by exact Hb. revert Hb'. vm_compute (BuildAuthConfig _). intros [= <-].
    unfold calls in Hin. do 3 (apply elem_of_cons in Hin as [->|Hin];
      [revert Hd; vm_compute (decodeJSON _); intros [= <-]; vm_compute; reflexivity |]).
    exfalso. exact (not_elem_of_nil _ Hin).
Defined.
