(* ===== verification/ServerTheory.v ===== *)
(** * ServerTheory: who can change the stored configuration

    Composition of the routers, their guards and every handler behind them: the
    public listener cannot change the service's state at all, and on the internal one
    only an authenticated principal with a write permission can. *)

From S2P Require Import Prelude Json Domain Bolt Crypto Store Repo Authorization RateLimit Http Service Buffer Broker Encryption Middleware MiddlewareTheory Webhook Events AuthHandler ApiDto Api Server LoginTheory.

#[local] Arguments jenc : simpl never.
#[local] Arguments jdec : simpl never.

(** chi's documented behaviour: the route it selects is one of the table, of the
    request's method or of any method. *)
Class MuxLaws `{!Mux} := {
  mux_method : forall table m p i params, mux_match table m p = Found i params ->
    exists e, table !! i = Some e /\ (e.1 = m \/ e.1 = "*")
}.

Definition write_perms : list string := [PermChannelWrite; PermGlobalWrite; PermUsersWrite; PermRBACWrite; PermAll].

Ltac write_perm := unfold write_perms; repeat first [apply list_elem_of_here | apply list_elem_of_further].

(** ** Guards and handlers that leave the service alone *)

Section still.
Context {R : Type} `{!Repository R} `{!Net}.
Implicit Types (r : Request) (w : World R).

Definition still (h : Handler (World R)) : Prop := forall r w, w_svc (h r w).1 = w_svc w.
Definition verdict_world (v : Verdict (R := R)) : World R := match v with Next _ w => w | Answer w _ => w end.
Definition quiet (g : Guard (R := R)) : Prop := forall r w, w_svc (verdict_world (g r w)) = w_svc w.

Lemma quiet_all gs : Forall quiet gs -> quiet (all_of gs).
Proof.
  induction 1 as [|g gs Hg _ IH]; intros r w; [done|]. cbn [all_of]. specialize (Hg r w).
  destruct (g r w) as [r' w'|w' resp]; [|exact Hg]. cbn in Hg. by rewrite IH.
Qed.
Lemma still_guarded g h : quiet g -> still h -> still (guarded g h).
Proof.
  intros Hg Hh r w. unfold guarded. specialize (Hg r w). destruct (g r w) as [r' w'|w' resp]; [|exact Hg].
  cbn in Hg. by rewrite Hh.
Qed.
Lemma still_route gs h m p : Forall quiet gs -> still h -> still (run_route (mkRoute m p gs h)).
Proof. intros Hg Hh. apply still_guarded; [by apply quiet_all | exact Hh]. Qed.
End still.

Section guards.
Context {R : Type} `{!Repository R} `{!Net} `{!Url} `{!Crypto} `{!JsonText} `{!JsonDecoder} `{!Box}.

Lemma quiet_permission perm : quiet (R := R) (RequirePermission perm).
Proof. intros r w. unfold RequirePermission. destruct (resolveRequestUser _ _); [|done]. by destruct (negb _). Qed.
Lemma quiet_channel : quiet (R := R) ChannelContext_mw.
Proof. done. Qed.
Lemma quiet_ban : quiet (R := R) BanMiddleware.
Proof.
  intros r w. unfold BanMiddleware. destruct (repo_GetGlobalConfig _); [|done]. destruct (negb _); [done|].
  destruct (GetRealIP _ _ _); [|done]. destruct (IsBanned _ _ _) as [bans []]; done.
Qed.
Lemma quiet_limit : quiet (R := R) RateLimitMiddleware.
Proof.
  intros r w. unfold RateLimitMiddleware. destruct (repo_GetGlobalConfig _); [|done]. destruct (negb _); [done|].
  destruct (GetRealIP _ _ _); [|done]. destruct (rl_Allow _ _ _ _ _) as [limiter []]; done.
Qed.
Lemma quiet_access scope : quiet (R := R) (ChannelAccessMiddleware scope).
Proof.
  intros r w. unfold ChannelAccessMiddleware. destruct (cookie_session _ _ _); [destruct (ResolvePrincipal _ _); [by destruct (_ && _)|done]|].
  destruct (svc_ResolveChannelConfig _ _); [|by destruct (errors_Is _ _)]. destruct (negb _); [done|].
  case_bool_decide; [done|]. by destruct (negb _).
Qed.
Lemma quiet_ip : quiet (R := R) IPRestrictMiddleware.
Proof.
  intros r w. unfold IPRestrictMiddleware. repeat (case_match; try done).
Qed.

Lemma still_webhook version : still (R := R) (HandleWebhookPost version).
Proof.
  intros r w. unfold HandleWebhookPost. destruct (negb _); [done|]. cbv zeta.
  destruct (webhook_config _ _) as [[[c n] secret]|]; [|done]. destruct (read_limited _ _) as [body|]; [|done].
  destruct (_ && _); [done|].
  assert (forall ch b, w_svc (ingest_payload ch b w).1 = w_svc w) as Hi.
  { intros ch b. unfold ingest_payload, encrypt. destruct (_ && _); [done|]. destruct (js_parse b); [|done].
    by destruct (EncryptForChannel _ _ _ _). }
  specialize (Hi (URLParam r "channel") body). destruct (ingest_payload _ _ _) as [w1 [p|]]; [|exact Hi]. cbn in Hi.
  destruct (GenerateUUID _) as [rnd [id|]]; [|exact Hi]. unfold set_ttl, publishEvent.
  destruct (_ <? _)%Z; (destruct (negb _); exact Hi).
Qed.
End guards.

(** ** Every route of the API *)

Section mediation.
Context {R : Type} `{!Repository R} `{!Net} `{!Url} `{!Crypto} `{!JsonText} `{!JsonDecoder} `{!Validator} `{!Box} `{!Mux} `{!MuxLaws}.
Context (rfc3339 : Z -> string) (secret : string) (secure : bool) (version icon : string).
Implicit Types (r : Request) (w : World R).

(** The caller of a request behind the session guard holds a write permission. *)
Definition may_write r w : Prop :=
  exists user perm channel, resolveRequestUser (w_svc w) r = Some user /\ perm ∈ write_perms /\
    UserHasPermission (w_svc w) (Some user) (GetGroupsFromContext (rq_Ctx r)) perm channel = true.
Definition mediated (h : Handler (World R)) : Prop := forall r w, w_svc (h r w).1 <> w_svc w -> may_write r w.

Lemma still_mediated h : still h -> mediated h.
Proof. intros Hs r w Hne. destruct (Hne (Hs r w)). Qed.

Lemma permission_mediated perm gs h : perm ∈ write_perms ->
  mediated (guarded (all_of (RequirePermission perm :: gs)) h).
Proof.
  intros Hp r w. unfold guarded. cbn [all_of]. unfold RequirePermission at 1.
  destruct (resolveRequestUser (w_svc w) r) as [user|] eqn:Eu; [|done].
  destruct (UserHasPermission _ _ _ _ _) eqn:Eh; [|done]. intros _. exists user, perm, (request_channel r). done.
Qed.
Lemma acl_mediated gs h : mediated (guarded (all_of (RequireChannelACLPermission :: gs)) h).
Proof.
  intros r w. unfold guarded. cbn [all_of]. unfold RequireChannelACLPermission at 1.
  destruct (resolveRequestUser (w_svc w) r) as [user|] eqn:Eu; [|done]. cbv zeta.
  destruct (UserHasPermission _ _ _ PermChannelWrite _) eqn:E1;
    [intros _; exists user, PermChannelWrite, (request_channel r); split_and!; try done; write_perm|].
  destruct (UserHasPermission _ _ _ PermRBACWrite _) eqn:E2;
    [intros _; exists user, PermRBACWrite, (request_channel r); split_and!; try done; write_perm|].
  destruct (UserHasPermission _ _ _ PermAll _) eqn:E3; [|done].
  intros _; exists user, PermAll, (request_channel r); split_and!; try done; write_perm.
Qed.

(** A guard that only records the channel in front. *)
Lemma context_mediated (g : Guard (R := R)) gs h :
  (forall r w, exists f : Ctx -> Ctx, g r w = Next (r <| rq_Ctx := f (rq_Ctx r) |>) w /\
     forall c, cx_principal (f c) = cx_principal c /\ cx_username (f c) = cx_username c /\ cx_groups (f c) = cx_groups c) ->
  mediated (guarded (all_of gs) h) -> mediated (guarded (all_of (g :: gs)) h).
Proof.
  intros Hg Hm r w. destruct (Hg r w) as (f & Hf & Hc). destruct (Hc (rq_Ctx r)) as (Hp & Hn & Hgr).
  unfold guarded in *. cbn [all_of]. rewrite Hf. intros Hne. destruct (Hm _ w Hne) as (user & perm & ch & Hu & Hperm & Hhas).
  exists user, perm, ch. split_and!; [|done|].
  - revert Hu. unfold resolveRequestUser, GetPrincipalFromContext, GetUsernameFromContext. cbn. by rewrite Hp, Hn.
  - revert Hhas. unfold GetGroupsFromContext. cbn. by rewrite Hgr.
Qed.

Lemma channelCtx_context r w : exists f : Ctx -> Ctx, channelCtx r w = Next (r <| rq_Ctx := f (rq_Ctx r) |>) w /\
  forall c, cx_principal (f c) = cx_principal c /\ cx_username (f c) = cx_username c /\ cx_groups (f c) = cx_groups c.
Proof. by exists (fun c => c <| cx_channel := Some (URLParam r "id") |>). Qed.
Lemma ChannelContext_context r w : exists f : Ctx -> Ctx, ChannelContext_mw r w = Next (r <| rq_Ctx := f (rq_Ctx r) |>) w /\
  forall c, cx_principal (f c) = cx_principal c /\ cx_username (f c) = cx_username c /\ cx_groups (f c) = cx_groups c.
Proof.
  unfold ChannelContext_mw. destruct (negb _); [by exists (fun c => c <| cx_channel := Some (URLParam r "channel") |>)|].
  exists id. split; [by destruct r | done].
Qed.

Lemma api_route_mediated t : t ∈ api_table rfc3339 -> mediated (run_route t).
Proof.
  assert (forall perm gs h m p, perm ∈ write_perms -> mediated (run_route (mkRoute m p (RequirePermission perm :: gs) h))) as Hperm
    by (intros; by apply permission_mediated).
  assert (forall perm h m p, perm ∈ write_perms -> mediated (run_route (mkRoute m p (channel_guards (RequirePermission perm)) h))) as Hchan.
  { intros. apply context_mediated; [apply channelCtx_context | by apply permission_mediated]. }
  assert (forall h m p, mediated (run_route (mkRoute m p (channel_guards RequireChannelACLPermission) h))) as Hacl.
  { intros. apply context_mediated; [apply channelCtx_context | by apply acl_mediated]. }
  assert (forall perm h m p, still h -> mediated (run_route (mkRoute m p [RequirePermission perm] h))) as Hstill.
  { intros. apply still_mediated, still_route; [repeat constructor; apply quiet_permission | done]. }
  assert (forall perm h m p, still h -> mediated (run_route (mkRoute m p (channel_guards (RequirePermission perm)) h))) as Hstillc.
  { intros. apply still_mediated, still_route; [repeat constructor; apply quiet_permission | done]. }
  assert (still (R := R) getMe) as Hme by (intros r w; unfold getMe; repeat (case_match; try done)).
  assert (forall k, (forall ch, still (R := R) (fun _ => k ch)) -> still (with_channel k)) as Hwith.
  { intros k Hk r w. unfold with_channel. destruct (repo_GetChannel _ _) as [ch|]; [exact (Hk ch r w) | done]. }
  intros Ht. revert t Ht. apply Forall_forall. unfold api_table, api_routes, operational_routes. cbv beta zeta. cbn [app].
  repeat (apply Forall_cons; split); [..|by apply Forall_nil].
  all: lazymatch goal with
       | |- mediated (run_route (mkRoute _ _ [] _)) => apply still_mediated, still_route; [constructor | exact Hme]
       | |- mediated (run_route (mkRoute _ _ (channel_guards RequireChannelACLPermission) _)) => apply Hacl
       | |- mediated (run_route (mkRoute _ _ (channel_guards (RequirePermission PermChannelRead)) _)) => apply Hstillc
       | |- mediated (run_route (mkRoute _ _ (channel_guards (RequirePermission _)) _)) => apply Hchan; write_perm
       | |- mediated (run_route (mkRoute _ _ [ChannelContext_mw; RequirePermission _] _)) =>
           apply context_mediated; [apply ChannelContext_context | apply permission_mediated; write_perm]
       | |- mediated (run_route (mkRoute _ _ [RequirePermission PermGlobalRead; RequirePermission _] _)) => idtac
       | |- mediated (run_route (mkRoute _ _ [RequirePermission ?perm] _)) =>
           lazymatch perm with
           | PermChannelRead => apply Hstill | PermGlobalRead => apply Hstill | PermUsersRead => apply Hstill
           | PermRBACRead => apply Hstill | _ => apply Hperm; write_perm end
       end.
  1: intros r w; unfold listChannels; cbv zeta; destruct (repo_ListChannels _); [by case_bool_decide | done].
  1-2: by apply Hwith; intros ch r w.
  - by intros r w.
  - intros r w. unfold getGlobalConfig. by destruct (repo_GetGlobalConfig _).
  - intros r w. unfold listUsers. by destruct (repo_ListUsers _).
  - intros r w. unfold getUser. by destruct (repo_GetUser _ _).
  - by intros r w.
  - by intros r w.
  - by intros r w.
  - intros r w. unfold APIBansHandler. by destruct (ListBans _ _).
  - apply still_mediated, still_route; [repeat constructor; apply quiet_permission|].
    intros r w. unfold APIUnbanHandler. cbv zeta. case_bool_decide; [done|]. by destruct (ParseIP _).
Qed.

Lemma dispatch_table (table : list (Route (R := R))) nf r w :
  (exists t params, t ∈ table /\ (rt_Method t = rq_Method r \/ rt_Method t = "*") /\
     dispatch table nf r w = run_route t (r <| rq_Params := params |>) w) \/
  dispatch table nf r w = nf r w \/ dispatch table nf r w = (w, method_not_allowed).
Proof.
  unfold dispatch. destruct (mux_match _ _ _) as [i params| |] eqn:Em; [|by right; right|by right; left].
  destruct (mux_method _ _ _ _ _ Em) as (e & He & Hm). rewrite list_lookup_fmap in He.
  destruct (table !! i) as [t|] eqn:Et; [|done]. left. exists t, params. injection He as <-.
  split; [by eapply list_elem_of_lookup_2|]. done.
Qed.

Lemma dispatch_mediated (table : list (Route (R := R))) nf :
  still nf -> (forall t, t ∈ table -> mediated (run_route t)) -> mediated (dispatch table nf).
Proof.
  intros Hnf Ht r w Hne. destruct (dispatch_table table nf r w) as [(t & params & Hin & _ & E)|[E|E]]; rewrite E in Hne.
  - exact (Ht t Hin _ w Hne).
  - destruct (Hne (Hnf r w)).
  - done.
Qed.

(** ** Sessions *)

(** The principal of the request's session: a valid cookie of the current epoch. *)
Definition session_of r w : option (User * SessionToken) :=
  cookie ← rq_Cookies r !! sessionCookieName;
  token ← res_option (DecodeSession (time_Unix (w_now w)) cookie secret);
  user ← ResolvePrincipal (w_svc w) (Some token);
  if SessionEpochValid (w_svc w) (Some token) then Some (user, token) else None.

Lemma RequireAuth_session r w :
  RequireAuth secret secure r w = match session_of r w with
    | Some (user, token) => Next (r <| rq_Ctx := withPrincipal (rq_Ctx r) user (st_Groups token) |>) w
    | None => Answer w (unauthorizedResponse secure r) end.
Proof.
  unfold RequireAuth, session_of. destruct (rq_Cookies r !! sessionCookieName) as [cookie|]; [|done]. cbn [mbind option_bind].
  destruct (DecodeSession _ _ _) as [token|]; [|done]. cbn [res_option mbind option_bind].
  destruct (ResolvePrincipal _ _) as [user|]; [|done]. cbn [mbind option_bind]. by destruct (SessionEpochValid _ _).
Qed.

(** An authenticated principal that holds a write permission. *)
Definition authorized r w : Prop :=
  exists user token perm channel, session_of r w = Some (user, token) /\ perm ∈ write_perms /\
    UserHasPermission (w_svc w) (Some user) (st_Groups token) perm channel = true.

Lemma withPrincipal_groups user groups : GetGroupsFromContext (withPrincipal ctx_empty user groups) = groups.
Proof. by destruct groups. Qed.

Section routers.
Context (clean started : bool) (addr : string) (proxy : string -> Handler (World R)) (spa : Request -> Response)
  (stream : Handler (World R)) (oidc : list (Route (R := R))).
Abbreviation api := (apiRouter rfc3339 secret secure true addr proxy).
Abbreviation main := (mainRouter rfc3339 secret secure version icon true clean started addr proxy spa stream oidc).
Abbreviation final := (finalRouter rfc3339 secret secure version icon true clean started addr proxy spa stream oidc).

(** On the leader, whatever changes the service through /api was authorized. *)
Lemma apiRouter_mediated r w :
  rq_Ctx r = ctx_empty -> BuildAuthConfig (w_svc w) <> None -> w_svc (api r w).1 <> w_svc w -> authorized r w.
Proof.
  intros Hctx Hauth. unfold apiRouter. set (r0 := r <| rq_Path := _ |>). unfold guarded, api_guards. cbn [all_of].
  unfold LeaderForwardMiddleware. rewrite orb_true_r. cbn [orb].
  assert (forall v, MutationOriginValidation r0 w = v -> v = Next r0 w \/ exists resp, v = Answer w resp) as Ho.
  { intros v <-. unfold MutationOriginValidation. destruct (negb _); [by left|]. cbv zeta. case_bool_decide; [by left|].
    destruct (_ || _); [by left | right; by eexists]. }
  destruct (Ho _ eq_refl) as [-> |[resp ->]]; [|done].
  unfold RequireAuthDynamic. destruct (BuildAuthConfig (w_svc w)); [|done]. rewrite RequireAuth_session.
  change (session_of r0 w) with (session_of r w). destruct (session_of r w) as [[user token]|] eqn:Es; [|done].
  intros Hne.
  assert (mediated (dispatch (api_table rfc3339) not_found)) as Hm by (apply dispatch_mediated; [done | apply api_route_mediated]).
  destruct (Hm _ w Hne) as (u & perm & ch & Hu & Hp & Hh). revert Hu Hh. cbn [rq_Ctx set_fld].
  change (rq_Ctx r0) with (rq_Ctx r). rewrite Hctx.
  unfold resolveRequestUser. cbn [rq_Ctx set_fld]. unfold GetPrincipalFromContext.
  assert (cx_principal (withPrincipal ctx_empty user (st_Groups token)) = Some user) as -> by (by destruct (st_Groups token)).
  intros [= <-]. rewrite withPrincipal_groups. intros Hh. by exists user, token, perm, ch.
Qed.

Lemma still_login : still (R := R) (APILoginHandler secret secure).
Proof.
  intros r w. unfold APILoginHandler. destruct (BuildAuthConfig _); [|done]. destruct (negb _); [done|].
  destruct (decodeJSON r); [|done]. cbv zeta. destruct (loginThrottleConfig _). destruct (lt_Allow _ _ _ _ _) as [throttle []]; [|done].
  cbn [negb]. destruct (password_matches _ _); [|done]. cbn [negb w_svc set_fld].
  destruct (repo_GetUserByUsername _ _) as [user|]; [|done]. unfold login_session.
  destruct (GenerateRandomHex _) as [rnd [sid|]]; done.
Qed.

Lemma session_same r r' w w' :
  rq_Cookies r' = rq_Cookies r -> w_svc w' = w_svc w -> w_now w' = w_now w -> session_of r' w' = session_of r w.
Proof. intros Hc Hs Hn. unfold session_of. by rewrite Hc, Hs, Hn. Qed.

(** The guards of the main router. *)
Lemma limits_next r w :
  (exists w', all_of [BanMiddleware; RateLimitMiddleware] r w = Next r w' /\ same_world w w') \/
  (exists w' resp, all_of [BanMiddleware; RateLimitMiddleware] r w = Answer w' resp /\ w_svc w' = w_svc w).
Proof.
  cbn [all_of]. pose proof (quiet_ban r w) as Hqb. destruct (BanMiddleware r w) as [r1 w1|w1 resp] eqn:Eb; [|right; by eauto].
  apply ban_next in Eb as (-> & Hs1 & _).
  pose proof (quiet_limit r w1) as Hql. destruct (RateLimitMiddleware r w1) as [r2 w2|w2 resp] eqn:El.
  - apply limit_next in El as (-> & Hs2 & _). left. exists w2. split; [done|]. by etransitivity.
  - right. exists w2, resp. split; [done|]. cbn in Hql. by rewrite Hql, (sw_svc _ _ Hs1).
Qed.

Lemma mainRouter_mediated r w :
  Forall (fun t => rt_Method t = "GET") oidc -> rq_Method r <> "GET" ->
  rq_Ctx r = ctx_empty -> BuildAuthConfig (w_svc w) <> None -> w_svc (main r w).1 <> w_svc w -> authorized r w.
Proof.
  intros Hoidc Hget Hctx Hauth. unfold mainRouter. set (r0 := r <| rq_Header := hdr_Del leaderForwardedHeader (rq_Header r) |>).
  change (guarded StripForwardMarker ?h r w) with (h r0 w). unfold SecurityHeadersMiddleware.
  match goal with |- context [let (_, _) := ?x in _] => destruct x as [w1 resp1] eqn:E1 end. cbn [fst]. intros Hne.
  unfold guarded in E1. destruct (limits_next r0 w) as [(w' & E & Hsame)|(w' & resp & E & Hs)]; rewrite E in E1;
    [|apply pair_eq in E1 as [<- _]; by destruct Hne].
  destruct Hsame as [Hsvc Hnow _ _ _ _].
  set (table := main_routes rfc3339 secret secure version icon true clean started addr proxy stream oidc) in E1.
  destruct (dispatch_table table (fun r w => (w, spa r)) r0 w') as [(t & params & Hin & Hm & Ed)|[Ed|Ed]];
    rewrite Ed in E1; [|by apply pair_eq in E1 as [<- _]; destruct Hne..].
  assert (w_svc (run_route t (r0 <| rq_Params := params |>) w').1 <> w_svc w') as Hrun by (by rewrite E1, Hsvc).
  change (rq_Method r0) with (rq_Method r) in Hm.
  assert (forall m p g h, t = mkRoute m p g h -> m = "GET" -> False) as Hnot.
  { intros m p g h -> ->. cbn in Hm. destruct Hm as [Hm|Hm]; [by symmetry in Hm | done]. }
  unfold table, main_routes, health_routes in Hin. rewrite !elem_of_app in Hin.
  destruct Hin as [Hin|[Hin|Hin]].
  - exfalso. repeat (apply elem_of_cons in Hin as [->|Hin]; [by eapply Hnot|]). by apply not_elem_of_nil in Hin.
  - exfalso. rewrite Forall_forall in Hoidc. specialize (Hoidc t Hin). destruct t as [m p g h]. by eapply Hnot.
  - repeat (apply elem_of_cons in Hin as [->|Hin]); [by exfalso; eapply Hnot..| | | |by apply not_elem_of_nil in Hin].
    + destruct Hrun. apply (still_guarded (all_of []) _ (quiet_all [] ltac:(constructor)) still_login).
    + by destruct Hrun.
    + unfold run_route, guarded in Hrun. cbn [rt_Guards rt_Handler all_of] in Hrun.
      destruct (apiRouter_mediated (r0 <| rq_Params := params |>) w') as (user & token & perm & ch & Hse & Hp & Hh);
        [exact Hctx | by rewrite Hsvc | exact Hrun|].
      exists user, token, perm, ch. rewrite <- Hsvc. split; [|done].
      rewrite <- Hse. symmetry. by apply session_same.
Qed.

(** The webhook routes: nothing they do reaches the service's state. *)
Lemma webhook_still : still (run_route (webhook_post (R := R) version)).
Proof.
  apply still_route; [|apply still_webhook].
  constructor; [apply quiet_ban|]. constructor; [apply quiet_limit|]. constructor; [apply quiet_ip|].
  constructor; [apply quiet_access | constructor].
Qed.

Lemma dispatch_still (table : list (Route (R := R))) nf :
  still nf -> (forall t, t ∈ table -> still (run_route t)) -> still (dispatch table nf).
Proof.
  intros Hnf Ht r w. destruct (dispatch_table table nf r w) as [(t & params & Hin & _ & ->)|[-> | ->]]; [exact (Ht t Hin _ w)|apply Hnf|done].
Qed.

(** C2. Complete mediation: on the leader, once a user or a provider exists, a request
    other than a GET that changes the stored configuration, on whichever path it
    comes in, carries a signed and unexpired session of the current epoch whose
    principal holds one of the write permissions. *)
Theorem complete_mediation r w :
  Forall (fun t => rt_Method t = "GET") oidc -> rq_Ctx r = ctx_empty -> rq_Method r <> "GET" ->
  BuildAuthConfig (w_svc w) <> None -> w_svc (final r w).1 <> w_svc w ->
  exists cookie user token perm channel, rq_Cookies r !! sessionCookieName = Some cookie /\
    DecodeSession (time_Unix (w_now w)) cookie secret = Ok token /\ ResolvePrincipal (w_svc w) (Some token) = Some user /\
    SessionEpochValid (w_svc w) (Some token) = true /\ perm ∈ write_perms /\
    UserHasPermission (w_svc w) (Some user) (st_Groups token) perm channel = true.
Proof.
  intros Hoidc Hctx Hget Hauth Hne.
  assert (authorized r w) as (user & token & perm & ch & Hs & Hp & Hh).
  { unfold finalRouter in Hne. destruct (_ && _); [|by eapply mainRouter_mediated].
    destruct Hne. apply dispatch_still; [done|]. intros t ->%list_elem_of_singleton. apply webhook_still. }
  unfold session_of in Hs. destruct (rq_Cookies r !! sessionCookieName) as [cookie|]; [|done]. cbn [mbind option_bind] in Hs.
  destruct (DecodeSession _ _ _) as [tok|] eqn:Ed; [|done]. cbn [res_option mbind option_bind] in Hs.
  destruct (ResolvePrincipal _ _) as [u|] eqn:Er; [|done]. cbn [mbind option_bind] in Hs.
  destruct (SessionEpochValid _ _) eqn:Ee; [|done]. injection Hs as -> ->.
  exists cookie, user, token, perm, ch. done.
Qed.

(** C3. The public listener: whatever the request and whoever sends it, the stored
    configuration is the same afterwards, and a request that is not a webhook POST
    changes nothing at all. *)
Theorem public_listener_confined r w :
  w_svc (buildPublicRouter version clean started r w).1 = w_svc w /\
  (rq_Method r <> "POST" -> (buildPublicRouter version clean started r w).1 = w).
Proof.
  unfold buildPublicRouter. split.
  - apply dispatch_still; [done|]. intros t [Hin|Hin]%elem_of_app.
    + unfold health_routes in Hin. repeat (apply elem_of_cons in Hin as [->|Hin]; [by intros r0 w0|]). by apply not_elem_of_nil in Hin.
    + apply list_elem_of_singleton in Hin as ->. apply webhook_still.
  - intros Hm. match goal with |- context [dispatch ?t ?nf r w] =>
      destruct (dispatch_table t nf r w) as [(t' & params & Hin & Hmm & ->)|[-> | ->]]; [|done..] end.
    apply elem_of_app in Hin as [Hin|Hin].
    + unfold health_routes in Hin. repeat (apply elem_of_cons in Hin as [->|Hin]; [done|]). by apply not_elem_of_nil in Hin.
    + apply list_elem_of_singleton in Hin as ->. cbn in Hmm. destruct Hmm; congruence.
Qed.
End routers.
End mediation.

(** ** A matcher, for the witnesses *)

(** Literal segments, variables in braces, and a final star. *)
Fixpoint match_segments (pat path : list string) : option (gmap string string) :=
  match pat, path with
  | [], [] => Some ∅
  | ["*"], _ => Some ∅
  | p :: pat, s :: path =>
      if HasPrefix p "{" then
        let name := match Cut (drop_str 1 p) ":" with Some (n, _) => n | None => TrimSuffix (drop_str 1 p) "}" end in
        (fun ps => <[name := s]> ps) <$> match_segments pat path
      else if bool_decide (p = s) then match_segments pat path else None
  | _, _ => None
  end.
Fixpoint find_route (table : list (string * string)) (m p : string) (i : nat) : Match :=
  match table with
  | [] => NoRoute
  | (m', pat) :: table =>
      match (if bool_decide (m' = m \/ m' = "*") then match_segments (Split pat "/") (Split p "/") else None) with
      | Some params => Found i params
      | None => find_route table m p (S i)
      end
  end.
#[export] Instance toy_mux : Mux := {| mux_match table m p := find_route table m p 0 |}.

Lemma find_route_spec table m p i j params : find_route table m p i = Found j params ->
  exists e k, j = i + k /\ table !! k = Some e /\ (e.1 = m \/ e.1 = "*").
Proof.
  revert i. induction table as [|[m' pat] table IH]; intros i; cbn [find_route]; [done|].
  destruct (decide (m' = m \/ m' = "*")) as [Hm|Hm].
  - rewrite (bool_decide_true _ Hm). destruct (match_segments _ _) as [ps|].
    + intros [= <- _]. exists (m', pat), 0. split; [lia|done].
    + intros (e & k & -> & He & Hk)%IH. exists e, (S k). split; [lia|done].
  - rewrite (bool_decide_false _ Hm). intros (e & k & -> & He & Hk)%IH. exists e, (S k). split; [lia|done].
Qed.
#[export] Instance toy_mux_laws : MuxLaws.
Proof. constructor. intros table m p i params (e & k & -> & He & Hk)%find_route_spec. by exists e. Qed.

(** ** Witnesses *)

Definition boss_cookie : string := EncodeSession (login_token boss "s1" 0 4000000000) "key".
(** DELETE /api/users/eve/ with the cookie of the administrator. *)
Definition delete_eve : Request :=
  demo_request <| rq_Method := "DELETE" |> <| rq_Path := "/api/users/eve/" |> <| rq_Cookies := {[ sessionCookieName := boss_cookie ]} |>.
Definition demo_final : Handler (World (RaftStore mapdb)) :=
  finalRouter Itoa "key" true "v1" "" true true true "a:1" (fun _ _ w => (w, http_Error "bad gateway" 502))
    (fun _ => http_Error "" 200) (fun _ w => (w, http_Error "" 200)) [].

Lemma complete_mediation_witness :
  rp_Status (demo_final delete_eve staffed_world).2 = 204%Z /\
  exists user perm channel, ResolvePrincipal (w_svc staffed_world) (Some (login_token boss "s1" 0 4000000000)) = Some user /\
    perm ∈ write_perms /\ UserHasPermission (w_svc staffed_world) (Some user) [] perm channel = true.
Proof.
  split; [vm_compute; reflexivity|].
  destruct (complete_mediation Itoa "key" true "v1" "" true true "a:1" (fun _ _ w => (w, http_Error "bad gateway" 502))
    (fun _ => http_Error "" 200) (fun _ w => (w, http_Error "" 200)) [] delete_eve staffed_world)
    as (cookie & user & token & perm & ch & Hc & Hd & Hr & _ & Hp & Hh).
  - constructor.
  - reflexivity.
  - discriminate.
  - vm_compute. discriminate.
  - intros E. apply (f_equal (fun s => repo_GetUser "eve" (svc_repo s))) in E. vm_compute in E. discriminate E.
  - assert (cookie = boss_cookie) as ->.
    { assert (Some boss_cookie = Some cookie) as [= ->] by (rewrite <- Hc; vm_compute; reflexivity). reflexivity. }
    assert (Ok (login_token boss "s1" 0 4000000000) = Ok token) as [= <-] by (rewrite <- Hd; vm_compute; reflexivity).
    exists user, perm, ch. split; [exact Hr|]. split; [exact Hp | exact Hh].
Defined.

Lemma public_listener_confined_witness :
  let r := delete_eve <| rq_Path := "/users/eve/" |> in
  (buildPublicRouter "v1" true true r staffed_world).1 = staffed_world /\
  rp_Status (buildPublicRouter "v1" true true r staffed_world).2 = 404%Z.
Proof.
  intros r. split; [|vm_compute; reflexivity].
  apply (proj2 (public_listener_confined "v1" true true r staffed_world)). discriminate.
Defined.
