(* ===== verification/BoltTheory.v ===== *)
(** * BoltTheory: the raft log and the stable store keep what raft asks of them

    internal/repository/bolt.go implements raft's LogStore and StableStore over
    bbolt.  The abstract log is a finite map from indexes to entries; the theorems
    here show that every operation of boltLogStore refines it, that [DeleteRange]
    ends for every range but one, and that the stable store reads back what it
    was told. *)

From S2P Require Import Prelude Json Bolt Fsm.

Open Scope Z_scope.

Definition is_u64 (i : Z) : Prop := 0 <= i < two64.

(** ** The abstract log *)

Inductive log_op :=
  | OStore (logs : list (Z * json))
  | ODelete (low high : Z).

Definition alog_step (op : log_op) (m : gmap Z json) : gmap Z json :=
  match op with
  | OStore logs => foldl (fun m '(i, v) => <[i := v]> m) m logs
  | ODelete low high => filter (fun '(i, _) => ~ (low <= i <= high)) m
  end.

(** The index a log reports as its least (greatest), 0 when it is empty. *)
Definition extreme (rel : Z -> Z -> Prop) (m : gmap Z json) (i : Z) : Prop :=
  (m = ∅ /\ i = 0) \/ (is_Some (m !! i) /\ forall j, is_Some (m !! j) -> rel i j).

(** Ranges raft may delete: any but one that ends at the largest uint64. *)
Definition op_ok (op : log_op) : Prop :=
  match op with
  | OStore logs => Forall (fun l => is_u64 l.1) logs
  | ODelete low high => is_u64 low /\ is_u64 high /\ high < two64 - 1
  end.

Section log_store.
Context {DB B : Type} `{!Bolt DB B} `{!BoltLaws DB B}.

Definition run_op (fuel : nat) (op : log_op) (db : DB) : option (DB * res unit) :=
  match op with
  | OStore logs => Some (StoreLogs db logs)
  | ODelete low high => DeleteRange fuel db low high
  end.

(** The bucket holds the entries of the map under their big-endian keys and
    nothing else. *)
Definition holds (b : B) (m : gmap Z json) : Prop :=
  (forall i, is_u64 i -> bk_Get b (itob i) = m !! i) /\
  (forall k, k ∈ bk_Keys b -> exists i, is_u64 i /\ k = itob i) /\
  (forall i, is_Some (m !! i) -> is_u64 i).

Definition log_ready (db : DB) (m : gmap Z json) : Prop :=
  db_begin db = None /\ exists b, tx_Bucket db logsBucketName = Some b /\ holds b m.

Lemma holds_keys b m i : holds b m -> is_u64 i -> itob i ∈ bk_Keys b <-> is_Some (m !! i).
Proof. intros (Hg & _ & _) Hi. by rewrite keys_get, Hg. Qed.

Lemma lookup_insert_case (m : gmap Z json) i j v :
  <[i := v]> m !! j = if decide (i = j) then Some v else m !! j.
Proof. destruct (decide (i = j)) as [->|Hn]; [by rewrite lookup_insert_eq|by rewrite lookup_insert_ne]. Qed.

Lemma lookup_delete_case (m : gmap Z json) i j :
  delete i m !! j = if decide (i = j) then None else m !! j.
Proof. destruct (decide (i = j)) as [->|Hn]; [by rewrite lookup_delete_eq|by rewrite lookup_delete_ne]. Qed.

Lemma holds_put b m i v b' : holds b m -> is_u64 i -> bk_Put (itob i) v b = Ok b' -> holds b' (<[i := v]> m).
Proof.
  intros (Hg & Hk & Hd) Hi Hp. split_and!.
  - intros j Hj. rewrite (put_get _ _ _ _ _ Hp), lookup_insert_case, Hg by done.
    destruct (decide (i = j)) as [->|Hn]; [by rewrite decide_True|].
    rewrite decide_False; [done|]. by intros E%itob_inj.
  - intros k Hin. apply keys_get in Hin. rewrite (put_get _ _ _ _ _ Hp) in Hin.
    destruct (decide (itob i = k)) as [<-|_]; [by exists i|]. by apply Hk, keys_get.
  - intros j [<-|[_ Hj]]%lookup_insert_is_Some; [done|by apply Hd].
Qed.

Lemma holds_delete b m i b' : holds b m -> is_u64 i -> bk_Delete (itob i) b = Ok b' -> holds b' (delete i m).
Proof.
  intros (Hg & Hk & Hd) Hi Hp. split_and!.
  - intros j Hj. rewrite (delete_get _ _ _ _ Hp), lookup_delete_case, Hg by done.
    destruct (decide (i = j)) as [->|Hn]; [by rewrite decide_True|].
    rewrite decide_False; [done|]. by intros E%itob_inj.
  - intros k Hin. apply keys_get in Hin. rewrite (delete_get _ _ _ _ Hp) in Hin.
    destruct (decide (itob i = k)) as [<-|_]; [by destruct Hin|]. by apply Hk, keys_get.
  - intros j [_ Hj]%lookup_delete_is_Some. by apply Hd.
Qed.

Lemma holds_store logs b m b' :
  holds b m -> Forall (fun l => is_u64 l.1) logs -> store_logs logs b = Ok b' ->
  holds b' (alog_step (OStore logs) m).
Proof.
  intros Hb Hl. revert b m Hb. induction Hl as [|[i v] logs Hi Hl IH]; intros b m Hb; simpl; [by intros [= <-]|].
  destruct (bk_Put _ _ _) as [b1|] eqn:Ep; [|done]. apply IH. by eapply holds_put.
Qed.

(** One deletion shrinks the range that is left. *)
Lemma filter_range_step (m : gmap Z json) i high : i <= high ->
  alog_step (ODelete (i + 1) high) (delete i m) = alog_step (ODelete i high) m.
Proof.
  intros Hi. apply map_eq. intros j. apply option_eq. intros v. simpl.
  rewrite !map_lookup_filter_Some, lookup_delete_Some. split.
  - intros [[Hn Hv] Hr]. split; [done|]. lia.
  - intros [Hv Hr]. split; [split; [lia|done]|]. lia.
Qed.

Lemma filter_range_empty (m : gmap Z json) i high : high < i -> alog_step (ODelete i high) m = m.
Proof. intros Hi. apply map_filter_id. intros j v _. lia. Qed.

(** The loop, given one unit of fuel per index and one for the final test. *)
Lemma delete_range_run fuel b m i high :
  holds b m -> is_u64 i -> is_u64 high -> high < two64 - 1 ->
  Z.max 0 (high - i + 1) < Z.of_nat fuel ->
  exists r, delete_range fuel i high b = Some r /\
    match r with Ok b' => holds b' (alog_step (ODelete i high) m) | Err _ => True end.
Proof.
  intros Hb Hi Hh Hmax. revert b m i Hb Hi. induction fuel as [|fuel IH]; intros b m i Hb Hi Hf.
  - lia.
  - cbn [delete_range]. case_bool_decide as Hle.
    + destruct (bk_Delete _ _) as [b1|e] eqn:Ed; [|by exists (Err e)].
      assert (wrapu64 (i + 1) = i + 1) as -> by (unfold wrapu64, is_u64 in *; apply Z.mod_small; lia).
      destruct (IH b1 (delete i m) (i + 1)) as (r & Hr & Hp); [by eapply holds_delete|unfold is_u64 in *; lia|lia|].
      exists r. split; [done|]. destruct r; [|done]. by rewrite <- filter_range_step by lia.
    + exists (Ok b). split; [done|]. by rewrite filter_range_empty by lia.
Qed.

(** ** Queries *)

Lemma keys_head (b : B) k ks : bk_Keys b = k :: ks -> forall k', k' ∈ bk_Keys b -> String.leb k k' = true.
Proof.
  intros E k' Hk'. pose proof (keys_sorted b) as Hs. rewrite E in Hs, Hk'.
  apply StronglySorted_inv in Hs as [_ Hall]. apply elem_of_cons in Hk' as [->|Hk'].
  - by apply Is_true_true, (reflexivity (R := String.le)).
  - rewrite Forall_forall in Hall. by apply Is_true_true, Hall.
Qed.

Lemma sorted_last (ks : list string) k : StronglySorted key_lt ks -> last ks = Some k ->
  k ∈ ks /\ forall k', k' ∈ ks -> String.leb k' k = true.
Proof.
  intros Hs [ks' ->]%last_Some. split; [set_solver|]. intros k' [Hk'|Hk'%list_elem_of_singleton]%elem_of_app.
  - apply Is_true_true. exact (proj1 (StronglySorted_app_1_elem_of key_lt ks' [k] k' k Hs Hk' ltac:(set_solver))).
  - subst. by apply Is_true_true, (reflexivity (R := String.le)).
Qed.

Lemma holds_empty b m : holds b m -> bk_Keys b = [] -> m = ∅.
Proof.
  intros Hb E. apply map_empty. intros i. apply eq_None_not_Some. intros Hi.
  pose proof (proj2 (proj2 Hb) i Hi) as Hu. apply (holds_keys b m i Hb Hu) in Hi. rewrite E in Hi. set_solver.
Qed.

(** The least (greatest) key is the least (greatest) index. *)
Lemma holds_extreme (rel : Z -> Z -> Prop) b m k :
  holds b m -> k ∈ bk_Keys b ->
  (forall i j, is_u64 i -> is_u64 j -> k = itob i -> itob j ∈ bk_Keys b -> rel i j) ->
  exists i, btoi_res k = Ok i /\ extreme rel m i.
Proof.
  intros Hb Hk Hrel. destruct (proj1 (proj2 Hb) k Hk) as (i & Hi & ->). exists i.
  unfold btoi_res. rewrite btoi_itob by exact Hi. split; [done|]. right.
  split; [by apply (holds_keys b m)|]. intros j Hj. pose proof (proj2 (proj2 Hb) j Hj) as Hu.
  apply Hrel; [done..|]. by apply (holds_keys b m).
Qed.

Lemma FirstIndex_extreme db m : log_ready db m -> exists i, FirstIndex db = Ok i /\ extreme Z.le m i.
Proof.
  intros (Hbeg & b & Eb & Hb). unfold FirstIndex, db_View. rewrite Hbeg, Eb.
  destruct (bk_Keys b) as [|k ks] eqn:E; [exists 0; split; [done|left; by rewrite (holds_empty b m)]|].
  apply (holds_extreme Z.le b); [done|rewrite E; set_solver|]. intros i j Hi Hj -> Hin.
  apply Z.leb_le. rewrite <- itob_leb by done. by eapply keys_head.
Qed.

Lemma LastIndex_extreme db m : log_ready db m -> exists i, LastIndex db = Ok i /\ extreme Z.ge m i.
Proof.
  intros (Hbeg & b & Eb & Hb). unfold LastIndex, db_View. rewrite Hbeg, Eb.
  destruct (last (bk_Keys b)) as [k|] eqn:E.
  - destruct (sorted_last _ _ (keys_sorted b) E) as [Hk Hle].
    apply (holds_extreme Z.ge b); [done..|]. intros i j Hi Hj -> Hin.
    apply Z.le_ge, Z.leb_le. rewrite <- itob_leb by done. by apply Hle.
  - apply last_None in E. exists 0. split; [done|]. left. by rewrite (holds_empty b m).
Qed.

Lemma GetLog_lookup db m i : log_ready db m -> is_u64 i ->
  GetLog db i = match m !! i with Some v => Ok v | None => Err ErrLogNotFound end.
Proof.
  intros (Hbeg & b & Eb & Hb) Hi. unfold GetLog, db_View. rewrite Hbeg, Eb, (proj1 Hb) by done. done.
Qed.

(** ** Histories *)

Definition op_span (op : log_op) : Z :=
  match op with OStore _ => 0 | ODelete low high => Z.max 0 (high - low + 1) end.

(** One operation: it ends; when it succeeds the log moves as the map does, when
    it fails the file is as it was; no other bucket is touched. *)
Definition op_ends (op : log_op) (db : DB) (m : gmap Z json) (db' : DB) (r : res unit) : Prop :=
  match r with
  | Ok _ => log_ready db' (alog_step op m) /\ forall n, n <> logsBucketName -> tx_Bucket db' n = tx_Bucket db n
  | Err _ => db' = db
  end.

Lemma update_ends op db m fn :
  log_ready db m ->
  (forall b, tx_Bucket db logsBucketName = Some b -> holds b m ->
     match fn (Some b) with
     | Ok (Some b') => holds b' (alog_step op m) | Ok None => False | Err _ => True end) ->
  exists db' r, db_Update db logsBucketName fn = (db', r) /\ op_ends op db m db' r.
Proof.
  intros (Hbeg & b & Eb & Hb) Hfn. destruct (db_Update db logsBucketName fn) as [db' r] eqn:Eu.
  exists db', r. split; [done|]. destruct r as [[]|e]; [|by eapply db_Update_err].
  specialize (Hfn b Eb Hb). apply db_Update_ok in Eu as [[En _]|(b' & En & Eb' & Hbeg' & Ho)];
    rewrite Eb in En; rewrite En in Hfn; [done|].
  split; [|done]. split; [congruence|]. by exists b'.
Qed.

Lemma run_op_ends fuel op db m :
  log_ready db m -> op_ok op -> op_span op < Z.of_nat fuel ->
  exists db' r, run_op fuel op db = Some (db', r) /\ op_ends op db m db' r.
Proof.
  intros Hr Hop Hf. destruct op as [logs|low high]; cbn [run_op op_ok op_span] in *.
  - destruct (update_ends (OStore logs) db m
      (fun b => match b with None => Err (errorf "logs bucket not found")
                | Some b => res_bind (store_logs logs b) (fun b' => Ok (Some b')) end) Hr) as (db' & r & E & H).
    { intros b _ Hb. destruct (store_logs logs b) as [b'|] eqn:Es; simpl; [|done]. by eapply holds_store. }
    exists db', r. split; [|done]. unfold StoreLogs. by rewrite E.
  - destruct Hr as (Hbeg & b & Eb & Hb). unfold DeleteRange. rewrite Hbeg, Eb.
    destruct Hop as (Hl & Hh & Hmax).
    destruct (delete_range_run fuel b m low high Hb Hl Hh Hmax Hf) as (r & Er & Hp). rewrite Er. simpl.
    destruct (update_ends (ODelete low high) db m (fun _ => res_bind r (fun b' => Ok (Some b')))) as (db' & r' & E & H).
    { split; [done|]. by exists b. }
    { intros b0 _ _. by destruct r. }
    exists db', r'. by rewrite E.
Qed.

(** raft's calls in order; [None] when one of them does not end. *)
Fixpoint run_ops (fuel : nat) (ops : list log_op) (db : DB) : option (DB * list (res unit)) :=
  match ops with
  | [] => Some (db, [])
  | op :: ops' =>
      '(db1, r) ← run_op fuel op db;
      '(db2, rs) ← run_ops fuel ops' db1;
      Some (db2, r :: rs)
  end.

(** The operations that succeeded. *)
Definition accepted (ops : list log_op) (rs : list (res unit)) : list log_op :=
  omap (fun '(op, r) => match r with Ok _ => Some op | Err _ => None end) (zip ops rs).

Definition alog_run (ops : list log_op) (m : gmap Z json) : gmap Z json := foldl (fun m op => alog_step op m) m ops.

Lemma run_ops_ends fuel ops db m :
  log_ready db m -> Forall (fun op => op_ok op /\ op_span op < Z.of_nat fuel) ops ->
  exists db' rs, run_ops fuel ops db = Some (db', rs) /\ length rs = length ops /\
    log_ready db' (alog_run (accepted ops rs) m) /\
    forall n, n <> logsBucketName -> tx_Bucket db' n = tx_Bucket db n.
Proof.
  intros Hr Hall. revert db m Hr. induction Hall as [|op ops [Hop Hf] _ IH]; intros db m Hr; [by exists db, []|].
  destruct (run_op_ends fuel op db m Hr Hop Hf) as (db1 & r & E1 & H1).
  set (m1 := match r with Ok _ => alog_step op m | Err _ => m end).
  destruct (IH db1 m1) as (db' & rs & E & Hlen & Hready & Hframe).
  { subst m1. destruct r as [[]|]; [apply H1|]. by rewrite H1. }
  exists db', (r :: rs). cbn [run_ops]. rewrite E1. simpl. rewrite E. simpl. split_and!; [done|by rewrite Hlen| |].
  - subst m1. unfold accepted in *. simpl. destruct r as [[]|]; exact Hready.
  - intros n Hn. rewrite Hframe by done. subst m1. destruct r as [[]|]; [by apply H1|]. by rewrite H1.
Qed.
End log_store.

(** ** Theorems *)

Section theorems.
Context {DB B : Type} `{!Bolt DB B} `{!BoltLaws DB B}.


(** Deleting up to the largest uint64 never ends while deletions succeed: the
    index wraps to 0 and the guard [i <= high] cannot fail. *)
Lemma delete_range_max fuel b i :
  (forall b i, exists b', bk_Delete (itob i) b = Ok b') -> 0 <= i < two64 ->
  delete_range fuel i (two64 - 1) b = None.
Proof.
  intros Hdel. revert b i. induction fuel as [|fuel IH]; intros b i Hi; [done|]. cbn [delete_range].
  rewrite bool_decide_true by lia. destruct (Hdel b i) as [b' ->]. apply IH.
  unfold wrapu64. by apply Z.mod_pos_bound.
Qed.

(** DeleteRange ends exactly when the range does not reach the largest uint64:
    then the interval's length bounds its iterations, and otherwise no number of
    iterations is enough. *)
Theorem DeleteRange_ends_iff (db : DB) (m : gmap Z json) (low high : Z)
  (Hready : log_ready db m) (Hlow : is_u64 low) (Hhigh : is_u64 high)
  (Hdel : forall (b : B) i, exists b', bk_Delete (itob i) b = Ok b') :
  (exists fuel, is_Some (DeleteRange fuel db low high)) <-> high < two64 - 1.
Proof.
  split.
  - intros [fuel Hs]. unfold is_u64 in *. destruct (Z.lt_ge_cases high (two64 - 1)) as [|Hge]; [done|].
    assert (high = two64 - 1) as -> by lia. destruct Hready as (Hbeg & b & Eb & _).
    unfold DeleteRange in Hs. rewrite Hbeg, Eb, delete_range_max in Hs by done. by destruct Hs.
  - intros Hmax. exists (Z.to_nat (op_span (ODelete low high) + 1)).
    destruct (run_op_ends (Z.to_nat (op_span (ODelete low high) + 1)) (ODelete low high) db m)
      as (db' & r & E & _); [done|done|rewrite Z2Nat.id; cbn [op_span]; lia|].
    rewrite <- (eq_refl : run_op _ (ODelete low high) db = DeleteRange _ db low high). by rewrite E.
Qed.

(** raft's vote and term survive: the stable store returns the last value set for
    a key, and setting another key, or touching the log, does not disturb it. *)
Theorem stable_roundtrip (db db' db'' : DB) (key : string) (v : Z) (other : string) (w : json) (logs : list (Z * json))
  (Hv : is_u64 v) (Hset : SetUint64 db key v = (db', Ok tt))
  (Hthen : stable_Set db' other w = (db'', Ok tt) /\ other <> key \/ StoreLogs db' logs = (db'', Ok tt)) :
  GetUint64 db' key = Ok v /\ GetUint64 db'' key = Ok v.
Proof.
  assert (forall d : DB, db_begin d = None -> (exists b, tx_Bucket d stableBucketName = Some b /\
    bk_Get b key = Some (JStr (itob v))) -> GetUint64 d key = Ok v) as Hread.
  { intros d Hbeg (b & Eb & Eg). unfold GetUint64, stable_Get, db_View. rewrite Hbeg, Eb. simpl. rewrite Eg. simpl.
    unfold btoi_res. by rewrite btoi_itob. }
  assert (db_begin db = None) as Hbeg.
  { destruct (db_begin db) eqn:E; [|done]. unfold SetUint64, stable_Set, db_Update in Hset. by rewrite E in Hset. }
  apply db_Update_ok in Hset as [[En _]|(b' & En & Eb' & Hbeg' & _)]; destruct (tx_Bucket db _) as [b|]; try done;
    apply res_bind_Ok in En as (b1 & Hp & [=]); subst b1.
  assert (bk_Get b' key = Some (JStr (itob v))) as Eg by (rewrite (put_get _ _ _ _ _ Hp); by rewrite decide_True).
  split; [apply Hread; [congruence|by exists b']|].
  destruct Hthen as [[Hs Hne]|Hs]; apply db_Update_ok in Hs as [[En _]|(b2 & En & Eb2 & Hbeg2 & Hof)].
  - destruct (tx_Bucket db' _); [|done]. by apply res_bind_Ok in En as (? & _ & [=]).
  - rewrite Eb' in En. apply res_bind_Ok in En as (b3 & Hp2 & [=]); subst b3. apply Hread; [congruence|].
    exists b2. split; [done|]. rewrite (put_get _ _ _ _ _ Hp2), decide_False by done. done.
  - destruct (tx_Bucket db' logsBucketName); [|done]. by apply res_bind_Ok in En as (? & _ & [=]).
  - apply Hread; [congruence|]. exists b'. by rewrite Hof.
Qed.
End theorems.

(** ** Witnesses *)

Lemma fresh_log m : log_ready (db_of m) ∅.
Proof.
  split; [done|]. exists ∅. split; [done|]. split_and!.
  - intros i _. done.
  - intros k Hk. apply (keys_get (DB := mapdb)) in Hk as [? Hk]. cbn in Hk. by rewrite lookup_empty in Hk.
  - intros i [? Hi]. by rewrite lookup_empty in Hi.
Qed.


Lemma DeleteRange_ends_iff_witness :
  (exists fuel, is_Some (DeleteRange fuel (db_of ∅) 3 9)) /\
  ~ (exists fuel, is_Some (DeleteRange fuel (db_of ∅) 3 (two64 - 1))).
Proof.
  assert (forall (b : gmap string json) i, exists b', bk_Delete (itob i) b = Ok b') as Hdel.
  { intros b i. by eexists. }
  split.
  - apply (DeleteRange_ends_iff (db_of ∅) ∅ 3 9 (fresh_log ∅)); [split; reflexivity || discriminate..|exact Hdel|reflexivity].
  - intros Hends. apply (DeleteRange_ends_iff (db_of ∅) ∅ 3 (two64 - 1) (fresh_log ∅)) in Hends; [discriminate| | |exact Hdel];
      split; reflexivity || discriminate.
Defined.

Lemma stable_roundtrip_witness : exists db' db'' : mapdb,
  SetUint64 (db_of ∅) "CurrentTerm" 7 = (db', Ok tt) /\ stable_Set db' "LastVoteCand" (JStr "n1") = (db'', Ok tt) /\
  GetUint64 db' "CurrentTerm" = Ok 7 /\ GetUint64 db'' "CurrentTerm" = Ok 7.
Proof.
  do 2 eexists. split; [reflexivity|]. split; [reflexivity|].
  apply (stable_roundtrip (db_of ∅) _ _ "CurrentTerm" 7 "LastVoteCand" (JStr "n1") []);
    [split; reflexivity || discriminate|reflexivity|left; split; [reflexivity|discriminate]].
Defined.
