(* ===== verification/Client.v ===== *)
(** * Client: internal/client/client.go

    The relay client: it subscribes to a channel's event stream, rebuilds each
    webhook from its envelope, and saves it, forwards it to the local target or
    hands it to a command.  The machine it runs on (files, environment, network,
    child processes) is the record [Host]; the answers of the network and of
    fallible system calls are oracles of it.  golang.org/x/text's title case is the
    class [Titler], mapstructure's decoding of a parsed document [MapDecode], the
    iteration order of Go maps [MapOrder].  Log lines are left out. *)

From S2P Require Import Prelude Json Domain Bolt Crypto Store Repo Authorization RateLimit Http Service Cluster Encryption Events.

#[local] Arguments jenc : simpl never.
#[local] Arguments jdec : simpl never.

(** ** Third-party code *)

(** cases.Title(language.Und, cases.NoLower): it raises letters, nothing else. *)
Class Titler := { title : string -> string }.
Class TitlerLaws `{Titler} := { title_fold : forall s, ToLower (title s) = ToLower s }.

(** mapstructure.Decode into a map[string]any of what json.Unmarshal left in an
    [any]; [None] is the nil of a text that does not parse. *)
Class MapDecode := { ms_Decode : option json -> res (list (string * json)) }.
Class MapDecodeLaws `{MapDecode} := {
  ms_object : forall kvs, ms_Decode (Some (JObj kvs)) = Ok kvs;
  ms_nil : ms_Decode None = Ok []
}.

(** The order a [range] over a map visits its entries. *)
Class MapOrder := { map_range : forall {A}, gmap string A -> list (string * A) }.
Class MapOrderLaws `{MapOrder} := { map_range_perm : forall {A} (m : gmap string A), map_range m ≡ₚ map_to_list m }.

(** The source text json.RawMessage keeps of a document's member [body]. *)
Class RawText := { raw_body : string -> string }.

(** ** strings and regexp *)

Fixpoint ReplaceAll (s : string) (c : ascii) (by_ : string) : string :=
  match s with
  | EmptyString => EmptyString
  | String d s' => (if bool_decide (d = c) then by_ else String d EmptyString) +:+ ReplaceAll s' c by_
  end.

(** strings.NewReplacer of one-byte strings for one-byte strings. *)
Fixpoint Replace (table : list (ascii * ascii)) (s : string) : string :=
  match s with
  | EmptyString => EmptyString
  | String c s' => String (match list_find (fun p => p.1 = c) table with Some (_, p) => p.2 | None => c end) (Replace table s')
  end.

Definition eventReplacer : list (ascii * ascii) := [(":", "-"); (" ", "_"); ("/", "_")]%char.

Definition is_word (c : ascii) : bool := is_alnum c || bool_decide (c = "_"%char).

Fixpoint word_run (s : string) : string :=
  match s with
  | String c s' => if is_word c then String c (word_run s') else EmptyString
  | EmptyString => EmptyString
  end.

(** FindString of pmEventRe, [(\w+|\d+|_|-|:)]: the first byte that can start a
    match, and the longest run of word characters from there. *)
Fixpoint pmEventRe_FindString (s : string) : string :=
  match s with
  | EmptyString => EmptyString
  | String c s' =>
      if is_word c then word_run s
      else if bool_decide (c = "-"%char) || bool_decide (c = ":"%char) then String c EmptyString
      else pmEventRe_FindString s'
  end.

Definition event_type (header : string) : string := pmEventRe_FindString (Replace eventReplacer (ToLower header)).

(** ** time.Format *)

(** The proleptic Gregorian date of a day counted from 1 January of year 1. *)
Definition civil (day : Z) : Z * Z * Z :=
  let z := (day + 306)%Z in
  let era := (z / 146097)%Z in
  let doe := (z mod 146097)%Z in
  let yoe := ((doe - doe / 1460 + doe / 36524 - doe / 146096) / 365)%Z in
  let doy := (doe - (365 * yoe + yoe / 4 - yoe / 100))%Z in
  let mp := ((5 * doy + 2) / 153)%Z in
  let d := (doy - (153 * mp + 2) / 5 + 1)%Z in
  let m := if (mp <? 10)%Z then (mp + 3)%Z else (mp - 9)%Z in
  ((yoe + era * 400 + (if (m <=? 2)%Z then 1 else 0))%Z, m, d).

Fixpoint zeros (n : nat) : string := match n with O => EmptyString | S n' => String "0" (zeros n') end.

(** appendInt(z, width) *)
Definition pad_int (width : nat) (z : Z) : string :=
  let t := Itoa (Z.abs z) in
  (if (z <? 0)%Z then "-" else "") +:+ zeros (width - String.length t) +:+ t.

(** Format(tsFormat): the layout "2006-01-02T15.04.01.000" holds the month twice
    ("01") and no seconds ("05"). *)
Definition Format_ts (t : Z) : string :=
  let mins := (t / minute)%Z in
  let '(y, m, d) := civil (mins / 1440) in
  pad_int 4 y +:+ "-" +:+ pad_int 2 m +:+ "-" +:+ pad_int 2 d +:+ "T" +:+ pad_int 2 ((mins / 60) mod 24) +:+ "." +:+
  pad_int 2 (mins mod 60) +:+ "." +:+ pad_int 2 m +:+ "." +:+ pad_int 3 ((t / 1000000) mod 1000).

(** ** Messages and options *)

Record payloadMsg := mkMsg {
  pm_headers : gmap string string; pm_body : string; pm_timestamp : string; pm_contentType : string;
  pm_eventType : string; pm_eventID : string }.
#[export] Instance eta_msg : Eta payloadMsg := fun x =>
  mkMsg (pm_headers x) (pm_body x) (pm_timestamp x) (pm_contentType x) (pm_eventType x) (pm_eventID x).

Record messageBody := mkMessageBody { mb_Body : RawMessage; mb_BodyB : string }.
#[export] Instance eta_message_body : Eta messageBody := fun x => mkMessageBody (mb_Body x) (mb_BodyB x).
Definition message_body_fields : list (field messageBody) := [
  fld "body" mb_Body (set_fld mb_Body); fld "bodyB" mb_BodyB (set_fld mb_BodyB) ].
#[export] Instance codec_message_body : JsonCodec messageBody := struct_codec (mkMessageBody (Raw None) "") message_body_fields.

(** The options the handler of an event reads; [rd_execTimeout] is a Duration. *)
Record replayDataOpts := mkOpts {
  rd_noReplay : bool; rd_saveDir : string; rd_targetURL : string; rd_localDebugURL : string; rd_ignoreEvents : list string;
  rd_useHttpie : bool; rd_execCommand : string; rd_execOnEvents : list string; rd_execEnvVars : list string;
  rd_execTimeout : Z; rd_encryptionKey : string }.
#[export] Instance eta_opts : Eta replayDataOpts := fun x =>
  mkOpts (rd_noReplay x) (rd_saveDir x) (rd_targetURL x) (rd_localDebugURL x) (rd_ignoreEvents x) (rd_useHttpie x)
    (rd_execCommand x) (rd_execOnEvents x) (rd_execEnvVars x) (rd_execTimeout x) (rd_encryptionKey x).

Definition forwardableHeaderAllowlist : list string := [
  "content-type"; "user-agent"; "x-event-type"; "x-github-event"; "x-github-delivery"; "x-github-hook-id";
  "x-gitlab-event"; "x-gitlab-event-uuid"; "x-gitea-event"; "x-gitea-delivery"; "x-gitea-signature"; "x-event-key";
  "x-bitbucket-event"; "x-bitbucket-delivery"; "x-hub-signature"; "x-hub-signature-256" ].
Definition forwardableHeader (name : string) : bool := contains_str forwardableHeaderAllowlist (ToLower name).

(** ** parse *)

Section parse.
Context `{!JsonText} `{!Titler} `{!MapDecode} `{!MapOrder} `{!RawText}.

(** [payloadValue.(string)]: a document decoded into [any] has text, not the
    instants and byte strings typed decoding reads out of text. *)
Definition as_string (j : json) : option string := match j with JStr s => Some s | _ => None end.

Definition with_header (k v : string) (pm : payloadMsg) : payloadMsg := pm <| pm_headers := <[k := v]> (pm_headers pm) |>.

(** One turn of the loop over the payload: the message so far and its instant. *)
Definition parse_entry (data : string) (entry : string * json) (x : payloadMsg * Z) : res (payloadMsg * Z) :=
  let '(pm, dt) := x in
  let '(k, j) := entry in
  if contains_str ["x-github-event"; "x-gitlab-event"; "x-event-key"] k then
    Ok (match as_string j with
        | Some pv => (with_header (title k) pv pm <| pm_eventType := event_type pv |>, dt)
        | None => (pm, dt)
        end)
  else if bool_decide (k = "x-github-delivery") then
    Ok (match as_string j with
        | Some pv => (with_header (title k) pv pm <| pm_eventID := pv |>, dt)
        | None => (pm, dt)
        end)
  else if bool_decide (k = "bodyB") then
    match unmarshal_text (A := messageBody) data with
    | None => Err (errorf "json: cannot unmarshal")
    | Some mb =>
        match DecodeString false (mb_BodyB mb) with
        | None => Err (errorf "illegal base64 data")
        | Some decoded => Ok (pm <| pm_body := decoded |>, dt)
        end
    end
  else if bool_decide (k = "body") then
    match unmarshal_text (A := messageBody) data with
    | None => Err (errorf "json: cannot unmarshal")
    | Some _ => Ok (pm <| pm_body := raw_body data |>, dt)
    end
  else if bool_decide (k = "content-type") then
    Ok (match as_string j with
        | Some pv =>
            let pm := pm <| pm_contentType := pv |> in
            (if bool_decide (is_Some (pm_headers pm !! "Content-Type")) then pm else with_header "Content-Type" pv pm, dt)
        | None => (pm, dt)
        end)
  else if bool_decide (k = "timestamp") then
    Ok (match as_string j with
        | Some pv => match Atoi pv with Some ms => (pm, UnixMilli ms) | None => (pm, dt) end
        | None => (pm, dt)
        end)
  else
    Ok (if forwardableHeader k then
          match as_string j with Some pv => (with_header (title k) pv pm, dt) | None => (pm, dt) end
        else (pm, dt)).

Fixpoint parse_entries (data : string) (entries : list (string * json)) (x : payloadMsg * Z) : res (payloadMsg * Z) :=
  match entries with
  | [] => Ok x
  | entry :: entries' => res_bind (parse_entry data entry x) (parse_entries data entries')
  end.

Definition msg_empty : payloadMsg := mkMsg ∅ "" "" "" "" "".

Definition with_default_type (pm : payloadMsg) : payloadMsg :=
  if bool_decide (pm_headers pm = ∅) && negb (bool_decide (pm_contentType pm = ""))
  then with_header "Content-Type" (pm_contentType pm) pm else pm.

(** hookBridge.parse; an ignored event is returned like any other. *)
Definition parse (opts : replayDataOpts) (now : Z) (data : string) : res payloadMsg :=
  res_bind (ms_Decode (js_parse data)) (fun kvs =>
  res_bind (parse_entries data (map_range (list_to_map (reverse kvs) : gmap string json)) (msg_empty, now)) (fun '(pm, dt) =>
    let pm := with_default_type (pm <| pm_timestamp := Format_ts dt |>) in
    if negb (bool_decide (rd_ignoreEvents opts = [])) && negb (bool_decide (pm_eventType pm = "")) &&
       contains_str (rd_ignoreEvents opts) (pm_eventType pm)
    then Ok pm
    else if bool_decide (pm_headers pm = ∅) && bool_decide (pm_body pm = "")
    then Err (errorf "parsed message has no headers")
    else Ok pm)).
End parse.

(** ** The client's machine *)

Record File := mkFile { fl_data : string; fl_mode : Z }.
#[export] Instance file_eq_dec : EqDecision File.
Proof. solve_decision. Defined.

(** A request the client sends and a command it runs. *)
Record Outgoing := mkOutgoing { og_URL : string; og_Header : Header; og_Body : string }.
Record ExecRun := mkRun {
  ex_command : string; ex_env : list string; ex_payload : string; ex_headers : string; ex_timeout : Z }.

(** [ho_fault] is the error of the n-th fallible system call; [ho_answer] what the
    n-th request got back, [ho_exit] what the n-th command wrote and how it ended,
    [ho_tmp] the name os.CreateTemp chose for the n-th temporary file. *)
Record Host := mkHost {
  ho_dirs : gset string; ho_files : gmap string File; ho_env : list string; ho_pos : nat; ho_fault : nat -> option goerr;
  ho_tmp : nat -> string; ho_sent : list Outgoing; ho_answer : nat -> res Z;
  ho_ran : list ExecRun; ho_exit : nat -> list string * list string * option goerr }.
#[export] Instance eta_host : Eta Host := fun x =>
  mkHost (ho_dirs x) (ho_files x) (ho_env x) (ho_pos x) (ho_fault x) (ho_tmp x) (ho_sent x) (ho_answer x) (ho_ran x) (ho_exit x).

Definition io (h : Host) : Host * option goerr := (h <| ho_pos := S (ho_pos h) |>, ho_fault h (ho_pos h)).

(** os.OpenFile with O_CREATE and O_TRUNC: an existing file keeps its mode. *)
Definition truncate (path : string) (mode : Z) (h : Host) : Host :=
  h <| ho_files := <[path := mkFile "" (match ho_files h !! path with Some f => fl_mode f | None => mode end)]> (ho_files h) |>.
Definition fill (path data : string) (h : Host) : Host :=
  h <| ho_files := alter (fun f => mkFile data (fl_mode f)) path (ho_files h) |>.
Definition chmod (path : string) (mode : Z) (h : Host) : Host :=
  h <| ho_files := alter (fun f => mkFile (fl_data f) mode) path (ho_files h) |>.

(** Run the next step unless the call failed. *)
Definition and_then (x : Host * option goerr) (k : Host -> Host * res unit) : Host * res unit :=
  let '(h, e) := x in match e with Some e => (h, Err e) | None => k h end.

(** ** Headers and quoting *)

(** A strings.Builder written piece by piece. *)
Definition concat_str (l : list string) : string := foldr String.append "" l.

Definition shellQuote (s : string) : string :=
  "'" +:+ ReplaceAll s "'" "'\''" +:+ "'".

Section headers.
Context `{!MapOrder}.

Definition buildHeaders (headers : gmap string string) : string :=
  concat_str ((fun '(k, v) => k +:+ "=" +:+ v +:+ " ") <$> map_range headers).
Definition buildCurlHeaders (headers : gmap string string) : string :=
  concat_str ((fun '(k, v) => "-H " +:+ shellQuote (k +:+ ": " +:+ v) +:+ " ") <$> map_range headers).
Definition buildHttpieHeaders (headers : gmap string string) : string :=
  concat_str ((fun '(k, v) => shellQuote (k +:+ ":" +:+ v) +:+ " ") <$> map_range headers).

(** ** saveData *)

(** A script template: text and the fields of the data it is executed on. *)
Inductive piece := Text (s : string) | FHeaders | FTargetURL | FContentType | FFileBase | FLocalDebugURL.
(** The two embedded scripts, with and without HTTPie. *)
Class Scripts := { script : bool -> list piece }.

Record tmplData := mkTmpl { td_Headers : string; td_TargetURL : string; td_ContentType : string; td_FileBase : string; td_LocalDebugURL : string }.
Definition expand (d : tmplData) (p : piece) : string :=
  match p with
  | Text s => s | FHeaders => td_Headers d | FTargetURL => td_TargetURL d | FContentType => td_ContentType d
  | FFileBase => td_FileBase d | FLocalDebugURL => td_LocalDebugURL d
  end.
Definition Execute (t : list piece) (d : tmplData) : string := concat_str (expand d <$> t).

Definition file_base (pm : payloadMsg) : string :=
  if bool_decide (pm_eventType pm = "") then pm_timestamp pm else pm_eventType pm +:+ "-" +:+ pm_timestamp pm.

Definition template_data (rd : replayDataOpts) (pm : payloadMsg) : tmplData :=
  mkTmpl (if rd_useHttpie rd then buildHttpieHeaders (pm_headers pm) else buildCurlHeaders (pm_headers pm))
    (shellQuote (rd_targetURL rd)) (shellQuote (pm_contentType pm)) (file_base pm) (shellQuote (rd_localDebugURL rd)).

Definition saveData `{!Scripts} (rd : replayDataOpts) (pm : payloadMsg) (h : Host) : Host * res unit :=
  let jsonfile := rd_saveDir rd +:+ "/" +:+ file_base pm +:+ ".json" in
  let shscript := rd_saveDir rd +:+ "/" +:+ file_base pm +:+ ".sh" in
  let write (h : Host) :=
    and_then (io h) (fun h => let h := truncate jsonfile 384 h in
    and_then (io h) (fun h => let h := fill jsonfile (pm_body pm) h in
    and_then (io h) (fun h => let h := truncate shscript 448 h in
    and_then (io h) (fun h => let h := fill shscript (Execute (script (rd_useHttpie rd)) (template_data rd pm)) h in
    and_then (io h) (fun h => (chmod shscript 448 h, Ok tt)))))) in
  if bool_decide (rd_saveDir rd ∈ ho_dirs h) then write h
  else and_then (io h) (fun h => write (h <| ho_dirs := {[ rd_saveDir rd ]} ∪ ho_dirs h |>)).

(** ** replayData *)

(** textproto.CanonicalMIMEHeaderKey *)
Definition token_byte (c : ascii) : bool :=
  is_alnum c || elem_str c "!#$%&'*+-.^_`|~".
Definition upper_ascii (c : ascii) : ascii :=
  let n := Ascii.nat_of_ascii c in if (97 <=? n)%nat && (n <=? 122)%nat then Ascii.ascii_of_nat (n - 32) else c.
Fixpoint canonical (up : bool) (s : string) : string :=
  match s with
  | EmptyString => EmptyString
  | String c s' => String (if up then upper_ascii c else lower_ascii c) (canonical (bool_decide (c = "-"%char)) s')
  end.
Definition CanonicalHeaderKey (s : string) : string := if all_str token_byte s then canonical true s else s.

Definition hdr_Add (k v : string) (h : Header) : Header :=
  let k := CanonicalHeaderKey k in <[k := default [] (h !! k) ++ [v]]> h.

Definition request_headers (pm : payloadMsg) : Header :=
  let hs := foldl (fun acc '(k, v) => hdr_Add k v acc) ∅ (map_range (pm_headers pm)) in
  if bool_decide (is_Some (pm_headers pm !! "Content-Type")) then hs else hdr_Add "Content-Type" (pm_contentType pm) hs.

(** A target URL that does not parse, and a transport error, fail the call; any
    status is only logged. *)
Definition replayData (rd : replayDataOpts) (pm : payloadMsg) (h : Host) : Host * res unit :=
  and_then (io h) (fun h =>
    let q := mkOutgoing (rd_targetURL rd) (request_headers pm) (pm_body pm) in
    let answer := ho_answer h (length (ho_sent h)) in
    (h <| ho_sent := ho_sent h ++ [q] |>, match answer with Ok _ => Ok tt | Err e => Err e end)).
End headers.

(** ** runExecCommand *)

Definition execOutputLimit : nat := 2 ^ 20.

Record limitedBuffer := mkLimited { lb_buf : string; lb_limit : nat; lb_truncated : bool }.

(** Write always reports the whole of [p] as written. *)
Definition lb_Write (p : string) (l : limitedBuffer) : limitedBuffer * nat :=
  if (lb_limit l <=? String.length (lb_buf l))%nat then (mkLimited (lb_buf l) (lb_limit l) true, String.length p)
  else
    let remaining := (lb_limit l - String.length (lb_buf l))%nat in
    if (remaining <? String.length p)%nat
    then (mkLimited (lb_buf l +:+ take_str remaining p) (lb_limit l) true, String.length p)
    else (mkLimited (lb_buf l +:+ p) (lb_limit l) (lb_truncated l), String.length p).

Definition exec_allowlist : list string := [
  "PATH"; "HOME"; "TMPDIR"; "TEMP"; "TMP"; "USER"; "USERNAME"; "LOGNAME"; "SHELL"; "LANG"; "LC_ALL"; "LC_CTYPE"; "TZ" ].

(** os.LookupEnv *)
Fixpoint LookupEnv (env : list string) (name : string) : option string :=
  match env with
  | [] => None
  | e :: env' =>
      match Cut e "=" with
      | Some (k, v) => if bool_decide (k = name) then Some v else LookupEnv env' name
      | None => LookupEnv env' name
      end
  end.

(** addEnvVar on the list built so far and the names already in it. *)
Definition addEnvVar (env : list string) (x : list string * list string) (name : string) : list string * list string :=
  let '(execEnv, seen) := x in
  if bool_decide (name = "") then x
  else if contains_str seen name then x
  else match LookupEnv env name with
       | None => x
       | Some value => (execEnv ++ [name +:+ "=" +:+ value], name :: seen)
       end.

Definition locale_names (env : list string) : list string :=
  omap (fun e => match Cut e "=" with Some (n, _) => if HasPrefix n "LC_" then Some n else None | None => None end) env.

Definition buildExecEnv (env extraVarNames : list string) : list string :=
  (foldl (addEnvVar env) ([], []) (exec_allowlist ++ locale_names env ++ extraVarNames)).1.

(** Nothing runs when the filter names other events. *)
Definition exec_selected (rd : replayDataOpts) (pm : payloadMsg) : bool :=
  bool_decide (rd_execOnEvents rd = []) ||
  negb (bool_decide (pm_eventType pm = "")) && contains_str (rd_execOnEvents rd) (pm_eventType pm).

Definition exec_env (rd : replayDataOpts) (pm : payloadMsg) (env : list string) (payloadFile headersFile : string) : list string :=
  buildExecEnv env (rd_execEnvVars rd) ++
  [ "GOHOOKBRIDGE_EVENT_TYPE=" +:+ pm_eventType pm; "GOHOOKBRIDGE_EVENT_ID=" +:+ pm_eventID pm;
    "GOHOOKBRIDGE_CONTENT_TYPE=" +:+ pm_contentType pm; "GOHOOKBRIDGE_TIMESTAMP=" +:+ pm_timestamp pm;
    "GOHOOKBRIDGE_PAYLOAD_FILE=" +:+ payloadFile; "GOHOOKBRIDGE_HEADERS_FILE=" +:+ headersFile ].

Definition remove (path : string) (h : Host) : Host := h <| ho_files := delete path (ho_files h) |>.

(** os.CreateTemp, the write and the close; the file stays until [remove]. *)
Definition temp_file (data msg : string) (h : Host) (k : string -> Host -> Host * res unit) : Host * res unit :=
  let name := ho_tmp h (ho_pos h) in
  let '(h, e) := io h in
  match e with
  | Some e => (h, Err (errorf ("failed to create " +:+ msg +:+ " temp file: " +:+ err_msg e)))
  | None =>
      let h := truncate name 384 h in
      let '(h, e) := io h in
      let '(h, r) := match e with
                     | Some e => (h, Err (errorf ("failed to write " +:+ msg +:+ " temp file: " +:+ err_msg e)))
                     | None => k name (fill name data h)
                     end in
      (remove name h, r)
  end.

Definition capture (writes : list string) : limitedBuffer :=
  foldl (fun l p => (lb_Write p l).1) (mkLimited "" execOutputLimit false) writes.

(** The temporary files exist while the command runs; its output is captured up to
    the limit. *)
Definition runExecCommand `{!JsonText} (rd : replayDataOpts) (pm : payloadMsg) (h : Host) : Host * res unit :=
  let timeout := if (rd_execTimeout rd <=? 0)%Z then (30 * second)%Z else rd_execTimeout rd in
  if negb (exec_selected rd pm) then (h, Ok tt)
  else
    temp_file (pm_body pm) "payload" h (fun payloadFile h =>
    let headersJSON := js_text (JObj (map_to_list (JStr <$> pm_headers pm))) in
    temp_file headersJSON "headers" h (fun headersFile h =>
      let run := mkRun (rd_execCommand rd) (exec_env rd pm (ho_env h) payloadFile headersFile)
                   (pm_body pm) headersJSON timeout in
      let '(_, _, e) := ho_exit h (length (ho_ran h)) in
      (h <| ho_ran := ho_ran h ++ [run] |>,
       match e with Some e => Err (errorf ("exec command failed: " +:+ err_msg e)) | None => Ok tt end))).

(** ** The handler of an event *)

(** One message of the stream: sse.Event's two fields the client reads. *)
Record sse_Event := mkEvent { sv_Event : string; sv_Data : string }.

(** Where the handler returned. *)
Inductive Verdict :=
  | VReady | VPing | VEmpty | VConnection | VDecrypt (e : goerr) | VParse (e : goerr) | VDecryptBody (e : goerr)
  | VReadyBody | VNoHeaders | VSave (e : goerr) | VForward (e : goerr) | VExec (e : goerr) | VDone.

Section handler.
Context `{!JsonText} `{!Crypto} `{!Box} `{!Titler} `{!MapDecode} `{!MapOrder} `{!RawText} `{!Scripts}.

(** [strings.Contains(lower, "ready") || Contains(lower, "\"message\"") && ...] *)
Definition connection_message (data : string) : bool :=
  let low := ToLower data in
  Contains low "ready" ||
  Contains low (dquote +:+ "message" +:+ dquote) && Contains low (dquote +:+ "connected" +:+ dquote).

(** The document of the event: an AES payload is opened with the channel key. *)
Definition open_payload (rd : replayDataOpts) (channel data : string) : res string :=
  if negb (bool_decide (rd_encryptionKey rd = "")) && IsAESEncrypted data
  then AESDecryptWithContext data (rd_encryptionKey rd) (ChannelContext channel)
  else Ok data.

(** The body of the message: an end-to-end envelope is opened with the private
    key, an AES payload with the channel key, anything else is the body. *)
Definition open_body (rd : replayDataOpts) (channel : string) (privateKey : option string) (body : string) : res string :=
  match privateKey with
  | Some key =>
      if IsEncrypted body then DecryptWithContext body key (ChannelContext channel)
      else open_payload rd channel body
  | None => open_payload rd channel body
  end.

(** Save, forward, run: each one ends the handling when it fails. *)
Definition act (rd : replayDataOpts) (pm : payloadMsg) (h : Host) : Host * Verdict :=
  let '(h, r) := if bool_decide (rd_saveDir rd = "") then (h, Ok tt) else saveData rd pm h in
  match r with
  | Err e => (h, VSave e)
  | Ok _ =>
      let '(h, r) := if rd_noReplay rd then (h, Ok tt) else replayData rd pm h in
      match r with
      | Err e => (h, VForward e)
      | Ok _ =>
          if bool_decide (rd_execCommand rd = "") then (h, VDone)
          else let '(h, r) := runExecCommand rd pm h in
               (h, match r with Err e => VExec e | Ok _ => VDone end)
      end
  end.

(** An empty body with a header [Message: connected] of any case. *)
Definition connected_message (pm : payloadMsg) : bool :=
  bool_decide (pm_body pm = "") &&
  existsb (fun '(k, v) => bool_decide (ToLower k = "message") && bool_decide (ToLower v = "connected"))
    (map_to_list (pm_headers pm)).

(** The callback clientSetup gives to Subscribe. *)
Definition on_event (rd : replayDataOpts) (channel : string) (privateKey : option string) (now : Z) (msg : sse_Event) (h : Host)
  : Host * Verdict :=
  if bool_decide (sv_Event msg = "ready") || bool_decide (sv_Data msg = "ready") then (h, VReady)
  else if bool_decide (sv_Event msg = "ping") then (h, VPing)
  else if bool_decide (sv_Data msg = "") || bool_decide (sv_Data msg = "{}") then (h, VEmpty)
  else if connection_message (sv_Data msg) then (h, VConnection)
  else
    match open_payload rd channel (sv_Data msg) with
    | Err e => (h, VDecrypt e)
    | Ok payload =>
        match parse rd now payload with
        | Err e => (h, VParse e)
        | Ok pm =>
            match open_body rd channel privateKey (pm_body pm) with
            | Err e => (h, VDecryptBody e)
            | Ok body =>
                let pm := pm <| pm_body := body |> in
                if bool_decide (pm_eventType pm = "ready") || bool_decide (ToLower (pm_body pm) = "ready") then (h, VReadyBody)
                else if connected_message pm then (h, VConnection)
                else if bool_decide (pm_headers pm = ∅) then (h, VNoHeaders)
                else act rd pm h
            end
        end
    end.

(** The stream, message by message. *)
Fixpoint on_events (rd : replayDataOpts) (channel : string) (privateKey : option string)
  (msgs : list (Z * sse_Event)) (h : Host) : Host * list Verdict :=
  match msgs with
  | [] => (h, [])
  | (now, msg) :: msgs' =>
      let '(h, v) := on_event rd channel privateKey now msg h in
      let '(h, vs) := on_events rd channel privateKey msgs' h in (h, v :: vs)
  end.
End handler.

(** ** Versions *)

Fixpoint digits_run (s : string) : string :=
  match s with
  | String c s' => match digit c with Some _ => String c (digits_run s') | None => EmptyString end
  | EmptyString => EmptyString
  end.

Fixpoint pad_zeros (n : nat) (l : list Z) : list Z :=
  match n with O => l | S n' => match l with [] => 0%Z :: pad_zeros n' [] | x :: l' => x :: pad_zeros n' l' end end.

Definition parseVersion (version : string) : list Z :=
  pad_zeros 3 ((fun part => default 0%Z (Atoi (digits_run part))) <$> Split (TrimPrefix version "v") ".").

Fixpoint isOlderVersion (v1 v2 : list Z) : bool :=
  match v1, v2 with
  | [], [] => false
  | [], _ :: _ => true
  | _ :: _, [] => false
  | a :: v1', b :: v2' => if (a <? b)%Z then true else if (b <? a)%Z then false else isOlderVersion v1' v2'
  end.

(** GET <base>/version, as the client library reports it: a transport error, or
    the status, the version header and the decoded body (an error when it is not
    the JSON document expected). *)
Record versionAnswer := mkVersionAnswer { va_Status : Z; va_Header : string; va_Body : res string }.

Definition checkServerVersion (answer : res versionAnswer) (clientVersion : string) : res unit :=
  match answer with
  | Err _ => Ok tt
  | Ok a =>
      if bool_decide (va_Status a = 404%Z) then Err (errorf "The server appears to be too old")
      else if negb (bool_decide (va_Status a = 200%Z)) then Ok tt
      else
        match (if bool_decide (va_Header a = "") then va_Body a else Ok (va_Header a)) with
        | Err _ => Ok tt
        | Ok serverVersion =>
            if bool_decide (serverVersion = "") || bool_decide (serverVersion = clientVersion) then Ok tt
            else if bool_decide (serverVersion = "dev") || bool_decide (clientVersion = "dev") then Ok tt
            else if isOlderVersion (parseVersion clientVersion) (parseVersion serverVersion)
                 then Err (errorf "Client version is too old") else Ok tt
        end
  end.

(** ** prepareSubscription *)

(** url.Parse, then the query with the given parameters set. *)
Class UrlQuery := { url_set : string -> list (string * string) -> res string }.

(** filepath.Base of a slash-separated path. *)
Fixpoint trim_slashes (s : string) : string :=
  match s with
  | EmptyString => EmptyString
  | String c s' =>
      match trim_slashes s' with
      | EmptyString => if bool_decide (c = "/"%char) then EmptyString else String c EmptyString
      | t => String c t
      end
  end.
Definition Base (path : string) : string :=
  if bool_decide (path = "") then "."
  else let p := trim_slashes path in if bool_decide (p = "") then "/" else default p (last (Split p "/")).

Definition smeeChannel : string := "messages".

(** The channel, the stream's URL and the private key.  [clientID] is the flag's
    value or the stored identifier, [keys] the pair read from the key file. *)
Definition prepareSubscription `{!UrlQuery} (smeeURL encryptionKeyFile : string) (resume : bool)
  (clientID stored token : string) (keys : res (string * string)) : res (string * string * option string) :=
  let channel := Base smeeURL in
  let baseURL := TrimSuffix smeeURL ("/" +:+ channel) in
  if HasPrefix smeeURL "https://smee.io" then
    if negb (bool_decide (encryptionKeyFile = ""))
    then Err (errorf "client key files are only supported with gohookbridge server URLs, not https://smee.io")
    else Ok (smeeChannel, smeeURL, None)
  else
    let sseURL := baseURL +:+ "/events/" +:+ channel in
    let params := (if resume then [("client_id", if bool_decide (clientID = "") then stored else clientID)] else []) ++
                  (if bool_decide (token = "") then [] else [("token", token)]) in
    res_bind (if bool_decide (params = []) then Ok sseURL else url_set sseURL params) (fun sseURL =>
    if bool_decide (encryptionKeyFile = "") then Ok (channel, sseURL, None)
    else match keys with
         | Err e => Err (errorf ("load encryption keys: " +:+ err_msg e))
         | Ok (publicKey, privateKey) =>
             res_bind (url_set sseURL [("pubkey", EncodePublicKey publicKey)]) (fun sseURL =>
             Ok (channel, sseURL, Some privateKey))
         end).
