(* ===== verification/ClientTheory.v ===== *)
(** * ClientTheory: what the client makes of the server's events

    The composition of ingestion (Webhook.v), encryption (Encryption.v) and the
    client (Client.v): a webhook accepted by the server reaches the local target
    with its body and its provider headers, and nothing else.  Then the client's
    own promises: scripts that quote, files that stay in their directory, a
    command's environment and output that are bounded. *)

From S2P Require Import Prelude Json Domain Bolt Fsm Crypto Store Repo Authorization StoreTheory RateLimit Http Service ServiceTheory Cluster ClusterTheory Broker Encryption Middleware MiddlewareTheory Webhook WebhookTheory Events Client.

#[local] Arguments jenc : simpl never.
#[local] Arguments jdec : simpl never.

(** ** Case folding and header names *)

(** A fact about single bytes, checked on all of them. *)
Lemma all_bytes (P : ascii -> bool) :
  forallb (fun n => P (Ascii.ascii_of_nat n)) (seq 0 256) = true -> forall c, P c = true.
Proof.
  intros H c. rewrite forallb_forall in H. rewrite <- (Ascii.ascii_nat_embedding c). apply H.
  apply in_seq. pose proof (Ascii.nat_ascii_bounded c). lia.
Qed.

Ltac bytewise c :=
  revert c; refine (fun c => proj1 (bool_decide_eq_true _) (all_bytes (fun c => bool_decide _) _ c));
  vm_compute; reflexivity.

Lemma token_lower c : token_byte (lower_ascii c) = token_byte c.
Proof. bytewise c. Qed.
Lemma upper_lower c : upper_ascii (lower_ascii c) = upper_ascii c.
Proof. bytewise c. Qed.
Lemma lower_lower c : lower_ascii (lower_ascii c) = lower_ascii c.
Proof. bytewise c. Qed.
Lemma lower_upper c : lower_ascii (upper_ascii c) = lower_ascii c.
Proof. bytewise c. Qed.
Lemma lower_dash c : bool_decide (lower_ascii c = "-"%char) = bool_decide (c = "-"%char).
Proof. bytewise c. Qed.

Lemma ToLower_idem s : ToLower (ToLower s) = ToLower s.
Proof. induction s as [|c s IH]; [done|]. simpl. by rewrite lower_lower, IH. Qed.

Lemma token_fold s : all_str token_byte (ToLower s) = all_str token_byte s.
Proof. induction s as [|c s IH]; [done|]. simpl. by rewrite token_lower, IH. Qed.

Lemma canonical_fold up s : canonical up (ToLower s) = canonical up s.
Proof.
  revert up. induction s as [|c s IH]; intros up; [done|]. simpl. rewrite lower_dash, IH. f_equal.
  destruct up; [apply upper_lower|apply lower_lower].
Qed.

Lemma lower_canonical up s : ToLower (canonical up s) = ToLower s.
Proof.
  revert up. induction s as [|c s IH]; intros up; [done|]. simpl. rewrite IH. f_equal.
  destruct up; [apply lower_upper|apply lower_lower].
Qed.

Lemma CanonicalHeaderKey_fold s t : ToLower s = ToLower t -> all_str token_byte t = true ->
  CanonicalHeaderKey s = CanonicalHeaderKey t.
Proof.
  intros E Ht. unfold CanonicalHeaderKey. rewrite <- (token_fold s), E, (token_fold t), Ht.
  by rewrite <- (canonical_fold _ s), E, canonical_fold.
Qed.

Lemma lower_CanonicalHeaderKey s : ToLower (CanonicalHeaderKey s) = ToLower s.
Proof. unfold CanonicalHeaderKey. destruct (all_str token_byte s); [apply lower_canonical|done]. Qed.

(** The client's allowlist is the server's, in lower case and made of tokens. *)
Lemma allowlists_agree : forwardableHeaderAllowlist = forwardedHeaderAllowlist.
Proof. reflexivity. Qed.

Lemma allowed_name k : k ∈ forwardableHeaderAllowlist ->
  ToLower k = k /\ all_str token_byte k = true /\ forwardableHeader k = true /\ k <> "body" /\ k <> "bodyB" /\ k <> "timestamp".
Proof.
  intros Hk. assert (Forall (fun k => bool_decide (ToLower k = k /\ all_str token_byte k = true /\ forwardableHeader k = true /\
    k <> "body" /\ k <> "bodyB" /\ k <> "timestamp") = true) forwardableHeaderAllowlist) as H.
  { apply (bool_decide_unpack _). vm_compute. reflexivity. }
  rewrite Forall_forall in H. by apply (bool_decide_eq_true _), H.
Qed.

(** ** The envelope and its decoding *)

Definition envelope_key (k : string) : Prop := k ∈ forwardableHeaderAllowlist \/ k ∈ ["timestamp"; "bodyB"; "event_id"].

(** The names a header is given: the provider's in title case, one spelt out. *)
Definition hname `{!Titler} (k : string) : string := if decide (k = "content-type") then "Content-Type" else title k.

Definition finds {A} (fs : list (field A)) (k : string) : bool :=
  match find_field fs k with Some _ => true | None => false end.

Lemma envelope_key_ind (P : string -> bool) :
  forallb P (forwardableHeaderAllowlist ++ ["timestamp"; "bodyB"; "event_id"]) = true ->
  forall k, envelope_key k -> P k = true.
Proof.
  intros H k Hk. rewrite forallb_forall in H. apply H, list_elem_of_In, elem_of_app. exact Hk.
Qed.

Lemma aes_marker_blind k : envelope_key k -> finds aes_marker_fields k = false.
Proof. intros Hk. apply negb_true_iff. revert k Hk. apply envelope_key_ind. vm_compute. reflexivity. Qed.

Lemma message_body_blind k : envelope_key k -> k <> "bodyB" -> finds message_body_fields k = false.
Proof.
  intros Hk Hn. assert (negb (finds message_body_fields k) || bool_decide (k = "bodyB") = true) as H.
  { revert k Hk Hn. intros k Hk _. revert k Hk. apply envelope_key_ind. vm_compute. reflexivity. }
  rewrite (bool_decide_false _ Hn), orb_false_r in H. by apply negb_true_iff.
Qed.

Lemma dec_blind {A} (fs : list (field A)) kvs x :
  (forall kv, kv ∈ kvs -> finds fs kv.1 = false) -> dec_fields fs kvs x = Some x.
Proof.
  induction kvs as [|[k j] kvs IH]; intros H; [done|]. simpl.
  pose proof (H (k, j) ltac:(set_solver)) as Hk. unfold finds in Hk. simpl in Hk.
  destruct (find_field fs k); [done|]. apply IH. set_solver.
Qed.

Section document.
Context `{!JsonText} `{!JsonTextLaws} `{!Titler} `{!TitlerLaws} `{!MapDecode} `{!MapDecodeLaws}
  `{!MapOrder} `{!MapOrderLaws} `{!RawText}.

Lemma hname_fold k : k ∈ forwardableHeaderAllowlist -> ToLower (hname k) = k.
Proof.
  intros (Hl & _)%allowed_name. unfold hname. destruct (decide _) as [->|_]; [done|]. by rewrite title_fold.
Qed.

Lemma hname_inj k k' : k ∈ forwardableHeaderAllowlist -> k' ∈ forwardableHeaderAllowlist -> hname k = hname k' -> k = k'.
Proof. intros Hk Hk' E. by rewrite <- (hname_fold k Hk), E, hname_fold. Qed.

(** The envelope of text members [m]. *)
Definition text_doc (m : gmap string string) : json := event_doc (JStr <$> m).

Lemma text_doc_pairs m : text_doc m = JObj (prod_map id JStr <$> map_to_list m).
Proof. unfold text_doc, event_doc. by rewrite map_to_list_fmap. Qed.

Lemma decode_body kvs s x :
  Forall (fun kv => envelope_key kv.1) kvs -> NoDup kvs.*1 -> ("bodyB", JStr s) ∈ kvs ->
  exists mb, dec_fields message_body_fields kvs x = Some mb /\ mb_BodyB mb = s.
Proof.
  intros Hall. revert x. induction Hall as [|[k j] kvs Hk Hall IH]; intros x Hnd Hin; [set_solver|].
  cbn in Hnd. apply NoDup_cons in Hnd as [Hnin Hnd]. destruct (decide (k = "bodyB")) as [->|Hne].
  - assert (j = JStr s) as ->.
    { apply elem_of_cons in Hin as [[=]|Hin]; [done|]. destruct Hnin. apply list_elem_of_fmap. by exists ("bodyB", JStr s). }
    exists (x <| mb_BodyB := s |>). split; [|done]. cbn -[find_field].
    change (find_field message_body_fields "bodyB") with (Some (fld "bodyB" mb_BodyB (set_fld mb_BodyB))). cbn -[dec_fields].
    apply dec_blind. intros [k j] Hkv. rewrite Forall_forall in Hall.
    apply message_body_blind; [exact (Hall _ Hkv)|]. intros E. cbn in E. subst. destruct Hnin. apply list_elem_of_fmap. by exists ("bodyB", j).
  - cbn. pose proof (message_body_blind k Hk Hne) as Hb. unfold finds in Hb. destruct (find_field _ k); [done|].
    apply IH; [done|]. by apply elem_of_cons in Hin as [[= <- <-]|Hin].
Qed.

Context (m : gmap string string).
Hypothesis (Hkeys : forall k, is_Some (m !! k) -> envelope_key k).
Hypothesis (Hascii : js_plain (text_doc m) = true).

Let data : string := js_text (text_doc m).

Lemma text_doc_keys : Forall (fun kv => envelope_key kv.1) (prod_map id JStr <$> map_to_list m).
Proof.
  apply Forall_fmap, Forall_forall. intros [k v] Hin. apply elem_of_map_to_list in Hin. apply Hkeys. by exists v.
Qed.

Lemma text_doc_nodup : NoDup (prod_map id JStr <$> map_to_list m).*1.
Proof. rewrite <- list_fmap_compose. apply NoDup_fst_map_to_list. Qed.

Lemma envelope_not_aes : IsAESEncrypted data = false.
Proof.
  unfold IsAESEncrypted, unmarshal_text, data. rewrite parse_text, text_doc_pairs by done. simpl. unfold Unmarshal.
  cbn [jdec codec_aes_marker struct_codec]. rewrite dec_blind; [done|]. intros kv Hin.
  apply aes_marker_blind. pose proof text_doc_keys as Hks. rewrite Forall_forall in Hks. by apply Hks.
Qed.

Lemma envelope_body s : m !! "bodyB" = Some s ->
  exists mb, unmarshal_text (A := messageBody) data = Some mb /\ mb_BodyB mb = s.
Proof.
  intros Hs. unfold unmarshal_text, data. rewrite parse_text, text_doc_pairs by done. simpl. unfold Unmarshal.
  cbn [jdec codec_message_body struct_codec]. apply decode_body; [apply text_doc_keys|apply text_doc_nodup|].
  apply list_elem_of_fmap. exists ("bodyB", s). split; [done|]. by apply elem_of_map_to_list.
Qed.
End document.

(** ** Parsing an envelope *)

Definition event_headers : list string := ["x-github-event"; "x-gitlab-event"; "x-event-key"].

Section parsing.
Context `{!JsonText} `{!JsonTextLaws} `{!Titler} `{!TitlerLaws} `{!MapDecode} `{!MapDecodeLaws}
  `{!MapOrder} `{!MapOrderLaws} `{!RawText}.

(** The headers rebuilt from a list of members. *)
Definition header_map (l : list (string * string)) : gmap string string :=
  list_to_map (omap (fun kv => if decide (kv.1 ∈ forwardableHeaderAllowlist) then Some (hname kv.1, kv.2) else None) l).

Lemma header_map_lookup l K v : NoDup l.*1 ->
  header_map l !! K = Some v <-> exists k, (k, v) ∈ l /\ k ∈ forwardableHeaderAllowlist /\ K = hname k.
Proof.
  intros Hnd. unfold header_map. rewrite <- elem_of_list_to_map.
  - rewrite list_elem_of_omap. split.
    + intros ([k w] & Hin & Hd). cbn in Hd. destruct (decide _) as [Hk|]; [|done]. injection Hd as <- <-. by exists k.
    + intros (k & Hin & Hk & ->). exists (k, v). split; [done|]. cbn. by rewrite decide_True.
  - induction l as [|[k w] l IH]; [constructor|]. cbn in Hnd. apply NoDup_cons in Hnd as [Hnin Hnd]. cbn.
    destruct (decide _) as [Hk|]; [|by apply IH]. cbn. apply NoDup_cons. split; [|by apply IH].
    intros ([K' w'] & E & Hin)%list_elem_of_fmap. cbn in E. subst K'.
    apply list_elem_of_omap in Hin as ([k' w2] & Hin & Hd). cbn in Hd. destruct (decide _) as [Hk'|]; [|done].
    injection Hd as E <-. apply hname_inj in E as ->; [|done..]. apply Hnin, list_elem_of_fmap. by exists (k, w2).
Qed.

Lemma header_map_none l k : k ∈ forwardableHeaderAllowlist -> k ∉ l.*1 -> header_map l !! hname k = None.
Proof.
  intros Hk Hnin. apply not_elem_of_list_to_map_1. intros ([K w] & E & Hin)%list_elem_of_fmap. cbn in E. subst K.
  apply list_elem_of_omap in Hin as ([k' w2] & Hin & Hd). cbn in Hd. destruct (decide _) as [Hk'|]; [|done].
  injection Hd as E <-. apply hname_inj in E as ->; [|done..]. apply Hnin, list_elem_of_fmap. by exists (k, w2).
Qed.

Context (data payload : string).
Hypothesis (Hmb : exists mb, unmarshal_text (A := messageBody) data = Some mb /\ mb_BodyB mb = EncodeToString false payload).

(** What one member does to the message. *)
Definition entry_effect (k v : string) (pm pm' : payloadMsg) : Prop :=
  pm_headers pm' = (if decide (k ∈ forwardableHeaderAllowlist) then <[hname k := v]> (pm_headers pm) else pm_headers pm) /\
  pm_body pm' = (if decide (k = "bodyB") then payload else pm_body pm) /\
  (pm_eventType pm' = pm_eventType pm \/ k ∈ event_headers /\ pm_eventType pm' = event_type v).

Lemma parse_entry_effect k v pm dt :
  envelope_key k -> (k = "content-type" -> pm_headers pm !! "Content-Type" = None) ->
  exists pm' dt', parse_entry data (k, JStr v) (pm, dt) = Ok (pm', dt') /\ entry_effect k v pm pm'.
Proof.
  intros Hk Hct. unfold parse_entry, entry_effect. cbn [as_string].
  destruct (contains_str event_headers k) eqn:E1.
  { unfold event_headers in E1. rewrite E1. do 2 eexists. split; [done|].
    apply contains_str_true in E1. fold event_headers in E1. unfold hname.
    assert (k ∈ forwardableHeaderAllowlist /\ k <> "content-type" /\ k <> "bodyB") as (? & ? & ?).
    { unfold event_headers in E1. set_unfold in E1. destruct E1 as [->|[->|[->|[]]]]; (split_and!; [apply (bool_decide_unpack _); exact I|done..]). }
    split_and!; [by repeat (case_decide; try done)|by case_decide|by right]. }
  unfold event_headers in E1. rewrite E1. case_bool_decide as E2.
  { subst k. do 2 eexists. split; [done|]. by split_and!; [|  | left]. }
  case_bool_decide as E3.
  { subst k. destruct Hmb as (mb & -> & ->). rewrite base64_roundtrip. do 2 eexists. split; [done|]. by split_and!; [| | left]. }
  assert (k <> "body") as Hb by (intros ->; destruct Hk as [(_ & _ & _ & Hn & _)%allowed_name|Hk]; [done|set_unfold in Hk; naive_solver]).
  rewrite (bool_decide_false _ Hb). case_bool_decide as E4.
  { subst k. rewrite bool_decide_false by (intros [? Hx]; cbn in Hx; by rewrite Hct in Hx by done). do 2 eexists. split; [done|]. by split_and!; [| | left]. }
  case_bool_decide as E5.
  { subst k. destruct (Atoi v); (do 2 eexists; split; [done|]; by split_and!; [| | left]). }
  assert (forwardableHeader k = bool_decide (k ∈ forwardableHeaderAllowlist)) as ->.
  { destruct Hk as [Hk|Hk].
    - rewrite (bool_decide_true _ Hk). by apply allowed_name.
    - set_unfold in Hk. destruct Hk as [->|[->|[->|[]]]]; done. }
  unfold hname. case_bool_decide as E6; (do 2 eexists; split; [done|]; split_and!; [|by case_decide|by left]);
    by repeat (case_decide; try done).
Qed.

Lemma content_type_hname k : k ∈ forwardableHeaderAllowlist -> hname k = "Content-Type" -> k = "content-type".
Proof. intros Hk E. apply (hname_inj k "content-type"); [done|by apply (bool_decide_unpack _)|exact E]. Qed.

Lemma header_map_cons k v l : k ∉ l.*1 ->
  header_map ((k, v) :: l) = if decide (k ∈ forwardableHeaderAllowlist) then <[hname k := v]> (header_map l) else header_map l.
Proof. intros Hn. unfold header_map. cbn. by destruct (decide _). Qed.

(** The whole loop, whatever the order of the members. *)
Lemma parse_entries_effect l pm dt :
  Forall (fun kv => envelope_key kv.1) l -> NoDup l.*1 ->
  ("content-type" ∈ l.*1 -> pm_headers pm !! "Content-Type" = None) ->
  exists pm' dt', parse_entries data (prod_map id JStr <$> l) (pm, dt) = Ok (pm', dt') /\
    pm_headers pm' = header_map l ∪ pm_headers pm /\
    pm_body pm' = (if decide ("bodyB" ∈ l.*1) then payload else pm_body pm) /\
    (pm_eventType pm' = pm_eventType pm \/
     exists k v, (k, v) ∈ l /\ k ∈ event_headers /\ pm_eventType pm' = event_type v).
Proof.
  intros Hall. revert pm dt. induction Hall as [|[k v] l Hk Hall IH]; intros pm dt Hnd Hct.
  { exists pm, dt. split_and!; [done| |done|by left]. unfold header_map. cbn. by rewrite (left_id_L ∅ (∪)). }
  cbn in Hnd. apply NoDup_cons in Hnd as [Hnin Hnd].
  destruct (parse_entry_effect k v pm dt Hk) as (pm1 & dt1 & E1 & Hh1 & Hb1 & Ht1).
  { intros ->. apply Hct. cbn. set_solver. }
  destruct (IH pm1 dt1 Hnd) as (pm' & dt' & E & Hh & Hb & Ht).
  { intros Hin. rewrite Hh1. assert (pm_headers pm !! "Content-Type" = None) as Hno by (apply Hct; cbn; set_solver).
    destruct (decide (k ∈ forwardableHeaderAllowlist)) as [Hka|_]; [|exact Hno]. rewrite lookup_insert_ne; [exact Hno|].
    intros E. apply content_type_hname in E as ->; done. }
  exists pm', dt'. split_and!.
  - cbn [parse_entries fmap list_fmap]. unfold prod_map at 1. cbn [fst snd id]. by rewrite E1.
  - rewrite Hh, Hh1, header_map_cons by done. destruct (decide (k ∈ forwardableHeaderAllowlist)) as [Hka|_]; [|done].
    by rewrite <- insert_union_r, insert_union_l by (by apply header_map_none).
  - rewrite Hb, Hb1. cbn [fmap list_fmap fst].
    destruct (decide ("bodyB" ∈ l.*1)), (decide (k = "bodyB")), (decide ("bodyB" ∈ k :: l.*1)); try done; set_solver.
  - destruct Ht as [Ht|(k' & v' & Hin & Hk' & Ht)]; [|right; exists k', v'; split_and!; [set_solver|done|done]].
    rewrite Ht. destruct Ht1 as [Ht1|[Hk1 Ht1]]; [by left|]. right. exists k, v. split_and!; [set_solver|done|done].
Qed.
End parsing.

Section envelope.
Context `{!JsonText} `{!JsonTextLaws} `{!Titler} `{!TitlerLaws} `{!MapDecode} `{!MapDecodeLaws}
  `{!MapOrder} `{!MapOrderLaws} `{!RawText}.

Lemma map_range_text (m : gmap string string) :
  exists l, map_range (JStr <$> m) = prod_map id JStr <$> l /\ l ≡ₚ map_to_list m.
Proof.
  pose proof (map_range_perm (JStr <$> m)) as Hp. rewrite map_to_list_fmap in Hp.
  apply Permutation_map_inv in Hp as (l & E & Hp). exists l. split; [exact E|by symmetry].
Qed.

(** An envelope parses to its body and to the allowlisted headers it holds. *)
Lemma parse_envelope rd now (m : gmap string string) (payload : string) :
  (forall k, is_Some (m !! k) -> envelope_key k) -> js_plain (text_doc m) = true ->
  m !! "bodyB" = Some (EncodeToString false payload) ->
  is_Some (m !! "content-type") ->
  exists pm, parse rd now (js_text (text_doc m)) = Ok pm /\ pm_body pm = payload /\
    (forall K v, pm_headers pm !! K = Some v <->
       exists k, m !! k = Some v /\ k ∈ forwardableHeaderAllowlist /\ K = hname k) /\
    (pm_eventType pm = "" \/ exists k v, m !! k = Some v /\ k ∈ event_headers /\ pm_eventType pm = event_type v).
Proof.
  intros Hkeys Hascii Hbody [ct Hct]. unfold parse. rewrite parse_text by done. rewrite text_doc_pairs.
  rewrite ms_object. cbn [res_bind].
  assert (list_to_map (reverse (prod_map id JStr <$> map_to_list m)) = JStr <$> m) as ->.
  { rewrite <- map_to_list_fmap, (list_to_map_proper _ (map_to_list (JStr <$> m))).
    - apply list_to_map_to_list.
    - rewrite (reverse_Permutation (map_to_list _)). apply NoDup_fst_map_to_list.
    - apply reverse_Permutation. }
  destruct (map_range_text m) as (l & -> & Hp).
  assert (forall k v, (k, v) ∈ l <-> m !! k = Some v) as Hl.
  { intros k v. rewrite Hp. apply elem_of_map_to_list. }
  assert (NoDup l.*1) as Hnd by (rewrite Hp; apply NoDup_fst_map_to_list).
  destruct (envelope_body m Hkeys Hascii _ Hbody) as (mb & Emb & Eb). rewrite text_doc_pairs in Emb.
  destruct (parse_entries_effect _ payload (ex_intro _ mb (conj Emb Eb)) l msg_empty now) as (pm & dt & E & Hh & Hb & Ht).
  { apply Forall_forall. intros [k v] Hin. apply Hkeys. exists v. by apply Hl. }
  { exact Hnd. }
  { intros _. apply lookup_empty. }
  rewrite E. cbn [res_bind].
  assert ("bodyB" ∈ l.*1) as Hin by (apply list_elem_of_fmap; exists ("bodyB", EncodeToString false payload); split; [done|]; by apply Hl).
  rewrite decide_True in Hb by done. cbn [pm_headers msg_empty] in Hh. rewrite (right_id_L ∅ (∪)) in Hh.
  assert (forall K v, pm_headers pm !! K = Some v <->
    exists k, m !! k = Some v /\ k ∈ forwardableHeaderAllowlist /\ K = hname k) as HH.
  { intros K v. rewrite Hh, header_map_lookup by done. by setoid_rewrite Hl. }
  assert (pm_headers pm <> ∅) as Hnonempty.
  { intros E0. assert (pm_headers pm !! "Content-Type" = Some ct) as Hx; [|by rewrite E0, lookup_empty in Hx].
    apply HH. exists "content-type". split; [exact Hct|]. split; [|done]. apply (bool_decide_unpack _); exact I. }
  cbv zeta. unfold with_default_type. cbn [pm_headers set_fld]. rewrite (bool_decide_false _ Hnonempty). cbn [andb].
  exists (pm <| pm_timestamp := Format_ts dt |>). split; [destruct (negb _ && _ && _); [reflexivity|]; cbn [pm_headers]; rewrite (bool_decide_false _ Hnonempty); reflexivity|]. split_and!; [exact Hb|exact HH|].
  destruct Ht as [Ht|(k & v & Hkv & Hk & Ht)]; [by left|]. right. exists k, v. split_and!; [by apply Hl|done|done].
Qed.
End envelope.

(** ** The request to the target *)

Section forwarding.
Context `{!JsonText} `{!MapOrder} `{!MapOrderLaws}.

Lemma added_headers l K vs : NoDup ((fun kv : string * string => CanonicalHeaderKey kv.1) <$> l) ->
  foldl (fun acc '(k, v) => hdr_Add k v acc) (∅ : Header) l !! K = Some vs <->
  exists k v, (k, v) ∈ l /\ K = CanonicalHeaderKey k /\ vs = [v].
Proof.
  revert K vs. induction l as [|[k v] l IH] using rev_ind; intros K vs Hnd.
  { cbn. rewrite lookup_empty. set_solver. }
  rewrite fmap_app in Hnd. apply NoDup_app in Hnd as (Hnd & Hdis & _). rewrite foldl_app. cbn.
  set (acc := foldl _ _ l) in *. assert (acc !! CanonicalHeaderKey k = None) as Hnone.
  { apply eq_None_not_Some. intros [ws Hws]. apply (IH _ _ Hnd) in Hws as (k' & v' & Hin & E & _).
    apply (Hdis (CanonicalHeaderKey k)); [|set_solver]. apply list_elem_of_fmap. by exists (k', v'). }
  unfold hdr_Add. rewrite Hnone. cbn [default app]. destruct (decide (K = CanonicalHeaderKey k)) as [->|Hne].
  - rewrite lookup_insert_eq. split.
    + intros [= <-]. exists k, v. set_solver.
    + intros (k' & v' & [Hin|Hin]%elem_of_app & E & ->).
      * exfalso. apply (Hdis (CanonicalHeaderKey k)); [|set_solver]. apply list_elem_of_fmap. by exists (k', v').
      * apply list_elem_of_singleton in Hin. by injection Hin as -> ->.
  - rewrite lookup_insert_ne by done. rewrite (IH K vs Hnd). split.
    + intros (k' & v' & Hin & E). exists k', v'. split; [set_solver|done].
    + intros (k' & v' & [Hin|Hin]%elem_of_app & E & ->); [by exists k', v'|].
      apply list_elem_of_singleton in Hin. by injection Hin as -> ->.
Qed.

Lemma request_headers_lookup pm K vs :
  is_Some (pm_headers pm !! "Content-Type") ->
  (forall k k', is_Some (pm_headers pm !! k) -> is_Some (pm_headers pm !! k') ->
     CanonicalHeaderKey k = CanonicalHeaderKey k' -> k = k') ->
  request_headers pm !! K = Some vs <->
  exists k v, pm_headers pm !! k = Some v /\ K = CanonicalHeaderKey k /\ vs = [v].
Proof.
  intros Hct Hinj. unfold request_headers. rewrite (bool_decide_true _ Hct). rewrite added_headers.
  - by setoid_rewrite (map_range_perm (pm_headers pm)); setoid_rewrite elem_of_map_to_list.
  - rewrite (map_range_perm (pm_headers pm)).
    change (NoDup ((CanonicalHeaderKey ∘ fst) <$> map_to_list (pm_headers pm))). rewrite (list_fmap_compose fst CanonicalHeaderKey).
    apply NoDup_fmap_2_strong; [|apply NoDup_fst_map_to_list].
    intros k k' Hk Hk'. apply Hinj; [apply list_elem_of_fmap in Hk as ([? v] & -> & Hkv)|apply list_elem_of_fmap in Hk' as ([? v] & -> & Hkv)];
      exists v; by apply elem_of_map_to_list.
Qed.

(** Saving, running and forwarding: only the last one sends. *)
Lemma temp_file_sent data msg h k :
  (forall name h, ho_sent (k name h).1 = ho_sent h) -> ho_sent (temp_file data msg h k).1 = ho_sent h.
Proof.
  intros Hk. unfold temp_file, io. destruct (ho_fault h (ho_pos h)); [done|]. cbv zeta. cbn [ho_fault truncate set_fld ho_pos].
  destruct (ho_fault h (S (ho_pos h))); [done|]. cbn [fst snd].
  match goal with |- context [k ?n ?h'] => pose proof (Hk n h') as E; destruct (k n h') as [h2 r2] end.
  cbn in E |- *. rewrite E. done.
Qed.

Lemma runExecCommand_sent rd pm h : ho_sent (runExecCommand rd pm h).1 = ho_sent h.
Proof.
  unfold runExecCommand. destruct (negb _); [done|]. apply temp_file_sent. intros name h1.
  apply temp_file_sent. intros name2 h2. by destruct (ho_exit _ _) as [[? ?] ?].
Qed.

Lemma act_sends `{!Scripts} rd pm h :
  rd_saveDir rd = "" -> rd_noReplay rd = false -> ho_fault h (ho_pos h) = None ->
  ho_sent (act rd pm h).1 = ho_sent h ++ [mkOutgoing (rd_targetURL rd) (request_headers pm) (pm_body pm)].
Proof.
  intros Hs Hn Hf. unfold act. rewrite (bool_decide_true _ Hs), Hn. unfold replayData, and_then, io. rewrite Hf.
  cbn [ho_sent set_fld]. destruct (ho_answer _ _); [|done]. destruct (bool_decide _); [done|].
  match goal with |- context [runExecCommand rd pm ?h'] =>
    pose proof (runExecCommand_sent rd pm h') as E; destruct (runExecCommand rd pm h') as [h2 r2] end.
  cbn in E |- *. exact E.
Qed.
End forwarding.

(** ** What the server put in the envelope *)

Lemma forwarded_lookup (h : Header) k j :
  (forall K, is_Some (h !! K) -> CanonicalHeaderKey K = K) ->
  forwarded_headers h !! k = Some j <->
  exists K vs, h !! K = Some vs /\ forwardedHeader K = true /\ k = ToLower K /\ j = JStr (hd "" vs).
Proof.
  intros Hcan. unfold forwarded_headers.
  assert (forall K vs, (K, vs) ∈ map_to_list h <-> h !! K = Some vs) as Hl by (intros; apply elem_of_map_to_list).
  setoid_rewrite <- Hl. assert (forall K K' vs vs', (K, vs) ∈ map_to_list h -> (K', vs') ∈ map_to_list h ->
    forwardedHeader K = true -> ToLower K = ToLower K' -> K = K' /\ vs = vs') as Hinj.
  { intros K K' vs vs' H1%Hl H2%Hl Hf E. assert (K = K') as ->; [|split; [done|congruence]].
    rewrite <- (Hcan K), <- (Hcan K') by eauto. apply CanonicalHeaderKey_fold; [done|].
    rewrite <- token_fold, <- E. apply contains_str_true in Hf. by apply (allowed_name (ToLower K)). }
  clear Hl Hcan. induction (map_to_list h) as [|[K vs] l IH]; [cbn; rewrite lookup_empty; set_solver|].
  cbn [fold_right]. destruct (forwardedHeader K) eqn:Ef.
  - destruct (decide (ToLower K = k)) as [<-|Hne].
    + rewrite lookup_insert_eq. split; [intros [= <-]; exists K, vs; set_solver|].
      intros (K' & vs' & Hin & _ & E & ->). destruct (Hinj K K' vs vs') as [_ ->]; [set_solver..|done|done|done].
    + rewrite lookup_insert_ne by done. rewrite IH by (intros; eapply Hinj; eauto; set_solver).
      split; intros (K' & vs' & Hin & ? & ? & ?); exists K', vs'; split_and!; try done; [set_solver|].
      apply elem_of_cons in Hin as [[= -> ->]|Hin]; [congruence|done].
  - rewrite IH by (intros; eapply Hinj; eauto; set_solver).
    split; intros (K' & vs' & Hin & ? & ? & ?); exists K', vs'; split_and!; try done; [set_solver|].
    apply elem_of_cons in Hin as [[= -> ->]|Hin]; [congruence|done].
Qed.

(** ** End to end *)

Section end_to_end.
Context `{!JsonText} `{!JsonTextLaws} `{!Crypto} `{!CryptoLaws} `{!Box} `{!BoxLaws} `{!Titler} `{!TitlerLaws}
  `{!MapDecode} `{!MapDecodeLaws} `{!MapOrder} `{!MapOrderLaws} `{!RawText} `{!Scripts} {R : Type} `{!Repository R} `{!Net}.
Implicit Types (r : Request) (w : World R).

(** The client holds the keys the channel's policy calls for. *)
Definition keys_fit (s : Service R) (channel : string) (rd : replayDataOpts) (privateKey : option string) : Prop :=
  match channel_policy s channel with
  | Err _ => False
  | Ok (mode, key, pub) =>
      (mode = "server_side" -> rd_encryptionKey rd = key /\ privateKey = None) /\
      (mode = "e2e" -> exists k, privateKey = Some k /\ ParsePublicKey pub = Ok (box_public k))
  end.

Lemma open_body_ok s channel body rnd rnd' payload rd priv :
  rand_fills rnd -> EncryptForChannel s channel body rnd = (rnd', Ok payload) -> keys_fit s channel rd priv ->
  IsEncrypted body = false -> IsAESEncrypted body = false -> open_body rd channel priv payload = Ok body.
Proof.
  unfold EncryptForChannel, keys_fit. intros Hr. destruct (channel_policy s channel) as [[[mode key] pub]|]; [|done].
  unfold apply_policy. intros He [Hs Hx] Hne Hna. case_bool_decide as E1.
  - destruct (Hs E1) as [Hkey ->]. case_bool_decide as E2; [done|]. apply aes_encrypted in He as [Hd Hi]; [|exact Hr].
    unfold open_body, open_payload. rewrite Hi, Hkey, (bool_decide_false _ E2). exact Hd.
  - case_bool_decide as E2.
    + destruct (Hx E2) as (k & -> & Hp). case_bool_decide; [done|]. rewrite Hne, Hp in He.
      apply (e2e_opens _ _ _ channel) in He as [Hi Hd]; [|exact Hr]. unfold open_body. rewrite Hi, Hd.
      by rewrite decide_True.
    + injection He as <- <-. unfold open_body, open_payload. rewrite Hne, Hna, andb_false_r. by destruct priv.
Qed.

Lemma text_envelope (h : Header) ts id b :
  (forall K, is_Some (h !! K) -> CanonicalHeaderKey K = K) ->
  exists m : gmap string string,
    <["event_id" := JStr id]> (<["bodyB" := JStr b]> (<["timestamp" := JStr ts]> (forwarded_headers h))) = JStr <$> m /\
    m !! "bodyB" = Some b /\ (forall k, is_Some (m !! k) -> envelope_key k) /\
    forall k v, k ∈ forwardableHeaderAllowlist ->
      m !! k = Some v <-> exists K vs, h !! K = Some vs /\ forwardedHeader K = true /\ k = ToLower K /\ v = hd "" vs.
Proof.
  intros Hcan. set (fs := (fun j => default "" (as_string j)) <$> forwarded_headers h).
  assert (JStr <$> fs = forwarded_headers h) as Hfs.
  { unfold fs. rewrite <- map_fmap_compose. apply map_eq. intros k. rewrite lookup_fmap.
    destruct (forwarded_headers h !! k) as [j|] eqn:E; [|done]. apply forwarded_lookup in E as (K & vs & _ & _ & _ & ->); done. }
  assert (forall k v, fs !! k = Some v <-> forwarded_headers h !! k = Some (JStr v)) as Hl.
  { intros k v. rewrite <- Hfs, lookup_fmap. destruct (fs !! k); cbn; split; by intros [= ->]. }
  exists (<["event_id" := id]> (<["bodyB" := b]> (<["timestamp" := ts]> fs))). split_and!.
  - by rewrite !fmap_insert, Hfs.
  - rewrite lookup_insert_ne by done. apply lookup_insert_eq.
  - intros k [v Hk]. rewrite !lookup_insert in Hk. repeat case_decide; [subst; right; set_solver..|].
    left. apply Hl, forwarded_keys in Hk. exact Hk.
  - intros k v Hk. assert (k <> "event_id" /\ k <> "bodyB" /\ k <> "timestamp") as (? & ? & ?).
    { split_and!; intros ->; apply (bool_decide_pack _) in Hk; vm_compute in Hk; exact Hk. }
    rewrite !lookup_insert_ne by done. rewrite Hl, forwarded_lookup by done.
    split; intros (K & vs & ? & ? & ? & E); exists K, vs; split_and!; try done; [by injection E|by rewrite E].
Qed.

(** The handler past its filters. *)
Lemma on_event_acts rd channel priv now h data pm body :
  data <> "" -> data <> "{}" -> connection_message data = false -> IsAESEncrypted data = false ->
  parse rd now data = Ok pm -> open_body rd channel priv (pm_body pm) = Ok body ->
  ToLower body <> "ready" -> pm_eventType pm <> "ready" -> pm_headers pm <> ∅ ->
  (forall K v, pm_headers pm !! K = Some v -> ToLower K <> "message") ->
  on_event rd channel priv now (mkEvent "" data) h = act rd (pm <| pm_body := body |>) h.
Proof.
  intros He Hb Hf Ha Hp Ho Hready Het Hne Hm. unfold on_event. cbn [sv_Event sv_Data].
  assert (data <> "ready") as Hr by (intros ->; done).
  rewrite (bool_decide_false _ Hr), (bool_decide_false _ He), (bool_decide_false _ Hb), Hf. cbn [orb].
  rewrite !bool_decide_false by done. unfold open_payload. rewrite Ha, andb_false_r, Hp, Ho. cbv zeta.
  cbn [pm_eventType pm_body set_fld pm_headers]. rewrite (bool_decide_false _ Het), (bool_decide_false _ Hready). cbn [orb].
  unfold connected_message. cbn [pm_headers pm_body].
  assert (existsb (fun '(k, v) => bool_decide (ToLower k = "message") && bool_decide (ToLower v = "connected"))
    (map_to_list (pm_headers pm)) = false) as ->.
  { apply not_true_iff_false. intros ([k v] & Hin & Hk)%existsb_exists. apply list_elem_of_In, elem_of_map_to_list in Hin.
    apply andb_true_iff in Hk as [Hk%bool_decide_eq_true _]. by apply (Hm k v). }
  rewrite andb_false_r, (bool_decide_false _ Hne). done.
Qed.

(** Header names rebuilt from an envelope stay apart once canonical. *)
Lemma hname_canonical k : k ∈ forwardableHeaderAllowlist -> CanonicalHeaderKey (hname k) = CanonicalHeaderKey k.
Proof.
  intros Hk. apply CanonicalHeaderKey_fold; [|by apply allowed_name]. rewrite hname_fold by done.
  symmetry. by apply allowed_name.
Qed.

Lemma hname_canonical_inj k k' : k ∈ forwardableHeaderAllowlist -> k' ∈ forwardableHeaderAllowlist ->
  CanonicalHeaderKey (hname k) = CanonicalHeaderKey (hname k') -> hname k = hname k'.
Proof.
  intros Hk Hk' E. do 2 f_equal. rewrite <- (hname_fold k Hk), <- (hname_fold k' Hk').
  by rewrite <- (lower_CanonicalHeaderKey (hname k)), E, lower_CanonicalHeaderKey.
Qed.

(** Whatever the published payload is, a client whose keys open it to [plain]
    forwards [plain]. *)
Lemma relay_opens r w channel c body payload event w' rd priv plain now h
  (Hpub : published r w channel c body payload event w')
  (Hcanonical : forall K, is_Some (rq_Header r !! K) -> CanonicalHeaderKey K = K)
  (Hjson : is_Some (rq_Header r !! "Content-Type"))
  (Hascii : js_plain (event_doc event) = true)
  (Hopens : open_body rd channel priv payload = Ok plain)
  (Hfilter : connection_message (js_text (event_doc event)) = false /\ js_text (event_doc event) <> "{}" /\
     ToLower plain <> "ready" /\ forall K, ToLower K ∈ event_headers -> event_type (hdr_Get (rq_Header r) K) <> "ready")
  (Hforward : rd_saveDir rd = "" /\ rd_noReplay rd = false /\ ho_fault h (ho_pos h) = None) :
  exists q, ho_sent (on_event rd channel priv now (mkEvent "" (js_text (event_doc event))) h).1 = ho_sent h ++ [q] /\
    og_URL q = rd_targetURL rd /\ og_Body q = plain /\
    forall K vs, og_Header q !! K = Some vs <->
      exists ws, rq_Header r !! K = Some ws /\ forwardedHeader K = true /\ vs = [hd "" ws].
Proof.
  destruct (pub_exact _ _ _ _ _ _ _ _ Hpub) as (ts & id & Hev).
  destruct (text_envelope (rq_Header r) ts id (EncodeToString false payload) Hcanonical) as (m & Em & Hb & Hk & Hm).
  rewrite Em in Hev. subst event. fold (text_doc m) in *.
  destruct Hfilter as (Hf & Hbrace & Hready & Het). destruct Hforward as (Hs & Hn & Hfault).
  assert (is_Some (m !! "content-type")) as Hct.
  { destruct Hjson as [vs Hvs]. exists (hd "" vs). apply Hm; [by apply (bool_decide_unpack _)|]. by exists "Content-Type", vs. }
  destruct (parse_envelope rd now m payload Hk Hascii Hb Hct) as (pm & Hp & Hbody & Hh & Ht).
  assert (is_Some (pm_headers pm !! "Content-Type")) as Hpct.
  { destruct Hct as [v Hv]. exists v. apply Hh. exists "content-type". split_and!; [done|by apply (bool_decide_unpack _)|done]. }
  rewrite (on_event_acts rd channel priv now h _ pm plain); try done.
  2:{ apply text_not_empty. }
  2:{ by apply envelope_not_aes. }
  2:{ by rewrite Hbody. }
  2:{ destruct Ht as [->|(k & v & Hkv & Hin & ->)]; [done|].
      apply Hm in Hkv as (K & vs & HK & _ & -> & ->).
      - specialize (Het K Hin). unfold hdr_Get in Het. rewrite HK in Het. by destruct vs.
      - unfold event_headers in Hin. set_unfold in Hin. destruct Hin as [->|[->|[->|[]]]]; by apply (bool_decide_unpack _). }
  2:{ intros E0. rewrite E0, lookup_empty in Hpct. by destruct Hpct. }
  2:{ intros K v (k & _ & Hka & ->)%Hh E. rewrite hname_fold in E by done. subst k.
      apply (bool_decide_pack _) in Hka. vm_compute in Hka. exact Hka. }
  rewrite act_sends by done. eexists. split; [done|]. split_and!; [done|done|]. intros K vs. cbn [og_Header].
  rewrite request_headers_lookup; cbn [pm_headers set_fld].
  2:{ exact Hpct. }
  2:{ intros k k' [v (k0 & _ & Hk0 & ->)%Hh] [v' (k0' & _ & Hk0' & ->)%Hh]. by apply hname_canonical_inj. }
  split.
  - intros (K0 & v & (k & Hkv & Hka & ->)%Hh & -> & ->). apply Hm in Hkv as (K & ws & HK & Hf' & -> & ->); [|done].
    exists ws. rewrite hname_canonical by done.
    assert (CanonicalHeaderKey (ToLower K) = K) as ->; [|done].
    rewrite <- (Hcanonical K) at 2 by eauto. symmetry. apply CanonicalHeaderKey_fold; [by rewrite ToLower_idem|by apply allowed_name].
  - intros (ws & HK & Hf' & ->). apply contains_str_true in Hf' as Hka.
    exists (hname (ToLower K)), (hd "" ws). split_and!; [|  |done].
    + apply Hh. exists (ToLower K). split_and!; [|done|done]. apply Hm; [done|]. by exists K, ws.
    + rewrite hname_canonical by done. rewrite <- (Hcanonical K) at 1 by eauto.
      apply CanonicalHeaderKey_fold; [by rewrite ToLower_idem|by apply allowed_name].
Qed.

End end_to_end.

(** ** Ignored events *)

Section ignoring.
Context `{!JsonText} `{!Crypto} `{!Box} `{!Titler} `{!MapDecode} `{!MapOrder} `{!RawText} `{!Scripts}.

Lemma step_event_type data entry pm dt pm' dt' :
  (pm_eventType pm <> "" -> pm_headers pm <> ∅) -> parse_entry data entry (pm, dt) = Ok (pm', dt') ->
  pm_eventType pm' <> "" -> pm_headers pm' <> ∅.
Proof.
  destruct entry as [k j]. intros Hpm. unfold parse_entry, with_header.
  assert (forall K v (m : gmap string string), <[K := v]> m <> ∅) as Hins by (intros; apply insert_non_empty).
  repeat (case_match; try discriminate); cbn [pm_headers set_fld]; intros [= <- <-]; cbn; auto.
Qed.

Lemma parse_event_type data l pm dt pm' dt' :
  (pm_eventType pm <> "" -> pm_headers pm <> ∅) -> parse_entries data l (pm, dt) = Ok (pm', dt') ->
  pm_eventType pm' <> "" -> pm_headers pm' <> ∅.
Proof.
  revert pm dt. induction l as [|e l IH]; intros pm dt Hpm; [by intros [= <- <-]|].
  cbn [parse_entries]. intros ([pm1 dt1] & E1 & E2)%res_bind_Ok. eapply IH; [|exact E2].
  by eapply step_event_type.
Qed.

Lemma ignored_or_not (b1 b2 : bool) pm e :
  (pm_eventType pm <> "" -> pm_headers pm <> ∅) ->
  (if b1 && negb (bool_decide (pm_eventType pm = "")) && b2 then Ok pm
   else if bool_decide (pm_headers pm = ∅) && bool_decide (pm_body pm = "") then Err e else Ok pm) =
  (if bool_decide (pm_headers pm = ∅) && bool_decide (pm_body pm = "") then Err e else Ok pm : res payloadMsg).
Proof.
  intros Hpm. destruct (decide (pm_eventType pm = "")) as [E|E].
  - rewrite (bool_decide_true _ E), andb_false_r. done.
  - rewrite (bool_decide_false _ (Hpm E)). by destruct (_ && _).
Qed.

Lemma parse_ignores rd evs now data : parse (rd <| rd_ignoreEvents := evs |>) now data = parse rd now data.
Proof.
  unfold parse. destruct (ms_Decode _) as [kvs|]; [|done]. cbn [res_bind].
  destruct (parse_entries _ _ _) as [[pm dt]|] eqn:E; [|done]. cbn [res_bind].
  assert (pm_eventType pm <> "" -> pm_headers pm <> ∅) as Hh by (eapply parse_event_type; [|exact E]; done).
  cbv zeta. assert (pm_eventType (with_default_type (pm <| pm_timestamp := Format_ts dt |>)) <> "" ->
    pm_headers (with_default_type (pm <| pm_timestamp := Format_ts dt |>)) <> ∅) as Hh2.
  { unfold with_default_type. destruct (_ && _); cbn; [|done]. intros _. apply insert_non_empty. }
  by rewrite !(ignored_or_not _ _ _ _ Hh2).
Qed.

(** The option [--ignore-event] has no effect: an event of an ignored type is
    saved, forwarded and handed to the command like any other, because [parse]
    returns the message it announces to skip and no error. *)
Theorem ignore_event_ineffective rd evs channel priv msgs h :
  on_events (rd <| rd_ignoreEvents := evs |>) channel priv msgs h = on_events rd channel priv msgs h.
Proof.
  revert h. induction msgs as [|[now msg] msgs IH]; intros h; [done|]. cbn [on_events].
  assert (on_event (rd <| rd_ignoreEvents := evs |>) channel priv now msg h = on_event rd channel priv now msg h) as ->.
  { unfold on_event. repeat (case_bool_decide || destruct (connection_message _); try done).
    change (open_payload (rd <| rd_ignoreEvents := evs |>)) with (open_payload rd). destruct (open_payload _ _ _) as [p|]; [|done].
    by rewrite parse_ignores. }
  destruct (on_event _ _ _ _ _ _) as [h1 v]. by rewrite IH.
Qed.
End ignoring.

(** ** Quoting for the shell *)

(** The words a POSIX shell reads: blanks separate words, single quotes and a
    backslash quote; [None] for an unquoted byte that means anything else to the
    shell, and for a quote left open. *)
Definition sh_special (c : ascii) : bool :=
  elem_str c "|&;<>()$`*?[]#~!{}" || bool_decide (c ∈ Ascii.ascii_of_nat <$> [0; 9; 10; 13; 34]).

Definition snoc (w : string) (c : ascii) : string := w +:+ String c "".
Definition flush (cur : option string) (ws : list string) : list string := match cur with Some w => w :: ws | None => ws end.

Fixpoint sh_read (s : string) (cur : option string) (quoted : bool) : option (list string) :=
  match s with
  | EmptyString => if quoted then None else Some (flush cur [])
  | String c s' =>
      if quoted then
        if bool_decide (c = "'"%char) then sh_read s' cur false else sh_read s' (Some (snoc (default "" cur) c)) true
      else if bool_decide (c = "'"%char) then sh_read s' (Some (default "" cur)) true
      else if bool_decide (c = "\"%char) then
        match s' with
        | String d s'' => if bool_decide (d = Ascii.ascii_of_nat 10) then None else sh_read s'' (Some (snoc (default "" cur) d)) false
        | EmptyString => None
        end
      else if bool_decide (c = " "%char) then flush cur <$> sh_read s' None false
      else if sh_special c then None
      else sh_read s' (Some (snoc (default "" cur) c)) false
  end.
Definition sh_words (s : string) : option (list string) := sh_read s None false.

Lemma snoc_app w c s : snoc w c +:+ s = w +:+ String c s.
Proof. unfold snoc. by rewrite str_app_assoc. Qed.

Lemma sh_read_quoted s rest w :
  sh_read (ReplaceAll s "'" "'\''" +:+ String "'" rest) (Some w) true = sh_read rest (Some (w +:+ s)) false.
Proof.
  revert w. induction s as [|c s IH]; intros w; [simpl; by rewrite str_app_nil_r|]. cbn [ReplaceAll].
  case_bool_decide as Ec.
  - subst c. rewrite str_app_assoc.
    transitivity (sh_read (ReplaceAll s "'" "'\''" +:+ String "'" rest) (Some (snoc w "'")) true); [reflexivity|].
    by rewrite IH, snoc_app.
  - rewrite str_app_assoc. change (String c "" +:+ ?t) with (String c t). cbn [sh_read].
    rewrite (bool_decide_false _ Ec). cbn [default]. by rewrite IH, snoc_app.
Qed.

Lemma sh_read_quote s rest : sh_read (shellQuote s +:+ rest) None false = sh_read rest (Some s) false.
Proof.
  unfold shellQuote. rewrite !str_app_assoc. exact (sh_read_quoted s rest "").
Qed.

Lemma sh_read_blank rest w : sh_read (String " " rest) (Some w) false = cons w <$> sh_words rest.
Proof. done. Qed.

Section scripts.
Context `{!MapOrder}.

Lemma curl_words l :
  sh_words (concat_str ((fun '(k, v) => "-H " +:+ shellQuote (k +:+ ": " +:+ v) +:+ " ") <$> l)) =
  Some (concat ((fun '(k, v) => ["-H"; k +:+ ": " +:+ v]) <$> l)).
Proof.
  unfold concat_str. induction l as [|[k v] l IH]; [done|]. cbn [fmap list_fmap foldr concat].
  change (String.append ?a ?b) with (a +:+ b). rewrite !str_app_assoc.
  transitivity (cons "-H" <$> sh_words (shellQuote (k +:+ ": " +:+ v) +:+ " " +:+
    foldr String.append "" ((fun '(k, v) => "-H " +:+ shellQuote (k +:+ ": " +:+ v) +:+ " ") <$> l))); [done|].
  unfold sh_words at 1. rewrite sh_read_quote. change (" " +:+ ?s) with (String " " s). rewrite sh_read_blank.
  rewrite IH. done.
Qed.

Lemma httpie_words l :
  sh_words (concat_str ((fun '(k, v) => shellQuote (k +:+ ":" +:+ v) +:+ " ") <$> l)) =
  Some ((fun '(k, v) => k +:+ ":" +:+ v) <$> l).
Proof.
  unfold concat_str. induction l as [|[k v] l IH]; [done|]. cbn [fmap list_fmap foldr].
  change (String.append ?a ?b) with (a +:+ b). rewrite !str_app_assoc. unfold sh_words at 1. rewrite sh_read_quote.
  change (" " +:+ ?s) with (String " " s). rewrite sh_read_blank, IH. done.
Qed.

(** C31. Replay scripts cannot be injected into: whatever bytes a webhook put in its
    headers, the shell reads the header arguments of the saved script back as the
    one word per header the client meant, with cURL and with HTTPie; likewise for
    the content type and the two URLs. *)
Theorem scripts_quote (rd : replayDataOpts) (pm : payloadMsg) :
  let d := template_data rd pm in
  sh_words (td_Headers d) = Some (
    if rd_useHttpie rd then (fun '(k, v) => k +:+ ":" +:+ v) <$> map_range (pm_headers pm)
    else concat ((fun '(k, v) => ["-H"; k +:+ ": " +:+ v]) <$> map_range (pm_headers pm))) /\
  sh_words (td_ContentType d) = Some [pm_contentType pm] /\
  sh_words (td_TargetURL d) = Some [rd_targetURL rd] /\ sh_words (td_LocalDebugURL d) = Some [rd_localDebugURL rd].
Proof.
  assert (forall s, sh_words (shellQuote s) = Some [s]) as Hq.
  { intros s. rewrite <- (str_app_nil_r (shellQuote s)). unfold sh_words. by rewrite sh_read_quote. }
  cbv zeta. cbn [template_data td_Headers td_ContentType td_TargetURL td_LocalDebugURL]. split_and!; try apply Hq.
  destruct (rd_useHttpie rd); [apply httpie_words|apply curl_words].
Qed.
End scripts.

(** ** What a command sees of the environment *)

Definition env_entry (name value : string) : string := name +:+ "=" +:+ value.
Definition env_allowed (env extra : list string) (name : string) : Prop :=
  name ∈ exec_allowlist \/ name ∈ locale_names env \/ name ∈ extra.

(** The list so far is that of the names seen, each once, with its value. *)
Definition env_built (env : list string) (names : list string) (x : list string * list string) : Prop :=
  x.1 = (fun n => env_entry n (default "" (LookupEnv env n))) <$> reverse x.2 /\ NoDup x.2 /\
  forall n, n ∈ x.2 <-> n ∈ names /\ n <> "" /\ is_Some (LookupEnv env n).

Lemma addEnvVar_built env names x name : env_built env names x -> env_built env (names ++ [name]) (addEnvVar env x name).
Proof.
  destruct x as [execEnv seen]. intros (He & Hnd & Hs). cbn [fst snd] in *. unfold addEnvVar.
  case_bool_decide as E0; [|destruct (contains_str seen name) eqn:E1; [|destruct (LookupEnv env name) as [v|] eqn:E2]].
  - split_and!; [done|done|]. intros n. cbn [snd]. rewrite Hs. set_solver.
  - apply contains_str_true in E1. split_and!; [done|done|]. intros n. cbn [snd]. rewrite Hs. apply Hs in E1. set_solver.
  - assert (name ∉ seen) as Hn by (rewrite <- contains_str_true, E1; done).
    split_and!; cbn [fst snd].
    + rewrite He, reverse_cons, fmap_app. cbn. by rewrite E2.
    + by apply NoDup_cons.
    + intros n. rewrite elem_of_cons, Hs. split; [|set_solver]. intros [->|Hin]; [|set_solver].
      split_and!; [set_solver|done|by rewrite E2].
  - split_and!; [done|done|]. intros n. cbn [snd]. rewrite Hs. split; [set_solver|].
    intros ([Hin|Hin]%elem_of_app & Hne & Hl); [done|]. apply list_elem_of_singleton in Hin as ->. rewrite E2 in Hl. by destruct Hl.
Qed.

Lemma foldl_built env names : forall names0 x, env_built env names0 x -> env_built env (names0 ++ names) (foldl (addEnvVar env) x names).
Proof.
  induction names as [|n names IH]; intros names0 x Hx; [by rewrite app_nil_r|]. cbn.
  replace (names0 ++ n :: names) with ((names0 ++ [n]) ++ names) by (by rewrite <- app_assoc).
  apply IH. by apply addEnvVar_built.
Qed.

(** The command a client runs for an event inherits exactly the variables that are
    set and either on the fixed list, of the locale, or named by the user: nothing
    else of the client's environment, and each name once. *)
Theorem buildExecEnv_spec env extra :
  (forall e, e ∈ buildExecEnv env extra <->
     exists name value, env_allowed env extra name /\ name <> "" /\ LookupEnv env name = Some value /\ e = env_entry name value) /\
  exists names, NoDup names /\ buildExecEnv env extra = (fun n => env_entry n (default "" (LookupEnv env n))) <$> names.
Proof.
  unfold buildExecEnv. set (names := exec_allowlist ++ locale_names env ++ extra).
  destruct (foldl_built env names [] ([], [])) as (He & Hnd & Hs).
  { split_and!; [done|constructor|]. intros n. set_solver. }
  cbn [app] in Hs. destruct (foldl (addEnvVar env) ([], []) names) as [execEnv seen]. cbn [fst snd] in *. split.
  - intros e. rewrite He, list_elem_of_fmap. split.
    + intros (n & -> & Hn). apply elem_of_reverse, Hs in Hn as (Hin & Hne & [v Hv]). exists n, v.
      rewrite Hv. split_and!; [|done|done|done]. unfold names in Hin. rewrite !elem_of_app in Hin. exact Hin.
    + intros (n & v & Ha & Hne & Hv & ->). exists n. rewrite Hv. split; [done|]. apply elem_of_reverse, Hs.
      split_and!; [unfold names; rewrite !elem_of_app; exact Ha|done|by rewrite Hv].
  - exists (reverse seen). split; [by rewrite reverse_Permutation|done].
Qed.

(** ** Captured output *)

Lemma take_str_ge n s : (String.length s <= n)%nat -> take_str n s = s.
Proof. revert n. induction s as [|c s IH]; intros [|n] Hn; cbn in *; try lia; [done..|]. by rewrite IH by lia. Qed.

Lemma take_str_app n a b : take_str n (a +:+ b) = take_str n a +:+ take_str (n - String.length a) b.
Proof.
  revert n. induction a as [|c a IH]; intros n; [cbn; rewrite Nat.sub_0_r; by destruct n|].
  destruct n as [|n]; [done|]. cbn [take_str]. change (String c a +:+ b) with (String c (a +:+ b)).
  change (String c ?x +:+ ?y) with (String c (x +:+ y)). cbn [take_str String.length]. by rewrite IH.
Qed.

Lemma length_take_str n s : String.length (take_str n s) = Nat.min n (String.length s).
Proof. revert n. induction s as [|c s IH]; intros [|n]; cbn; [done..|]. by rewrite IH. Qed.

Lemma length_str_app a b : String.length (a +:+ b) = (String.length a + String.length b)%nat.
Proof. induction a as [|c a IH]; [done|]. change (String c a +:+ b) with (String c (a +:+ b)). cbn. by rewrite IH. Qed.

Lemma lb_Write_prefix p l total :
  lb_buf l = take_str (lb_limit l) total -> lb_truncated l = (lb_limit l <? String.length total)%nat ->
  let l' := (lb_Write p l).1 in lb_limit l' = lb_limit l /\
  lb_buf l' = take_str (lb_limit l) (total +:+ p) /\
  (p <> "" -> lb_truncated l' = (lb_limit l <? String.length (total +:+ p))%nat).
Proof.
  intros Hb Ht. unfold lb_Write. rewrite Hb, length_take_str, take_str_app, length_str_app. cbv zeta.
  destruct (Nat.leb_spec (lb_limit l) (Nat.min (lb_limit l) (String.length total))) as [Hle|Hlt].
  - cbn. split_and!; [done| |].
    + replace (lb_limit l - String.length total)%nat with 0%nat by lia. by destruct p; rewrite str_app_nil_r.
    + intros Hp. symmetry. apply Nat.ltb_lt. destruct p; [done|]. cbn. lia.
  - replace (Nat.min (lb_limit l) (String.length total)) with (String.length total) by lia.
    destruct (Nat.ltb_spec (lb_limit l - String.length total) (String.length p)); cbn; split_and!; try done.
    + intros _. symmetry. apply Nat.ltb_lt. lia.
    + by rewrite (take_str_ge _ p) by lia.
    + intros _. rewrite Ht. transitivity false; [apply Nat.ltb_ge; lia|symmetry; apply Nat.ltb_ge; lia].
Qed.

Lemma concat_str_app a b : concat_str (a ++ b) = concat_str a +:+ concat_str b.
Proof.
  unfold concat_str. induction a as [|x a IH]; [done|]. cbn [app foldr]. rewrite IH.
  change (String.append ?s ?t) with (s +:+ t). by rewrite str_app_assoc.
Qed.

(** A command may write what it likes: the client keeps the first mebibyte of each
    stream, accepts every write whole so that the command is never blocked, and
    knows whether it dropped anything. *)
Theorem capture_spec (writes : list string) :
  lb_buf (capture writes) = take_str execOutputLimit (concat_str writes) /\
  (String.length (lb_buf (capture writes)) <= execOutputLimit)%nat /\
  (forall p l, (lb_Write p l).2 = String.length p) /\
  (Forall (fun p => p <> "") writes ->
     lb_truncated (capture writes) = (execOutputLimit <? String.length (concat_str writes))%nat).
Proof.
  assert (forall n, let l := foldl (fun l p => (lb_Write p l).1) (mkLimited "" n false) writes in
    lb_limit l = n /\ lb_buf l = take_str n (concat_str writes) /\
    (Forall (fun p => p <> "") writes -> lb_truncated l = (n <? String.length (concat_str writes))%nat)) as Hl.
  { intros n. induction writes as [|p ws IH] using rev_ind; [by destruct n|].
    rewrite foldl_app. cbn [foldl]. cbv zeta in IH |- *. destruct IH as (Hn & Hb & Ht).
    set (l := foldl _ _ ws) in *. rewrite concat_str_app. replace (concat_str [p]) with p by (unfold concat_str; cbn; by rewrite str_app_nil_r).
    destruct (decide (Forall (fun p => p <> "") ws)) as [Hf|Hf].
    - destruct (lb_Write_prefix p l (concat_str ws)) as (Hn' & Hb' & Ht'); [by rewrite Hn|by rewrite Hn, Ht|].
      rewrite Hn in *. split_and!; [done|done|]. intros [_ Hp]%Forall_app. apply Ht'. by apply Forall_inv in Hp.
    - destruct (lb_Write_prefix p (mkLimited (lb_buf l) (lb_limit l) (n <? String.length (concat_str ws))%nat) (concat_str ws))
        as (Hn' & Hb' & _); [by cbn; rewrite Hn|by cbn; rewrite Hn|].
      assert (forall b, lb_limit (lb_Write p (mkLimited (lb_buf l) (lb_limit l) b)).1 = lb_limit (lb_Write p l).1 /\
        lb_buf (lb_Write p (mkLimited (lb_buf l) (lb_limit l) b)).1 = lb_buf (lb_Write p l).1) as Hsame.
      { intros b. unfold lb_Write. cbv zeta. cbn [lb_buf lb_limit].
        destruct (Nat.leb (lb_limit l) _); [done|]. by destruct (Nat.ltb (lb_limit l - _) _). }
      destruct (Hsame (n <? String.length (concat_str ws))%nat) as [E1 E2]. rewrite E1 in Hn'. rewrite E2 in Hb'.
      cbn in Hn', Hb'. rewrite Hn in *. split_and!; [done|done|]. by intros [? _]%Forall_app. }
  unfold capture. destruct (Hl execOutputLimit) as (_ & Hb & Ht). split_and!; [exact Hb| | |exact Ht].
  - rewrite Hb, length_take_str. lia.
  - intros p l. unfold lb_Write. cbv zeta. destruct (Nat.leb (lb_limit l) _); [done|]. by destruct (Nat.ltb (lb_limit l - _) _).
Qed.

(** ** Saved files stay in their directory *)

(** A base name: no separator in it. *)
Definition base_name (s : string) : Prop := elem_str "/" s = false.

Lemma base_name_app a b : base_name a -> base_name b -> base_name (a +:+ b).
Proof. unfold base_name. rewrite elem_str_app. by intros -> ->. Qed.

Lemma event_type_base v : base_name (event_type v).
Proof.
  unfold event_type. induction (Replace eventReplacer (ToLower v)) as [|c s IH]; [done|]. cbn [pmEventRe_FindString].
  destruct (is_word c) eqn:Ew.
  - clear IH. generalize (String c s). intros t. induction t as [|d t IH]; [done|]. cbn [word_run].
    destruct (is_word d) eqn:Ed; [|done]. unfold base_name in *. cbn [elem_str]. rewrite IH, orb_false_r.
    apply bool_decide_false. by intros <-.
  - destruct (bool_decide (c = "-"%char)) eqn:Ec; [by apply bool_decide_eq_true in Ec as ->|].
    destruct (bool_decide (c = ":"%char)) eqn:Ec2; [by apply bool_decide_eq_true in Ec2 as ->|exact IH].
Qed.

Lemma parsed_digits_base acc s n : parse_digits acc s = Some n -> base_name s.
Proof.
  unfold base_name. revert acc. induction s as [|c s IH]; intros acc; [done|]. cbn [parse_digits elem_str].
  destruct (digit c) as [d|] eqn:Ed; [|done]. cbn. intros Hs. rewrite (IH _ Hs), orb_false_r. apply bool_decide_false. by intros <-.
Qed.

Lemma pad_int_base w z : base_name (pad_int w z).
Proof.
  unfold pad_int. repeat apply base_name_app; [by destruct (z <? 0)%Z| |].
  - generalize (w - String.length (Itoa (Z.abs z)))%nat. intros n. by induction n.
  - apply (parsed_digits_base 0 _ (Z.abs z)), parse_Itoa. lia.
Qed.

Lemma Format_ts_base t : base_name (Format_ts t).
Proof.
  unfold Format_ts. destruct (civil _) as [[y m] d]. repeat first [reflexivity | apply pad_int_base | apply base_name_app].
Qed.

Section files.
Context `{!JsonText} `{!Crypto} `{!Box} `{!Titler} `{!MapDecode} `{!MapOrder} `{!RawText} `{!Scripts}.

(** [h'] differs from [h] at files of the save directory, or at temporary files
    that are gone again. *)
Record confined (dir : string) (h h' : Host) : Prop := {
  cf_tmp : ho_tmp h' = ho_tmp h;
  cf_files : forall path, ho_files h' !! path <> ho_files h !! path ->
    (exists base, base_name base /\ (path = dir +:+ "/" +:+ base +:+ ".json" \/ path = dir +:+ "/" +:+ base +:+ ".sh")) \/
    (exists n, path = ho_tmp h n) /\ ho_files h' !! path = None }.

Lemma confined_same dir h h' : ho_files h' = ho_files h -> ho_tmp h' = ho_tmp h -> confined dir h h'.
Proof. intros Hf Ht. split; [done|]. intros path. by rewrite Hf. Qed.

#[local] Instance confined_pre dir : PreOrder (confined dir).
Proof.
  split; [intros h; by apply confined_same|]. intros h1 h2 h3 [T12 F12] [T23 F23]. split; [congruence|].
  intros path Hne. destruct (decide (ho_files h3 !! path = ho_files h2 !! path)) as [E|E].
  - rewrite E in Hne |- *. by apply F12.
  - destruct (F23 path E) as [?|[[n Hn] ?]]; [by left|]. right. split; [|done]. exists n. by rewrite <- T12.
Qed.

(** A change of one file of the save directory. *)
Lemma confined_at dir h h' path base :
  base_name base -> path = dir +:+ "/" +:+ base +:+ ".json" \/ path = dir +:+ "/" +:+ base +:+ ".sh" ->
  ho_tmp h' = ho_tmp h -> (forall p, p <> path -> ho_files h' !! p = ho_files h !! p) -> confined dir h h'.
Proof.
  intros Hb Hp Ht Hf. split; [done|]. intros p Hne. left. exists base. split; [done|].
  destruct (decide (p = path)) as [->|Hn]; [done|]. by rewrite Hf in Hne.
Qed.

Lemma io_confined dir h : confined dir h (io h).1.
Proof. by apply confined_same. Qed.

Lemma and_then_confined dir h h1 k :
  confined dir h h1 -> (forall h2, confined dir h h2 -> confined dir h (k h2).1) -> confined dir h (and_then (io h1) k).1.
Proof.
  intros Hst Hk. pose proof (io_confined dir h1) as Hio. unfold and_then. destruct (io h1) as [h2 [e|]].
  - etransitivity; [exact Hst|exact Hio].
  - apply Hk. etransitivity; [exact Hst|exact Hio].
Qed.

Lemma saveData_confined rd pm h : base_name (file_base pm) -> confined (rd_saveDir rd) h (saveData rd pm h).1.
Proof.
  intros Hb. unfold saveData. cbv zeta. set (js := _ +:+ "/" +:+ _ +:+ ".json"). set (sh := _ +:+ "/" +:+ _ +:+ ".sh").
  assert (forall h (f : File -> File), confined (rd_saveDir rd) h (h <| ho_files := alter f js (ho_files h) |>)) as Hj.
  { intros h0 f. apply (confined_at _ _ _ js (file_base pm)); [done|by left|done|]. intros p Hp. by apply lookup_alter_ne. }
  assert (forall h (f : File -> File), confined (rd_saveDir rd) h (h <| ho_files := alter f sh (ho_files h) |>)) as Hs.
  { intros h0 f. apply (confined_at _ _ _ sh (file_base pm)); [done|by right|done|]. intros p Hp. by apply lookup_alter_ne. }
  assert (forall path m h, path = js \/ path = sh -> confined (rd_saveDir rd) h (truncate path m h)) as Ht.
  { intros path m h0 Hp. apply (confined_at _ _ _ path (file_base pm)); [done|destruct Hp as [->| ->]; [by left|by right]|done|].
    intros p Hne. by apply lookup_insert_ne. }
  assert (forall h0, confined (rd_saveDir rd) h0
    (and_then (io h0) (fun h => and_then (io (truncate js 384 h)) (fun h => and_then (io (fill js (pm_body pm) h)) (fun h =>
      and_then (io (truncate sh 448 h)) (fun h => and_then (io (fill sh (Execute (script (rd_useHttpie rd)) (template_data rd pm)) h))
        (fun h => (chmod sh 448 h, Ok tt))))))).1) as Hw.
  { intros h0. apply and_then_confined; [done|]. intros h1 Hst.
    do 4 (apply and_then_confined;
      [etransitivity; [eassumption|first [by apply Ht; auto|apply Hj|apply Hs]]|clear dependent h1; intros h1 Hst]).
    cbn [fst]. etransitivity; [exact Hst|]. apply Hs. }
  destruct (bool_decide _); [apply Hw|]. apply and_then_confined; [done|]. intros h1 Hst. etransitivity; [exact Hst|].
  etransitivity; [|apply Hw]. by apply confined_same.
Qed.

(** A temporary file is gone when its user is done. *)
Lemma temp_file_confined dir data msg h k :
  (forall name h0, confined dir h0 (k name h0).1) -> confined dir h (temp_file data msg h k).1.
Proof.
  intros Hk. unfold temp_file, io. cbv zeta. destruct (ho_fault h (ho_pos h)); [by apply confined_same|].
  set (name := ho_tmp h (ho_pos h)). cbn [ho_fault truncate set_fld ho_pos].
  assert (forall h', ho_tmp h' = ho_tmp h -> (forall p, p <> name -> ho_files h' !! p <> ho_files h !! p ->
    (exists base, base_name base /\ (p = dir +:+ "/" +:+ base +:+ ".json" \/ p = dir +:+ "/" +:+ base +:+ ".sh")) \/
    (exists n, p = ho_tmp h n) /\ ho_files h' !! p = None) -> confined dir h (remove name h')) as Hrm.
  { intros h' Ht Hf. split; [done|]. intros p Hp. cbn [ho_files remove set_fld] in *.
    destruct (decide (p = name)) as [->|Hn]; [right; split; [by exists (ho_pos h)|apply lookup_delete_eq]|].
    rewrite lookup_delete_ne in * by done. by apply Hf. }
  destruct (ho_fault h (S (ho_pos h))).
  - cbn [fst]. apply Hrm; [done|]. intros p Hp Hne. destruct Hne. cbn. by apply lookup_insert_ne.
  - match goal with |- context [k name ?h0] => pose proof (Hk name h0) as [Ht Hf]; set (h1 := h0) in * end.
    destruct (k name h1) as [h2 r2]. cbn [fst] in *. apply Hrm; [by rewrite Ht|]. intros p Hp Hne.
    assert (ho_files h1 !! p = ho_files h !! p) as Es.
    { unfold h1, fill, truncate. cbn. by rewrite lookup_alter_ne, lookup_insert_ne. }
    rewrite <- Es in Hne. exact (Hf p Hne).
Qed.

Lemma runExecCommand_confined dir rd pm h : confined dir h (runExecCommand rd pm h).1.
Proof.
  unfold runExecCommand. destruct (negb _); [done|]. apply temp_file_confined. intros n1 h1.
  apply temp_file_confined. intros n2 h2. destruct (ho_exit _ _) as [[? ?] ?]. by apply confined_same.
Qed.

Lemma act_confined rd pm h : base_name (file_base pm) -> confined (rd_saveDir rd) h (act rd pm h).1.
Proof.
  intros Hb. unfold act. set (x := if bool_decide _ then _ else _).
  assert (confined (rd_saveDir rd) h x.1) as Hx by (subst x; destruct (bool_decide _); [done|by apply saveData_confined]).
  destruct x as [h1 [r1|]]; [|exact Hx]. set (y := if rd_noReplay rd then _ else _).
  assert (confined (rd_saveDir rd) h1 y.1) as Hy.
  { subst y. destruct (rd_noReplay rd); [done|]. apply and_then_confined; [done|]. intros h2 Hst.
    etransitivity; [exact Hst|]. by apply confined_same. }
  cbn [fst] in Hx. destruct y as [h2 [r2|]]; [|by etransitivity; [exact Hx|exact Hy]].
  destruct (bool_decide _); [by etransitivity; [exact Hx|exact Hy]|].
  pose proof (runExecCommand_confined (rd_saveDir rd) rd pm h2) as Hz. destruct (runExecCommand rd pm h2) as [h3 r3].
  etransitivity; [exact Hx|]. etransitivity; [exact Hy|exact Hz].
Qed.

Lemma parse_entry_base data entry pm dt pm' dt' :
  base_name (pm_eventType pm) -> parse_entry data entry (pm, dt) = Ok (pm', dt') -> base_name (pm_eventType pm').
Proof.
  destruct entry as [k j]. intros Hb. unfold parse_entry, with_header.
  repeat (case_match; try discriminate); intros [= <- <-]; cbn; auto using event_type_base.
Qed.

Lemma parse_base rd now data pm : parse rd now data = Ok pm -> base_name (file_base pm).
Proof.
  unfold parse. intros (kvs & _ & ([pm0 dt] & Ep & E)%res_bind_Ok)%res_bind_Ok.
  assert (base_name (pm_eventType pm0)) as Hb.
  { revert Ep. generalize (map_range (list_to_map (reverse kvs) : gmap string json)).
    assert (base_name (pm_eventType msg_empty)) as Hempty by done. revert Hempty. generalize msg_empty now.
    intros pm1 dt1 Hempty l. revert pm1 dt1 Hempty. induction l as [|e l IH]; intros pm1 dt1 Hempty; [by intros [= <- <-]|].
    cbn [parse_entries]. intros ([pm2 dt2] & Est & E2)%res_bind_Ok. eapply IH; [|exact E2]. by eapply parse_entry_base. }
  assert (pm = with_default_type (pm0 <| pm_timestamp := Format_ts dt |>)) as ->.
  { revert E. cbv zeta. destruct (_ && _); [by intros [= <-]|]. destruct (_ && _); [done|by intros [= <-]]. }
  pose proof (Format_ts_base dt) as Hf. generalize dependent (Format_ts dt). intros t _ Hf.
  unfold with_default_type, with_header. destruct (_ && _); unfold file_base; cbn [pm_eventType pm_timestamp set_fld];
    (destruct (bool_decide _); [exact Hf|apply base_name_app; [exact Hb|by apply base_name_app]]).
Qed.

End files.

(** ** Instances *)

(** Title case on ASCII letters: the first letter of each run of letters. *)
Definition is_letter (c : ascii) : bool := let n := Ascii.nat_of_ascii (lower_ascii c) in (97 <=? n)%nat && (n <=? 122)%nat.
Fixpoint ascii_title (start : bool) (s : string) : string :=
  match s with
  | EmptyString => EmptyString
  | String c s' => String (if start then upper_ascii c else c) (ascii_title (negb (is_letter c)) s')
  end.
#[export] Instance ascii_titler : Titler := {| title := ascii_title true |}.
#[export] Instance ascii_titler_laws : TitlerLaws.
Proof.
  split. intros s. cbn. generalize true. induction s as [|c s IH]; intros b; [done|]. cbn. rewrite IH.
  destruct b; [by rewrite lower_upper|done].
Qed.

#[export] Instance strict_decode : MapDecode := {|
  ms_Decode o := match o with Some (JObj kvs) => Ok kvs | None | Some JNull => Ok [] | _ => Err (errorf "expected a map") end |}.
#[export] Instance strict_decode_laws : MapDecodeLaws.
Proof. by split. Qed.

#[export] Instance key_order : MapOrder := {| map_range A m := map_to_list m |}.
#[export] Instance key_order_laws : MapOrderLaws.
Proof. by split. Qed.

#[export] Instance no_raw : RawText := {| raw_body data := data |}.

(** The command lines that end the two scripts. *)
#[export] Instance command_lines : Scripts := {|
  script httpie :=
    if httpie then [Text "http -F $http_flags POST "; FTargetURL; Text " Content-Type:"; FContentType; Text " "; FHeaders; Text " < ./"; FFileBase; Text ".json"]
    else [Text "curl $curl_flags -H "; FContentType; Text " "; FHeaders; Text " -X POST -d @./"; FFileBase; Text ".json "; FTargetURL] |}.

Definition demo_host : Host :=
  mkHost ∅ ∅ ["PATH=/bin"; "SECRET=x"; "LC_TIME=C"] 0 (fun _ => None) (fun _ => "/tmp/t") [] (fun _ => Ok 200%Z) [] (fun _ => ([], [], None)).
Definition demo_opts : replayDataOpts :=
  mkOpts false "" "http://localhost:8080" "" [] false "" [] [] 0 (EncodeToString false zero_key).

(** ** Witnesses *)

Definition relay_world : World (RaftStore mapdb) := demo_world {[ channel_key "build" := jenc sealed_channel ]}.
Definition relay_post : Request :=
  demo_request <| rq_Method := "POST" |> <| rq_Params := {[ "channel" := "build" ]} |> <| rq_Body := Ok demo_body |>
    <| rq_Header := {[ "Content-Type" := ["application/json"]; "X-Github-Event" := ["push"]; "Authorization" := ["secret"] ]} |>.
Definition ok_or {A} (d : A) (r : res A) : A := match r with Ok a => a | Err _ => d end.
Definition relay_channel : Channel := ok_or channel_zero (svc_ResolveChannelConfig (w_svc relay_world) "build").
Definition relay_sealed : Rand * res string := EncryptForChannel (w_svc relay_world) "build" demo_body (w_rand relay_world).
Definition relay_payload : string := ok_or "" relay_sealed.2.
Definition relay_event : gmap string json :=
  <["event_id" := JStr "e1"]> (<["bodyB" := JStr (EncodeToString false relay_payload)]>
    (<["timestamp" := JStr "0"]> (forwarded_headers (rq_Header relay_post)))).
Definition relay_world' : World (RaftStore mapdb) :=
  relay_world <| w_wire := w_wire relay_world ++ [(subject_prefix +:+ "build", js_text (event_doc relay_event))] |>.

Lemma relay_published : published relay_post relay_world "build" relay_channel demo_body relay_payload relay_event relay_world'.
Proof.
  split.
  - vm_compute. reflexivity.
  - reflexivity.
  - intros Hne. exfalso. apply Hne. vm_compute. reflexivity.
  - intros g Hg Hk. assert (repo_GetGlobalConfig (svc_repo (w_svc relay_world)) = Ok DefaultGlobalConfig) as E by (vm_compute; reflexivity).
    rewrite E in Hg. injection Hg as <-. vm_compute in Hk. discriminate.
  - left. exists relay_sealed.1. vm_compute. reflexivity.
  - reflexivity.
  - by exists "0", "e1".
  - intros k v Hk. assert (map_Forall (fun k (_ : json) => k ∈ forwardedHeaderAllowlist \/ k ∈ ["timestamp"; "bodyB"; "event_id"]) relay_event) as H.
    { apply (bool_decide_unpack _). vm_compute. exact I. }
    exact (H k v Hk).
  - reflexivity.
Qed.


(** ** Findings on concrete runs *)

(** Two deliveries of one type within a minute, at the same millisecond of
    different seconds, are saved under one name: the second overwrites the first. *)
Lemma saved_names_collide t k :
  (t / minute = (t + k * second) / minute)%Z -> Format_ts t = Format_ts (t + k * second)%Z.
Proof.
  intros E. unfold Format_ts. rewrite <- E. destruct (civil _) as [[y m] d].
  replace ((t + k * second) / 1000000)%Z with (t / 1000000 + k * 1000)%Z.
  - by rewrite Z.mod_add by lia.
  - rewrite <- Z.div_add by lia. f_equal. unfold second. lia.
Qed.

(** 19 April 2022, 18:03:49.188 UTC, as the client prints it: no seconds. *)
Lemma Format_ts_example : Format_ts (UnixMilli 1650391429188) = "2022-04-19T18.03.04.188".
Proof. vm_compute. reflexivity. Qed.

(** A replay requested through the API is answered 202 and published, but every
    client drops the event: its envelope has no header to forward. *)
Definition replay_request : Request :=
  demo_request <| rq_Method := "POST" |> <| rq_Params := {[ "channel" := "build"; "eventId" := "e1" ]} |>.
Definition replay_world : World (RaftStore mapdb) := demo_world {[ channel_key "build" := jenc demo_channel ]}.
Definition replay_run := HandleEventReplay replay_request replay_world.

Lemma replayed_event_dropped :
  rp_Status replay_run.2 = 202%Z /\
  match w_wire replay_run.1 with
  | [(_, data)] => (on_event demo_opts "build" None 1 (mkEvent "" data) demo_host).2 = VNoHeaders
  | _ => False
  end.
Proof. split; vm_compute; reflexivity. Qed.

(** The readiness filter looks for its word anywhere in the envelope, the base64
    text of the body included: an event with this body is accepted, published and
    lost. *)
Definition unlucky_body : string := "{" +:+ dquote +:+ "k" +:+ dquote +:+ ":" +:+ dquote +:+ "atDh61" +:+ dquote +:+ "}".
Definition unlucky_data : string :=
  "{" +:+ dquote +:+ "bodyB" +:+ dquote +:+ ":" +:+ dquote +:+ EncodeToString false unlucky_body +:+ dquote +:+ "}".
Lemma readiness_filter_swallows rd channel priv now h :
  on_event rd channel priv now (mkEvent "" unlucky_data) h = (h, VConnection).
Proof.
  unfold on_event. cbn [sv_Event sv_Data]. assert (connection_message unlucky_data = true) as -> by (vm_compute; reflexivity).
  rewrite !bool_decide_false by (vm_compute; discriminate). reflexivity.
Qed.
