(* ===== verification/Oidc.v ===== *)
(** * Oidc: internal/handler/oidc.go

    Login through an OpenID Connect provider.  The provider's endpoints, the ID
    token verification of go-oidc and net/url's parsing are classes; the handlers
    run on the [World] of Middleware.v, whose service is the account resolver. *)

From S2P Require Import Prelude Json Domain Bolt Crypto Store Repo Authorization RateLimit Http Service Buffer Broker Encryption Middleware AuthHandler.

#[local] Arguments jenc : simpl never.
#[local] Arguments jdec : simpl never.

(** ** net/url, net/http and go-oidc *)

(** url.Parse, the parts the code reads. *)
Record URL := mkURL { u_Scheme : string; u_Host : string; u_Hostname : string; u_Path : string }.
Class UrlParse := { url_Parse : string -> option URL; host_IsLoopback : string -> bool }.

(** A request of the bounded HTTP client and its answer: the status and the body
    read to its end, or the error of either. *)
Record OidcRequest := mkOidcRequest { oq_Method : string; oq_URL : string; oq_Auth : string; oq_Form : list (string * string) }.
Class OidcNet := { http_Do : OidcRequest -> res (Z * res string) }.

(** The ID token go-oidc accepted: signature, issuer, audience and expiry have been
    checked; [Claims] decodes its payload. *)
Record IDToken := mkIDToken { id_Subject : string; id_Nonce : string; id_Claims : res (list (string * json)) }.
Class Verifier := { id_Verify : string -> string -> string -> res IDToken (* issuer, client ID, raw token *);
                    oidc_NewProvider : string -> option goerr }.

(** url.QueryEscape *)
Definition hex_upper (n : Z) : ascii := let c := hex_digit n in
  if (97 <=? byte_val c)%Z then byte_of (byte_val c - 32) else c.
Definition unreserved (c : ascii) : bool := is_alnum c || elem_str c "-_.~".
Fixpoint QueryEscape (s : string) : string :=
  match s with
  | EmptyString => EmptyString
  | String c s' =>
      if unreserved c then String c (QueryEscape s')
      else if bool_decide (c = " "%char) then String "+" (QueryEscape s')
      else String "%" (String (hex_upper (byte_val c / 16)) (String (hex_upper (byte_val c mod 16)) (QueryEscape s')))
  end.

(** path.Clean of a rooted path: empty and "." elements vanish, ".." drops the one
    before it. *)
Fixpoint clean_elements (elems stack : list string) : list string :=
  match elems with
  | [] => reverse stack
  | e :: elems' =>
      if bool_decide (e = "") || bool_decide (e = ".") then clean_elements elems' stack
      else if bool_decide (e = "..") then clean_elements elems' (tail stack)
      else clean_elements elems' (e :: stack)
  end.
Definition Clean_rooted (p : string) : string := "/" +:+ Join (clean_elements (Split p "/") []) "/".

(** hexEscapeNonASCII *)
Fixpoint hexEscapeNonASCII (s : string) : string :=
  match s with
  | EmptyString => EmptyString
  | String c s' =>
      if (byte_val c <? 128)%Z then String c (hexEscapeNonASCII s')
      else String "%" (String (hex_digit (byte_val c / 16)) (String (hex_digit (byte_val c mod 16)) (hexEscapeNonASCII s')))
  end.

Section oidc.
Context `{!UrlParse}.

(** http.Redirect to a rooted path: the path is cleaned, a trailing slash and the
    query are kept. *)
Definition redirect_location (target : string) : string :=
  hexEscapeNonASCII
    (match url_Parse target with
     | Some u =>
         if bool_decide (u_Scheme u = "") && bool_decide (u_Host u = "") then
           let '(p, query) := match Cut target "?" with Some (p, q) => (p, String "?" q) | None => (target, "") end in
           let cleaned := Clean_rooted p in
           (if HasSuffix p "/" && negb (HasSuffix cleaned "/") then cleaned +:+ "/" else cleaned) +:+ query
         else target
     | None => target
     end).

(** An absolute URL is sent as it is. *)
Definition redirect_to (location : string) (resp : Response) : Response :=
  mkResponse 302 (hdr_Set "Location" location (rp_Header resp)) NoBody.

(** ** Cookies *)

(** sanitizeCookieValue: bytes a cookie may not hold are dropped, and a value with
    a blank or a comma is quoted. *)
Definition cookie_byte (c : ascii) : bool :=
  (32 <=? byte_val c)%Z && (byte_val c <? 127)%Z && negb (bool_decide (c ∈ Ascii.ascii_of_nat <$> [34; 59; 92])).
Fixpoint filter_str (p : ascii -> bool) (s : string) : string :=
  match s with EmptyString => EmptyString | String c s' => if p c then String c (filter_str p s') else filter_str p s' end.
Definition sanitizeCookieValue (v : string) : string :=
  let v := filter_str cookie_byte v in
  if elem_str " " v || elem_str "," v then dquote +:+ v +:+ dquote else v.

Definition oidcStateCookieName : string := "oidc_state".
Definition oidcNonceCookieName : string := "oidc_nonce".

Definition oidc_cookie (name value : string) (secure : bool) (maxAge : string) : string :=
  name +:+ "=" +:+ sanitizeCookieValue value +:+ "; Path=/; Max-Age=" +:+ maxAge +:+ "; HttpOnly" +:+
  (if secure then "; Secure" else "") +:+ "; SameSite=Lax".

(** http.SetCookie *)
Definition SetCookie (cookie : string) (resp : Response) : Response :=
  resp <| rp_Header := <["Set-Cookie" := default [] (rp_Header resp !! "Set-Cookie") ++ [cookie]]> (rp_Header resp) |>.
Definition clearOIDCStateCookie (secure : bool) : Response -> Response := SetCookie (oidc_cookie oidcStateCookieName "" secure "0").
Definition clearOIDCNonceCookie (secure : bool) : Response -> Response := SetCookie (oidc_cookie oidcNonceCookieName "" secure "0").

(** http.Error on a writer whose headers are already [resp]'s. *)
Definition error_on (msg : string) (status : Z) (resp : Response) : Response := mkResponse status (rp_Header resp) (TextBody msg).
Definition fresh : Response := mkResponse 200 ∅ NoBody.

(** ** Issuers and endpoints *)

Definition validateIssuer (provider : OIDCProvider) : res unit :=
  match url_Parse (op_IssuerURL provider) with
  | None => Err (errorf "parse issuer_url")
  | Some u =>
      if negb (bool_decide (u_Scheme u = "https")) && negb (op_AllowInsecureIssuer provider) &&
         negb (bool_decide (u_Hostname u = "localhost") || host_IsLoopback (u_Hostname u))
      then Err (errorf "issuer_url must use https") else Ok tt
  end.

Definition endpointAllowed (provider : OIDCProvider) (endpoint : string) : bool :=
  if bool_decide (op_AllowedEndpoints provider = []) then true
  else match url_Parse endpoint with
       | None => false
       | Some u =>
           existsb (fun allowed =>
             match url_Parse allowed with
             | None => false
             | Some a => bool_decide (u_Host a = u_Host u) && HasPrefix (u_Path u) (u_Path a)
             end) (op_AllowedEndpoints provider)
       end.

Definition oidcMaxBody : Z := 1048576.

(** readCapped on a body read to its end. *)
Definition readCapped (body : res string) (limit : Z) : res string :=
  res_bind body (fun data =>
  if (limit <? Z.of_nat (String.length data))%Z then Err (errorf "response body exceeds limit") else Ok data).

Record OIDCDiscovery := mkDisc { dc_Authorization : string; dc_Token : string; dc_Userinfo : string }.
#[export] Instance eta_disc : Eta OIDCDiscovery := fun x => mkDisc (dc_Authorization x) (dc_Token x) (dc_Userinfo x).
#[export] Instance codec_disc : JsonCodec OIDCDiscovery := struct_codec (mkDisc "" "" "") [
  fld "authorization_endpoint" dc_Authorization (set_fld dc_Authorization);
  fld "token_endpoint" dc_Token (set_fld dc_Token);
  fld "userinfo_endpoint" dc_Userinfo (set_fld dc_Userinfo) ].

(** [oh_resolver] tells whether a Resolver is set, as the server always does. *)
Record OIDCHandler := mkOIDC {
  oh_Provider : OIDCProvider; oh_Discovery : OIDCDiscovery; oh_SessionSecret : string; oh_PublicURL : string;
  oh_SecureCookies : bool; oh_resolver : bool }.
#[export] Instance eta_oidc : Eta OIDCHandler := fun x =>
  mkOIDC (oh_Provider x) (oh_Discovery x) (oh_SessionSecret x) (oh_PublicURL x) (oh_SecureCookies x) (oh_resolver x).

Context `{!JsonText} `{!OidcNet} `{!Verifier}.

(** The body of an answer 200, capped. *)
Definition fetch (q : OidcRequest) (what : string) : res string :=
  res_bind (http_Do q) (fun '(status, body) =>
  if negb (bool_decide (status = 200%Z)) then Err (errorf (what +:+ " returned " +:+ Itoa status))
  else readCapped body oidcMaxBody).

Definition NewOIDCHandler (provider : OIDCProvider) (sessionSecret publicURL : string) (secureCookies : bool) : res OIDCHandler :=
  let provider := if bool_decide (op_GroupsClaim provider = "") then provider <| op_GroupsClaim := "groups" |> else provider in
  res_bind (validateIssuer provider) (fun _ =>
  let discURL := TrimSuffix (op_IssuerURL provider) "/" +:+ "/.well-known/openid-configuration" in
  res_bind (fetch (mkOidcRequest "GET" discURL "" []) "oidc discovery") (fun body =>
  match unmarshal_text (A := OIDCDiscovery) body with
  | None => Err (errorf "invalid discovery document")
  | Some disc =>
      if negb (endpointAllowed provider (dc_Token disc)) || negb (endpointAllowed provider (dc_Userinfo disc))
      then Err (errorf "oidc discovery returned endpoints outside allowed_endpoints")
      else if bool_decide (dc_Token disc = "") then Err (errorf "oidc discovery is missing token_endpoint")
      else match oidc_NewProvider (op_IssuerURL provider) with
           | Some e => Err (errorf ("oidc provider discovery: " +:+ err_msg e))
           | None => Ok (mkOIDC provider disc sessionSecret publicURL secureCookies false)
           end
  end)).

(** Same-site relative paths only. *)
Definition safeRedirectPath (redirect : string) : string :=
  if bool_decide (redirect = "") then "/"
  else if HasPrefix redirect "/" && negb (HasPrefix redirect "//") && negb (HasPrefix redirect "/\") &&
          negb (elem_str (Ascii.ascii_of_nat 13) redirect) && negb (elem_str (Ascii.ascii_of_nat 10) redirect)
       then redirect
       else "/".

(** ** Claims *)

(** json.Unmarshal into a map[string]any: the members, the last of a name. *)
Abbreviation claims_map := (gmap string json).
Definition unmarshal_map (data : string) : res claims_map :=
  match js_parse data with
  | Some (JObj kvs) => Ok (list_to_map (reverse kvs))
  | Some JNull => Ok ∅
  | _ => Err (errorf "json: cannot unmarshal")
  end.

Definition str_claim (m : claims_map) (k : string) : option string := match m !! k with Some (JStr s) => Some s | _ => None end.
Definition email_unverified (m : claims_map) : bool := match m !! "email_verified" with Some (JBool false) => true | _ => false end.

Definition extractGroupsFromToken (token : claims_map) (claimName : string) : list string :=
  match token !! (if bool_decide (claimName = "") then "groups" else claimName) with
  | Some (JArr l) => omap (fun g => match g with JStr s => Some s | _ => None end) l
  | Some (JStr s) => Split s ","
  | _ => []
  end.

(** ** The provider's endpoints *)

Definition redirectURI (h : OIDCHandler) : string := oh_PublicURL h +:+ "/auth/oidc/" +:+ op_ID (oh_Provider h) +:+ "/callback".

Definition exchangeCode (h : OIDCHandler) (code : string) : res claims_map :=
  res_bind (fetch (mkOidcRequest "POST" (dc_Token (oh_Discovery h)) ""
              [("grant_type", "authorization_code"); ("code", code); ("redirect_uri", redirectURI h);
               ("client_id", op_ClientID (oh_Provider h)); ("client_secret", op_ClientSecret (oh_Provider h))]) "token endpoint")
    unmarshal_map.

Definition getUserInfo (h : OIDCHandler) (accessToken : string) : res claims_map :=
  res_bind (fetch (mkOidcRequest "GET" (dc_Userinfo (oh_Discovery h)) ("Bearer " +:+ accessToken) []) "userinfo endpoint") unmarshal_map.

Definition verifyIDToken (h : OIDCHandler) (rawIDToken nonce : string) : res (IDToken * claims_map) :=
  match id_Verify (op_IssuerURL (oh_Provider h)) (op_ClientID (oh_Provider h)) rawIDToken with
  | Err e => Err (errorf ("verify id token: " +:+ err_msg e))
  | Ok idToken =>
      if bool_decide (nonce = "") || negb (bool_decide (id_Nonce idToken = nonce)) then Err (errorf "id token nonce mismatch")
      else match id_Claims idToken with
           | Err e => Err (errorf ("decode id token claims: " +:+ err_msg e))
           | Ok kvs => Ok (idToken, list_to_map (reverse kvs))
           end
  end.

(** ** The handlers *)

Context {R : Type} `{!Repository R} `{!Net} `{!Crypto}.
Abbreviation W := (World R).

Definition random_hex (w : W) : W * res string :=
  let (rnd, x) := GenerateRandomHex (w_rand w) in (w <| w_rand := rnd |>, x).

Definition LoginHandler (h : OIDCHandler) : Handler W := fun r w =>
  let redirect := safeRedirectPath (hdr_Get (rq_Query r) "redirect") in
  match random_hex w with
  | (w, Err e) => (w, http_Error ("Failed to generate state: " +:+ err_msg e) 500)
  | (w, Ok state) =>
      match random_hex w with
      | (w, Err e) => (w, http_Error ("Failed to generate nonce: " +:+ err_msg e) 500)
      | (w, Ok nonce) =>
          let resp := SetCookie (oidc_cookie oidcStateCookieName (state +:+ "|" +:+ redirect) (oh_SecureCookies h) "300") fresh in
          let resp := SetCookie (oidc_cookie oidcNonceCookieName nonce (oh_SecureCookies h) "300") resp in
          let p := oh_Provider h in
          let authURL := dc_Authorization (oh_Discovery h) +:+ "?response_type=code&client_id=" +:+ QueryEscape (op_ClientID p) +:+
            "&scope=" +:+ QueryEscape (Join (op_Scopes p) " ") +:+ "&state=" +:+ QueryEscape state +:+
            "&nonce=" +:+ QueryEscape nonce +:+ "&redirect_uri=" +:+ QueryEscape (redirectURI h) in
          (w, redirect_to authURL resp)
      end
  end.

(** The session of a subject; [None] when no account is linked to it.  The stored
    identity is looked up; a missing session ID is not an error. *)
Definition buildOIDCSession (h : OIDCHandler) (subject : string) (claims : claims_map) (w : W) : W * res SessionToken :=
  let p := oh_Provider h in
  let issuer := TrimSuffix (op_IssuerURL p) "/" in
  let tok := session_zero <| st_Method := "oidc" |> <| st_Provider := op_ID p |> <| st_Issuer := issuer |>
    <| st_Subject := subject |> <| st_ExpiresAt := wrap64 (time_Unix (w_now w) + sessionMaxAge) |>
    <| st_Groups := extractGroupsFromToken claims (op_GroupsClaim p) |> in
  if negb (oh_resolver h) then
    (w, Ok (tok <| st_Username := match str_claim claims "email" with
                                  | Some email => if bool_decide (email = "") then subject else email
                                  | None => subject end |>))
  else
    match svc_GetUserByExternalIdentity (op_ID p) issuer subject (w_svc w) with
    | Err _ => (w, Err (errorf "no account linked for external identity"))
    | Ok user =>
        let tok := tok <| st_UserID := u_ID user |> <| st_Username := u_Username user |>
          <| st_AuthEpoch := svc_GetAuthEpoch (w_svc w) |> in
        let '(w, sid) := random_hex w in
        (w, Ok (match sid with Ok sid => tok <| st_SessionID := sid |> | Err _ => tok end))
    end.

(** The session cookie and the redirect that end a login. *)
Definition finish_login (h : OIDCHandler) (redirect : string) (tok : SessionToken) (resp : Response) : Response :=
  let encoded := EncodeSession tok (oh_SessionSecret h) in
  let resp := clearOIDCNonceCookie (oh_SecureCookies h) resp in
  let resp := SetCookie (session_cookie encoded (oh_SecureCookies h) (Itoa sessionMaxAge)) resp in
  redirect_to (redirect_location redirect) resp.

Definition CallbackHandler (h : OIDCHandler) : Handler W := fun r w =>
  let code := hdr_Get (rq_Query r) "code" in
  let state := hdr_Get (rq_Query r) "state" in
  if bool_decide (code = "") || bool_decide (state = "") then (w, http_Error "Missing code or state" 400)
  else
    match rq_Cookies r !! oidcStateCookieName with
    | None => (w, http_Error "Missing state cookie" 400)
    | Some cookie =>
        match Cut cookie "|" with
        | None => (w, http_Error "Invalid state" 400)
        | Some (saved, target) =>
            if negb (bool_decide (saved = state)) then (w, http_Error "Invalid state" 400)
            else
              let redirect := safeRedirectPath target in
              let resp := clearOIDCStateCookie (oh_SecureCookies h) fresh in
              let login (subject : string) (claims : claims_map) :=
                match buildOIDCSession h subject claims w with
                | (w, Err _) => (w, error_on "no account linked for this identity" 403 resp)
                | (w, Ok tok) => (w, finish_login h redirect tok resp)
                end in
              match exchangeCode h code with
              | Err e => (w, error_on ("Token exchange failed: " +:+ err_msg e) 500 resp)
              | Ok token =>
                  match str_claim token "access_token" with
                  | None => (w, error_on "No access token in response" 500 resp)
                  | Some accessToken =>
                      let rawIDToken := default "" (str_claim token "id_token") in
                      if negb (bool_decide (rawIDToken = "")) then
                        let nonce := default "" (rq_Cookies r !! oidcNonceCookieName) in
                        match verifyIDToken h rawIDToken nonce with
                        | Err _ => (w, error_on "ID token validation failed" 400 resp)
                        | Ok (idToken, claims) =>
                            if email_unverified claims then (w, error_on "email not verified" 403 resp)
                            else login (id_Subject idToken) claims
                        end
                      else
                        match getUserInfo h accessToken with
                        | Err e => (w, error_on ("Userinfo failed: " +:+ err_msg e) 500 resp)
                        | Ok userInfo =>
                            if email_unverified userInfo then (w, error_on "email not verified" 403 resp)
                            else
                              let sub := default "" (str_claim userInfo "sub") in
                              if bool_decide (sub = "") then (w, error_on "userinfo missing sub" 403 resp)
                              else login sub userInfo
                        end
                  end
              end
        end
    end.
End oidc.
