(* ===== verification/OidcTheory.v ===== *)
(** * OidcTheory: logins through a provider

    A callback opens a session only for the subject the provider vouched for, with
    the browser's own state and nonce, and only when an account is linked to that
    subject; the redirect that ends it stays on the site; client secrets go to the
    allowed endpoints.  No request of the API links an account, so a deployment
    that has none linked never lets anybody in this way. *)

From stdpp Require Import relations.
From S2P Require Import Prelude Json Domain Bolt Fsm Crypto Store Repo Authorization StoreTheory RateLimit Http Service ServiceTheory Buffer Broker Encryption Middleware MiddlewareTheory AuthHandler ApiDto Api Governance ApiTheory ApiSpec LoginTheory Oidc.

#[local] Arguments jenc : simpl never.
#[local] Arguments jdec : simpl never.

(** ** Paths that stay on the site *)

(** What a browser resolves on the same host: one slash, and not a second one or a
    backslash after it; no control byte it would strip. *)
Definition on_site (l : string) : Prop :=
  match l with
  | String "/" t => match t with String c _ => c <> "/"%char /\ c <> "\"%char | EmptyString => True end
  | _ => False
  end /\ all_str (fun c => 32 <=? byte_val c)%Z l = true.

Lemma Split_all p s sep : all_str p s = true -> Forall (fun e => all_str p e = true /\ elem_str sep e = false) (Split s sep).
Proof.
  induction s as [|c s IH]; [by repeat constructor|]. cbn. intros [Hc Hs]%andb_true_iff. specialize (IH Hs).
  destruct (bool_decide (c = sep)) eqn:E; [by constructor|]. apply bool_decide_eq_false in E.
  destruct (Split s sep) as [|e es] eqn:Es; [by repeat constructor; cbn; rewrite ?Hc, ?bool_decide_false|].
  apply Forall_cons in IH as [[He Hn] IH]. constructor; [|done]. cbn. rewrite Hc, He, Hn, bool_decide_false by done. done.
Qed.

Lemma Join_all p l sep : p sep = true -> Forall (fun e => all_str p e = true) l -> all_str p (Join l (String sep "")) = true.
Proof.
  intros Hsep Hl. induction Hl as [|e l He Hl IH]; [done|]. destruct l as [|e2 l]; [done|].
  change (Join (e :: e2 :: l) (String sep "")) with (e +:+ String sep "" +:+ Join (e2 :: l) (String sep "")).
  rewrite !all_str_app, He, IH. cbn. by rewrite Hsep.
Qed.

Lemma clean_Forall (P : string -> Prop) elems stack :
  Forall P elems -> Forall (fun e => P e /\ e <> "") stack -> Forall (fun e => P e /\ e <> "") (clean_elements elems stack).
Proof.
  intros He. revert stack. induction He as [|e elems He _ IH]; intros stack Hs; cbn [clean_elements].
  - by apply Forall_reverse.
  - destruct (bool_decide (e = "") || bool_decide (e = ".")) eqn:E; [by apply IH|].
    apply orb_false_iff in E as [E%bool_decide_eq_false _].
    case_bool_decide; apply IH; [by destruct Hs|by constructor].
Qed.

(** Clean keeps a rooted path rooted, once. *)
Lemma Clean_on_site p :
  all_str cookie_byte p = true -> on_site (Clean_rooted p) /\ all_str cookie_byte (Clean_rooted p) = true.
Proof.
  intros Hp. unfold Clean_rooted.
  pose proof (clean_Forall _ _ [] (Split_all cookie_byte p "/" Hp) (proj2 (Forall_nil _) I)) as Hc.
  assert (all_str cookie_byte ("/" +:+ Join (clean_elements (Split p "/") []) "/") = true) as Hall.
  { rewrite all_str_app. apply andb_true_iff. split; [done|]. apply Join_all; [done|].
    eapply Forall_impl; [exact Hc|]. by intros e [[? _] _]. }
  split; [|exact Hall]. split.
  - destruct (clean_elements _ _) as [|e l]; [done|]. apply Forall_inv in Hc as [[He Hs] Hne].
    destruct e as [|c e]; [done|]. cbn in He, Hs. apply andb_true_iff in He as [He _]. apply orb_false_iff in Hs as [Hs _].
    assert (exists t, "/" +:+ Join (String c e :: l) "/" = String "/" (String c t)) as [t ->].
    { destruct l; by eexists. }
    split; [intros ->; by rewrite bool_decide_true in Hs|intros ->; vm_compute in He; discriminate].
  - revert Hall. apply all_str_impl. intros c. unfold cookie_byte. intros [[H _]%andb_true_iff _]%andb_true_iff. exact H.
Qed.

Lemma on_site_app l q : on_site l -> all_str cookie_byte q = true -> (forall c q', q = String c q' -> c <> "/"%char /\ c <> "\"%char) ->
  on_site (l +:+ q).
Proof.
  intros [Hl Hb] Hq Hhd. split.
  - destruct l as [|c l]; [done|]. destruct (decide (c = "/"%char)) as [->|Hc].
    + change (String "/" l +:+ q) with (String "/" (l +:+ q)). destruct l as [|d l]; [|exact Hl].
      change ("" +:+ q) with q. destruct q as [|c q']; [done|]. by eapply Hhd.
    + exfalso. destruct c as [[] [] [] [] [] [] [] []]; try exact Hl; by apply Hc.
  - rewrite all_str_app, Hb. revert Hq. apply all_str_impl. intros c. unfold cookie_byte. rewrite !andb_true_iff. tauto.
Qed.

Lemma hexEscape_ascii s : all_str cookie_byte s = true -> hexEscapeNonASCII s = s.
Proof.
  induction s as [|c s IH]; [done|]. cbn [all_str hexEscapeNonASCII]. intros [Hc Hs]%andb_true_iff.
  unfold cookie_byte in Hc. rewrite !andb_true_iff in Hc. destruct Hc as [[_ Hlt] _].
  replace (byte_val c <? 128)%Z with true; [by rewrite IH|]. symmetry. lia.
Qed.

Lemma cookie_slash_prefix s : all_str cookie_byte s = true -> HasPrefix s "/" = true -> HasPrefix s "//" = false -> on_site s.
Proof.
  intros Hc Hp Hpp. destruct s as [|c s]; [done|]. unfold HasPrefix in *. rewrite prefix_cons in Hp.
  apply andb_true_iff in Hp as [<-%bool_decide_eq_true _]. split.
  - destruct s as [|d s]; [done|]. rewrite !prefix_cons in Hpp. rewrite bool_decide_true in Hpp by done. cbn [andb] in Hpp.
    split; [intros ->; rewrite bool_decide_true in Hpp by done; by destruct s|].
    intros ->. cbn in Hc. vm_compute (cookie_byte "\") in Hc. by rewrite !andb_false_r in Hc || discriminate.
  - revert Hc. apply all_str_impl. intros c. unfold cookie_byte. rewrite !andb_true_iff. tauto.
Qed.

Lemma safe_path_cookie target : all_str cookie_byte target = true ->
  all_str cookie_byte (safeRedirectPath target) = true /\ on_site (safeRedirectPath target).
Proof.
  intros Hc. unfold safeRedirectPath. case_bool_decide; [by repeat split|].
  destruct (HasPrefix target "/") eqn:E1; [|by repeat split]. destruct (HasPrefix target "//") eqn:E2; [by repeat split|].
  cbn [negb andb]. destruct (HasPrefix target "/\"); [by repeat split|]. cbn [negb andb].
  destruct (negb _ && negb _); [|by repeat split]. split; [done|]. by apply cookie_slash_prefix.
Qed.

Section redirect.
Context `{!UrlParse}.

(** Where a login ends is on the site, whatever path the browser asked to come back
    to: the target is what the state cookie holds, a value net/http only reads when
    every byte of it may stand in a cookie. *)
Theorem login_redirect_on_site (target : string) (Hcookie : all_str cookie_byte target = true) :
  on_site (redirect_location (safeRedirectPath target)).
Proof.
  destruct (safe_path_cookie target Hcookie) as [Hc Hs]. unfold redirect_location.
  set (t := safeRedirectPath target) in *. clearbody t.
  assert (on_site t -> on_site (hexEscapeNonASCII t)) as Hid by (by rewrite hexEscape_ascii).
  destruct (url_Parse t) as [u|]; [|by apply Hid]. destruct (_ && _); [|by apply Hid]. clear Hid.
  assert (forall p query, all_str cookie_byte p = true -> all_str cookie_byte query = true ->
    (forall c q', query = String c q' -> c = "?"%char) ->
    on_site (hexEscapeNonASCII ((if HasSuffix p "/" && negb (HasSuffix (Clean_rooted p) "/") then Clean_rooted p +:+ "/"
                                 else Clean_rooted p) +:+ query))) as Hfin.
  { intros p query Hp Hq Hq1. destruct (Clean_on_site p Hp) as [Hsite Hall].
    assert (all_str cookie_byte ((if HasSuffix p "/" && negb (HasSuffix (Clean_rooted p) "/") then Clean_rooted p +:+ "/"
                                 else Clean_rooted p) +:+ query) = true) as Hb.
    { rewrite all_str_app, Hq. destruct (HasSuffix p "/" && _); [rewrite all_str_app|]; by rewrite Hall. }
    rewrite hexEscape_ascii by exact Hb. apply on_site_app; [|exact Hq|intros c q' ->; by rewrite (Hq1 c q' eq_refl)].
    destruct (HasSuffix p "/" && negb (HasSuffix (Clean_rooted p) "/")) eqn:E; [|exact Hsite].
    apply andb_true_iff in E as [_ E%negb_true_iff]. destruct Hsite as [Hh Hb2]. split; [|by rewrite all_str_app, Hb2].
    unfold Clean_rooted in *. destruct (Join _ "/") as [|c t2] eqn:Ej; [by vm_compute in E|]. exact Hh. }
  destruct (Cut t "?") as [[p q]|] eqn:Ecut.
  - apply Cut_spec in Ecut as [-> _]. rewrite all_str_app in Hc. apply andb_true_iff in Hc as [Hp Hq].
    apply Hfin; [exact Hp|exact Hq|by intros c q' [= <- _]].
  - by apply Hfin.
Qed.
End redirect.

(** ** Callbacks *)

(** A document made of plain fields. *)
Lemma plain_fields {A} (fs : list (field A)) a :
  Forall (fun f => match f_enc f a with Some j => ascii_str (f_name f) && js_plain j | None => true end = true) fs ->
  js_plain (JObj (enc_fields fs a)) = true.
Proof.
  intros Hf. induction Hf as [|f fs H _ IH]; [done|]. cbn [enc_fields]. destruct (f_enc f a) as [j|]; [|exact IH].
  cbn [js_plain forallb fst snd] in *. by rewrite H, IH.
Qed.

Lemma plain_strings l : Forall (fun s => ascii_str s = true) l -> js_plain (jenc l) = true.
Proof.
  intros Hl. change (js_plain (JArr (jenc <$> l)) = true). induction Hl as [|s l Hs _ IH]; [done|].
  cbn [js_plain fmap list_fmap forallb] in *. apply andb_true_iff. split; [exact Hs|exact IH].
Qed.

Section callback.
Context `{!UrlParse} `{!JsonText} `{!JsonTextLaws} `{!OidcNet} `{!Verifier} {R : Type} `{!Repository R} `{!Net} `{!Url} `{!Crypto}.
Implicit Types (r : Request) (w : World R) (h : OIDCHandler).

Definition issuer_of h : string := TrimSuffix (op_IssuerURL (oh_Provider h)) "/".

(** The session a login opens. *)
Definition oidc_token h (subject : string) (claims : gmap string json) (user : User) (sid : string) (epoch expires : Z) : SessionToken :=
  mkSession (u_ID user) (u_Username user) "oidc" (op_ID (oh_Provider h)) (issuer_of h) subject expires
    (extractGroupsFromToken claims (op_GroupsClaim (oh_Provider h))) sid epoch.

(** The provider vouches for a subject: an ID token it signed for this client and
    this browser's nonce, or, when it returns none, its userinfo endpoint. *)
Definition vouched h r (subject : string) (claims : gmap string json) : Prop :=
  exists token accessToken, exchangeCode h (hdr_Get (rq_Query r) "code") = Ok token /\
    str_claim token "access_token" = Some accessToken /\
    ((exists raw idt kvs, str_claim token "id_token" = Some raw /\ raw <> "" /\
        id_Verify (op_IssuerURL (oh_Provider h)) (op_ClientID (oh_Provider h)) raw = Ok idt /\
        id_Nonce idt <> "" /\ rq_Cookies r !! oidcNonceCookieName = Some (id_Nonce idt) /\
        id_Claims idt = Ok kvs /\ claims = list_to_map (reverse kvs) /\ subject = id_Subject idt) \/
     (default "" (str_claim token "id_token") = "" /\ getUserInfo h accessToken = Ok claims /\
        str_claim claims "sub" = Some subject /\ subject <> "")).

(** What a finished login answers. *)
Record logged_in h r w w' resp (target subject : string) (claims : gmap string json) (user : User) (sid : string) : Prop := {
  li_status : rp_Status resp = 302%Z;
  li_code : hdr_Get (rq_Query r) "code" <> "" /\ hdr_Get (rq_Query r) "state" <> "";
  li_state : rq_Cookies r !! oidcStateCookieName = Some (hdr_Get (rq_Query r) "state" +:+ String "|" target);
  li_vouched : vouched h r subject claims;
  li_email : email_unverified claims = false;
  li_user : svc_GetUserByExternalIdentity (op_ID (oh_Provider h)) (issuer_of h) subject (w_svc w) = Ok user;
  li_cookies : rp_Header resp !! "Set-Cookie" = Some [
    oidc_cookie oidcStateCookieName "" (oh_SecureCookies h) "0"; oidc_cookie oidcNonceCookieName "" (oh_SecureCookies h) "0";
    session_cookie (EncodeSession (oidc_token h subject claims user sid (svc_GetAuthEpoch (w_svc w))
      (wrap64 (time_Unix (w_now w) + sessionMaxAge))) (oh_SessionSecret h)) (oh_SecureCookies h) (Itoa sessionMaxAge)];
  li_location : rp_Header resp !! "Location" = Some [redirect_location (safeRedirectPath target)];
  li_svc : w_svc w' = w_svc w }.

(** Any other answer: no redirect, and no cookie but the cleared state. *)
Definition refused_login h w w' resp : Prop :=
  rp_Status resp <> 302%Z /\ w_svc w' = w_svc w /\
  forall c, c ∈ default [] (rp_Header resp !! "Set-Cookie") -> c = oidc_cookie oidcStateCookieName "" (oh_SecureCookies h) "0".

Lemma refused_error h w msg status : status <> 302%Z ->
  refused_login h w w (error_on msg status (clearOIDCStateCookie (oh_SecureCookies h) fresh)).
Proof.
  intros Hs. split; [exact Hs|]. split; [done|]. cbn -[oidc_cookie]. intros c Hc. apply list_elem_of_singleton in Hc. exact Hc.
Qed.

Lemma refused_plain h w msg status : status <> 302%Z -> refused_login h w w (http_Error msg status).
Proof. intros Hs. split; [exact Hs|]. split; [done|]. cbn. intros c Hc. by apply not_elem_of_nil in Hc. Qed.

Lemma buildOIDCSession_spec h subject claims w w' x :
  oh_resolver h = true -> buildOIDCSession h subject claims w = (w', x) ->
  w_svc w' = w_svc w /\
  match x with
  | Ok tok => exists user sid, svc_GetUserByExternalIdentity (op_ID (oh_Provider h)) (issuer_of h) subject (w_svc w) = Ok user /\
      ascii_str sid = true /\
      tok = oidc_token h subject claims user sid (svc_GetAuthEpoch (w_svc w)) (wrap64 (time_Unix (w_now w) + sessionMaxAge))
  | Err _ => w' = w
  end.
Proof.
  intros Hr. unfold buildOIDCSession. cbv zeta. rewrite Hr. cbn [negb]. fold (issuer_of h).
  destruct (svc_GetUserByExternalIdentity _ _ _ _) as [user|]; [|by intros [= <- <-]].
  unfold random_hex, GenerateRandomHex. destruct (rand_Read 16 (w_rand w)) as [rnd [b|]]; intros [= <- <-]; (split; [done|]).
  - exists user, (hex_encode b). split_and!; [done|apply hex_ascii|done].
  - exists user, "". split_and!; done.
Qed.

(** The two outcomes of a callback. *)
Lemma callback_outcome h r w w' resp (Hresolver : oh_resolver h = true) (Hrun : CallbackHandler h r w = (w', resp)) :
  refused_login h w w' resp \/ exists target subject claims user sid, logged_in h r w w' resp target subject claims user sid.
Proof.
  revert Hrun. unfold CallbackHandler. set (code := hdr_Get (rq_Query r) "code"). set (state := hdr_Get (rq_Query r) "state").
  destruct (bool_decide (code = "") || bool_decide (state = "")) eqn:Ecs; [intros [= <- <-]; left; by apply refused_plain|].
  apply orb_false_iff in Ecs as [Hcode%bool_decide_eq_false Hstate%bool_decide_eq_false].
  destruct (rq_Cookies r !! oidcStateCookieName) as [cookie|] eqn:Eck; [|intros [= <- <-]; left; by apply refused_plain].
  destruct (Cut cookie "|") as [[saved target]|] eqn:Ecut; [|intros [= <- <-]; left; by apply refused_plain].
  destruct (bool_decide (saved = state)) eqn:Est; cbn [negb]; [|intros [= <- <-]; left; by apply refused_plain].
  apply bool_decide_eq_true in Est as ->. apply Cut_spec in Ecut as [-> _]. cbv zeta.
  set (resp0 := clearOIDCStateCookie _ fresh).
  assert (forall subject claims, vouched h r subject claims -> email_unverified claims = false ->
    match buildOIDCSession h subject claims w with
    | (w1, Err _) => (w1, error_on "no account linked for this identity" 403 resp0)
    | (w1, Ok tok) => (w1, finish_login h (safeRedirectPath target) tok resp0)
    end = (w', resp) ->
    refused_login h w w' resp \/ exists target subject claims user sid, logged_in h r w w' resp target subject claims user sid) as Hlogin.
  { intros subject claims Hv He. destruct (buildOIDCSession h subject claims w) as [w1 x] eqn:Eb.
    apply buildOIDCSession_spec in Eb as [Hsvc Hx]; [|exact Hresolver]. destruct x as [tok|].
    - destruct Hx as (user & sid & Hu & _ & ->). intros [= <- <-]. right. exists target, subject, claims, user, sid.
      by split.
    - subst w1. intros [= <- <-]. left. by apply refused_error. }
  destruct (exchangeCode h code) as [token|] eqn:Et; [|intros [= <- <-]; left; by apply refused_error].
  destruct (str_claim token "access_token") as [at_|] eqn:Eat; [|intros [= <- <-]; left; by apply refused_error].
  destruct (bool_decide (default "" (str_claim token "id_token") = "")) eqn:Eid; cbn [negb].
  - apply bool_decide_eq_true in Eid. destruct (getUserInfo h at_) as [info|] eqn:Eg; [|intros [= <- <-]; left; by apply refused_error].
    destruct (email_unverified info) eqn:Ee; [intros [= <- <-]; left; by apply refused_error|].
    case_bool_decide as Esub; [intros [= <- <-]; left; by apply refused_error|]. apply Hlogin; [|exact Ee].
    exists token, at_. split; [exact Et|]. split; [exact Eat|]. right. split_and!; try done.
    by destruct (str_claim info "sub").
  - apply bool_decide_eq_false in Eid. unfold verifyIDToken.
    destruct (id_Verify _ _ _) as [idt|] eqn:Ev; [|intros [= <- <-]; left; by apply refused_error].
    destruct (bool_decide _ || negb _) eqn:En; [intros [= <- <-]; left; by apply refused_error|].
    apply orb_false_iff in En as [Hn%bool_decide_eq_false Hn2%negb_false_iff%bool_decide_eq_true].
    destruct (id_Claims idt) as [kvs|] eqn:Ecl; [|intros [= <- <-]; left; by apply refused_error].
    destruct (email_unverified _) eqn:Ee; [intros [= <- <-]; left; by apply refused_error|]. apply Hlogin; [|exact Ee].
    exists token, at_. split; [exact Et|]. split; [exact Eat|]. left.
    destruct (str_claim token "id_token") as [raw|] eqn:Eraw; [|done]. exists raw, idt, kvs. rewrite Hn2.
    split_and!; try done. by destruct (rq_Cookies r !! oidcNonceCookieName).
Qed.


Lemma oidc_token_plain h subject claims user sid epoch expires :
  Forall (fun s => ascii_str s = true) ([u_ID user; u_Username user; op_ID (oh_Provider h); issuer_of h; subject; sid] ++
    extractGroupsFromToken claims (op_GroupsClaim (oh_Provider h))) ->
  js_plain (jenc (oidc_token h subject claims user sid epoch expires)) = true.
Proof.
  intros [Hs Hg]%Forall_app. rewrite !Forall_cons in Hs. destruct Hs as (Ha1 & Ha2 & Ha3 & Ha4 & Ha5 & Ha6 & _).
  pose proof (plain_strings _ Hg) as Hgs. unfold oidc_token.
  change (jenc ?t) with (JObj (enc_fields session_fields t)). apply plain_fields. unfold session_fields.
  repeat (constructor; [cbn [f_enc f_name fld_gen st_UserID st_Username st_Method st_Provider st_Issuer st_Subject st_ExpiresAt
    st_Groups st_SessionID st_AuthEpoch]; destruct (_ && _); [done|];
    first [exact Ha1|exact Ha2|exact Ha3|exact Ha4|exact Ha5|exact Ha6|exact Hgs|reflexivity]|]); constructor.
Qed.

(** The session of a provider login follows its link: at any later time the guard of
    the API lets a request with its cookie through as the account then linked to the
    identity, with the groups of the login, until the day is over or the epoch
    moves, and refuses it as soon as no account is linked any more. *)
Theorem oidc_session_follows_link h r w secure subject claims user sid epoch expires
  (Hascii : Forall (fun s => ascii_str s = true) ([u_ID user; u_Username user; op_ID (oh_Provider h); issuer_of h; subject; sid] ++
    extractGroupsFromToken claims (op_GroupsClaim (oh_Provider h))))
  (Hrange : int64_range epoch = true /\ int64_range expires = true)
  (Hcookie : rq_Cookies r !! sessionCookieName =
     Some (EncodeSession (oidc_token h subject claims user sid epoch expires) (oh_SessionSecret h))) :
  RequireAuth (oh_SessionSecret h) secure r w =
    match svc_GetUserByExternalIdentity (op_ID (oh_Provider h)) (issuer_of h) subject (w_svc w) with
    | Ok linked =>
        if bool_decide (time_Unix (w_now w) <= expires)%Z && bool_decide (epoch = svc_GetAuthEpoch (w_svc w))
        then Next (r <| rq_Ctx := withPrincipal (rq_Ctx r) linked (extractGroupsFromToken claims (op_GroupsClaim (oh_Provider h))) |>) w
        else Answer w (unauthorizedResponse secure r)
    | Err _ => Answer w (unauthorizedResponse secure r)
    end.
Proof.
  unfold RequireAuth. rewrite Hcookie. rewrite session_roundtrip; [|by destruct Hrange; split|by apply oidc_token_plain].
  cbn [st_ExpiresAt oidc_token]. unfold svc_GetUserByExternalIdentity.
  destruct (decide (time_Unix (w_now w) <= expires)%Z) as [Ht|Ht].
  - rewrite (bool_decide_true _ Ht). rewrite bool_decide_false by lia. unfold ResolvePrincipal.
    cbn [st_Method st_Provider st_Issuer st_Subject oidc_token]. rewrite bool_decide_true by done.
    destruct (repo_GetUserByExternalIdentity _ _ _ _) as [linked|]; [|done]. cbn [res_option andb].
    unfold SessionEpochValid. cbn [st_AuthEpoch oidc_token st_Groups]. by case_bool_decide.
  - rewrite (bool_decide_false _ Ht), bool_decide_true by lia. by destruct (repo_GetUserByExternalIdentity _ _ _ _).
Qed.

(** ** Endpoints *)

(** On the allowlist's hosts, under one of its paths. *)
Definition listed_endpoint (p : OIDCProvider) (endpoint : string) : Prop :=
  exists u allowed a, url_Parse endpoint = Some u /\ allowed ∈ op_AllowedEndpoints p /\ url_Parse allowed = Some a /\
    u_Host a = u_Host u /\ HasPrefix (u_Path u) (u_Path a) = true.

Lemma endpointAllowed_spec p endpoint : op_AllowedEndpoints p <> [] ->
  endpointAllowed p endpoint = true <-> listed_endpoint p endpoint.
Proof.
  intros Hne. unfold endpointAllowed. rewrite (bool_decide_false _ Hne). unfold listed_endpoint.
  destruct (url_Parse endpoint) as [u|]; [|split; [done|by intros (? & ? & ? & [=] & _)]].
  rewrite existsb_exists. split.
  - intros (al & Hin & Ha). destruct (url_Parse al) as [a|] eqn:Ea; [|done].
    apply andb_true_iff in Ha as [Hh%bool_decide_eq_true Hp]. exists u, al, a. split_and!; try done. by apply list_elem_of_In.
  - intros (u' & al & a & [= <-] & Hin & Ea & Hh & Hp). exists al. split; [by apply list_elem_of_In|].
    by rewrite Ea, bool_decide_true, Hp.
Qed.

(** With an endpoint allowlist, the client secret and the users' access tokens are
    only sent to a listed host and path, whatever the discovery document said. *)
Theorem secrets_to_listed_endpoints p secret public secure h (Hne : op_AllowedEndpoints p <> [])
  (Hnew : NewOIDCHandler p secret public secure = Ok h) :
  listed_endpoint p (dc_Token (oh_Discovery h)) /\ listed_endpoint p (dc_Userinfo (oh_Discovery h)) /\
  op_AllowedEndpoints (oh_Provider h) = op_AllowedEndpoints p.
Proof.
  revert Hnew. unfold NewOIDCHandler. set (p1 := if bool_decide _ then _ else p).
  assert (op_AllowedEndpoints p1 = op_AllowedEndpoints p) as Ep by (subst p1; by case_bool_decide). clearbody p1.
  intros (u & _ & (body & _ & Hd)%res_bind_Ok)%res_bind_Ok.
  destruct (unmarshal_text body) as [disc|]; [|done].
  destruct (negb (endpointAllowed p1 (dc_Token disc)) || negb (endpointAllowed p1 (dc_Userinfo disc))) eqn:Ee; [done|].
  apply orb_false_iff in Ee as [E1%negb_false_iff E2%negb_false_iff].
  case_bool_decide; [done|]. destruct (oidc_NewProvider _); [done|]. injection Hd as <-. cbn.
  apply endpointAllowed_spec in E1; [|by rewrite Ep]. apply endpointAllowed_spec in E2; [|by rewrite Ep].
  unfold listed_endpoint in *. rewrite Ep in E1, E2. done.
Qed.
End callback.

(** ** Nothing links an account *)

Section linking.
Context {R : Type} `{!Repository R} `{!GovernanceLaws R} `{!Net} `{!Url} `{!Crypto} `{!JsonText} `{!JsonDecoder} `{!Validator}.
Context (rfc3339 : Z -> string).
Implicit Types (r : Request) (w : World R) (s : Service R).
Abbreviation repo w := (svc_repo (w_svc w)).

(** No listed account has an external identity. *)
Definition unlinked s : Prop :=
  gov_ok (svc_repo s) /\ forall id u, gov_user (svc_repo s) id = Some u -> u_ExternalIdentities u = [].

Definition links_none (f : World R -> World R * Response) : Prop := forall w, unlinked (w_svc w) -> unlinked (w_svc (f w).1).

Lemma frame_unlinked s s' : gov_frame (svc_repo s) (svc_repo s') -> unlinked s -> unlinked s'.
Proof. intros (Hok & Hu & _) [_ Hn]. split; [exact Hok|]. intros id u. rewrite Hu. apply Hn. Qed.

Lemma keeps_links f : keeps f -> links_none f.
Proof. intros Hk w Hu. eapply frame_unlinked; [|exact Hu]. apply Hk, Hu. Qed.

Lemma same_repo_unlinked s s' : svc_repo s' = svc_repo s -> unlinked s -> unlinked s'.
Proof. intros E Hu. eapply frame_unlinked; [|exact Hu]. rewrite E. apply gov_frame_refl, Hu. Qed.

Lemma bump_unlinked w : unlinked (w_svc w) -> unlinked (w_svc (bump_epoch w)).
Proof. intros Hu. eapply frame_unlinked; [|exact Hu]. apply bump_frame, Hu. Qed.

Lemma links_body {A} `{JsonCodec A} (k : A -> World R -> World R * Response) r : (forall a, links_none (k a)) -> links_none (with_body k r).
Proof. intros Hk w Hu. unfold with_body. destruct (decodeJSON r) as [a|]; [by apply Hk | done]. Qed.

Lemma createUser_links r : links_none (createUser r).
Proof.
  apply links_body. intros input w Hu. cbv zeta. destruct (negb _); [done|]. destruct (negb _); [done|].
  destruct (negb _); [done|]. pose proof (hash_password_repo (ui_Password input) w) as Hr.
  destruct (hash_password _ w) as [w1 [hash|]]; cbn [fst] in *.
  2:{ by eapply same_repo_unlinked. }
  assert (unlinked (w_svc w1)) as [Hok1 Hn1] by (by eapply same_repo_unlinked). clear Hu Hr.
  match goal with |- context [repo_CreateUser ?v] => set (u := v) end.
  assert (u_ExternalIdentities (named u) = []) as Hno by (unfold named; by case_bool_decide). clearbody u.
  pose proof (law_CreateUser (repo w1) u Hok1) as (Hok & _ & _ & Hnew).
  unfold call', on_repo'. destruct (repo_CreateUser u (repo w1)) as [[r' u'] x]. cbn in *. split; [exact Hok|].
  intros id v Hv. apply Hnew in Hv as [Hv| ->]; [by eapply Hn1|exact Hno].
Qed.

(** A rewritten record of a listed account keeps its links. *)
Lemma replace_user_unlinked w id u v :
  unlinked (w_svc w) -> plain_id id -> repo_GetUser id (repo w) = Ok u -> u_ID v = u_ID u ->
  u_ExternalIdentities v = u_ExternalIdentities u -> unlinked (w_svc (call (on_repo (repo_UpdateUser v)) w).1).
Proof.
  intros [Hok Hn] Hpl Hg Hid He. pose proof (law_GetUser_keyed _ _ _ Hok Hpl Hg) as Hkey.
  destruct (law_UpdateUser (repo w) v Hok) as (Hok' & _ & Hw); [by rewrite Hid, Hkey|].
  unfold call, on_repo. destruct (repo_UpdateUser v (repo w)) as [r' x]. cbn in *. split; [exact Hok'|].
  intros id' v' Hv. cbn [svc_repo] in Hv. destruct (Hw id') as [E|[-> E]]; [rewrite E in Hv; by eapply Hn|].
  rewrite E in Hv. injection Hv as <-. destruct (law_keyed _ _ _ Hok' E) as [_ Hl]. rewrite Hid, Hkey in Hl.
  rewrite He. by eapply Hn, law_GetUser.
Qed.

Lemma merge_user_links input hash u : u_ExternalIdentities (merge_user input hash u) = u_ExternalIdentities u.
Proof. unfold merge_user. case_bool_decide; destruct hash, (ui_Roles input), (ui_Channels input); done. Qed.

Lemma updateUser_links r : segment_params r -> links_none (updateUser r).
Proof.
  intros Hseg. apply links_body. intros input w Hu. cbv zeta. destruct (negb _); [done|].
  destruct (resolveActor r w).1 as [actor|]; [|done]. destruct (repo_GetUser _ _) as [u|] eqn:Eg; [|done].
  destruct (update_refused r w input u); [done|].
  pose proof (new_hash_repo input w) as Hr. destruct (new_hash input w) as [w1 [hash|]]; cbn [fst] in *.
  2:{ by eapply same_repo_unlinked. }
  assert (unlinked (w_svc w1)) as Hu1 by (by eapply same_repo_unlinked).
  pose proof (replace_user_unlinked w1 (URLParam r "id") u (merge_user input hash u) Hu1 (Hseg "id") ltac:(by rewrite Hr)
    (proj1 (merge_user_keeps input hash u)) (merge_user_links input hash u)) as Hu2.
  destruct (call _ w1) as [w2 [?|?]]; cbn [fst] in *; [|exact Hu2].
  destruct (revokes_sessions input); [by apply bump_unlinked | exact Hu2].
Qed.

Lemma updateBinding_links r : segment_params r -> links_none (updateBinding r).
Proof.
  intros Hseg. apply links_body. intros binding w Hu. cbv zeta. destruct (negb _); [done|].
  destruct (repo_GetUser _ _) as [u|] eqn:Eg; [|done]. destruct (binding_refused _ _ _ _); [done|].
  assert (unlinked (w_svc (call (UpdateUserBinding (binding <| ub_UserID := URLParam r "userID" |>)) w).1)) as Hu2.
  { unfold UpdateUserBinding, call. cbn [ub_UserID ub_Roles ub_Channels set_fld]. rewrite Eg.
    set (u' := u <| u_Roles := ub_Roles binding |> <| u_Channels := ub_Channels binding |>).
    exact (replace_user_unlinked w (URLParam r "userID") u u' Hu (Hseg "userID") Eg eq_refl eq_refl). }
  destruct (call _ w) as [w2 [?|?]]; cbn [fst] in *; [|exact Hu2]. by apply bump_unlinked.
Qed.

Lemma deleteUser_links r : segment_params r -> links_none (deleteUser r).
Proof.
  intros Hseg w Hu. unfold deleteUser. destruct (delete_refused _ w); [done|]. unfold delete_commit.
  destruct Hu as [Hok Hn]. destruct (law_DeleteUser (repo w) (URLParam r "id") Hok (Hseg "id")) as (Hok' & _ & Hoth & Hself).
  assert (unlinked (w_svc (call (on_repo (repo_DeleteUser (URLParam r "id"))) w).1)) as Hu2.
  { unfold call, on_repo. destruct (repo_DeleteUser _ (repo w)) as [r' x]. cbn in *. split; [exact Hok'|].
    intros id v Hv. destruct (decide (id = URLParam r "id")) as [->|Hne]; [by eapply Hn, Hself|].
    rewrite Hoth in Hv by done. by eapply Hn. }
  destruct (call _ w) as [w2 [?|?]]; cbn [fst] in *; [|exact Hu2]. by apply bump_unlinked.
Qed.

Lemma store_providers_links ps resp w : unlinked (w_svc w) -> unlinked (w_svc (store_providers ps resp w).1).
Proof.
  intros [Hok Hn]. unfold store_providers. destruct (law_SetOIDCProviders _ ps Hok) as (Hok' & Hu & _).
  assert (unlinked (w_svc (call (on_repo (repo_SetOIDCProviders ps)) w).1)) as Hu2.
  { unfold call, on_repo. destruct (repo_SetOIDCProviders ps (repo w)) as [r' x]. cbn in *. split; [exact Hok'|].
    intros id v. rewrite Hu. apply Hn. }
  destruct (call _ w) as [w2 [?|?]]; cbn [fst] in *; [|exact Hu2]. by apply bump_unlinked.
Qed.

Lemma providers_links r : links_none (updateAllOIDCProviders r) /\ links_none (updateOIDCProvider r) /\ links_none (deleteOIDCProvider r).
Proof.
  split_and!; [apply links_body; intros ps w Hu; cbv zeta; destruct (_ && _)|
    apply links_body; intros p w Hu; destruct (repo_OIDCProviders _)|
    intros w Hu; unfold deleteOIDCProvider; destruct (repo_OIDCProviders _); cbv zeta; [destruct (_ && _)|]];
    try done; by apply store_providers_links.
Qed.

Lemma setInternalAuth_links r : links_none (setInternalAuth r).
Proof.
  apply links_body. intros body w [Hok Hn].
  assert (unlinked (w_svc (call (svc_SetInternalAuthEnabled (en_Enabled body)) w).1)) as Hu2; [|by destruct (call _ w)].
  destruct (law_SetInternalAuthEnabled' _ (en_Enabled body) Hok) as (Hok' & Hu & _).
  unfold call, svc_SetInternalAuthEnabled, on_repo.
  destruct (repo_SetInternalAuthEnabled (en_Enabled body) (repo w)) as [r' x]. cbn in *.
  assert (unlinked ((w_svc w) <| svc_repo := r' |>)) as Hdone.
  { split; cbn; [exact Hok'|]. intros id v. rewrite Hu. apply Hn. }
  destruct (negb _); [|exact Hdone]. destruct (repo_OIDCProviders (repo w)) as [[|p ps]|]; [by split|exact Hdone|by split].
Qed.

Lemma handler_links t r : t ∈ api_routes rfc3339 -> segment_params r -> links_none (rt_Handler t r).
Proof.
  intros Ht Hseg. destruct (providers_links r) as (Hp1 & Hp2 & Hp3). revert t Ht. apply Forall_forall. unfold api_routes. cbv beta zeta.
  repeat (apply Forall_cons; split; [cbn [rt_Handler]|]); [..|by apply Forall_nil];
    first [ solve [auto using updateUser_links, deleteUser_links, updateBinding_links, createUser_links, setInternalAuth_links]
          | apply keeps_links; first
              [ solve [auto using createChannel_keeps, updateChannel_keeps, generateSecret_keeps, createAccessToken_keeps,
                         updateAccessMode_keeps, addChannelACLEntry_keeps, createRoleMapping_keeps, updateGlobalConfig_keeps,
                         listChannels_keeps, getUser_keeps, listUsers_keeps, getGlobalConfig_keeps, listOIDCProviders_keeps,
                         getMe_keeps]
              | apply keeps_write; intros s Hok; auto with gov
              | apply keeps_channel; intros ch; by apply keeps_same
              | by apply keeps_same ] ].
Qed.

Lemma steps_unlinked w w' : rtc (api_step rfc3339) w w' -> unlinked (w_svc w) -> unlinked (w_svc w').
Proof.
  induction 1 as [w|w w1 w2 Hs _ IH]; [done|]. intros Hu. apply IH. destruct Hs as [t r w Ht Hseg | w w' Hf]; [|by eapply frame_unlinked].
  unfold run_route, guarded. pose proof (guards_same (rt_Guards t) r w (route_guards rfc3339 t Ht)) as Hg.
  destruct (all_of (rt_Guards t) r w) as [r1 w1|w1 resp]; [|by subst]. destruct Hg as [-> Hp].
  apply handler_links; [exact Ht| |exact Hu]. intros k. unfold URLParam. rewrite Hp. apply Hseg.
Qed.

(** C9. Nobody ever logs in through a provider: no request of the API links an account
    to an external identity, so once no account is linked, as on a fresh
    deployment, every callback is refused, whatever happens in between. *)
Theorem oidc_never_logs_in `{!UrlParse} `{!OidcNet} `{!Verifier} h r w w'
  (Hresolver : oh_resolver h = true) (Hunlinked : unlinked (w_svc w)) (Hsteps : rtc (api_step rfc3339) w w') :
  refused_login h w' (CallbackHandler h r w').1 (CallbackHandler h r w').2.
Proof.
  destruct (steps_unlinked _ _ Hsteps Hunlinked) as [Hok Hn].
  destruct (callback_outcome h r w' _ _ Hresolver (surjective_pairing _)) as [?|(target & subject & claims & user & sid & Hl)]; [done|].
  exfalso. pose proof (li_user _ _ _ _ _ _ _ _ _ _ Hl) as Hu. apply (law_ExternalIdentity _ _ _ _ _ Hok) in Hu as [[id Hid] Hne].
  by apply Hne, (Hn id).
Qed.
End linking.

(** ** A provider *)

(** Absolute https URLs, and paths. *)
#[export] Instance https_urls : UrlParse := {|
  url_Parse s :=
    if HasPrefix s "https://" then
      let rest := TrimPrefix s "https://" in
      match Cut rest "/" with
      | Some (host, path) => Some (mkURL "https" host host (String "/" path))
      | None => Some (mkURL "https" rest rest "")
      end
    else Some (mkURL "" "" "" s);
  host_IsLoopback h := bool_decide (h = "127.0.0.1") |}.

(** One provider, whose token endpoint answers with a signed ID token. *)
#[export] Instance corp_net : OidcNet := {|
  http_Do q :=
    if bool_decide (oq_URL q = "https://idp/.well-known/openid-configuration") then
      Ok (200%Z, Ok (js_text (jenc (mkDisc "https://idp/authorize" "https://idp/token" "https://idp/userinfo"))))
    else if bool_decide (oq_URL q = "https://idp/token") then
      Ok (200%Z, Ok (js_text (JObj [("access_token", JStr "at"); ("id_token", JStr "signed")])))
    else Ok (404%Z, Ok "") |}.
#[export] Instance corp_verifier : Verifier := {|
  id_Verify _ _ raw :=
    if bool_decide (raw = "signed")
    then Ok (mkIDToken "alice-sub" "n0" (Ok [("groups", JArr [JStr "dev"]); ("email_verified", JBool true)]))
    else Err (errorf "oidc: malformed jwt");
  oidc_NewProvider _ := None |}.

Definition corp : OIDCProvider := mkProvider "corp" "Corp" "app" "shh" "https://idp/" ["openid"] "groups" ["https://idp/"] false.
Definition corp_handler : OIDCHandler :=
  match NewOIDCHandler corp "key" "https://relay" true with Ok h => h <| oh_resolver := true |> | Err _ => mkOIDC corp (mkDisc "" "" "") "" "" false true end.
Definition alice : User := mkUser "alice" "alice" "" [] [mkExternalIdentity "corp" "https://idp" "alice-sub"] [] [].
Definition callback : Request :=
  demo_request <| rq_Query := {[ "code" := ["c"]; "state" := ["s1"] ]} |>
    <| rq_Cookies := {[ "oidc_state" := "s1|/channels"; "oidc_nonce" := "n0" ]} |>.

Lemma login_redirect_on_site_witness :
  safeRedirectPath "/a/../b/?q=1" = "/a/../b/?q=1" /\ on_site (redirect_location (safeRedirectPath "/a/../b/?q=1")).
Proof. split; [reflexivity|]. apply (login_redirect_on_site "/a/../b/?q=1"). vm_compute. reflexivity. Defined.


Lemma oidc_session_follows_link_witness :
  let tok := oidc_token corp_handler "alice-sub" {[ "groups" := JArr [JStr "dev"] ]} alice "aa" 0 1000 in
  let r := callback <| rq_Cookies := {[ sessionCookieName := EncodeSession tok "key" ]} |> in
  RequireAuth "key" true r (api_world [alice]) =
    Next (r <| rq_Ctx := withPrincipal (rq_Ctx r) alice ["dev"] |>) (api_world [alice]) /\
  exists a, RequireAuth "key" true r (api_world [root]) = Answer (api_world [root]) a.
Proof.
  intros tok r.
  assert (Forall (fun s => ascii_str s = true) ([u_ID alice; u_Username alice; op_ID (oh_Provider corp_handler);
    issuer_of corp_handler; "alice-sub"; "aa"] ++ extractGroupsFromToken {[ "groups" := JArr [JStr "dev"] ]}
      (op_GroupsClaim (oh_Provider corp_handler)))) as Ha by (apply (bool_decide_unpack _); vm_compute; exact I).
  assert (rq_Cookies r !! sessionCookieName = Some (EncodeSession tok (oh_SessionSecret corp_handler))) as Hc by (vm_compute; reflexivity).
  change "key" with (oh_SessionSecret corp_handler). split.
  - rewrite (oidc_session_follows_link corp_handler r (api_world [alice]) true "alice-sub" {[ "groups" := JArr [JStr "dev"] ]}
      alice "aa" 0 1000 Ha (conj eq_refl eq_refl) Hc). vm_compute. reflexivity.
  - rewrite (oidc_session_follows_link corp_handler r (api_world [root]) true "alice-sub" {[ "groups" := JArr [JStr "dev"] ]}
      alice "aa" 0 1000 Ha (conj eq_refl eq_refl) Hc). eexists. vm_compute. reflexivity.
Defined.

Lemma secrets_to_listed_endpoints_witness : exists h, NewOIDCHandler corp "key" "https://relay" true = Ok h /\
  listed_endpoint corp (dc_Token (oh_Discovery h)).
Proof.
  eexists. split; [vm_compute; reflexivity|].
  refine (proj1 (secrets_to_listed_endpoints corp "key" "https://relay" true _ _ _)); [done|vm_compute; reflexivity].
Defined.

Lemma root_unlinked : unlinked (w_svc (api_world [root])).
Proof.
  split; [apply root_administered|]. intros id u. cbn [gov_user raft_governance]. unfold raft_user.
  destruct (decide _); [|done]. by intros [_ ->]%root_alone.
Qed.

(** The subject of [corp] is refused before and after a request that edits root. *)
Lemma oidc_never_logs_in_witness :
  let r := as_user root (api_request "PUT" {[ "id" := "root" ]} (JObj [("channels", JArr [JStr "*"; JStr "ops"])])) in
  let x := run_route (mkRoute "PUT" "/users/{id}/" [RequirePermission PermUsersWrite] updateUser) r (api_world [root]) in
  rp_Status x.2 = 200%Z /\ refused_login corp_handler x.1 (CallbackHandler corp_handler callback x.1).1
    (CallbackHandler corp_handler callback x.1).2.
Proof.
  intros r x. split; [vm_compute; reflexivity|].
  refine (oidc_never_logs_in Itoa corp_handler callback (api_world [root]) x.1 eq_refl root_unlinked _).
  apply rtc_once, step_route.
  - by apply (list_elem_of_lookup_2 _ 18).
  - intros k. unfold plain_id, URLParam. change (rq_Params r) with (<["id" := "root"]> (∅ : gmap string string)).
    rewrite lookup_insert. by destruct (decide ("id" = k)).
Defined.
