(* ===== verification/Proxy.v ===== *)
(** * Proxy: internal/proxy

    The encrypting relay in front of a channel (proxyHandler) and the one-shot
    producer (produce): both seal a payload to the channel's public key on the
    sender's machine.  The HTTP client and the key material's files are the record
    [Sender]; net/url is the classes [UrlParse] and [UrlQuery], [UrlScheme]. *)

From S2P Require Import Prelude Json Domain Bolt Crypto Store Repo Authorization RateLimit Http Service Encryption Middleware Webhook Client Oidc.

(** ** The machine *)

(** An upstream answer: its status, headers and body read to its end. *)
Record Answer := mkAnswer { an_Status : Z; an_Header : Header; an_Body : res string }.

(** [sn_files] is what os.ReadFile gives, [sn_answer] what the n-th request gets
    back. *)
Record Sender := mkSender {
  sn_files : string -> res string; sn_stdin : res string; sn_rand : Rand; sn_sent : list Outgoing;
  sn_answer : nat -> res Answer }.
#[export] Instance eta_sender : Eta Sender := fun x => mkSender (sn_files x) (sn_stdin x) (sn_rand x) (sn_sent x) (sn_answer x).

(** client.Do *)
Definition send (q : Outgoing) (s : Sender) : Sender * res Answer :=
  (s <| sn_sent := sn_sent s ++ [q] |>, sn_answer s (length (sn_sent s))).

(** url.Parse, https when the scheme is empty, and String. *)
Class UrlScheme := { https_default : string -> res string }.

(** ** Headers *)

Definition proxyForwardAllowlist : list string := [
  "content-type"; "user-agent"; "x-event-type"; "x-github-event"; "x-github-delivery"; "x-github-hook-id";
  "x-gitlab-event"; "x-gitlab-event-uuid"; "x-gitlab-token"; "x-gitea-event"; "x-gitea-delivery"; "x-gitea-signature";
  "x-event-key"; "x-bitbucket-event"; "x-bitbucket-delivery"; "x-hub-signature"; "x-hub-signature-256" ].

Definition proxy_forwards (kv : string * list string) : Prop :=
  contains_str proxyForwardAllowlist (ToLower kv.1) = true /\ kv.2 <> [].

Section proxy.
Context `{!Net} `{!JsonText} `{!Box} `{!UrlParse} `{!UrlQuery} `{!UrlScheme}.

Definition client_host (r : Request) : string :=
  match SplitHostPort (rq_RemoteAddr r) with Some (host, _) => host | None => rq_RemoteAddr r end.

Definition forwardableProxyHeaders (r : Request) : Header :=
  hdr_Set "X-Forwarded-For" (client_host r) (filter proxy_forwards (rq_Header r)).

(** proxyHandler; a body that cannot be read whole from upstream is cut. *)
Definition proxyHandler (pubKey targetURL : string) (maxBodySize : Z) (r : Request) (s : Sender) : Sender * Response :=
  if negb (bool_decide (rq_Method r = "POST")) then (s, http_Error "only POST is supported" 405)
  else
    match read_limited maxBodySize r with
    | Err e => (s, read_error e)
    | Ok body =>
        let (rnd, x) := Encrypt body pubKey (sn_rand s) in
        let s := s <| sn_rand := rnd |> in
        match x with
        | Err _ => (s, http_Error "encryption failed" 500)
        | Ok encrypted =>
            match url_Parse targetURL with
            | None => (s, http_Error "parse: invalid URL" 500)
            | Some _ =>
                let q := mkOutgoing targetURL (hdr_Set "Content-Type" "application/json" (forwardableProxyHeaders r)) encrypted in
                match send q s with
                | (s, Err e) => (s, http_Error ("upstream error: " +:+ err_msg e) 502)
                | (s, Ok a) => (s, mkResponse (an_Status a) (an_Header a)
                                     (TextBody (match an_Body a with Ok b => b | Err _ => "" end)))
                end
            end
        end
    end.

(** ** Command lines *)

(** The public key of the two flags, the inline one first. *)
Definition public_key (pubkey pubkeyFile : string) (s : Sender) : res string :=
  if negb (bool_decide (pubkey = "")) then
    match ParsePublicKey pubkey with Err e => Err (errorf ("invalid public key: " +:+ err_msg e)) | Ok k => Ok k end
  else if negb (bool_decide (pubkeyFile = "")) then
    match LoadKeyPair (sn_files s) pubkeyFile with Err e => Err (errorf ("load key file: " +:+ err_msg e)) | Ok (k, _) => Ok k end
  else Err (errorf "public key required: use --pubkey or --pubkey-file").

(** URLWithQueryParam *)
Definition URLWithQueryParam (rawURL key value : string) : string :=
  match url_set rawURL [(key, value)] with Ok u => u | Err _ => rawURL end.

Definition with_token (url token : string) : string :=
  if bool_decide (token = "") then url else URLWithQueryParam url "token" token.

(** startProxy: the handler it serves. *)
Definition startProxy (pubkey pubkeyFile target token : string) (maxBodySize : Z) (s : Sender)
  : res (Request -> Sender -> Sender * Response) :=
  res_bind (public_key pubkey pubkeyFile s) (fun pubKey =>
  if bool_decide (target = "") then Err (errorf "target URL required: use --target")
  else Ok (proxyHandler pubKey (with_token target token) maxBodySize)).

Definition postEncryptedPayload (serverURL encrypted : string) (s : Sender) : Sender * res Answer :=
  match https_default serverURL with
  | Err e => (s, Err (errorf ("parse server URL: " +:+ err_msg e)))
  | Ok url => send (mkOutgoing url {[ "Content-Type" := ["application/json"] ]} encrypted) s
  end.

(** produce: what it prints and whether it succeeded. *)
Definition produce (serverURL payloadFile pubkey pubkeyFile token : string) (s : Sender) : Sender * string * res unit :=
  if bool_decide (serverURL = "") then (s, "", Err (errorf "server URL required"))
  else
    match public_key pubkey pubkeyFile s with
    | Err e => (s, "", Err e)
    | Ok pubKey =>
        match (if negb (bool_decide (payloadFile = "")) then sn_files s payloadFile else sn_stdin s) with
        | Err e => (s, "", Err (errorf ((if negb (bool_decide (payloadFile = "")) then "read payload file: " else "read stdin: ") +:+ err_msg e)))
        | Ok payload =>
            if bool_decide (payload = "") then (s, "", Err (errorf "empty payload"))
            else
              let (rnd, x) := Encrypt payload pubKey (sn_rand s) in
              let s := s <| sn_rand := rnd |> in
              match x with
              | Err e => (s, "", Err (errorf ("encrypt payload: " +:+ err_msg e)))
              | Ok encrypted =>
                  match postEncryptedPayload (with_token serverURL token) encrypted s with
                  | (s, Err e) => (s, "", Err (errorf ("post encrypted payload: " +:+ err_msg e)))
                  | (s, Ok a) =>
                      match an_Body a with
                      | Err e => (s, "", Err (errorf ("read server response: " +:+ err_msg e)))
                      | Ok body => (s, body, if (300 <=? an_Status a)%Z then Err (errorf ("server returned " +:+ Itoa (an_Status a))) else Ok tt)
                      end
                  end
              end
        end
    end.
End proxy.
