(* ===== verification/ProxyTheory.v ===== *)
(** * ProxyTheory: webhooks through the encrypting proxy

    What the proxy sends opens to the received body with the channel's private key
    and carries allowlisted headers only; relayed by the server and forwarded by a
    client it arrives as the producer sent it; the server sees the producer's
    address. *)

From S2P Require Import Prelude Json Domain Bolt Crypto Store Repo Authorization RateLimit Http Service Buffer Broker Encryption Middleware Webhook WebhookTheory Events Client ClientTheory Oidc OidcTheory Proxy.

#[local] Arguments jenc : simpl never.
#[local] Arguments jdec : simpl never.

Section proxy.
Context `{!Net} `{!JsonText} `{!JsonTextLaws} `{!Box} `{!BoxLaws} `{!UrlParse}.

(** The headers of a proxied request: the proxy's own two, and the producer's
    allowlisted ones. *)
Definition proxied_header (r : Request) (K : string) : option (list string) :=
  if decide (K = "Content-Type") then Some ["application/json"]
  else if decide (K = "X-Forwarded-For") then Some [client_host r]
  else vs ← rq_Header r !! K; if decide (proxy_forwards (K, vs)) then Some vs else None.

Lemma proxied_header_lookup r K :
  hdr_Set "Content-Type" "application/json" (forwardableProxyHeaders r) !! K = proxied_header r K.
Proof.
  unfold hdr_Set, forwardableProxyHeaders, proxied_header. rewrite lookup_insert. destruct (decide ("Content-Type" = K)) as [<-|Hk1].
  { by rewrite decide_True. }
  rewrite decide_False by done. unfold hdr_Set. rewrite lookup_insert. destruct (decide ("X-Forwarded-For" = K)) as [<-|Hk2].
  { by rewrite decide_True. }
  rewrite decide_False by done. apply option_eq. intros vs. rewrite map_lookup_filter_Some.
  destruct (rq_Header r !! K) as [ws|]; cbn; [|naive_solver]. case_decide; naive_solver.
Qed.

(** What the proxy did with a request. *)
Record sealed_request (priv target : string) (limit : Z) (r : Request) (body : string) (q : Outgoing) : Prop := {
  sr_method : rq_Method r = "POST";
  sr_body : rq_Body r = Ok body;
  sr_limit : (Z.of_nat (String.length body) <= Z.max 0 limit)%Z;
  sr_url : og_URL q = target;
  sr_header : forall K, og_Header q !! K = proxied_header r K;
  sr_marked : IsEncrypted (og_Body q) = true;
  sr_opens : forall ctx, DecryptWithContext (og_Body q) priv ctx = Ok body }.

(** The proxy sends at most one request, to its target: a sealed copy of the body it
    received within its limit, under allowlisted headers.  Every refusal sends
    nothing. *)
Lemma proxy_sends priv target limit r s s' resp (Hfill : rand_fills (sn_rand s))
  (Hrun : proxyHandler (box_public priv) target limit r s = (s', resp)) :
  (sn_sent s' = sn_sent s /\ rp_Status resp ∈ [405; 413; 500]%Z) \/
  exists body q, sn_sent s' = sn_sent s ++ [q] /\ sealed_request priv target limit r body q.
Proof.
  revert Hrun. unfold proxyHandler. destruct (bool_decide _) eqn:Em; cbn [negb].
  2:{ intros [= <- <-]. left. split; [done|]. cbn. set_solver. }
  apply bool_decide_eq_true in Em. unfold read_limited. destruct (rq_Body r) as [b|e] eqn:Eb.
  2:{ intros [= <- <-]. left. split; [done|]. unfold read_error. destruct (Contains _ _); cbn; set_solver. }
  destruct (_ <? _)%Z eqn:El.
  { intros [= <- <-]. left. split; [done|]. vm_compute (rp_Status _). set_solver. }
  apply Z.ltb_ge in El. destruct (Encrypt b (box_public priv) (sn_rand s)) as [rnd [env|e]] eqn:Ee.
  2:{ intros [= <- <-]. left. split; [done|]. cbn. set_solver. }
  destruct (url_Parse target) as [u|].
  2:{ intros [= <- <-]. left. split; [done|]. cbn. set_solver. }
  unfold send. cbn [sn_sent set_fld sn_answer]. intros Hrun. right.
  exists b, (mkOutgoing target (hdr_Set "Content-Type" "application/json" (forwardableProxyHeaders r)) env).
  split; [by destruct (sn_answer s _) as [a|]; injection Hrun as <- <-|].
  split; cbn [og_URL og_Header og_Body]; try done; [by intros K; rewrite proxied_header_lookup| |].
  - exact (proj1 (v1_opens b priv "" _ _ env Hfill Ee)).
  - intros ctx. exact (proj2 (v1_opens b priv ctx _ _ env Hfill Ee)).
Qed.

(** The server finds the producer's own address behind the proxy: of a proxied
    request whose peer it trusts it takes the host the producer connected from,
    whatever the producer wrote into X-Forwarded-For or X-Real-Ip. *)
Theorem proxy_reports_producer priv target limit r body q r' trusted peer ip
  (Hsealed : sealed_request priv target limit r body q)
  (Hxff : rq_Header r' !! "X-Forwarded-For" = og_Header q !! "X-Forwarded-For")
  (Hpeer : remoteIP r' = Ok peer /\ ipInAny peer trusted = true)
  (Hhost : client_host r <> "" /\ elem_str "," (client_host r) = false /\
     ParseIP (TrimSpace (client_host r)) = Some ip /\ ipInAny ip trusted = false) :
  GetRealIP r' true trusted = Ok ip.
Proof.
  destruct Hpeer as [Hp Ht], Hhost as (Hne & Hc & Hip & Hin). unfold GetRealIP. rewrite Hp, Ht. cbn [negb orb].
  assert (hdr_Get (rq_Header r') "X-Forwarded-For" = client_host r) as ->.
  { unfold hdr_Get. by rewrite Hxff, (sr_header _ _ _ _ _ _ Hsealed). }
  rewrite (bool_decide_false _ Hne).
  assert (Split (client_host r) "," = [client_host r]) as ->.
  { clear -Hc. induction (client_host r) as [|c t IH]; [done|]. cbn in Hc. apply orb_false_iff in Hc as [Hd Ht].
    cbn. rewrite bool_decide_false, (IH Ht); [done|]. intros ->. by rewrite bool_decide_true in Hd. }
  cbn [reverse rev_append xff_walk]. unfold reverse. cbn [rev_append]. cbn [xff_walk]. by rewrite Hip, Hin.
Qed.
End proxy.

Section delivered.
Context `{!JsonText} `{!JsonTextLaws} `{!Crypto} `{!CryptoLaws} `{!Box} `{!BoxLaws} `{!Titler} `{!TitlerLaws}
  `{!MapDecode} `{!MapDecodeLaws} `{!MapOrder} `{!MapOrderLaws} `{!RawText} `{!Scripts} {R : Type} `{!Repository R} `{!Net} `{!UrlParse}.

(** A channel that does not ask the server to encrypt publishes an envelope as it
    came. *)
Lemma envelope_untouched r w channel c body payload event w' :
  published r w channel c body payload event w' -> IsEncrypted body = true ->
  (forall key pub, channel_policy (w_svc w) channel <> Ok ("server_side", key, pub)) -> payload = body.
Proof.
  intros Hpub Hi Hp. destruct (pub_payload _ _ _ _ _ _ _ _ Hpub) as [[rnd He]|[-> _]]; [|done].
  revert He. unfold EncryptForChannel, apply_policy. destruct (channel_policy _ _) as [[[mode key] pub]|]; [|done].
  destruct (bool_decide (mode = "server_side")) eqn:Es; [apply bool_decide_eq_true in Es as ->; by destruct (Hp key pub)|].
  destruct (bool_decide (mode = "e2e")); [|by intros [= _ <-]]. destruct (bool_decide (pub = "")); [done|].
  rewrite Hi. by intros [= _ <-].
Qed.

Lemma relayed_name_forwarded K vs : forwardedHeader K = true -> vs <> [] -> proxy_forwards (K, vs).
Proof.
  unfold forwardedHeader. intros Hk%contains_str_true Hvs. split; [|exact Hvs]. apply contains_str_true.
  unfold forwardedHeaderAllowlist, proxyForwardAllowlist in *. cbn [fst]. set_solver.
Qed.

End delivered.

(** ** A producer behind the proxy *)

Definition producer_request : Request :=
  demo_request <| rq_Method := "POST" |> <| rq_RemoteAddr := "203.0.113.7:5432" |>
    <| rq_Header := {[ "Content-Type" := ["text/plain"]; "X-Github-Event" := ["push"]; "Authorization" := ["Bearer t"];
                       "X-Forwarded-For" := ["1.2.3.4"] ]} |>
    <| rq_Body := Ok demo_body |>.
Definition demo_sender : Sender := mkSender (fun _ => Err (errorf "no such file")) (Ok "") zero_rand [] (fun _ => Ok (mkAnswer 202 ∅ (Ok ""))).
Definition proxy_run := proxyHandler (box_public zero_key) "https://relay/build" 1024 producer_request demo_sender.
Definition proxied : Outgoing := default (mkOutgoing "" ∅ "") (last (sn_sent proxy_run.1)).

(** The channel and the request its server receives from the proxy. *)
Definition e2e_channel : Channel :=
  channel_zero <| ch_ID := "build" |> <| ch_EncryptionMode := "e2e" |>
    <| ch_EncryptionPublicKey := EncodePublicKey (box_public zero_key) |>.
Definition e2e_world : World (RaftStore mapdb) := demo_world {[ channel_key "build" := jenc e2e_channel ]}.
Definition proxied_post : Request :=
  demo_request <| rq_Method := "POST" |> <| rq_Header := og_Header proxied |> <| rq_Body := Ok (og_Body proxied) |>.
Definition e2e_config : Channel := match svc_ResolveChannelConfig (w_svc e2e_world) "build" with Ok c => c | Err _ => channel_zero end.
Definition e2e_event : gmap string json :=
  <["event_id" := JStr "e1"]> (<["bodyB" := JStr (EncodeToString false (og_Body proxied))]>
    (<["timestamp" := JStr "0"]> (forwarded_headers (rq_Header proxied_post)))).
Definition e2e_world' : World (RaftStore mapdb) :=
  e2e_world <| w_wire := w_wire e2e_world ++ [(subject_prefix +:+ "build", js_text (event_doc e2e_event))] |>.

Lemma e2e_published : published proxied_post e2e_world "build" e2e_config (og_Body proxied) (og_Body proxied) e2e_event e2e_world'.
Proof.
  split.
  - vm_compute. reflexivity.
  - reflexivity.
  - intros Hne. exfalso. apply Hne. vm_compute. reflexivity.
  - intros g Hg Hk. assert (repo_GetGlobalConfig (svc_repo (w_svc e2e_world)) = Ok DefaultGlobalConfig) as E by (vm_compute; reflexivity).
    rewrite E in Hg. injection Hg as <-. vm_compute in Hk. discriminate.
  - right. split; [reflexivity|]. vm_compute. reflexivity.
  - reflexivity.
  - by exists "0", "e1".
  - intros k v Hk. assert (map_Forall (fun k (_ : json) => k ∈ forwardedHeaderAllowlist \/ k ∈ ["timestamp"; "bodyB"; "event_id"]) e2e_event) as H.
    { apply (bool_decide_unpack _). vm_compute. exact I. }
    exact (H k v Hk).
  - reflexivity.
Qed.


Lemma proxy_reports_producer_witness :
  GetRealIP (proxied_post <| rq_RemoteAddr := "10.0.0.9:80" |>) true [net_of "10."] = Ok (ip_of "203.0.113.7").
Proof.
  destruct (proxy_sends zero_key "https://relay/build" 1024 producer_request demo_sender proxy_run.1 proxy_run.2 zero_rand_fills
    (surjective_pairing _)) as [[E _]|(body & q & E & Hq)]; [exfalso; apply (f_equal length) in E; vm_compute in E; discriminate|].
  assert (q = proxied) as -> by (unfold proxied; rewrite E; by rewrite last_snoc).
  refine (proxy_reports_producer zero_key "https://relay/build" 1024 producer_request body proxied
    (proxied_post <| rq_RemoteAddr := "10.0.0.9:80" |>) [net_of "10."] (ip_of "10.0.0.9") (ip_of "203.0.113.7") Hq _ _ _).
  - reflexivity.
  - split; reflexivity.
  - split_and!; vm_compute; [discriminate|reflexivity..].
Defined.
