(* ===== verification/Recovery.v ===== *)
(** * Recovery: how a node of the cluster starts

    The first half of NewServer (internal/server/server.go), NewRaftStore of
    internal/repository/raft.go and their helpers raft_generation.go, k8s.go and
    atrest.go: when a node keeps, collapses, wipes or creates its raft
    configuration, and the generation counter in the CA Secret that tells nodes of
    an older configuration to start afresh.  hashicorp/raft's stores on disk are
    the class [RaftDisk], the Kubernetes objects the record [Kube]. *)

From S2P Require Import Prelude Json Crypto Store RateLimit Http Cluster.

(** ** strconv *)

(** ParseUint(s, 10, 64): digits only, no sign. *)
Definition ParseUint (s : string) : option Z :=
  if bool_decide (s = "") then None
  else n ← parse_digits 0 s; if (n <? two64)%Z then Some n else None.
Definition FormatUint (n : Z) : string := Itoa n.

(** ** Kubernetes *)

(** The CA Secret's data and the StatefulSet's spec.replicas as one start of a node
    finds them: whether a client can be built, whether each call succeeds. *)
Record Kube := mkKube {
  ku_client : bool; ku_secret : option (gmap string string); ku_get : bool; ku_update : bool; ku_replicas : option (option Z) }.
#[export] Instance eta_kube : Eta Kube := fun x =>
  mkKube (ku_client x) (ku_secret x) (ku_get x) (ku_update x) (ku_replicas x).

(** statefulSetReplicaReader.replicas; a nil *int32 means 1. *)
Definition replicas (ku : Kube) : option Z := if ku_client ku then default 1%Z <$> ku_replicas ku else None.

Definition get_secret (ku : Kube) : option (gmap string string) := if ku_get ku then ku_secret ku else None.

(** ** raft_generation.go *)

Definition raftGenerationKey : string := "generation".

(** newRaftGenerationStore answers nil without a namespace, a secret or a client. *)
Definition newRaftGenerationStore (namespace secret : string) (ku : Kube) : bool :=
  negb (bool_decide (namespace = "") || bool_decide (secret = "")) && ku_client ku.

(** raftGenerationStore.read: 0 and false when anything is missing. *)
Definition read_generation (ku : Kube) : Z * bool :=
  match data ← get_secret ku; raw ← data !! raftGenerationKey; ParseUint raw with
  | Some gen => (gen, true)
  | None => (0%Z, false)
  end.

(** raftGenerationStore.bump *)
Definition bump (ku : Kube) : Kube * res Z :=
  match get_secret ku with
  | None => (ku, Err (errorf "read raft generation secret"))
  | Some data =>
      let current := default 0%Z (raw ← data !! raftGenerationKey; ParseUint raw) in
      let next := wrapu64 (current + 1) in
      if ku_update ku then (ku <| ku_secret := Some (<[raftGenerationKey := FormatUint next]> data) |>, Ok next)
      else (ku, Err (errorf "update raft generation secret"))
  end.

(** readLocalGeneration on the content of the file. *)
Definition readLocalGeneration (file : option string) : Z * bool :=
  match raw ← file; ParseUint raw with Some gen => (gen, true) | None => (0%Z, false) end.

(** ** NewRaftStore *)

(** raft's stores on disk: the entry points of hashicorp/raft that decide the
    configuration, and what a reader of the stores finds.  [rk_wiped] is what
    opening the stores anew leaves after their files are gone. *)
Class RaftDisk (D : Type) := {
  rk_HasExistingState : D -> res bool;
  rk_RecoverCluster : list RaftServer -> D -> D * res unit;
  rk_BootstrapCluster : list RaftServer -> D -> D * option (option goerr);   (* [Some None] is ErrCantBootstrap *)
  rk_wiped : D;
  rk_config : D -> option (list RaftServer);
  rk_data : D -> list json
}.

(** What a start meets besides: the outcome of each step that can fail, and the
    address the transport advertises. *)
Record Boot := mkBoot {
  bt_config : option goerr;      (* advertise address and TLS material *)
  bt_keeper : option goerr;      (* the at-rest key file *)
  bt_dir : option goerr; bt_removes : bool; bt_open : option goerr; bt_transport : res string;
  bt_raft : option goerr; bt_writes : bool }.

(** The part of RaftConfig that decides the configuration. *)
Record RaftConfig := mkRaftConfig { rg_NodeID : string; rg_resolver : PeerResolver; rg_RecoveryMode : bool; rg_SingleNodeRecovery : bool }.

Section node.
Context {D : Type} `{!RaftDisk D} `{!Net}.

(** clearRaftState, and the stores as they are opened afterwards. *)
Definition clearStaleRaftState (cfg : RaftConfig) (env : Boot) (d : D) : D :=
  if rg_RecoveryMode cfg && bt_removes env then rk_wiped else d.

(** The single-node collapse: whether it happened. *)
Definition recover_single (cfg : RaftConfig) (seed : bool) (single : list RaftServer) (d : D) : D * res bool :=
  if rg_SingleNodeRecovery cfg && seed && negb (rg_RecoveryMode cfg) then
    match rk_HasExistingState d with
    | Err e => (d, Err (errorf ("check existing raft state: " +:+ err_msg e)))
    | Ok false => (d, Ok false)
    | Ok true =>
        match rk_RecoverCluster single d with
        | (d, Err e) => (d, Err (errorf ("single-node raft recovery: " +:+ err_msg e)))
        | (d, Ok _) => (d, Ok true)
        end
    end
  else (d, Ok false).

Definition bootstrap_seed (seed recovered : bool) (single : list RaftServer) (d : D) : D * res unit :=
  if seed && negb recovered then
    match rk_BootstrapCluster single d with
    | (d, Some (Some e)) => (d, Err (errorf ("bootstrap raft cluster: " +:+ err_msg e)))
    | (d, _) => (d, Ok tt)
    end
  else (d, Ok tt).

Definition failed (e : option goerr) : res unit := match e with Some e => Err e | None => Ok tt end.

(** NewRaftStore: the stores it leaves, and the node's ID. *)
Definition NewRaftStore (cfg : RaftConfig) (env : Boot) (d : D) : D * res string :=
  match res_bind (failed (bt_dir env)) (fun _ => resolveBootstrapState (rg_NodeID cfg) (rg_resolver cfg)) with
  | Err e => (d, Err e)
  | Ok (nodeID, seed) =>
      let d := clearStaleRaftState cfg env d in
      match res_bind (failed (bt_open env)) (fun _ => bt_transport env) with
      | Err e => (d, Err e)
      | Ok advertise =>
          let single := raftConfigurationFromPeers [mkPeer nodeID advertise] in
          match recover_single cfg seed single d with
          | (d, Err e) => (d, Err e)
          | (d, Ok recovered) =>
              match bootstrap_seed seed recovered single d with
              | (d, Err e) => (d, Err e)
              | (d, Ok _) => (d, match bt_raft env with Some e => Err (errorf ("new raft: " +:+ err_msg e)) | None => Ok nodeID end)
              end
          end
      end
  end.

(** ** NewServer, up to the raft store *)

(** What a node keeps on its volume: raft's stores and the generation file. *)
Record Node := mkNode { nd_raft : D; nd_generation : option string }.

(** The flags it reads; [fg_discovery] holds raft-node-id, raft-replicas,
    raft-statefulset-name and the effective namespace among others. *)
Record ServerFlags := mkServerFlags {
  fg_discovery : RaftDiscoveryConfig; fg_hostname : string; fg_caSecret : string; fg_recoveryMode : bool }.

(** effectiveNamespace *)
Definition effectiveNamespace (flag podNamespace : string) : string := if bool_decide (flag = "") then podNamespace else flag.

(** The StatefulSet is read only by a multi-replica deployment of one. *)
Definition reads_replicas (fg : ServerFlags) : bool :=
  let c := fg_discovery fg in
  negb (bool_decide (rd_StatefulSetName c = "")) && negb (bool_decide (rd_Namespace c = "")) && (1 <? rd_Replicas c)%Z.
Definition singleNodeRecovery (fg : ServerFlags) (ku : Kube) : bool :=
  reads_replicas fg && bool_decide (replicas ku = Some 1%Z).

Definition bootstrapNode (fg : ServerFlags) : bool := HasSuffix (fg_hostname fg) "-0" || (rd_Replicas (fg_discovery fg) <=? 1)%Z.
Definition generationStore (fg : ServerFlags) (ku : Kube) : bool :=
  newRaftGenerationStore (rd_Namespace (fg_discovery fg)) (fg_caSecret fg) ku.

(** The two generations the node compares, after the bump of a recovery. *)
Definition generations (fg : ServerFlags) (ku : Kube) (nd : Node) : Kube * Z * Z :=
  let cluster := if generationStore fg ku then (read_generation ku).1 else 0%Z in
  let local := (readLocalGeneration (nd_generation nd)).1 in
  if generationStore fg ku && bootstrapNode fg && (singleNodeRecovery fg ku || fg_recoveryMode fg) then
    match bump ku with
    | (ku, Err _) => (ku, cluster, local)
    | (ku, Ok next) => (ku, next, next)
    end
  else (ku, cluster, local).

Definition staleGeneration (fg : ServerFlags) (cluster local : Z) : bool := negb (bootstrapNode fg) && (local <? cluster)%Z.

(** The start of a node: the Kubernetes objects and the volume it leaves, and its ID. *)
Definition NewServer_start (fg : ServerFlags) (env : Boot) (ku : Kube) (nd : Node) : Kube * Node * res string :=
  match bt_config env with
  | Some e => (ku, nd, Err e)
  | None =>
      let single := singleNodeRecovery fg ku in
      let store := generationStore fg ku in
      let '(ku, cluster, local) := generations fg ku nd in
      match bt_keeper env with
      | Some e => (ku, nd, Err e)
      | None =>
          let cfg := mkRaftConfig (rd_NodeID (fg_discovery fg)) (NewPeerResolver (fg_discovery fg) (fg_hostname fg))
                       (fg_recoveryMode fg || staleGeneration fg cluster local) single in
          match NewRaftStore cfg env (nd_raft nd) with
          | (d, Err e) => (ku, mkNode d (nd_generation nd), Err (errorf ("init raft store: " +:+ err_msg e)))
          | (d, Ok id) =>
              (ku, mkNode d (if store && bt_writes env then Some (FormatUint cluster) else nd_generation nd), Ok id)
          end
      end
  end.
End node.
Arguments Node D : clear implicits.
Arguments mkNode {D}.

(** ** watchSingleNodeRecovery *)

(** One tick: [leaderlessSince] is None for the zero time; the answer tells whether
    the node terminates itself. *)
Definition watch_tick (leaderWaitTimeout now : Z) (leader : bool) (ku : Kube) (leaderlessSince : option Z) : option Z * bool :=
  if leader then (None, false)
  else match leaderlessSince with
       | None => (Some now, false)
       | Some since =>
           if (now - since <? leaderWaitTimeout)%Z then (Some since, false)
           else if bool_decide (replicas ku = Some 1%Z) then (Some since, true) else (Some since, false)
       end.

(** The loop until it terminates: the remaining ticks are dropped. *)
Fixpoint watch (leaderWaitTimeout : Z) (ticks : list (Z * bool * Kube)) (since : option Z) : option Z * bool :=
  match ticks with
  | [] => (since, false)
  | (now, leader, ku) :: ticks' =>
      let '(since, stop) := watch_tick leaderWaitTimeout now leader ku since in
      if stop then (since, true) else watch leaderWaitTimeout ticks' since
  end.

(** ** resolveAdvertiseAddr *)

(** One turn every second and [lookup n] the n-th answer; [clock n] is the time after
    it.  [fuel] bounds the turns. *)
Definition advertiseResolveRetryInterval : Z := 1000000000.
Definition defaultAdvertiseResolveTimeout : Z := 120 * 1000000000.
Fixpoint resolve_loop (fuel n : nat) (lookup : nat -> res string) (clock : nat -> Z) (deadline : Z) : option (res string) :=
  match fuel with
  | O => None
  | S fuel' =>
      match lookup n with
      | Ok a => Some (Ok a)
      | Err e =>
          if negb (clock n + advertiseResolveRetryInterval <? deadline)%Z then Some (Err e)
          else resolve_loop fuel' (S n) lookup clock deadline
      end
  end.
Definition resolveAdvertiseAddr (fuel : nat) (timeout start : Z) (lookup : nat -> res string) (clock : nat -> Z) : option (res string) :=
  resolve_loop fuel 0 lookup clock (start + (if (timeout <=? 0)%Z then defaultAdvertiseResolveTimeout else timeout)).

(** ** loadAtRestKeeper *)

(** [devKeyFile] is filepath.Join(raftDir, "at-rest-key.json"), [files] parses the key
    file at a path, [present] tells that os.Stat does not answer "not found" and
    [generated] is the document GenerateKeyFile writes, or its error. *)
Definition loadAtRestKeeper (keyFile : string) (replicas : Z) (devKeyFile : string) (present : string -> bool)
  (generated : res cryptoKeyFile) (files : string -> res cryptoKeyFile) : res (option CryptoKeeper) :=
  let load file := match LoadCryptoKeeper file with
                   | Ok keeper => Ok (Some keeper)
                   | Err e => Err (errorf ("at-rest key file: " +:+ err_msg e))
                   end in
  if bool_decide (keyFile = "") then
    if (1 <? replicas)%Z then Ok None
    else if present devKeyFile then load (files devKeyFile)
    else match generated with
         | Err e => Err (errorf ("generate dev at-rest key: " +:+ err_msg e))
         | Ok doc => load (Ok doc)
         end
  else load (files keyFile).

(** GenerateKeyFile's document. *)
Definition GenerateKeyFile (r : Rand) : Rand * res cryptoKeyFile :=
  let (r, key) := rand_Read 32 r in (r, res_bind key (fun key => Ok (mkKeyFile "k1" [("k1", EncodeToString false key)]))).
