(* ===== verification/RecoveryTheory.v ===== *)
(** * RecoveryTheory: one configuration survives a recovery

    A node that holds an older configuration starts afresh, so that a cluster
    recovered on one node has one quorum; a configuration is collapsed only when
    the StatefulSet asks for one replica.  Without a readable generation the same
    starts lose data or split the cluster. *)

From S2P Require Import Prelude Json Domain Bolt Fsm Crypto Store RateLimit Http Cluster ClusterTheory Recovery.

(** ** Numbers *)

Lemma ParseUint_FormatUint n : (0 <= n < two64)%Z -> ParseUint (FormatUint n) = Some n.
Proof.
  intros Hn. unfold ParseUint, FormatUint. rewrite bool_decide_false by (apply Itoa_not_nil; lia).
  rewrite parse_Itoa by lia. cbn. replace (n <? two64)%Z with true by lia. done.
Qed.

Lemma parse_digits_pos acc s n : (0 <= acc)%Z -> parse_digits acc s = Some n -> (0 <= n)%Z.
Proof.
  revert acc. induction s as [|c s IH]; intros acc Ha; [by intros [= <-]|]. cbn. unfold digit.
  destruct (_ && _) eqn:E; [|done]. apply andb_true_iff in E as [E _]. apply IH. lia.
Qed.

Lemma ParseUint_range s n : ParseUint s = Some n -> (0 <= n < two64)%Z.
Proof.
  unfold ParseUint. case_bool_decide; [done|]. destruct (parse_digits 0 s) as [m|] eqn:E; [|done]. cbn.
  destruct (m <? two64)%Z eqn:El; [|done]. intros [= <-]. apply parse_digits_pos in E; lia.
Qed.

Lemma read_generation_range ku : (0 <= (read_generation ku).1 < two64)%Z.
Proof.
  unfold read_generation. destruct (get_secret ku) as [d|]; [|done]. cbn. destruct (d !! raftGenerationKey) as [raw|]; [|done]. cbn.
  destruct (ParseUint raw) as [n|] eqn:E; [|done]. by apply ParseUint_range in E.
Qed.

(** ** hashicorp/raft on disk *)

(** Its documented behaviour: stores with a configuration count as existing state,
    only recovery rewrites a configuration, and it keeps the data; bootstrapping
    leaves an existing configuration alone. *)
Class RaftDiskLaws (D : Type) `{!RaftDisk D} := {
  law_existing : forall d b, is_Some (rk_config d) -> rk_HasExistingState d = Ok b -> b = true;
  law_wiped : rk_config rk_wiped = None /\ rk_data rk_wiped = [];
  law_recover : forall V d, let d' := (rk_RecoverCluster V d).1 in
    rk_data d' = rk_data d /\ (rk_config d' = rk_config d \/ rk_config d' = Some V) /\
    ((rk_RecoverCluster V d).2 = Ok tt -> rk_config d' = Some V);
  law_bootstrap : forall V d, let d' := (rk_BootstrapCluster V d).1 in
    (is_Some (rk_config d) -> d' = d) /\ rk_data d' = rk_data d /\ (rk_config d' = rk_config d \/ rk_config d' = Some V)
}.

Section node.
Context {D : Type} `{!RaftDisk D} `{!RaftDiskLaws D} `{!Net}.
Implicit Types (d : D) (nd : Node D) (fg : ServerFlags) (env : Boot) (ku : Kube).

(** A node that does not seed changes its stores only by wiping them. *)
Lemma follower_store cfg env d d' x id :
  resolveBootstrapState (rg_NodeID cfg) (rg_resolver cfg) = Ok (id, false) -> NewRaftStore cfg env d = (d', x) ->
  d' = d \/ d' = clearStaleRaftState cfg env d.
Proof.
  intros Hseed. unfold NewRaftStore. destruct (failed (bt_dir env)); cbn [res_bind]; [|intros [= <- _]; by left].
  rewrite Hseed. set (d1 := clearStaleRaftState cfg env d). destruct (res_bind _ _); [|intros [= <- _]; by right].
  unfold recover_single, bootstrap_seed. rewrite andb_false_r. cbn [andb]. destruct (bt_raft env); intros [= <- _]; by right.
Qed.

Lemma follower_started cfg env d d' id id' :
  resolveBootstrapState (rg_NodeID cfg) (rg_resolver cfg) = Ok (id, false) -> NewRaftStore cfg env d = (d', Ok id') ->
  d' = clearStaleRaftState cfg env d.
Proof.
  intros Hseed. unfold NewRaftStore. destruct (failed (bt_dir env)); cbn [res_bind]; [|done]. rewrite Hseed.
  destruct (res_bind _ _); [|done]. unfold recover_single, bootstrap_seed. rewrite andb_false_r. cbn [andb].
  destruct (bt_raft env); [done|]. by intros [= <- _].
Qed.

(** A node that neither seeds nor may bump the generation. *)
Definition follower fg : Prop :=
  bootstrapNode fg = false /\
  exists id, resolveBootstrapState (rd_NodeID (fg_discovery fg)) (NewPeerResolver (fg_discovery fg) (fg_hostname fg)) = Ok (id, false).

Definition local_generation nd : Z := (readLocalGeneration (nd_generation nd)).1.
Definition cluster_generation fg ku : Z := if generationStore fg ku then (read_generation ku).1 else 0%Z.

Lemma cluster_generation_range fg ku : (0 <= cluster_generation fg ku < two64)%Z.
Proof. unfold cluster_generation. destruct (generationStore fg ku); [apply read_generation_range|done]. Qed.

(** The start of a follower. *)
Lemma follower_start fg env ku nd ku' nd' id :
  follower fg -> NewServer_start fg env ku nd = (ku', nd', Ok id) ->
  ku' = ku /\
  nd_raft nd' = (if (fg_recoveryMode fg || (local_generation nd <? cluster_generation fg ku)%Z) && bt_removes env
                 then rk_wiped else nd_raft nd) /\
  nd_generation nd' = (if generationStore fg ku && bt_writes env then Some (FormatUint (cluster_generation fg ku)) else nd_generation nd).
Proof.
  intros [Hb [sid Hs]]. unfold NewServer_start. destruct (bt_config env); [done|].
  unfold generations. rewrite Hb, andb_false_r. cbn [andb]. fold (cluster_generation fg ku) (local_generation nd).
  destruct (bt_keeper env); [done|]. unfold staleGeneration. rewrite Hb. cbn [negb andb].
  match goal with |- context [NewRaftStore ?c env ?d] => set (cfg := c); destruct (NewRaftStore cfg env d) as [d' [id'|]] eqn:E end; [|done].
  apply (follower_started cfg env _ _ sid) in E as ->; [|exact Hs]. intros [= <- <- _]. done.
Qed.

(** Generations fence off stale nodes: a follower whose last generation is older than
    the one in the Secret comes up without any configuration, remembers the
    generation, and a later start under the same generation keeps what it has
    learnt since. *)
Theorem stale_nodes_fenced fg env env2 ku nd nd' nd2 nd3 ku' ku3 id id2 g
  (Hfollower : follower fg /\ fg_recoveryMode fg = false)
  (Hread : generationStore fg ku = true /\ read_generation ku = (g, true))
  (Hstale : (local_generation nd < g)%Z)
  (Henv : bt_removes env = true /\ bt_writes env = true)
  (Hstart : NewServer_start fg env ku nd = (ku', nd', Ok id))
  (Hlater : nd_generation nd2 = nd_generation nd' /\ NewServer_start fg env2 ku nd2 = (ku3, nd3, Ok id2)) :
  rk_config (nd_raft nd') = None /\ ku' = ku /\ local_generation nd' = g /\
  nd_raft nd3 = nd_raft nd2 /\ local_generation nd3 = g.
Proof.
  destruct Hfollower as [Hf Hm], Hread as [Hst Hr], Henv as [Hrm Hwr], Hlater as [Hg2 Hs2].
  assert (cluster_generation fg ku = g) as Hc by (unfold cluster_generation; by rewrite Hst, Hr).
  pose proof (cluster_generation_range fg ku) as Hrange. rewrite Hc in Hrange.
  assert (forall nd, nd_generation nd = Some (FormatUint g) -> local_generation nd = g) as Hl.
  { intros n E. unfold local_generation, readLocalGeneration. rewrite E. cbn. by rewrite ParseUint_FormatUint. }
  apply follower_start in Hstart as (-> & Hd & Hn); [|exact Hf]. rewrite Hc, Hm, Hrm in Hd. rewrite Hst, Hwr, Hc in Hn. cbn [andb orb] in *.
  rewrite (proj2 (Z.ltb_lt _ _) Hstale) in Hd. cbn [andb] in Hd.
  rewrite Hn in Hg2. apply follower_start in Hs2 as (-> & Hd3 & Hn3); [|exact Hf]. rewrite Hc, Hm in Hd3. rewrite Hst, Hc in Hn3.
  rewrite (Hl nd2 Hg2), Z.ltb_irrefl in Hd3. cbn [andb orb] in *.
  split_and!; [rewrite Hd; apply law_wiped|done|by apply Hl|done|].
  apply Hl. rewrite Hn3. destruct (bt_writes env2); [done|exact Hg2].
Qed.
(** The stores of any start, when they held a configuration. *)
Lemma NewRaftStore_keeps cfg env d d' x V :
  rk_config d = Some V -> rg_RecoveryMode cfg = false -> NewRaftStore cfg env d = (d', x) ->
  rk_data d' = rk_data d /\
  (rk_config d' = Some V \/
   rg_SingleNodeRecovery cfg = true /\ exists id addr, resolveBootstrapState (rg_NodeID cfg) (rg_resolver cfg) = Ok (id, true) /\
     bt_transport env = Ok addr /\ rk_config d' = Some (raftConfigurationFromPeers [mkPeer id addr])).
Proof.
  intros Hc Hm. unfold NewRaftStore. destruct (res_bind _ _) as [[id seed]|] eqn:Es; [|intros [= <- _]; auto].
  apply res_bind_Ok in Es as ([] & _ & Es). unfold clearStaleRaftState. rewrite Hm. cbn [andb].
  destruct (res_bind _ (fun _ => bt_transport env)) as [addr|] eqn:Et; [|intros [= <- _]; auto].
  apply res_bind_Ok in Et as ([] & _ & Et). set (single := raftConfigurationFromPeers _).
  assert (forall d1 r, recover_single cfg seed single d = (d1, r) -> rk_data d1 = rk_data d /\
    (rk_config d1 = Some V \/ rg_SingleNodeRecovery cfg = true /\ seed = true /\ rk_config d1 = Some single)) as Hrec.
  { intros d1 r. unfold recover_single. destruct (_ && _) eqn:E; [|intros [= <- _]; auto].
    apply andb_true_iff in E as [[Hs1 Hs2]%andb_true_iff _].
    destruct (rk_HasExistingState d) as [[|]|]; [|intros [= <- _]; auto..].
    destruct (law_recover single d) as (Hd & Hcfg & _). rewrite Hc in Hcfg.
    destruct (rk_RecoverCluster single d) as [d2 [|]]; intros [= <- _]; (split; [exact Hd|destruct Hcfg; auto]). }
  destruct (recover_single cfg seed single d) as [d1 r1] eqn:E1. destruct (Hrec _ _ eq_refl) as [Hd1 Hc1].
  assert (is_Some (rk_config d1)) as Hsome by (destruct Hc1 as [->|(_ & _ & ->)]; eauto).
  assert (forall rc d2 r, bootstrap_seed seed rc single d1 = (d2, r) -> d2 = d1) as Hboot.
  { intros rc d2 r. unfold bootstrap_seed. destruct (_ && _); [|by intros [= <- _]].
    destruct (law_bootstrap single d1) as (Hd & _). specialize (Hd Hsome).
    destruct (rk_BootstrapCluster single d1) as [d3 [[e|]|]]; cbn in Hd; by intros [= <- _]. }
  intros Hrun. assert (d' = d1) as ->.
  { destruct r1 as [rc|]; [|by injection Hrun as <- _]. destruct (bootstrap_seed seed rc single d1) as [d2 r2] eqn:E2.
    apply Hboot in E2 as ->. destruct r2; [destruct (bt_raft env)|]; by injection Hrun as <- _. }
  split; [exact Hd1|]. destruct Hc1 as [Hc1|(Hs & -> & Hc1)]; [by left|]. right. split; [exact Hs|]. by exists id, addr.
Qed.

(** C17. A configuration is only ever collapsed on the operator's word: a start that finds
    one keeps it, and the data with it, unless the node is told to recover or is
    behind the cluster's generation and starts afresh, or it seeds a multi-replica
    deployment whose StatefulSet says one replica; then the data is kept and the
    configuration becomes the node alone. *)
Theorem collapse_authorized fg env ku nd ku' nd' x V
  (Hstate : rk_config (nd_raft nd) = Some V) (Hstart : NewServer_start fg env ku nd = (ku', nd', x)) :
  (fg_recoveryMode fg = true \/ bootstrapNode fg = false /\ (local_generation nd < cluster_generation fg ku)%Z) \/
  rk_data (nd_raft nd') = rk_data (nd_raft nd) /\
  (rk_config (nd_raft nd') = Some V \/
   (1 < rd_Replicas (fg_discovery fg))%Z /\ replicas ku = Some 1%Z /\
   exists id addr, resolveBootstrapState (rd_NodeID (fg_discovery fg)) (NewPeerResolver (fg_discovery fg) (fg_hostname fg)) = Ok (id, true) /\
     bt_transport env = Ok addr /\ rk_config (nd_raft nd') = Some (raftConfigurationFromPeers [mkPeer id addr])).
Proof.
  destruct (fg_recoveryMode fg) eqn:Em; [by left; left|]. revert Hstart. unfold NewServer_start.
  destruct (bt_config env); [intros [= <- <- <-]; right; auto|].
  assert (forall kuc c l, generations fg ku nd = (kuc, c, l) -> staleGeneration fg c l = true ->
    bootstrapNode fg = false /\ (local_generation nd < cluster_generation fg ku)%Z) as Hstale.
  { intros kuc c l. unfold generations, staleGeneration. destruct (bootstrapNode fg); [done|]. rewrite andb_false_r. cbn [andb negb].
    fold (cluster_generation fg ku) (local_generation nd). intros [= _ <- <-] Hlt%Z.ltb_lt. done. }
  destruct (generations fg ku nd) as [[kuc c] l]. specialize (Hstale _ _ _ eq_refl).
  destruct (bt_keeper env); [intros [= <- <- <-]; right; auto|]. rewrite Em. cbn [orb].
  destruct (staleGeneration fg c l); [left; right; by apply Hstale|]. clear Hstale. right.
  match goal with H : context [NewRaftStore ?cf env ?d] |- _ => revert H end || idtac.
  intros Hrun. revert Hrun. set (cfg := mkRaftConfig _ _ _ _).
  destruct (NewRaftStore cfg env (nd_raft nd)) as [d' r] eqn:E.
  destruct (NewRaftStore_keeps cfg env _ _ _ _ Hstate eq_refl E) as [Hd Hc].
  assert (nd_raft nd' = d' -> rk_data (nd_raft nd') = rk_data (nd_raft nd) /\ (rk_config (nd_raft nd') = Some V \/
    (1 < rd_Replicas (fg_discovery fg))%Z /\ replicas ku = Some 1%Z /\
    exists id addr, resolveBootstrapState (rd_NodeID (fg_discovery fg)) (NewPeerResolver (fg_discovery fg) (fg_hostname fg)) = Ok (id, true) /\
      bt_transport env = Ok addr /\ rk_config (nd_raft nd') = Some (raftConfigurationFromPeers [mkPeer id addr]))) as Hdone.
  { intros ->. split; [exact Hd|]. destruct Hc as [Hc|[Hs Hx]]; [by left|right].
    cbn in Hs. unfold singleNodeRecovery, reads_replicas in Hs. rewrite !andb_true_iff in Hs.
    destruct Hs as [[_ Hlt%Z.ltb_lt] Hr%bool_decide_eq_true]. done. }
  destruct r; intros [= <- <- <-]; by apply Hdone.
Qed.

(** ** Quorums *)

Definition voter_ids (V : list RaftServer) : gset string := list_to_set (sv_ID <$> V).

(** Nodes that can elect a leader by themselves: one of them stands, by its own
    configuration, and a majority of that configuration is among them. *)
Definition can_elect (nodes : gmap string D) (S : gset string) : Prop :=
  exists i d V, i ∈ S /\ nodes !! i = Some d /\ rk_config d = Some V /\ i ∈ voter_ids V /\
    (size (voter_ids V) < 2 * size (S ∩ voter_ids V))%nat.

Lemma bump_read ku ku' g : bump ku = (ku', Ok g) -> ku_get ku = true /\ ku' = ku <| ku_secret := ku_secret ku' |> /\
  g = wrapu64 ((read_generation ku).1 + 1) /\ read_generation ku' = (g, true).
Proof.
  unfold bump, read_generation, get_secret. destruct (ku_get ku) eqn:Eg; [|done]. destruct (ku_secret ku) as [data|]; [|done].
  destruct (ku_update ku); [|done]. intros [= <- <-].
  set (c := default 0%Z (raw ← data !! raftGenerationKey; ParseUint raw)). cbn [ku_get ku_secret set_fld].
  assert (0 <= wrapu64 (c + 1) < two64)%Z as Hr by (unfold wrapu64; by apply Z.mod_pos_bound).
  change (ku_get (ku <| ku_secret := Some (<[raftGenerationKey := FormatUint (wrapu64 (c + 1))]> data) |>)) with (ku_get ku). rewrite Eg.
  change (mbind _ (Some data)) with (raw ← data !! raftGenerationKey; ParseUint raw).
  change (mbind _ (Some ?m)) with (raw ← m !! raftGenerationKey; ParseUint raw).
  rewrite lookup_insert_eq. cbn [mbind option_bind]. rewrite ParseUint_FormatUint by done. split_and!; [done|done| |done].
  unfold c. destruct (data !! raftGenerationKey) as [raw|]; [|done]. cbn. by destruct (ParseUint raw).
Qed.

(** A start that collapses. *)
Lemma collapse_start fg env ku nd ku' nd' id0 id addr :
  is_Some (rk_config (nd_raft nd)) -> bootstrapNode fg = true -> generationStore fg ku = true ->
  singleNodeRecovery fg ku = true -> fg_recoveryMode fg = false -> ku_get ku = true -> ku_update ku = true -> is_Some (ku_secret ku) ->
  resolveBootstrapState (rd_NodeID (fg_discovery fg)) (NewPeerResolver (fg_discovery fg) (fg_hostname fg)) = Ok (id, true) ->
  bt_transport env = Ok addr -> NewServer_start fg env ku nd = (ku', nd', Ok id0) ->
  id0 = id /\ rk_data (nd_raft nd') = rk_data (nd_raft nd) /\
  rk_config (nd_raft nd') = Some (raftConfigurationFromPeers [mkPeer id addr]) /\
  read_generation ku' = (wrapu64 ((read_generation ku).1 + 1), true) /\ ku_get ku' = true.
Proof.
  intros Hst Hb Hs Hr Hm Hg Hu [data Hd] Hseed Haddr. unfold NewServer_start. destruct (bt_config env); [done|].
  unfold generations. rewrite Hs, Hb, Hr. cbn [andb orb].
  destruct (bump ku) as [ku1 [g|]] eqn:Eb.
  2:{ unfold bump, get_secret in Eb. rewrite Hg, Hd, Hu in Eb. done. }
  apply bump_read in Eb as (_ & Hku & -> & Hread). destruct (bt_keeper env); [done|].
  unfold staleGeneration. rewrite Hb, Hm. cbn [negb andb orb]. unfold NewRaftStore. cbn [rg_NodeID rg_resolver].
  destruct (failed (bt_dir env)); cbn [res_bind]; [|done]. rewrite Hseed. cbn [clearStaleRaftState rg_RecoveryMode andb].
  unfold clearStaleRaftState. cbn [rg_RecoveryMode andb]. destruct (failed (bt_open env)); cbn [res_bind]; [|done]. rewrite Haddr.
  unfold recover_single. cbn [rg_SingleNodeRecovery rg_RecoveryMode andb negb].
  destruct (rk_HasExistingState (nd_raft nd)) as [b|] eqn:Eh; [|done].
  apply law_existing in Eh as ->; [|done]. set (single := raftConfigurationFromPeers _).
  destruct (law_recover single (nd_raft nd)) as (Hdata & _ & Hcfg).
  destruct (rk_RecoverCluster single (nd_raft nd)) as [d2 [[]|]]; [|done]. cbn in Hdata, Hcfg. specialize (Hcfg eq_refl).
  unfold bootstrap_seed. cbn [andb negb]. destruct (bt_raft env); [done|]. intros [= <- <- <-]. cbn [nd_raft].
  split_and!; try done. rewrite Hku. exact Hg.
Qed.

Lemma single_config id addr : id <> "" -> addr <> "" -> raftConfigurationFromPeers [mkPeer id addr] = [mkServer Voter id addr].
Proof.
  intros Hi Ha. unfold raftConfigurationFromPeers. cbn. rewrite !bool_decide_false; [done|set_solver|done|done].
Qed.
(** A node restarted since the recovery, under the Secret the recovery left. *)
Definition restarted (ku ku1 : Kube) (nd' : Node D) : Prop :=
  exists fg env kui kui' nd idi, follower fg /\ generationStore fg kui = true /\ bt_removes env = true /\
    ku_secret kui = ku_secret ku1 /\ ku_get kui = true /\ (local_generation nd <= (read_generation ku).1)%Z /\
    NewServer_start fg env kui nd = (kui', nd', Ok idi).

Lemma restarted_empty ku ku1 g nd' : read_generation ku1 = (g, true) -> ku_get ku1 = true ->
  ((read_generation ku).1 < g)%Z -> restarted ku ku1 nd' -> rk_config (nd_raft nd') = None.
Proof.
  intros Hr Hg Hlt (fg & env & kui & kui' & nd & idi & Hf & Hs & Hrm & Hsec & Hgi & Hl & Hstart).
  apply follower_start in Hstart as (_ & Hd & _); [|exact Hf].
  assert (read_generation kui = (g, true)) as Hri.
  { revert Hr. unfold read_generation, get_secret. by rewrite Hgi, Hg, Hsec. }
  unfold cluster_generation in Hd. rewrite Hs, Hri, Hrm in Hd. cbn [fst] in Hd.
  rewrite (proj2 (Z.ltb_lt _ _) (Z.le_lt_trans _ _ _ Hl Hlt)), orb_true_r in Hd. rewrite Hd. apply law_wiped.
Qed.


(** A failed read of the Secret is taken for generation 0 and written down as such:
    a follower that was up to date restarts once without reaching the Kubernetes API
    and, at its next restart, wipes the state it shared with the cluster. *)
Theorem unreadable_secret_wipes fg env1 env2 ku nd ku1 nd1 ku2 nd2 id1 id2 g
  (Hfollower : follower fg /\ fg_recoveryMode fg = false)
  (Hread : generationStore fg ku = true /\ read_generation ku = (g, true) /\ (0 < g)%Z)
  (Hsynced : local_generation nd = g)
  (Henv : bt_writes env1 = true /\ bt_removes env2 = true)
  (Hfirst : NewServer_start fg env1 (ku <| ku_get := false |>) nd = (ku1, nd1, Ok id1))
  (Hsecond : NewServer_start fg env2 ku nd1 = (ku2, nd2, Ok id2)) :
  nd_raft nd1 = nd_raft nd /\ local_generation nd1 = 0%Z /\ rk_config (nd_raft nd2) = None /\ rk_data (nd_raft nd2) = [].
Proof.
  destruct Hfollower as [Hf Hm], Hread as (Hs & Hr & Hpos), Henv as [Hw Hrm].
  apply follower_start in Hfirst as (_ & Hd1 & Hn1); [|exact Hf].
  assert (generationStore fg (ku <| ku_get := false |>) = true) as Hs1 by exact Hs.
  assert (cluster_generation fg (ku <| ku_get := false |>) = 0%Z) as Hc1 by (unfold cluster_generation; by rewrite Hs1).
  rewrite Hc1, Hm in Hd1. rewrite Hs1, Hw, Hc1 in Hn1. cbn [andb orb] in *.
  replace (local_generation nd <? 0)%Z with false in Hd1 by lia. cbn [andb] in Hd1.
  assert (local_generation nd1 = 0%Z) as Hl1.
  { unfold local_generation, readLocalGeneration. rewrite Hn1. cbn [mbind option_bind]. by rewrite (ParseUint_FormatUint 0). }
  apply follower_start in Hsecond as (_ & Hd2 & _); [|exact Hf].
  unfold cluster_generation in Hd2. rewrite Hs, Hr, Hm, Hrm, Hl1 in Hd2. cbn [fst orb] in Hd2.
  rewrite (proj2 (Z.ltb_lt _ _) Hpos) in Hd2. cbn [andb] in Hd2.
  split_and!; [done|done|rewrite Hd2; apply law_wiped..].
Qed.
End node.

(** ** The watcher *)

Definition leaderless (t : Z * bool * Kube) : Prop := t.1.2 = false.

Lemma watch_from timeout ticks since s' : watch timeout ticks since = (s', true) ->
  exists pre now ku post, ticks = pre ++ (now, false, ku) :: post /\ replicas ku = Some 1%Z /\
    ((exists t0, since = Some t0 /\ Forall leaderless pre /\ (timeout <= now - t0)%Z) \/
     exists p1 t0 k0 p2, pre = p1 ++ (t0, false, k0) :: p2 /\ Forall leaderless p2 /\ (timeout <= now - t0)%Z).
Proof.
  revert since. induction ticks as [|[[now l] ku] ticks IH]; intros since; [done|]. cbn [watch]. unfold watch_tick.
  assert (forall since', watch timeout ticks since' = (s', true) ->
    (forall t0, since' = Some t0 -> (since = Some t0 /\ l = false) \/ (t0 = now /\ l = false)) ->
    exists pre now' ku' post, (now, l, ku) :: ticks = pre ++ (now', false, ku') :: post /\ replicas ku' = Some 1%Z /\
    ((exists t0, since = Some t0 /\ Forall leaderless pre /\ (timeout <= now' - t0)%Z) \/
     exists p1 t0 k0 p2, pre = p1 ++ (t0, false, k0) :: p2 /\ Forall leaderless p2 /\ (timeout <= now' - t0)%Z)) as Hstep.
  { intros since' (pre & now' & ku' & post & -> & Hr & Hw)%IH Hsince. exists ((now, l, ku) :: pre), now', ku', post.
    split; [done|]. split; [done|]. destruct Hw as [(t0 & Ht & Hp & Hle)|(p1 & t0 & k0 & p2 & -> & Hp & Hle)].
    - destruct (Hsince t0 Ht) as [[E ->]|[-> ->]]; [left; exists t0; split_and!; [done|by constructor|done]|].
      right. by exists [], now, ku, pre.
    - right. by exists ((now, l, ku) :: p1), t0, k0, p2. }
  destruct l; [intros Hw; by apply (Hstep None Hw)|]. destruct since as [t0|].
  2:{ intros Hw. apply (Hstep (Some now) Hw). intros t [= <-]. by right. }
  destruct (now - t0 <? timeout)%Z eqn:El; [intros Hw; apply (Hstep (Some t0) Hw); intros t [= <-]; by left|].
  apply Z.ltb_ge in El. case_bool_decide as Er; [|intros Hw; apply (Hstep (Some t0) Hw); intros t [= <-]; by left].
  intros _. exists [], now, ku, ticks. split; [done|]. split; [done|]. left. by exists t0.
Qed.

(** The watcher restarts a node only after a whole leader-wait timeout of ticks
    without any leader, and only while the StatefulSet says one replica. *)
Theorem watch_restarts timeout ticks s' (Hstop : watch timeout ticks None = (s', true)) :
  exists p1 t0 k0 p2 now ku post, ticks = p1 ++ (t0, false, k0) :: p2 ++ (now, false, ku) :: post /\
    Forall leaderless p2 /\ (timeout <= now - t0)%Z /\ replicas ku = Some 1%Z.
Proof.
  destruct (watch_from _ _ _ _ Hstop) as (pre & now & ku & post & -> & Hr & [(? & [=] & _)|(p1 & t0 & k0 & p2 & -> & Hp & Hle)]).
  exists p1, t0, k0, p2, now, ku, post. rewrite <- app_assoc. done.
Qed.

(** ** Waiting for DNS *)

(** The startup gate ends: at one turn a second it answers within the timeout's
    seconds, with the first address found or the last error. *)
Theorem resolveAdvertiseAddr_ends (timeout start : Z) (lookup : nat -> res string) (clock : nat -> Z)
  (Hclock : forall n, (start + Z.of_nat n * advertiseResolveRetryInterval <= clock n)%Z) (Hpos : (0 < timeout)%Z) :
  exists n r, resolveAdvertiseAddr (S (Z.to_nat (timeout / advertiseResolveRetryInterval))) timeout start lookup clock = Some r /\
    r = lookup n /\ (Z.of_nat n <= timeout / advertiseResolveRetryInterval)%Z /\ forall m, (m < n)%nat -> is_Some (match lookup m with Err e => Some e | Ok _ => None end).
Proof.
  unfold resolveAdvertiseAddr. rewrite (proj2 (Z.leb_gt _ _) Hpos).
  set (k := Z.to_nat (timeout / advertiseResolveRetryInterval)).
  assert (Z.of_nat k = timeout / advertiseResolveRetryInterval)%Z as Hk by (apply Z2Nat.id, Z.div_pos; [lia|done]).
  assert (forall fuel n0, (n0 + fuel = S k)%nat -> (0 < fuel)%nat ->
    exists n r, resolve_loop fuel n0 lookup clock (start + timeout) = Some r /\ r = lookup n /\ (n0 <= n <= k)%nat /\
      forall m, (n0 <= m < n)%nat -> is_Some (match lookup m with Err e => Some e | Ok _ => None end)) as Hgen.
  { induction fuel as [|fuel IH]; intros n0 Hn Hf; [lia|]. cbn [resolve_loop]. destruct (lookup n0) as [a|e] eqn:E.
    - exists n0, (Ok a). split_and!; [done|done|lia|lia|lia].
    - destruct (clock n0 + advertiseResolveRetryInterval <? start + timeout)%Z eqn:El; cbn [negb].
      + assert (0 < fuel)%nat as Hfu.
        { destruct fuel; [|lia]. exfalso. assert (n0 = k) as -> by lia. apply Z.ltb_lt in El. specialize (Hclock k). rewrite Hk in Hclock.
          pose proof (Z.mul_succ_div_gt timeout advertiseResolveRetryInterval eq_refl). lia. }
        destruct (IH (S n0)) as (n & r & E1 & E2 & E3 & E4); [lia|lia|]. exists n, r. split_and!; try done; try lia.
        intros m Hm. destruct (decide (m = n0)) as [->|]; [rewrite E; eauto|]. apply E4. lia.
      + exists n0, (Err e). split_and!; [done|done|lia|lia|lia]. }
  destruct (Hgen (S k) O) as (n & r & E1 & E2 & E3 & E4); [lia|lia|]. exists n, r. split_and!; [done|done|lia|]. intros m Hm. apply E4. lia.
Qed.

(** ** Stores in memory *)

Record LocalDisk := mkDisk { ld_config : option (list RaftServer); ld_data : list json }.
#[export] Instance local_disk : RaftDisk LocalDisk := {|
  rk_HasExistingState d := Ok (bool_decide (is_Some (ld_config d)));
  rk_RecoverCluster V d := match ld_config d with
                           | Some _ => (mkDisk (Some V) (ld_data d), Ok tt)
                           | None => (d, Err (errorf "refused to recover cluster with no initial state"))
                           end;
  rk_BootstrapCluster V d := match ld_config d with
                             | Some _ => (d, Some None)
                             | None => (mkDisk (Some V) (ld_data d), None)
                             end;
  rk_wiped := mkDisk None [];
  rk_config := ld_config;
  rk_data := ld_data |}.
#[export] Instance local_disk_laws : RaftDiskLaws LocalDisk.
Proof.
  split; cbn.
  - intros d b Hs [= <-]. by apply bool_decide_eq_true.
  - done.
  - intros V d. destruct (ld_config d) eqn:E; cbn; split_and!; auto; intros [=].
  - intros V d. destruct (ld_config d) eqn:E; cbn; split_and!; auto; by intros [? [=]].
Qed.

(** Three pods of a StatefulSet, listed to one another, and their volumes. *)
Definition pod (i : Z) : string := "relay-" +:+ Itoa i.
Definition pods : list RaftPeer := (fun i => mkPeer (pod i) (pod i +:+ ":6001")) <$> [0; 1; 2]%Z.
Definition pod_flags (caSecret : string) (i : Z) : ServerFlags :=
  mkServerFlags (mkDiscovery (pod i) "" "0.0.0.0:6001" pods 3 "relay" "relay-headless" "default" "" 0) (pod i) caSecret false.
Definition pod_boot (i : Z) : Boot := mkBoot None None None true None (Ok (pod i +:+ ":6001")) None true.
Definition pod_disk : LocalDisk := mkDisk (Some (raftConfigurationFromPeers pods)) [JStr "config"].
Definition pod_volume (generation : string) : Node LocalDisk := mkNode pod_disk (Some generation).
Definition scaled (n : Z) (secret : option (gmap string string)) : Kube := mkKube true secret true true (Some (Some n)).

Definition demo_secret : gmap string string := {[ "ca.crt" := "pem"; raftGenerationKey := "4" ]}.

Lemma pod_follower caSecret i : i = 1%Z \/ i = 2%Z -> follower (pod_flags caSecret i).
Proof. intros [->| ->]; (split; [reflexivity|eexists; vm_compute; reflexivity]). Qed.

Lemma stale_nodes_fenced_witness : exists nd' nd3 id id2,
  NewServer_start (pod_flags "ca" 1) (pod_boot 1) (scaled 3 (Some demo_secret)) (pod_volume "3") = (scaled 3 (Some demo_secret), nd', Ok id) /\
  rk_config (nd_raft nd') = None /\
  NewServer_start (pod_flags "ca" 1) (pod_boot 1) (scaled 3 (Some demo_secret)) (mkNode pod_disk (nd_generation nd')) =
    (scaled 3 (Some demo_secret), nd3, Ok id2) /\ nd_raft nd3 = pod_disk.
Proof.
  eexists _, _, _, _. split; [vm_compute; reflexivity|].
  assert (forall nd' nd3 : Node LocalDisk, NewServer_start (pod_flags "ca" 1) (pod_boot 1) (scaled 3 (Some demo_secret)) (pod_volume "3") =
      (scaled 3 (Some demo_secret), nd', Ok "relay-1") ->
    NewServer_start (pod_flags "ca" 1) (pod_boot 1) (scaled 3 (Some demo_secret)) (mkNode pod_disk (nd_generation nd')) =
      (scaled 3 (Some demo_secret), nd3, Ok "relay-1") -> rk_config (nd_raft nd') = None /\ nd_raft nd3 = pod_disk) as Hw.
  { intros nd' nd3 Hs1 Hs2.
    destruct (stale_nodes_fenced (pod_flags "ca" 1) (pod_boot 1) (pod_boot 1) (scaled 3 (Some demo_secret)) (pod_volume "3") nd'
      (mkNode pod_disk (nd_generation nd')) nd3 (scaled 3 (Some demo_secret)) (scaled 3 (Some demo_secret)) "relay-1" "relay-1" 4) as (Hc & _ & _ & Hd & _).
    - split; [apply pod_follower; by left|reflexivity].
    - split; vm_compute; reflexivity.
    - vm_compute. reflexivity.
    - split; reflexivity.
    - exact Hs1.
    - split; [reflexivity|exact Hs2].
    - by split. }
  split; [exact (proj1 (Hw (mkNode (mkDisk None []) (Some "4")) (mkNode pod_disk (Some "4")) eq_refl eq_refl))|].
  split; [vm_compute; reflexivity|].
  exact (proj2 (Hw (mkNode (mkDisk None []) (Some "4")) (mkNode pod_disk (Some "4")) eq_refl eq_refl)).
Defined.

Definition recovered_pod : Kube * Node LocalDisk * res string :=
  NewServer_start (pod_flags "ca" 0) (pod_boot 0) (scaled 1 (Some demo_secret)) (pod_volume "4").
Definition follower_restart (i : Z) : Node LocalDisk :=
  (NewServer_start (pod_flags "ca" i) (pod_boot i) (scaled 3 (ku_secret recovered_pod.1.1)) (pod_volume "4")).1.2.

Lemma collapse_authorized_witness :
  rk_data (nd_raft recovered_pod.1.2) = [JStr "config"] /\ rk_config (nd_raft recovered_pod.1.2) <> rk_config pod_disk.
Proof.
  destruct (collapse_authorized (pod_flags "ca" 0) (pod_boot 0) (scaled 1 (Some demo_secret)) (pod_volume "4")
    recovered_pod.1.1 recovered_pod.1.2 recovered_pod.2 (raftConfigurationFromPeers pods)) as [[E|[E _]]|[Hd _]].
  - reflexivity.
  - vm_compute. reflexivity.
  - discriminate E.
  - discriminate E.
  - split; [exact Hd|]. vm_compute. discriminate.
Defined.


Lemma unreadable_secret_wipes_witness :
  let ku := scaled 3 (Some demo_secret) in
  let x1 := NewServer_start (pod_flags "ca" 1) (pod_boot 1) (ku <| ku_get := false |>) (pod_volume "4") in
  let x2 := NewServer_start (pod_flags "ca" 1) (pod_boot 1) ku x1.1.2 in
  rk_data (nd_raft x1.1.2) = [JStr "config"] /\ rk_config (nd_raft x2.1.2) = None /\ rk_data (nd_raft x2.1.2) = [].
Proof.
  intros ku x1 x2.
  destruct (unreadable_secret_wipes (pod_flags "ca" 1) (pod_boot 1) (pod_boot 1) ku (pod_volume "4") x1.1.1 x1.1.2 x2.1.1 x2.1.2
    (pod 1) (pod 1) 4) as (Hd & _ & Hc & Hw).
  - split; [apply pod_follower; by left|reflexivity].
  - split_and!; vm_compute; reflexivity.
  - vm_compute. reflexivity.
  - split; reflexivity.
  - vm_compute. reflexivity.
  - vm_compute. reflexivity.
  - split; [rewrite Hd; reflexivity|]. split; [exact Hc|exact Hw].
Defined.

(** The start of a pod when there is no Secret: whatever name it was given, no
    generation is kept. *)
Lemma pod_start caSecret i n : i = 0%Z \/ i = 1%Z \/ i = 2%Z -> n = 1%Z \/ n = 3%Z ->
  exists gen, NewServer_start (pod_flags caSecret i) (pod_boot i) (scaled n None) (pod_volume "0") =
    (scaled n None, mkNode (if bool_decide (i = 0%Z) && bool_decide (n = 1%Z)
                            then mkDisk (Some [mkServer Voter (pod 0) (pod 0 +:+ ":6001")]) [JStr "config"] else pod_disk) gen, Ok (pod i)).
Proof.
  intros Hi Hn. eexists. unfold NewServer_start, generations, generationStore, newRaftGenerationStore. cbn [pod_flags fg_caSecret].
  destruct (bool_decide (caSecret = "")); destruct Hi as [->|[->| ->]], Hn as [->| ->]; vm_compute; reflexivity.
Qed.

