(* ===== verification/Replay.v ===== *)
(** * Replay: internal/client/replay.go and hook_list.go

    The client's second mode: it polls GitHub for the deliveries of a webhook and
    forwards, saves and runs each one as Client.v does with an event.  The GitHub
    API is the class [GHOp]: the answer of its n-th call.  Log lines and the
    formatting of the listings are left out. *)

From S2P Require Import Prelude Json Domain Bolt Crypto Store Repo Authorization RateLimit Http Service Cluster Encryption Events Client.

(** ** The GitHub API *)

(** github.HookDelivery as a listing has it, and the request a single delivery
    carries besides; [hd_DeliveredAt] is an instant as in Client.v. *)
Record HookDelivery := mkHookDelivery { hd_ID : Z; hd_GUID : string; hd_Event : string; hd_DeliveredAt : Z }.
Record HookRequest := mkHookRequest { hq_Headers : gmap string string; hq_Payload : string; hq_DeliveredAt : Z }.
(** github.Hook; [hk_url] is the member url of its configuration. *)
Record Hook := mkHook { hk_ID : Z; hk_Name : string; hk_url : option json }.

(** What GetHookDelivery returns: the status of the response, none when there is no
    response, a delivery that may be nil, and the error. *)
Record GetAnswer := mkGetAnswer { ga_Status : option Z; ga_Delivery : option HookRequest; ga_Err : option goerr }.

(** Both lists are newest first, one page of at most the size asked for. *)
Class GHOp := {
  ListHooks : res (list Hook);
  ListHookDeliveries : nat -> Z -> res (list HookDelivery);
  GetHookDelivery : nat -> Z -> GetAnswer
}.

Definition nil_deref : goerr := mkErr KPanic "invalid memory address or nil pointer dereference".

(** ** chooseDeliveries *)

Section choose.
Context {A : Type}.
Fixpoint take_while (f : A -> bool) (l : list A) : list A :=
  match l with [] => [] | x :: l' => if f x then x :: take_while f l' else [] end.

(** The loop that reverses a slice in place, from i - 1 down to 0. *)
Fixpoint swap_loop (i : nat) (l : list A) : list A :=
  match i with
  | O => l
  | S i' =>
      let opp := (length l - 1 - i')%nat in
      match l !! i', l !! opp with
      | Some a, Some b => swap_loop i' (<[opp := a]> (<[i' := b]> l))
      | _, _ => l
      end
  end.
End choose.

Definition chooseDeliveries (sinceTime : Z) (dlvs : list HookDelivery) : list HookDelivery :=
  let ret := take_while (fun d => negb (hd_DeliveredAt d <? sinceTime)%Z) dlvs in
  swap_loop (length ret / 2) ret.

(** ** replayHooks *)

Record Replayer := mkReplayer { rp_sinceTime : Z; rp_polls : nat; rp_gets : nat; rp_host : Host }.

Section replay.
Context `{!JsonText} `{!MapOrder} `{!Scripts} `{!GHOp}.

(** Three turns, whatever they answer. *)
Fixpoint fetch_delivery (n : nat) (id : Z) (delivery : option HookRequest) (gets : nat) : nat * res (option HookRequest) :=
  match n with
  | O => (gets, Ok delivery)
  | S n' =>
      let a := GetHookDelivery gets id in
      match ga_Status a with
      | None => (S gets, Err nil_deref)
      | Some status =>
          if bool_decide (status = 404%Z) then fetch_delivery n' id (ga_Delivery a) (S gets)
          else match ga_Err a with
               | Some e => (S gets, Err (errorf ("cannot get delivery: " +:+ err_msg e)))
               | None => fetch_delivery n' id (ga_Delivery a) (S gets)
               end
      end
  end.

Definition delivery_message (hd : HookDelivery) (q : HookRequest) : payloadMsg :=
  mkMsg (hq_Headers q) (hq_Payload q) (Format_ts (hq_DeliveredAt q))
    (default "application/json" (hq_Headers q !! "Content-Type"))
    (match hq_Headers q !! "X-GitHub-Event" with Some pv => event_type pv | None => "" end)
    (hd_GUID hd).

(** Forward, save, run: a failure of the first two ends the delivery. *)
Definition replay_message (rd : replayDataOpts) (pm : payloadMsg) (h : Host) : Host :=
  let '(h, r) := replayData rd pm h in
  match r with
  | Err _ => h
  | Ok _ =>
      let '(h, r) := if bool_decide (rd_saveDir rd = "") then (h, Ok tt) else saveData rd pm h in
      match r with
      | Err _ => h
      | Ok _ => if bool_decide (rd_execCommand rd = "") then h else (runExecCommand rd pm h).1
      end
  end.

Fixpoint replay_deliveries (rd : replayDataOpts) (dlvs : list HookDelivery) (gets : nat) (h : Host) : nat * Host * res unit :=
  match dlvs with
  | [] => (gets, h, Ok tt)
  | hd :: dlvs' =>
      match fetch_delivery 3 (hd_ID hd) None gets with
      | (gets, Err e) => (gets, h, Err e)
      | (gets, Ok None) => (gets, h, Err nil_deref)
      | (gets, Ok (Some q)) => replay_deliveries rd dlvs' gets (replay_message rd (delivery_message hd q) h)
      end
  end.

(** One turn of the loop. *)
Definition replay_poll (rd : replayDataOpts) (s : Replayer) : Replayer * res unit :=
  match ListHookDeliveries (rp_polls s) 100 with
  | Err e => (mkReplayer (rp_sinceTime s) (S (rp_polls s)) (rp_gets s) (rp_host s), Err (errorf ("cannot list deliveries: " +:+ err_msg e)))
  | Ok deliveries =>
      let deliveries := chooseDeliveries (rp_sinceTime s) deliveries in
      let '(gets, h, r) := replay_deliveries rd deliveries (rp_gets s) (rp_host s) in
      match r with
      | Err e => (mkReplayer (rp_sinceTime s) (S (rp_polls s)) gets h, Err e)
      | Ok _ =>
          let since := match last deliveries with Some d => (hd_DeliveredAt d + second)%Z | None => rp_sinceTime s end in
          (mkReplayer since (S (rp_polls s)) gets h, Ok tt)
      end
  end.

(** The first [n] turns, or those up to the error that ends the loop. *)
Fixpoint replayHooks (n : nat) (rd : replayDataOpts) (s : Replayer) : Replayer * res unit :=
  match n with
  | O => (s, Ok tt)
  | S n' => match replay_poll rd s with (s, Err e) => (s, Err e) | (s, Ok _) => replayHooks n' rd s end
  end.

(** ** The command *)

(** listHooks and listDeliveries, as the rows they print. *)
Definition listHooks : res (list (Z * string * string)) :=
  match ListHooks with
  | Err e => Err (errorf ("cannot list hooks: " +:+ err_msg e))
  | Ok hooks => Ok ((fun h => (hk_ID h, hk_Name h, default "" (j ← hk_url h; as_string j))) <$> hooks)
  end.
Definition listDeliveries : res (list (Z * string * Z)) :=
  match ListHookDeliveries 0 50 with
  | Err e => Err (errorf ("cannot list deliveries: " +:+ err_msg e))
  | Ok dlvs => Ok ((fun d => (hd_ID d, hd_Event d, hd_DeliveredAt d)) <$> dlvs)
  end.
End replay.

(** What replay works out of the command line before its loop. *)
Record ReplayPlan := mkPlan { rn_org : string; rn_repo : string; rn_hookID : Z; rn_target : string; rn_since : Z }.

(** replay: [args] are its arguments, [valid] is url.Parse, [parse_since] time.Parse of
    the layout of --time-since.  The two listings run on a nil interface. *)
Definition replay (args : list string) (list_hooks list_deliveries : bool) (envTarget timeSince : string)
  (valid : string -> bool) (parse_since : string -> res Z) (now : Z) : res ReplayPlan :=
  let arg i := default "" (args !! i) in
  let '(org, repo) :=
    if Contains (arg 0) "/" then (default "" (Split (arg 0) "/" !! 0%nat), default "" (Split (arg 0) "/" !! 1%nat)) else (arg 0, "") in
  let hook_required := errorf "hook-id is required, use --list-hooks to get the hook id" in
  if bool_decide (org = "") then Err (errorf "at least an org is required or an org/repo")
  else if list_hooks then Err nil_deref
  else
    match (if bool_decide (TrimSpace (arg 1) = "") then None else Atoi (TrimSpace (arg 1))) with
    | None | Some 0%Z => Err hook_required
    | Some hookID =>
        if list_deliveries then Err nil_deref
        else
          let target := if bool_decide (envTarget = "")
                        then if bool_decide (length args = 3%nat) then Ok (arg 2) else Err (errorf "missing the target url where to forward the webhook")
                        else Ok envTarget in
          match target with
          | Err e => Err e
          | Ok target =>
              if negb (valid target) then Err (errorf "target url is not a valid url")
              else
                match (if bool_decide (timeSince = "") then Ok now else parse_since timeSince) with
                | Err e => Err (errorf ("cannot parse time-since: " +:+ err_msg e))
                | Ok since => Ok (mkPlan org repo hookID target since)
                end
          end
    end.
