(* ===== verification/ReplayTheory.v ===== *)
(** * ReplayTheory: what a replay forwards

    The in-place reversal is the reversal, the loop forwards a hook's deliveries once
    each and oldest first, and which ones it may miss; three runs the code does not
    mean. *)

From S2P Require Import Prelude Json Domain Bolt Crypto Store Repo Authorization RateLimit Http Service Cluster Encryption Events Client ClientTheory Replay.

(** ** Reversing in place *)

Lemma swap_loop_lookup {A} (i : nat) (l : list A) (j : nat) : (2 * i <= length l)%nat -> (j < length l)%nat ->
  swap_loop i l !! j = if decide (j < i \/ length l - i <= j)%nat then l !! (length l - 1 - j)%nat else l !! j.
Proof.
  revert l. induction i as [|i IH]; intros l Hi Hj; cbn [swap_loop]; [by rewrite decide_False by lia|].
  destruct (lookup_lt_is_Some_2 l i) as [a Ha]; [lia|]. destruct (lookup_lt_is_Some_2 l (length l - 1 - i)) as [b Hb]; [lia|].
  rewrite Ha, Hb. rewrite IH by (rewrite ?length_insert; lia). rewrite !length_insert.
  destruct (decide (j = i)) as [->|Hji].
  { rewrite decide_False, decide_True by lia. rewrite list_lookup_insert_ne by lia. rewrite list_lookup_insert_eq by lia. by rewrite Hb. }
  destruct (decide (j = length l - 1 - i)%nat) as [->|Hjo].
  { rewrite decide_False by lia. rewrite decide_True by lia. rewrite list_lookup_insert_eq by (rewrite length_insert; lia).
    replace (length l - 1 - (length l - 1 - i))%nat with i by lia. by rewrite Ha. }
  destruct (decide (j < i \/ length l - i <= j)%nat) as [Hc|Hc].
  - rewrite decide_True by lia. rewrite !list_lookup_insert_ne by lia. done.
  - rewrite decide_False by lia. rewrite !list_lookup_insert_ne by lia. done.
Qed.

(** The loop of chooseDeliveries reverses the slice. *)
Theorem swap_loop_reverse {A} (l : list A) : swap_loop (length l / 2) l = reverse l.
Proof.
  assert (forall i (k : list A), length (swap_loop i k) = length k) as Hlen.
  { induction i as [|i IH]; intros k; [done|]. cbn [swap_loop]. destruct (k !! i); [|done]. destruct (k !! _); [|done].
    by rewrite IH, !length_insert. }
  pose proof (Nat.Div0.div_mod (length l) 2) as Hdiv. pose proof (Nat.mod_upper_bound (length l) 2) as Hmod.
  apply list_eq_same_length with (n := length l); [by rewrite length_reverse|by rewrite Hlen|].
  intros j a b Hj. rewrite reverse_lookup by done. rewrite swap_loop_lookup by lia. case_decide as Hd.
  - replace (length l - 1 - j)%nat with (length l - S j)%nat by lia. congruence.
  - assert (j = length l - S j)%nat as <- by lia. congruence.
Qed.

Lemma take_while_reverse {A} (f : A -> bool) (l : list A) :
  exists l1 l2, l = l1 ++ l2 /\ take_while f (reverse l) = reverse l2 /\ Forall (fun x => f x = true) l2 /\
    (l1 = [] \/ exists x, last l1 = Some x /\ f x = false).
Proof.
  induction l as [|x l IH] using rev_ind; [exists [], []; auto|]. rewrite reverse_snoc. cbn [take_while]. destruct (f x) eqn:E.
  - destruct IH as (l1 & l2 & -> & -> & Hf & Hl). exists l1, (l2 ++ [x]). rewrite reverse_snoc, app_assoc. split_and!; auto.
    apply Forall_app. auto.
  - exists (l ++ [x]), []. rewrite app_nil_r, last_snoc. split_and!; eauto.
Qed.

(** A listing of the newest hundred is cut at the first delivery that is too old. *)
Lemma choose_split t (l : list HookDelivery) : exists l1 l2, l = l1 ++ l2 /\
  chooseDeliveries t (take 100 (reverse l)) = l2 /\ Forall (fun d => t <= hd_DeliveredAt d)%Z l2 /\
  (l1 = [] \/ length l2 = 100%nat \/ exists x, last l1 = Some x /\ (hd_DeliveredAt x < t)%Z).
Proof.
  rewrite take_reverse.
  destruct (take_while_reverse (fun d => negb (hd_DeliveredAt d <? t)%Z) (drop (length l - 100) l)) as (l1 & l2 & Hl & Htw & Hf & Hl1).
  exists (take (length l - 100) l ++ l1), l2. split; [by rewrite <- app_assoc, <- Hl, take_drop|]. split.
  { unfold chooseDeliveries. by rewrite Htw, swap_loop_reverse, reverse_involutive. }
  split; [eapply Forall_impl; [exact Hf|]; cbn; intros d Hd; lia|].
  destruct Hl1 as [->|(x & Hx & Hfx)]; [|right; right; exists x; rewrite last_app, Hx; split; [done|lia]].
  cbn [app] in Hl. subst l2. rewrite length_drop. destruct (decide (length l <= 100)%nat); [|right; left; lia].
  left. rewrite app_nil_r. replace (length l - 100)%nat with O by lia. done.
Qed.

(** ** The loop *)

Definition quiet (h : Host) : Prop := forall n, ho_fault h n = None.

Section loop.
Context `{!JsonText} `{!MapOrder} `{!Scripts} `{!GHOp}.
Variables (rd : replayDataOpts) (log : list HookDelivery) (page : nat -> nat) (detail : HookDelivery -> HookRequest).

(** The client only forwards. *)
Hypothesis Hplain : rd_saveDir rd = "" /\ rd_execCommand rd = "".
(** GitHub keeps a log ordered by time; the k-th listing shows the newest hundred of
    the first [page k] deliveries, and every delivery can be fetched. *)
Hypothesis Htime : forall i j d e, (i <= j)%nat -> log !! i = Some d -> log !! j = Some e -> (hd_DeliveredAt d <= hd_DeliveredAt e)%Z.
Hypothesis Hlist : forall k, ListHookDeliveries k 100 = Ok (take 100 (reverse (take (page k) log))).
Hypothesis Hpage : forall k, (page k <= page (S k) <= length log)%nat.
Hypothesis Hget : forall c d, d ∈ log -> GetHookDelivery c (hd_ID d) = mkGetAnswer (Some 200%Z) (Some (detail d)) None.

(** The request a delivery is forwarded as. *)
Definition replayed (d : HookDelivery) : Outgoing :=
  mkOutgoing (rd_targetURL rd) (request_headers (delivery_message d (detail d))) (hq_Payload (detail d)).

Lemma replay_message_sent pm h : quiet h -> let h' := replay_message rd pm h in
  quiet h' /\ ho_sent h' = ho_sent h ++ [mkOutgoing (rd_targetURL rd) (request_headers pm) (pm_body pm)].
Proof.
  intros Hq. destruct Hplain as [Hs He]. unfold replay_message, replayData, io, and_then. rewrite (Hq (ho_pos h)).
  cbn [ho_answer ho_sent set_fld]. rewrite (bool_decide_true _ Hs), (bool_decide_true _ He).
  destruct (ho_answer _ _); (split; [exact Hq|done]).
Qed.

Lemma replay_deliveries_sent dlvs gets h : Forall (fun d => d ∈ log) dlvs -> quiet h ->
  exists gets' h', replay_deliveries rd dlvs gets h = (gets', h', Ok tt) /\ quiet h' /\
    ho_sent h' = ho_sent h ++ (replayed <$> dlvs).
Proof.
  intros Hd. revert gets h. induction Hd as [|d dlvs Hin _ IH]; intros gets h Hq.
  { exists gets, h. by rewrite app_nil_r. }
  cbn [replay_deliveries fetch_delivery]. rewrite !(Hget _ d Hin). cbn [ga_Status ga_Err ga_Delivery].
  rewrite !bool_decide_false by done. destruct (replay_message_sent (delivery_message d (detail d)) h Hq) as [Hq' Hs'].
  destruct (IH (S (S (S gets))) _ Hq') as (gets' & h' & -> & Hq2 & Hs2). exists gets', h'.
  split; [done|]. split; [done|]. by rewrite Hs2, Hs', <- app_assoc.
Qed.

(** After [k] turns that have seen the first [seen] deliveries. *)
Record progress (since : Z) (h0 : Host) (k seen : nat) (s : Replayer) (hs : list HookDelivery) : Prop := {
  pr_polls : rp_polls s = k;
  pr_seen : (seen <= length log)%nat /\ (forall k', k' < k -> page k' <= seen)%nat /\ (seen <= page k)%nat;
  pr_quiet : quiet (rp_host s);
  pr_order : hs `sublist_of` take seen log;
  pr_sent : ho_sent (rp_host s) = ho_sent h0 ++ (replayed <$> hs);
  pr_since : (since <= rp_sinceTime s)%Z /\ Forall (fun d => since <= hd_DeliveredAt d)%Z hs;
  pr_past : forall i d, (i < seen)%nat -> log !! i = Some d -> (hd_DeliveredAt d < rp_sinceTime s)%Z;
  pr_from : rp_sinceTime s = since \/ exists j e, (j < seen)%nat /\ log !! j = Some e /\ e ∈ hs /\
    rp_sinceTime s = (hd_DeliveredAt e + second)%Z;
  pr_all : forall i d, (i < seen)%nat -> log !! i = Some d -> (since <= hd_DeliveredAt d)%Z ->
    d ∈ hs \/ (exists j e, (j < i)%nat /\ log !! j = Some e /\ e ∈ hs /\ (hd_DeliveredAt d < hd_DeliveredAt e + second)%Z) \/
    exists k', (k' < k)%nat /\ (i + 100 < page k')%nat /\ forall k2, (k2 < k')%nat -> (page k2 <= i)%nat }.

Section turn.
Variables (n seen : nat) (t : Z) (l1 l2 : list HookDelivery).
Hypothesis Hn : (seen <= n <= length log)%nat.
Hypothesis Hsplit : take n log = l1 ++ l2.
Hypothesis Hnew : Forall (fun d => t <= hd_DeliveredAt d)%Z l2.
Hypothesis Hpast : forall i d, (i < seen)%nat -> log !! i = Some d -> (hd_DeliveredAt d < t)%Z.

Lemma turn_length : (length l1 + length l2 = n)%nat.
Proof. rewrite <- length_app, <- Hsplit, length_take. lia. Qed.

Lemma turn_lookup i : (i < n)%nat -> log !! i = (l1 ++ l2) !! i.
Proof. intros Hi. by rewrite <- Hsplit, lookup_take_lt. Qed.

Lemma turn_in d : d ∈ l2 -> d ∈ log.
Proof.
  intros [i Hi]%list_elem_of_lookup. pose proof (lookup_lt_Some _ _ _ Hi). pose proof turn_length.
  apply list_elem_of_lookup. exists (length l1 + i)%nat. rewrite turn_lookup by lia. rewrite lookup_app_r by lia.
  by replace (length l1 + i - length l1)%nat with i by lia.
Qed.

(** Nothing that was seen before is chosen again. *)
Lemma turn_after_seen : (seen <= length l1)%nat.
Proof.
  pose proof turn_length as Hlen. destruct (decide (seen <= length l1)%nat) as [|Hlt]; [done|]. exfalso.
  destruct (lookup_lt_is_Some_2 l2 0) as [x Hx]; [lia|].
  assert (log !! length l1 = Some x) as Hl by (rewrite turn_lookup by lia; by rewrite lookup_app_r, Nat.sub_diag by lia).
  apply Hpast in Hl; [|lia]. rewrite Forall_lookup in Hnew. specialize (Hnew 0%nat x Hx). cbn in Hnew. lia.
Qed.

Lemma turn_split : take n log = take (length l1) log ++ l2.
Proof.
  rewrite Hsplit. f_equal. rewrite <- (take_app_length l1 l2), <- Hsplit at 1. rewrite take_take.
  f_equal. pose proof turn_length. lia.
Qed.

(** The next time bound is above everything seen. *)
Lemma turn_bound i d : (l1 = [] \/ length l2 = 100%nat \/ exists x, last l1 = Some x /\ (hd_DeliveredAt x < t)%Z) ->
  (i < n)%nat -> log !! i = Some d ->
  (hd_DeliveredAt d < match last l2 with Some e => hd_DeliveredAt e + second | None => t end)%Z.
Proof.
  intros Hcut Hi Hd. pose proof turn_length as Hlen. destruct (last l2) as [e|] eqn:El.
  - assert (log !! (n - 1)%nat = Some e) as He.
    { assert (length l2 <> 0)%nat as Hne by (intros E%nil_length_inv; by rewrite E in El).
      rewrite last_lookup in El. rewrite turn_lookup, lookup_app_r by lia.
      by replace (n - 1 - length l1)%nat with (pred (length l2)) by lia. }
    pose proof (Htime i (n - 1) d e ltac:(lia) Hd He). unfold second. lia.
  - apply last_None in El. assert (length l2 = 0)%nat as Hl2 by (by rewrite El). rewrite Hl2 in *.
    destruct Hcut as [Hc|[Hc|(x & Hx & Hlt)]]; [apply (f_equal length) in Hc; cbn in Hc; lia|done|].
    rewrite last_lookup in Hx. assert (log !! (n - 1)%nat = Some x) as Hl.
    { rewrite turn_lookup by lia. rewrite lookup_app_l by lia. by replace (n - 1)%nat with (pred (length l1)) by lia. }
    pose proof (Htime i (n - 1) d x ltac:(lia) Hd Hl). lia.
Qed.

(** What a turn leaves out: it was too old, or a hundred were newer. *)
Lemma turn_left_out i d : (l1 = [] \/ length l2 = 100%nat \/ exists x, last l1 = Some x /\ (hd_DeliveredAt x < t)%Z) ->
  (i < n)%nat -> log !! i = Some d -> d ∈ l2 \/ (hd_DeliveredAt d < t)%Z \/ (i + 100 < n)%nat.
Proof.
  intros Hcut Hi Hd. pose proof turn_length as Hlen. destruct (decide (i < length l1)%nat) as [Hlt|].
  - right. destruct Hcut as [Hc|[Hc|(x & Hx & Hlx)]]; [apply (f_equal length) in Hc; cbn in Hc; lia|right; lia|left].
    rewrite last_lookup in Hx. assert (log !! pred (length l1) = Some x) as Hl by (rewrite turn_lookup by lia; by rewrite lookup_app_l by lia).
    pose proof (Htime i (pred (length l1)) d x ltac:(lia) Hd Hl). lia.
  - left. rewrite turn_lookup, lookup_app_r in Hd by lia. by apply list_elem_of_lookup_2 in Hd.
Qed.
End turn.

Lemma progress_step since h0 k seen s hs : progress since h0 k seen s hs ->
  exists s' hs', replay_poll rd s = (s', Ok tt) /\ progress since h0 (S k) (page k) s' hs'.
Proof.
  intros [Hk (Hseen & Hbefore & Hnext) Hq Hord Hsent (Hge & Hfrom0) Hpast Hsince Hall]. pose proof (Hpage k) as [Hmono Hmax].
  unfold replay_poll. rewrite Hk, Hlist. destruct (choose_split (rp_sinceTime s) (take (page k) log)) as (l1 & l2 & Hl & -> & Hnew & Hcut).
  assert (seen <= page k <= length log)%nat as Hn by lia.
  pose proof (turn_after_seen (page k) seen _ _ _ Hn Hl Hnew Hpast) as Hafter. pose proof (turn_length _ _ _ _ Hn Hl) as Hlen.
  assert (forall d, d ∈ l2 -> d ∈ log) as Hin by (intros d; by apply (turn_in (page k) seen l1)).
  destruct (replay_deliveries_sent l2 (rp_gets s) (rp_host s)) as (gets' & h' & -> & Hq' & Hs'); [by apply Forall_forall|done|].
  eexists _, (hs ++ l2). split; [reflexivity|]. split; cbn [rp_polls rp_host rp_sinceTime]; try done.
  - split_and!; [lia| |lia]. intros k' Hk'. destruct (decide (k' = k)) as [->|]; [done|]. specialize (Hbefore k' ltac:(lia)). lia.
  - rewrite (turn_split (page k) seen l1 l2 Hn Hl). apply sublist_app; [|done]. etrans; [exact Hord|].
    replace (take seen log) with (take seen (take (length l1) log)) by (rewrite take_take; f_equal; lia). apply sublist_take.
  - by rewrite Hs', Hsent, fmap_app, app_assoc.
  - split; [|apply Forall_app; split; [done|eapply Forall_impl; [exact Hnew|]; cbn; lia]].
    destruct (last l2) as [e|] eqn:El; [|done]. apply last_Some_elem_of in El. rewrite Forall_forall in Hnew.
    specialize (Hnew e El). unfold second. lia.
  - intros i d Hi Hd. exact (turn_bound (page k) seen _ _ _ Hn Hl i d Hcut Hi Hd).
  - destruct (last l2) as [e|] eqn:El.
    + right. exists (page k - 1)%nat, e. assert (length l2 <> 0)%nat as Hne by (intros E%nil_length_inv; by rewrite E in El).
      split; [lia|]. split; [|split; [apply elem_of_app; right; by apply last_Some_elem_of|done]].
      rewrite (turn_lookup (page k) _ _ Hl), lookup_app_r by lia. rewrite last_lookup in El.
      by replace (page k - 1 - length l1)%nat with (pred (length l2)) by lia.
    + destruct Hsince as [->|(j & e & Hj & Hlog & Hin' & ->)]; [by left|right]. exists j, e. split_and!; [lia|done|set_solver|done].
  - intros i d Hi Hd Hs2. destruct (decide (i < seen)%nat) as [Hlt|Hge'].
    + destruct (Hall i d Hlt Hd Hs2) as [Hi1|[(j & e & Hj & Hlog & Hin' & He)|(k' & Hk' & Hover & Hfirst)]].
      * left. set_solver.
      * right. left. exists j, e. split_and!; [done|done|set_solver|done].
      * right. right. exists k'. split_and!; [lia|done|done].
    + destruct (turn_left_out (page k) seen _ _ _ Hn Hl i d Hcut Hi Hd) as [Hc|[Hc|Hc]].
      * left. set_solver.
      * right. left. destruct Hsince as [E|(j & e & Hj & Hlog & Hin' & E)]; [lia|]. exists j, e. split_and!; [lia|done|set_solver|lia].
      * right. right. exists k. split_and!; [lia|done|]. intros k2 Hk2. specialize (Hbefore k2 Hk2). lia.
Qed.

Lemma replayHooks_progress m since h0 k seen s hs : progress since h0 k seen s hs ->
  exists s' hs', replayHooks m rd s = (s', Ok tt) /\ progress since h0 (m + k) (match m with O => seen | S m' => page (m' + k) end) s' hs'.
Proof.
  revert k seen s hs. induction m as [|m IH]; intros k seen s hs Hp; [by exists s, hs|].
  destruct (progress_step _ _ _ _ _ _ Hp) as (s1 & hs1 & E & Hp1). cbn [replayHooks]. rewrite E.
  destruct (IH _ _ _ _ Hp1) as (s2 & hs2 & -> & Hp2). exists s2, hs2. split; [done|].
  replace (S m + k)%nat with (m + S k)%nat by lia. destruct m as [|m]; [done|]. by replace (S m + k)%nat with (m + S k)%nat by lia.
Qed.

(** C24. Replaying forwards a webhook's deliveries once each, in the order GitHub recorded
    them, each as one POST of its payload and headers; it leaves out a delivery only
    when it is older than the start, when it was recorded less than a second after one
    already forwarded, or when a hundred newer ones were listed before it was. *)
Theorem replay_once_in_order m s0 s r
  (Hstart : rp_polls s0 = 0%nat /\ quiet (rp_host s0)) (Hrun : replayHooks m rd s0 = (s, r)) :
  r = Ok tt /\ exists hs, hs `sublist_of` log /\ ho_sent (rp_host s) = ho_sent (rp_host s0) ++ (replayed <$> hs) /\
    Forall (fun d => rp_sinceTime s0 <= hd_DeliveredAt d)%Z hs /\
    forall k i d, (k < m)%nat -> (i < page k)%nat -> log !! i = Some d -> (rp_sinceTime s0 <= hd_DeliveredAt d)%Z ->
      d ∈ hs \/ (exists j e, (j < i)%nat /\ log !! j = Some e /\ e ∈ hs /\ (hd_DeliveredAt d < hd_DeliveredAt e + second)%Z) \/
      exists k', (i + 100 < page k')%nat /\ forall k2, (k2 < k')%nat -> (page k2 <= i)%nat.
Proof.
  destruct Hstart as [Hp0 Hq]. assert (progress (rp_sinceTime s0) (rp_host s0) 0 0 s0 []) as Hp.
  { split; [done|split_and!; lia|done|apply sublist_nil_l|by rewrite app_nil_r|by split|lia|by left|lia]. }
  destruct (replayHooks_progress m _ _ _ _ _ _ Hp) as (s' & hs & E & Hend). rewrite E in Hrun. injection Hrun as <- <-.
  split; [done|]. exists hs. destruct Hend as [_ (Hseen & Hbefore & _) _ Hord Hsent [_ Hge] _ _ Hall].
  split; [etrans; [exact Hord|apply sublist_take]|]. split; [exact Hsent|]. split; [exact Hge|].
  intros k i d Hk Hi Hd Hs. specialize (Hbefore k ltac:(lia)).
  destruct (Hall i d ltac:(lia) Hd Hs) as [?|[?|(k' & _ & Hover)]]; eauto.
Qed.
End loop.

(** ** What it does not mean *)

Section slips.
Context `{!JsonText} `{!MapOrder} `{!Scripts} `{!GHOp}.

(** --noReplay and --ignore-event have no effect on a replay. *)
Lemma options_ignored n rd b l s :
  replayHooks n (rd <| rd_noReplay := b |> <| rd_ignoreEvents := l |>) s = replayHooks n rd s.
Proof.
  assert (forall pm h, replay_message (rd <| rd_noReplay := b |> <| rd_ignoreEvents := l |>) pm h = replay_message rd pm h) as Hm by done.
  assert (forall dlvs gets h, replay_deliveries (rd <| rd_noReplay := b |> <| rd_ignoreEvents := l |>) dlvs gets h = replay_deliveries rd dlvs gets h) as Hd.
  { induction dlvs as [|d dlvs IH]; intros gets h; [done|]. cbn [replay_deliveries].
    destruct (fetch_delivery _ _ _ _) as [g [[q|]|]]; [|done..]. by rewrite Hm, IH. }
  revert s. induction n as [|n IH]; intros s; [done|]. cbn [replayHooks].
  replace (replay_poll (rd <| rd_noReplay := b |> <| rd_ignoreEvents := l |>) s) with (replay_poll rd s).
  { destruct (replay_poll rd s) as [s' [|]]; [apply IH|done]. }
  unfold replay_poll. destruct (ListHookDeliveries _ _); [|done]. by rewrite Hd.
Qed.

(** Both listings panic. *)
Lemma listings_panic args hooks deliveries envTarget since valid parse now plan : hooks || deliveries = true ->
  replay args hooks deliveries envTarget since valid parse now <> Ok plan.
Proof.
  intros Hl. unfold replay. destruct (Contains _ _); (destruct (bool_decide _); [done|]; destruct hooks; [done|];
    cbn in Hl; subst deliveries; repeat case_match; done).
Qed.
End slips.

(** ** A run *)

(** Three deliveries, one in each listing, the second half a second after the first. *)
Definition demo_detail (d : HookDelivery) : HookRequest :=
  mkHookRequest {[ "X-GitHub-Event" := "push" ]} ("body " +:+ Itoa (hd_ID d)) (hd_DeliveredAt d).
Definition demo_log : list HookDelivery :=
  [mkHookDelivery 1 "a" "push" 1000000000; mkHookDelivery 2 "b" "push" 1500000000; mkHookDelivery 3 "c" "push" 3000000000].
Definition demo_page (k : nat) : nat := Nat.min 3 (S k).
#[export] Instance demo_hub : GHOp := {|
  ListHooks := Ok [];
  ListHookDeliveries k _ := Ok (take 100 (reverse (take (demo_page k) demo_log)));
  GetHookDelivery _ id := match list_find (fun d => hd_ID d = id) demo_log with
                          | Some (_, d) => mkGetAnswer (Some 200%Z) (Some (demo_detail d)) None
                          | None => mkGetAnswer (Some 404%Z) None (Some (errorf "not found"))
                          end |}.
Definition replay_run : Replayer * res unit := replayHooks 4 demo_opts (mkReplayer 0 0 0 demo_host).

(** The first and the last are forwarded; the second, recorded in the meantime, is
    not. *)
Example close_delivery_missed : og_Body <$> ho_sent (rp_host replay_run.1) = ["body 1"; "body 3"].
Proof. vm_compute. reflexivity. Qed.

Lemma replay_once_in_order_witness : exists hs, hs `sublist_of` demo_log /\
  og_Body <$> ho_sent (rp_host replay_run.1) = (fun d => "body " +:+ Itoa (hd_ID d)) <$> hs.
Proof.
  destruct (replay_once_in_order demo_opts demo_log demo_page demo_detail) with (m := 4%nat)
    (s0 := mkReplayer 0 0 0 demo_host) (s := replay_run.1) (r := replay_run.2) as (_ & hs & Hsub & Hsent & _).
  - split; reflexivity.
  - intros i j d e Hij Hi Hj. do 3 (destruct i as [|i]; [do 3 (destruct j as [|j]; [cbn in Hi, Hj; injection Hi as <-; injection Hj as <-; cbn; lia|]); discriminate Hj|]).
    discriminate Hi.
  - reflexivity.
  - intros k. unfold demo_page. cbn [length demo_log]. lia.
  - intros c d Hd. cbv [demo_log] in Hd. rewrite !elem_of_cons in Hd. destruct Hd as [->|[->|[->|Hd]]]; [reflexivity..|set_solver].
  - split; [reflexivity|]. intros n. reflexivity.
  - vm_compute. reflexivity.
  - exists hs. split; [exact Hsub|]. rewrite Hsent, fmap_app, <- list_fmap_compose. reflexivity.
Defined.
