(* ===== verification/RaftTls.v ===== *)
(** * RaftTls: certificates of the raft transport, and its dials

    internal/repository/raft_tls.go (the CA and the node's certificate: loaded,
    shared, issued or reused), the function of internal/server/raft_tls.go that calls
    it, and the dial of raft_streamlayer.go.  x509, PEM, crypto/tls and goca are the
    class [Pki]; files and their faults are [Host] of Client.v. *)

From S2P Require Import Prelude Json Domain Bolt Crypto Store Repo Authorization RateLimit Http Service Cluster Encryption Events Client.

(** ** Third-party code *)

(** What reusableNodeCert reads of an x509.Certificate; instants are nanoseconds. *)
Record Certificate `{!Net} := mkCertificate {
  ct_NotBefore : Z; ct_NotAfter : Z; ct_CommonName : string; ct_DNSNames : list string; ct_IPAddresses : list IP }.
Arguments mkCertificate {_}.

(** Certificates and keys are PEM texts.  [pk_signed] is CheckSignatureFrom on the
    certificates of two texts, [pk_issue] IssueCertificate under a CA, [pk_block] the
    type and bytes of the first block. *)
Class Pki `{!Net} := {
  pk_cert : string -> res Certificate;
  pk_signed : string -> string -> bool;
  pk_new_ca : string -> string -> Rand -> Rand * res (string * string);
  pk_load_ca : string -> string -> option goerr;
  pk_issue : string * string -> string -> string -> list string -> list IP -> Z -> Z -> Rand -> Rand * res (string * string);
  pk_key_pair : string -> string -> option goerr;
  pk_has_cert : string -> bool;
  pk_block : string -> option (string * string);
  pk_PKCS8 : string -> bool;
  pk_PKCS1 : string -> bool;
  pk_encode : string -> string -> string
}.

(** ** The machine *)

(** The API server: the CA Secret, the fault of its n-th call, and what another node
    has written by the n-th read. *)
Record SecretStore := mkSecrets {
  sx_data : option (gmap string string); sx_calls : nat; sx_fault : nat -> option goerr; sx_arrives : nat -> option (gmap string string) }.

Record TlsEnv := mkTlsEnv { te_host : Host; te_rand : Rand; te_secrets : SecretStore }.
#[export] Instance eta_secrets : Eta SecretStore := fun x => mkSecrets (sx_data x) (sx_calls x) (sx_fault x) (sx_arrives x).
#[export] Instance eta_tls : Eta TlsEnv := fun x => mkTlsEnv (te_host x) (te_rand x) (te_secrets x).

(** Steps on it that may fail. *)
Definition Tls (A : Type) : Type := TlsEnv -> TlsEnv * res A.
Definition ret {A} (a : A) : Tls A := fun t => (t, Ok a).
Definition fail {A} (msg : string) : Tls A := fun t => (t, Err (errorf msg)).
Definition and_do {A B} (m : Tls A) (k : A -> Tls B) : Tls B :=
  fun t => match m t with (t, Ok a) => k a t | (t, Err e) => (t, Err e) end.
Definition attempt {A} (m : Tls A) : Tls (res A) := fun t => let (t, r) := m t in (t, Ok r).
Definition of_res {A} (r : res A) : Tls A := fun t => (t, r).

Declare Scope tls_scope.
Delimit Scope tls_scope with tls.
Notation "'do!' x := m 'in' k" := (and_do m (fun x => k))
  (at level 10, x pattern, m at level 200, k at level 200) : tls_scope.
#[local] Open Scope tls_scope.

(** A system call under a label. *)
Definition syscall {A} (label : string) (k : Host -> Host * A) : Tls A := fun t =>
  let '(h, e) := io (te_host t) in
  match e with
  | Some e => (t <| te_host := h |>, Err (errorf (label +:+ err_msg e)))
  | None => let '(h, a) := k h in (t <| te_host := h |>, Ok a)
  end.

Definition drawing {A} (f : Rand -> Rand * res A) : Tls A := fun t => let '(r, x) := f (te_rand t) in (t <| te_rand := r |>, x).

(** ** Files *)

Definition ensureTLSDir (dir : string) : Tls unit :=
  do! _ := syscall ("raft TLS: mkdir " +:+ dir +:+ ": ") (fun h => (h <| ho_dirs := {[ dir ]} ∪ ho_dirs h |>, tt)) in
  syscall ("raft TLS: mkdir " +:+ dir +:+ ": ") (fun h => (h, tt)).

Definition readPEM (path what : string) : Tls string :=
  do! file := syscall ("raft TLS: read " +:+ what +:+ ": ") (fun h => (h, ho_files h !! path)) in
  match file with Some f => ret (fl_data f) | None => fail ("raft TLS: read " +:+ what +:+ ": no such file") end.

(** os.WriteFile: the file is emptied before it is written. *)
Definition writePEM (path data what : string) : Tls unit :=
  do! _ := syscall ("raft TLS: write " +:+ what +:+ ": ") (fun h => (truncate path 384 h, tt)) in
  syscall ("raft TLS: write " +:+ what +:+ ": ") (fun h => (fill path data h, tt)).

(** A stat that fails otherwise than by the file's absence counts as existing; here
    stat does not fail otherwise. *)
Definition fileExists (path : string) : Tls bool := fun t => (t, Ok (bool_decide (is_Some (ho_files (te_host t) !! path)))).

Section tls.
Context `{!Net} `{!Pki}.

(** ** The configuration *)

Record RaftTLSConfig := mkTLSConfig {
  rt_Enabled : bool; rt_Dir : string; rt_Validity : Z; rt_Organization : string;
  rt_CACertPath : string; rt_CertPath : string; rt_KeyPath : string;
  rt_CASecret : string; rt_CABootstrap : bool; rt_ClientAuth : bool; rt_SecretPollTimeout : Z }.

Definition nodeCertSafetyMargin : Z := 7 * 24 * 3600 * second.

(** The tls.Config of the stream layer: its leaf with its key, the pool of both
    directions, and whether a client must show a certificate. *)
Record tls_Config := mkTlsConfig { tc_leaf : string * string; tc_pool : string; tc_clientAuth : bool }.

Record raftTLSMaterial := mkMaterial { mt_caPool : string; mt_leaf : string * string }.

Definition buildRaftTLSMaterial (caCertPEM leafCertPEM leafKeyPEM : string) : res raftTLSMaterial :=
  match pk_key_pair leafCertPEM leafKeyPEM with
  | Some e => Err (errorf ("raft TLS: parse leaf key pair: " +:+ err_msg e))
  | None => if pk_has_cert caCertPEM then Ok (mkMaterial caCertPEM (leafCertPEM, leafKeyPEM))
            else Err (errorf "raft TLS: no CA cert found in CA PEM")
  end.
Definition buildRaftTLSConfig (m : raftTLSMaterial) (clientAuth : bool) : tls_Config := mkTlsConfig (mt_leaf m) (mt_caPool m) clientAuth.

Definition loadManualRaftTLS (cfg : RaftTLSConfig) : Tls tls_Config :=
  if bool_decide (rt_CACertPath cfg = "") || bool_decide (rt_CertPath cfg = "") || bool_decide (rt_KeyPath cfg = "")
  then fail "raft TLS: ca_cert/cert/key must all be set together"
  else
    do! caCertPEM := readPEM (rt_CACertPath cfg) "CA cert" in
    do! leafCertPEM := readPEM (rt_CertPath cfg) "leaf cert" in
    do! leafKeyPEM := readPEM (rt_KeyPath cfg) "leaf key" in
    do! m := of_res (buildRaftTLSMaterial caCertPEM leafCertPEM leafKeyPEM) in
    ret (buildRaftTLSConfig m (rt_ClientAuth cfg)).

(** ** The CA *)

Definition createRaftCAWithGoca (name organization : string) : Tls (string * string) := fun t =>
  match drawing (pk_new_ca name organization) t with
  | (t, Err e) => (t, Err (errorf ("create raft CA: " +:+ err_msg e)))
  | ok => ok
  end.

(** One read of the Secret: absent, refused, or its data. *)
Inductive SecretRead := SAbsent | SFailed (e : goerr) | SFound (ca : string * string).
Definition readRaftCASecret (name : string) (n : nat) (s : SecretStore) : SecretStore * SecretRead :=
  let s' := s <| sx_calls := S (sx_calls s) |> in
  match sx_fault s (sx_calls s) with
  | Some e => (s', SFailed e)
  | None =>
      match (match sx_data s with Some d => Some d | None => sx_arrives s n end) with
      | None => (s', SAbsent)
      | Some data =>
          match data !! "ca.crt", data !! "ca.key" with
          | Some cert, Some key => (s', SFound (cert, key))
          | _, _ => (s', SFailed (errorf ("raft TLS: CA secret " +:+ name +:+ " is missing ca.crt/ca.key keys")))
          end
      end
  end.

(** The poll of a node that does not bootstrap: [clock n] is the time after the n-th
    read; [fuel] bounds the reads. *)
Fixpoint poll_secret (fuel n : nat) (name : string) (clock : nat -> Z) (deadline : Z) (s : SecretStore)
  : SecretStore * option (res (string * string)) :=
  match fuel with
  | O => (s, None)
  | S fuel' =>
      match readRaftCASecret name n s with
      | (s, SFound ca) => (s, Some (Ok ca))
      | (s, SFailed e) => (s, Some (Err (errorf ("raft TLS: read CA secret " +:+ name +:+ ": " +:+ err_msg e))))
      | (s, SAbsent) =>
          if (deadline <? clock n)%Z then (s, Some (Err (errorf ("raft TLS: CA secret " +:+ name +:+ " did not appear"))))
          else poll_secret fuel' (S n) name clock deadline s
      end
  end.
Definition secretPollInterval : Z := 500 * 1000000.
Definition secret_deadline (cfg : RaftTLSConfig) (start : Z) : Z :=
  (start + (if (rt_SecretPollTimeout cfg =? 0)%Z then 30 * second else rt_SecretPollTimeout cfg))%Z.

(** Create: the Secret is there already, the call fails, or it is written. *)
Definition create_secret (ca : string * string) (s : SecretStore) : SecretStore * option (option goerr) :=
  let s' := s <| sx_calls := S (sx_calls s) |> in
  match sx_fault s (sx_calls s) with
  | Some e => (s', Some (Some e))
  | None => match sx_data s with
            | Some _ => (s', Some None)
            | None => (s' <| sx_data := Some {[ "ca.crt" := ca.1; "ca.key" := ca.2 ]} |>, None)
            end
  end.

Definition ensureRaftCAFromSecret (cfg : RaftTLSConfig) (fuel : nat) (start : Z) (clock : nat -> Z) : Tls (string * string) :=
  if rt_CABootstrap cfg then
    do! ca := createRaftCAWithGoca "gohookbridge-raft-ca" (rt_Organization cfg) in
    fun t =>
      match create_secret ca (te_secrets t) with
      | (s, None) => (t <| te_secrets := s |>, Ok ca)
      | (s, Some (Some e)) => (t <| te_secrets := s |>, Err (errorf ("raft TLS: create CA secret " +:+ rt_CASecret cfg +:+ ": " +:+ err_msg e)))
      | (s, Some None) =>
          let (s, x) := readRaftCASecret (rt_CASecret cfg) 0 s in
          (t <| te_secrets := s |>,
           match x with SFound ca => Ok ca | SFailed e => Err e | SAbsent => Err (mkErr KNotFound "secret not found") end)
      end
  else fun t =>
    let (s, x) := poll_secret fuel 0 (rt_CASecret cfg) clock (secret_deadline cfg start) (te_secrets t) in
    (t <| te_secrets := s |>, default (Err (errorf "out of fuel")) x).

Definition ensureLocalRaftCA (cfg : RaftTLSConfig) : Tls (string * string) :=
  do! _ := ensureTLSDir (rt_Dir cfg) in
  let certPath := rt_Dir cfg +:+ "/ca.crt" in
  let keyPath := rt_Dir cfg +:+ "/ca.key" in
  do! hasCert := fileExists certPath in
  do! hasKey := fileExists keyPath in
  if hasCert && hasKey then
    do! certPEM := readPEM certPath "CA cert" in
    do! keyPEM := readPEM keyPath "CA key" in
    ret (certPEM, keyPEM)
  else
    do! (certPEM, keyPEM) := createRaftCAWithGoca "gohookbridge-raft-ca" (rt_Organization cfg) in
    do! _ := writePEM certPath certPEM "CA cert" in
    do! _ := writePEM keyPath keyPEM "CA key" in
    ret (certPEM, keyPEM).

Definition ensureRaftCA (cfg : RaftTLSConfig) (clientset : bool) (fuel : nat) (start : Z) (clock : nat -> Z) : Tls (string * string) :=
  if clientset && negb (bool_decide (rt_CASecret cfg = "")) then ensureRaftCAFromSecret cfg fuel start clock
  else ensureLocalRaftCA cfg.

Definition fixPKCS1KeyWithWrongHeader (keyPEM : string) : res string :=
  match pk_block keyPEM with
  | None => Err (errorf "decode key PEM")
  | Some (type, bytes) =>
      if negb (bool_decide (type = "PRIVATE KEY")) then Err (errorf ("key PEM type is " +:+ type +:+ ", not PKCS#8"))
      else if pk_PKCS8 bytes then Err (errorf "key is valid PKCS#8")
      else if negb (pk_PKCS1 bytes) then Err (errorf "key is neither PKCS#1 nor PKCS#8")
      else Ok (pk_encode "RSA PRIVATE KEY" bytes)
  end.

(** The CA as it was loaded. *)
Definition NewMintingCAFromPEM (certPEM keyPEM : string) : res (string * string) :=
  match pk_load_ca certPEM keyPEM with
  | None => Ok (certPEM, keyPEM)
  | Some e =>
      match fixPKCS1KeyWithWrongHeader keyPEM with
      | Err _ => Err (errorf ("load minting CA from PEM: " +:+ err_msg e))
      | Ok fixedKey =>
          match pk_load_ca certPEM fixedKey with
          | Some _ => Err (errorf ("load minting CA from PEM: " +:+ err_msg e))
          | None => Ok (certPEM, fixedKey)
          end
      end
  end.

(** ** The node's certificate *)

Definition normalizeIPs (l : list IP) : list IP :=
  foldl (fun out ip => if existsb (fun existing => ip_Equal existing ip) out then out else out ++ [ip]) [] l.

Definition coversSANs (cert : Certificate) (dnsNames : list string) (ipAddrs : list IP) : bool :=
  forallb (fun n => contains_str (ct_DNSNames cert) n) dnsNames &&
  forallb (fun want => existsb (fun have => ip_Equal have want) (ct_IPAddresses cert)) (normalizeIPs ipAddrs).

Definition reusableNodeCert (cert : Certificate) (certPEM : string) (ca : string * string) (commonName : string)
  (dnsNames : list string) (ipAddrs : list IP) (now : Z) : bool :=
  if (now <? ct_NotBefore cert)%Z || (ct_NotAfter cert - now <=? nodeCertSafetyMargin)%Z then false
  else if negb (pk_signed certPEM ca.1) then false
  else if negb (bool_decide (ct_CommonName cert = commonName)) then false
  else coversSANs cert dnsNames ipAddrs.

Definition IssuePeerCertificate (ca : string * string) (commonName organization : string) (dnsNames : list string)
  (ipAddrs : list IP) (ttl now : Z) : Tls (string * string) := fun t =>
  match drawing (pk_issue ca commonName organization dnsNames ipAddrs ttl now) t with
  | (t, Err e) => (t, Err (errorf ("raft TLS: issue node cert: issue peer cert: " +:+ err_msg e)))
  | ok => ok
  end.

(** The certificate on disk, when it may be used again. *)
Definition reuse_node_cert (cfg : RaftTLSConfig) (ca : string * string) (commonName : string)
  (dnsNames : list string) (ipAddrs : list IP) (now : Z) : Tls (option (string * string)) :=
  let certPath := rt_Dir cfg +:+ "/node.crt" in
  let keyPath := rt_Dir cfg +:+ "/node.key" in
  do! hasCert := fileExists certPath in
  do! hasKey := fileExists keyPath in
  if hasCert && hasKey then
    do! existing := attempt (readPEM certPath "node cert") in
    match existing with
    | Err _ => ret None
    | Ok existingCert =>
        match pk_cert existingCert with
        | Err _ => ret None
        | Ok cert =>
            if reusableNodeCert cert existingCert ca commonName dnsNames ipAddrs now then
              do! key := attempt (readPEM keyPath "node key") in
              ret (match key with Ok key => Some (existingCert, key) | Err _ => None end)
            else ret None
        end
    end
  else ret None.

Definition issueOrReuseNodeCert (cfg : RaftTLSConfig) (ca : string * string) (commonName organization : string)
  (dnsNames : list string) (ipAddrs : list IP) (now : Z) : Tls (string * string) :=
  do! _ := ensureTLSDir (rt_Dir cfg) in
  do! reused := reuse_node_cert cfg ca commonName dnsNames ipAddrs now in
  match reused with
  | Some leaf => ret leaf
  | None =>
      do! (certPEM, keyPEM) := IssuePeerCertificate ca commonName organization dnsNames ipAddrs (rt_Validity cfg) now in
      do! _ := writePEM (rt_Dir cfg +:+ "/node.crt") certPEM "node cert" in
      do! _ := writePEM (rt_Dir cfg +:+ "/node.key") keyPEM "node key" in
      ret (certPEM, keyPEM)
  end.

(** ** LoadOrBuildRaftTLS *)

Definition tls_defaults (cfg : RaftTLSConfig) : RaftTLSConfig :=
  mkTLSConfig (rt_Enabled cfg) (rt_Dir cfg) (if (rt_Validity cfg =? 0)%Z then 8760 * 3600 * second else rt_Validity cfg)%Z
    (if bool_decide (rt_Organization cfg = "") then "gohookbridge-raft" else rt_Organization cfg)
    (rt_CACertPath cfg) (rt_CertPath cfg) (rt_KeyPath cfg) (rt_CASecret cfg) (rt_CABootstrap cfg) (rt_ClientAuth cfg) (rt_SecretPollTimeout cfg).

Definition manual_mode (cfg : RaftTLSConfig) : bool :=
  negb (bool_decide (rt_CACertPath cfg = "") && bool_decide (rt_CertPath cfg = "") && bool_decide (rt_KeyPath cfg = "")).

Definition LoadOrBuildRaftTLS (cfg : RaftTLSConfig) (isMultiNode clientset : bool) (fuel : nat) (clock : nat -> Z)
  (dnsNames : list string) (ipAddrs : list IP) (commonName : string) (now : Z) : Tls (option tls_Config) :=
  if negb (rt_Enabled cfg) then ret None
  else
    let cfg := tls_defaults cfg in
    if manual_mode cfg then do! c := loadManualRaftTLS cfg in ret (Some c)
    else if isMultiNode then fail "raft TLS: multi-node deployments require manual pre-provisioned certificates"
    else
      do! (caCertPEM, caKeyPEM) := ensureRaftCA cfg clientset fuel now clock in
      do! ca := of_res (match NewMintingCAFromPEM caCertPEM caKeyPEM with
                        | Ok ca => Ok ca
                        | Err e => Err (errorf ("raft TLS: load CA: " +:+ err_msg e))
                        end) in
      do! (leafCertPEM, leafKeyPEM) := issueOrReuseNodeCert cfg ca commonName (rt_Organization cfg) dnsNames ipAddrs now in
      do! m := of_res (buildRaftTLSMaterial caCertPEM leafCertPEM leafKeyPEM) in
      ret (Some (buildRaftTLSConfig m (rt_ClientAuth cfg))).

(** buildRaftTLSConfig of internal/server: [flags] holds the raft-tls flags, with the
    directory and the bootstrap flag as given; [loopback] is 127.0.0.1. *)
Definition server_raft_tls (flags : RaftTLSConfig) (raftDir : string) (replicas : Z) (peers : list string) (nodeID : string)
  (discovery : RaftDiscoveryConfig) (hostname : string) (loopback : IP) (clientset : bool) (fuel : nat) (clock : nat -> Z) (now : Z)
  : Tls (option tls_Config) :=
  let isMultiNode := (1 <? replicas)%Z || (1 <? length peers)%nat in
  if negb (rt_Enabled flags) then ret None
  else
    let dir := if bool_decide (rt_Dir flags = "") then raftDir +:+ "/tls" else rt_Dir flags in
    let caBootstrap := rt_CABootstrap flags || isMultiNode && HasSuffix hostname "-0" || negb isMultiNode in
    let commonName :=
      if bool_decide (nodeID = "") then
        match Self (NewPeerResolver discovery hostname) with Ok self => rp_ID self | Err _ => "" end
      else nodeID in
    LoadOrBuildRaftTLS
      (mkTLSConfig true dir (rt_Validity flags) "" (rt_CACertPath flags) (rt_CertPath flags) (rt_KeyPath flags)
         (rt_CASecret flags) caBootstrap (rt_ClientAuth flags) (rt_SecretPollTimeout flags))
      isMultiNode clientset fuel clock (PodSANs discovery hostname) [loopback] commonName now.

(** ** Dials *)

Definition maxDialRetries : nat := 4.
Definition dialRetryBackoff : Z := 500 * 1000000.
Definition isConnRefused (e : goerr) : bool := Contains (err_msg e) "connection refused".

(** retryingStreamLayer.Dial: what LookupHost and the dialer answer to the n-th
    attempt; the slept time is kept beside the connection's name. *)
Fixpoint dial_loop (left attempt : nat) (lookup : nat -> res (list string)) (dial : nat -> string -> res string)
  (port : string) (lastErr : goerr) (slept : Z) : Z * res string :=
  match left with
  | O => (slept, Err (errorf ("dial: " +:+ err_msg lastErr +:+ " (retries exhausted)")))
  | S left' =>
      let slept := if (0 <? attempt)%nat then (slept + dialRetryBackoff * Z.of_nat attempt)%Z else slept in
      let next e := dial_loop left' (S attempt) lookup dial port e slept in
      match lookup attempt with
      | Err e => next (errorf ("resolve: " +:+ err_msg e))
      | Ok [] => next (errorf "resolve: no addresses")
      | Ok (ip :: _) =>
          match dial attempt (JoinHostPort ip port) with
          | Ok conn => (slept, Ok conn)
          | Err e => if isConnRefused e then next e else (slept, Err e)
          end
      end
  end.
Definition Dial (addr : string) (lookup : nat -> res (list string)) (dial : nat -> string -> res string) : Z * res string :=
  match SplitHostPort addr with
  | None => (0%Z, Err (errorf ("parse raft dial addr " +:+ addr)))
  | Some (_, port) => dial_loop (S maxDialRetries) 0 lookup dial port (errorf "") 0
  end.
End tls.
