(* ===== verification/RaftTlsTheory.v ===== *)
(** * RaftTlsTheory: a node's certificate is current, and kept

    In the automatic mode a node serves a certificate of the current CA that names it
    and is not about to expire; a restart keeps it; a renewal cut between its two files
    stops every later start.  The wait for the CA Secret and the retries of a dial
    end. *)

From S2P Require Import Prelude Json Domain Bolt Crypto Store Repo Authorization RateLimit Http Service Cluster ClusterTheory Encryption Events Client ClientTheory RaftTls.

#[local] Open Scope tls_scope.

(** ** Steps *)

Lemma and_do_Ok {A B} (m : Tls A) (k : A -> Tls B) t t' b : and_do m k t = (t', Ok b) ->
  exists t1 a, m t = (t1, Ok a) /\ k a t1 = (t', Ok b).
Proof. unfold and_do. destruct (m t) as [t1 [a|e]]; [eauto|done]. Qed.

Definition files (t : TlsEnv) : gmap string File := ho_files (te_host t).
Definition calm (t : TlsEnv) : Prop := (forall n, ho_fault (te_host t) n = None) /\ forall n, sx_fault (te_secrets t) n = None.

(** Steps that leave files, Secret and faults as they are. *)
Definition same (t t' : TlsEnv) : Prop :=
  files t' = files t /\ sx_data (te_secrets t') = sx_data (te_secrets t) /\
  (forall n, ho_fault (te_host t') n = ho_fault (te_host t) n) /\ sx_fault (te_secrets t') = sx_fault (te_secrets t).

#[export] Instance same_refl : Reflexive same.
Proof. by intros t. Qed.
#[export] Instance same_trans : Transitive same.
Proof. intros t1 t2 t3 (Ha & Hb & Hc & Hd) (He & Hf & Hg & Hh). split_and!; [congruence|congruence| |congruence]. intros n. by rewrite Hg, Hc. Qed.

Lemma same_calm t t' : same t t' -> calm t -> calm t'.
Proof. intros (_ & _ & Hc & Hd) [Hq Hs]. split; intros n; [by rewrite Hc|by rewrite Hd]. Qed.

Lemma ensureTLSDir_same dir t t' : ensureTLSDir dir t = (t', Ok tt) -> same t t' /\ te_secrets t' = te_secrets t.
Proof.
  intros (t1 & [] & E1 & E2)%and_do_Ok. revert E1 E2. unfold syscall, io.
  destruct (ho_fault (te_host t) _); [done|]. intros [= <-]. cbn [te_host set_fld].
  match goal with |- context [ho_fault ?h ?n] => destruct (ho_fault h n) end; [done|]. by intros [= <-].
Qed.

Lemma ensureTLSDir_calm dir t : calm t -> exists t', ensureTLSDir dir t = (t', Ok tt) /\ same t t'.
Proof.
  intros [Hq _]. unfold ensureTLSDir, and_do, syscall, io. rewrite (Hq _). cbn [te_host set_fld ho_fault].
  eexists. change (ho_fault (_ <| ho_dirs := _ |>)) with (ho_fault (te_host t)). rewrite (Hq _). by split.
Qed.

Lemma readPEM_Ok path what t t' d : readPEM path what t = (t', Ok d) ->
  same t t' /\ te_secrets t' = te_secrets t /\ exists f, files t !! path = Some f /\ fl_data f = d.
Proof.
  unfold readPEM, and_do, syscall, io. destruct (ho_fault (te_host t) _); [done|].
  change (ho_files ((te_host t) <| ho_pos := S (ho_pos (te_host t)) |>)) with (files t).
  destruct (files t !! path) as [f|]; [|done]. intros [= <- <-]. split; [done|]. split; [done|]. by exists f.
Qed.

Lemma readPEM_calm path what t f : calm t -> files t !! path = Some f ->
  exists t', readPEM path what t = (t', Ok (fl_data f)) /\ same t t'.
Proof.
  intros [Hq _] Hf. unfold readPEM, and_do, syscall, io. rewrite (Hq _).
  change (ho_files ((te_host t) <| ho_pos := S (ho_pos (te_host t)) |>)) with (files t). rewrite Hf. by eexists.
Qed.

Lemma writePEM_Ok path data what t t' : writePEM path data what t = (t', Ok tt) ->
  (exists mode, files t' = <[path := mkFile data mode]> (files t)) /\ te_secrets t' = te_secrets t.
Proof.
  intros (t1 & [] & E1 & E2)%and_do_Ok. revert E1 E2. unfold syscall, io. destruct (ho_fault (te_host t) _); [done|].
  intros [= <-]. cbn [te_host set_fld]. match goal with |- context [ho_fault ?h ?n] => destruct (ho_fault h n) end; [done|].
  intros [= <-]. split; [|done]. eexists. unfold files. cbn [te_host set_fld]. unfold fill, truncate. cbn [ho_files set_fld].
  rewrite alter_insert_eq. reflexivity.
Qed.

Section tls.
Context `{!Net} `{!Pki}.

Lemma drawing_same {A} (f : Rand -> Rand * res A) t t' x : drawing f t = (t', x) ->
  same t t' /\ te_secrets t' = te_secrets t /\ x = (f (te_rand t)).2.
Proof. unfold drawing. destruct (f (te_rand t)) as [r y]. intros [= <- <-]. by split_and!. Qed.

Lemma new_ca_same name org t t' ca : createRaftCAWithGoca name org t = (t', Ok ca) -> same t t' /\ te_secrets t' = te_secrets t.
Proof.
  unfold createRaftCAWithGoca. destruct (drawing _ t) as [t1 [c|e]] eqn:E; [|done]. intros [= <- <-].
  by apply drawing_same in E as (? & ? & _).
Qed.

(** ** The CA *)

Definition shared (cfg : RaftTLSConfig) (clientset : bool) : bool := clientset && negb (bool_decide (rt_CASecret cfg = "")).

Definition holds (path data : string) (t : TlsEnv) : Prop := exists mode, files t !! path = Some (mkFile data mode).

(** Where a start finds the CA again. *)
Definition ca_kept (cfg : RaftTLSConfig) (clientset : bool) (ca : string * string) (t : TlsEnv) : Prop :=
  if shared cfg clientset then exists d, sx_data (te_secrets t) = Some d /\ d !! "ca.crt" = Some ca.1 /\ d !! "ca.key" = Some ca.2
  else holds (rt_Dir cfg +:+ "/ca.crt") ca.1 t /\ holds (rt_Dir cfg +:+ "/ca.key") ca.2 t.

Lemma fileExists_holds path data t : holds path data t -> fileExists path t = (t, Ok true).
Proof. intros [mode Hf]. unfold fileExists. by rewrite bool_decide_true by (unfold files in Hf; rewrite Hf; eauto). Qed.

Lemma readPEM_holds path what data t : calm t -> holds path data t -> exists t', readPEM path what t = (t', Ok data) /\ same t t'.
Proof. intros Hq [mode Hf]. exact (readPEM_calm path what t _ Hq Hf). Qed.

Lemma same_holds path data t t' : same t t' -> holds path data t -> holds path data t'.
Proof. intros [Hf _] [mode Hh]. exists mode. by rewrite Hf. Qed.

Lemma app_str_inj (d a b : string) : d +:+ a = d +:+ b -> a = b.
Proof. induction d as [|c d IH]; cbn; [done|]. intros [= E]. by apply IH. Qed.

Lemma ensureRaftCA_keeps cfg clientset fuel start clock t t' ca : rt_CABootstrap cfg = true ->
  ensureRaftCA cfg clientset fuel start clock t = (t', Ok ca) -> ca_kept cfg clientset ca t'.
Proof.
  intros Hboot. unfold ensureRaftCA, ca_kept. fold (shared cfg clientset). destruct (shared cfg clientset).
  - unfold ensureRaftCAFromSecret. rewrite Hboot. intros (t1 & ca1 & E1 & E2)%and_do_Ok. revert E2. unfold create_secret.
    destruct (sx_fault _ _); [done|]. destruct (sx_data (te_secrets t1)) as [d|] eqn:Ed.
    + unfold readRaftCASecret. cbn [sx_fault sx_calls sx_data set_fld]. destruct (sx_fault _ _); [by intros [=]|].
      rewrite Ed.
      destruct (d !! "ca.crt") as [c|] eqn:Ec, (d !! "ca.key") as [k|] eqn:Ek; try (by intros [=]).
      intros [= <- <-]. exists d. by split_and!.
    + intros [= <- <-]. eexists. split; [reflexivity|]. split; [done|]. by destruct ca1.
  - intros (t1 & [] & E1 & (t2 & b1 & E2 & (t3 & b2 & E3 & E4)%and_do_Ok)%and_do_Ok)%and_do_Ok.
    injection E2 as <- <-. injection E3 as <- <-. destruct (_ && _) in E4.
    + apply and_do_Ok in E4 as (t2 & c & (Hs2 & _ & fc & Hc & <-)%readPEM_Ok & (t3 & k & (Hs3 & _ & fk & Hk & <-)%readPEM_Ok & E5)%and_do_Ok).
      injection E5 as <- <-. destruct Hs2 as [Hf2 _], Hs3 as [Hf3 _]. unfold holds. rewrite Hf3, Hf2.
      rewrite Hf2 in Hk. destruct fc, fk. cbn. eauto.
    + apply and_do_Ok in E4 as (t2 & [c k] & Hca & (t3 & [] & [[m1 Hw1] _]%writePEM_Ok & (t4 & [] & [[m2 Hw2] _]%writePEM_Ok & E5)%and_do_Ok)%and_do_Ok).
      injection E5 as <- <-. unfold holds. rewrite Hw2, Hw1. cbn [fst snd]. split; [exists m1|exists m2; by rewrite lookup_insert_eq].
      rewrite lookup_insert_ne by (intros E%app_str_inj; discriminate E). by rewrite lookup_insert_eq.
Qed.

Lemma secret_again name s c ca d : (forall n, sx_fault s n = None) -> sx_data s = Some d ->
  d !! "ca.crt" = Some ca.1 -> d !! "ca.key" = Some ca.2 ->
  exists s1 s2, create_secret c s = (s1, Some None) /\ readRaftCASecret name 0 s1 = (s2, SFound ca) /\
    sx_data s2 = sx_data s /\ sx_fault s2 = sx_fault s.
Proof.
  destruct s as [data calls fault arrives], ca as [cert key]. cbn. intros Hq -> Hc Hk. unfold create_secret, readRaftCASecret.
  cbn. rewrite Hq. eexists _, _. split; [reflexivity|]. cbn. by rewrite Hq, Hc, Hk.
Qed.

(** A calm start finds the CA it kept. *)
Lemma ensureRaftCA_again cfg clientset fuel start clock t ca : rt_CABootstrap cfg = true -> calm t ->
  (exists r c, pk_new_ca "gohookbridge-raft-ca" (rt_Organization cfg) (te_rand t) = (r, Ok c)) -> ca_kept cfg clientset ca t ->
  exists t', ensureRaftCA cfg clientset fuel start clock t = (t', Ok ca) /\ same t t'.
Proof.
  intros Hboot Hq (r & c & Hnew) Hk. unfold ensureRaftCA, ca_kept in *. fold (shared cfg clientset). destruct (shared cfg clientset).
  - destruct Hk as (d & Hd & Hc & Hkey). unfold ensureRaftCAFromSecret, and_do, createRaftCAWithGoca, drawing. rewrite Hboot, Hnew.
    cbn [te_secrets set_fld].
    destruct (secret_again (rt_CASecret cfg) (te_secrets t) c ca d (proj2 Hq) Hd Hc Hkey) as (s1 & s2 & E1 & E2 & Hd2 & Hf2).
    change (te_secrets (t <| te_rand := r |>)) with (te_secrets t). rewrite E1, E2. eexists. split; [reflexivity|].
    by split_and!.
  - destruct Hk as [Hc Hkey]. unfold ensureLocalRaftCA.
    destruct (ensureTLSDir_calm (rt_Dir cfg) t Hq) as (t1 & E1 & Hs1). unfold and_do at 1. rewrite E1.
    pose proof (same_calm _ _ Hs1 Hq) as Hq1. apply (same_holds _ _ _ _ Hs1) in Hc, Hkey.
    unfold and_do at 1. rewrite (fileExists_holds _ _ _ Hc). unfold and_do at 1. rewrite (fileExists_holds _ _ _ Hkey). cbn [andb].
    destruct (readPEM_holds _ "CA cert" _ _ Hq1 Hc) as (t2 & E2 & Hs2). unfold and_do at 1. rewrite E2.
    pose proof (same_calm _ _ Hs2 Hq1) as Hq2. apply (same_holds _ _ _ _ Hs2) in Hkey.
    destruct (readPEM_holds _ "CA key" _ _ Hq2 Hkey) as (t3 & E3 & Hs3). unfold and_do at 1. rewrite E3.
    exists t3. destruct ca. split; [done|]. etrans; [exact Hs1|]. by etrans.
Qed.

(** ** The node's certificate *)

Definition covered (cert : Certificate) (ip : IP) : Prop := existsb (fun have => ip_Equal have ip) (ct_IPAddresses cert) = true.

(** goca issues what it is asked for: a certificate of the CA, for its key, that bears
    the names, backdated by five minutes and valid for the time given; equality of
    addresses is transitive. *)
Class PkiLaws := {
  law_issue : forall ca cn org dns ips ttl now r r' cert key, pk_issue ca cn org dns ips ttl now r = (r', Ok (cert, key)) ->
    exists ct, pk_cert cert = Ok ct /\ pk_signed cert ca.1 = true /\ pk_key_pair cert key = None /\ ct_CommonName ct = cn /\
      (forall n, n ∈ dns -> n ∈ ct_DNSNames ct) /\ (forall ip, ip ∈ ips -> covered ct ip) /\
      ct_NotBefore ct = (now - 5 * minute)%Z /\ ct_NotAfter ct = (now + ttl)%Z;
  law_ip_trans : forall a b c, ip_Equal a b = true -> ip_Equal b c = true -> ip_Equal a c = true
}.
Context `{!PkiLaws}.

(** A certificate that peers accept for this node now, and for a week more. *)
Record current (certPEM ca cn : string) (dns : list string) (ips : list IP) (now : Z) (ct : Certificate) : Prop := {
  cu_cert : pk_cert certPEM = Ok ct;
  cu_signed : pk_signed certPEM ca = true;
  cu_name : ct_CommonName ct = cn;
  cu_dns : forall n, n ∈ dns -> n ∈ ct_DNSNames ct;
  cu_ips : forall ip, ip ∈ ips -> covered ct ip;
  cu_window : (ct_NotBefore ct <= now)%Z /\ (now + nodeCertSafetyMargin < ct_NotAfter ct)%Z }.

Lemma normalizeIPs_spec ips : (forall ip, ip ∈ normalizeIPs ips -> ip ∈ ips) /\
  forall ip, ip ∈ ips -> ip ∈ normalizeIPs ips \/ exists ip', ip' ∈ normalizeIPs ips /\ ip_Equal ip' ip = true.
Proof.
  unfold normalizeIPs. induction ips as [|x ips IH] using rev_ind; [set_solver|]. rewrite foldl_app. cbn [foldl].
  set (out := foldl _ [] ips) in *. destruct IH as [IH1 IH2]. destruct (existsb _ out) eqn:E.
  - split; [set_solver|]. intros ip [Hi|Hx%list_elem_of_singleton]%elem_of_app; [auto|]. subst x. right.
    apply existsb_exists in E as (e & He%list_elem_of_In & Heq). eauto.
  - split; [set_solver|]. intros ip [Hi|Hx%list_elem_of_singleton]%elem_of_app; [|left; set_solver].
    destruct (IH2 ip Hi) as [|(e & He & Heq)]; [left; set_solver|right; exists e; set_solver].
Qed.

Lemma covered_equal ct a b : covered ct a -> ip_Equal a b = true -> covered ct b.
Proof.
  unfold covered. rewrite !existsb_exists. intros (h & Hin & Hh) Hab. exists h. split; [done|]. by apply (law_ip_trans h a b).
Qed.

(** The check of a persisted certificate is the specification. *)
Lemma reusable_current ct certPEM ca cn dns ips now : pk_cert certPEM = Ok ct ->
  reusableNodeCert ct certPEM ca cn dns ips now = true <-> current certPEM ca.1 cn dns ips now ct.
Proof.
  intros Hct. unfold reusableNodeCert, coversSANs. pose proof (normalizeIPs_spec ips) as [Hn1 Hn2].
  assert (forallb (fun n => contains_str (ct_DNSNames ct) n) dns = true <-> forall n, n ∈ dns -> n ∈ ct_DNSNames ct) as Hdns.
  { rewrite forallb_forall. split; intros Hx n Hin; [apply contains_str_true, Hx|apply contains_str_true, Hx]; by apply list_elem_of_In. }
  assert (forallb (fun want => existsb (fun have => ip_Equal have want) (ct_IPAddresses ct)) (normalizeIPs ips) = true <->
    forall ip, ip ∈ ips -> covered ct ip) as Hips.
  { rewrite forallb_forall. split.
    - intros Hx ip Hin. destruct (Hn2 ip Hin) as [Hm|(e & He & Heq)]; [by apply Hx, list_elem_of_In|].
      apply (covered_equal ct e); [by apply Hx, list_elem_of_In|done].
    - intros Hx ip Hin%list_elem_of_In. by apply Hx, Hn1. }
  destruct ((now <? ct_NotBefore ct)%Z || (ct_NotAfter ct - now <=? nodeCertSafetyMargin)%Z) eqn:Ew.
  { split; [done|]. intros [_ _ _ _ _ Hw]. lia. }
  destruct (pk_signed certPEM ca.1) eqn:Es; cbn [negb]; [|split; [done|by intros [_ ? _ _ _ _]; congruence]].
  destruct (bool_decide _) eqn:Ecn; cbn [negb].
  - apply bool_decide_eq_true in Ecn. rewrite andb_true_iff, Hdns, Hips. split; [intros [Hd Hi]|intros [_ _ _ Hd Hi _]; auto].
    split; try done. lia.
  - apply bool_decide_eq_false in Ecn. split; [done|]. by intros [_ _ ? _ _ _].
Qed.

Lemma reuse_node_cert_Ok cfg ca cn dns ips now t t' reused : reuse_node_cert cfg ca cn dns ips now t = (t', Ok reused) ->
  same t t' /\ te_secrets t' = te_secrets t /\
  match reused with
  | Some (cert, key) => (exists ct, current cert ca.1 cn dns ips now ct) /\ holds (rt_Dir cfg +:+ "/node.crt") cert t' /\
      holds (rt_Dir cfg +:+ "/node.key") key t'
  | None => True
  end.
Proof.
  assert (forall A B (m : Tls A) (k : res A -> Tls B) u u' b, and_do (attempt m) k u = (u', Ok b) ->
    exists t1 r, m u = (t1, r) /\ k r t1 = (u', Ok b)) as Hatt.
  { intros A B m k u u' b (t1 & r & E1 & E2)%and_do_Ok. unfold attempt in E1. destruct (m u) as [v x]. injection E1 as <- <-. eauto. }
  assert (forall path what u u' x, readPEM path what u = (u', x) -> same u u' /\ te_secrets u' = te_secrets u /\
    forall d, x = Ok d -> holds path d u') as Hread.
  { intros path what u u' [d|e] E.
    - apply readPEM_Ok in E as (Hs & Hx & f & Hf & <-). split_and!; try done. intros d' [= <-]. exists (fl_mode f).
      rewrite (proj1 Hs), Hf. by destruct f.
    - revert E. unfold readPEM, and_do, syscall, io. destruct (ho_fault _ _); [by intros [= <- _]|].
      destruct (ho_files _ !! path); [done|]. by intros [= <- _]. }
  intros (t1 & b1 & E1 & (t2 & b2 & E2 & E3)%and_do_Ok)%and_do_Ok. injection E1 as <- <-. injection E2 as <- <-.
  destruct (_ && _) in E3; [|by injection E3 as <- <-]. apply Hatt in E3 as (t1 & [cert|] & (Hs1 & Hx1 & Hh1)%Hread & E4); [|by injection E4 as <- <-].
  destruct (pk_cert cert) as [ct|] eqn:Ect; [|by injection E4 as <- <-].
  destruct (reusableNodeCert _ _ _ _ _ _ _) eqn:Er; [|by injection E4 as <- <-].
  apply Hatt in E4 as (t2 & x & (Hs2 & Hx2 & Hh2)%Hread & E5). injection E5 as <- <-. split; [by etrans|]. split; [congruence|].
  destruct x as [key|]; [|done]. split; [exists ct; by apply reusable_current|]. split; [|by apply Hh2].
  exact (same_holds _ _ _ _ Hs2 (Hh1 _ eq_refl)).
Qed.

Lemma Issue_Ok ca cn org dns ips ttl now t t' cert key : (nodeCertSafetyMargin < ttl)%Z ->
  IssuePeerCertificate ca cn org dns ips ttl now t = (t', Ok (cert, key)) ->
  same t t' /\ te_secrets t' = te_secrets t /\ exists ct, current cert ca.1 cn dns ips now ct.
Proof.
  intros Httl. unfold IssuePeerCertificate. destruct (drawing _ t) as [t1 [[c k]|]] eqn:E; [|done]. intros [= <- <- <-].
  apply drawing_same in E as (Hs & Hx & E). split; [done|]. split; [done|].
  destruct (pk_issue ca cn org dns ips ttl now (te_rand t)) as [r y] eqn:Ei. cbn in E. subst y.
  apply law_issue in Ei as (ct & Hct & Hsig & _ & Hcn & Hdns & Hips & Hnb & Hna). exists ct. split; try done.
  rewrite Hnb, Hna. assert (0 <= minute)%Z by done. lia.
Qed.

(** What a start does with the two files of the node's certificate. *)
Lemma issueOrReuse_Ok cfg ca cn org dns ips now t t' cert key : (nodeCertSafetyMargin < rt_Validity cfg)%Z ->
  issueOrReuseNodeCert cfg ca cn org dns ips now t = (t', Ok (cert, key)) ->
  (exists ct, current cert ca.1 cn dns ips now ct) /\ holds (rt_Dir cfg +:+ "/node.crt") cert t' /\
  holds (rt_Dir cfg +:+ "/node.key") key t' /\ te_secrets t' = te_secrets t /\
  forall path, path <> rt_Dir cfg +:+ "/node.crt" -> path <> rt_Dir cfg +:+ "/node.key" -> files t' !! path = files t !! path.
Proof.
  intros Hval (t1 & [] & [Hs1 Hx1]%ensureTLSDir_same & (t2 & reused & E2 & E3)%and_do_Ok)%and_do_Ok.
  destruct (reuse_node_cert_Ok _ _ _ _ _ _ _ _ _ E2) as (Hs2 & Hx2 & Hr). destruct reused as [[c k]|].
  - destruct Hr as (Hct & Hc & Hk). injection E3 as <- <- <-. split; [done|]. split; [done|]. split; [done|].
    split; [by rewrite Hx2|]. intros path _ _. by rewrite (proj1 Hs2), (proj1 Hs1).
  - apply and_do_Ok in E3 as (t3 & [c k] & Hissue & (t4 & [] & [[m1 Hw1] Hx4]%writePEM_Ok & (t5 & [] & [[m2 Hw2] Hx5]%writePEM_Ok & E6)%and_do_Ok)%and_do_Ok).
    injection E6 as <- <- <-. apply Issue_Ok in Hissue as (Hs3 & Hx3 & ct & Hcur); [|done].
    assert (rt_Dir cfg +:+ "/node.crt" <> rt_Dir cfg +:+ "/node.key") as Hne by (intros E%app_str_inj; discriminate E).
    split; [by exists ct|]. unfold holds. rewrite Hw2, Hw1. split; [exists m1; by rewrite lookup_insert_ne, lookup_insert_eq|].
    split; [exists m2; by rewrite lookup_insert_eq|]. split; [congruence|]. intros path Hp1 Hp2.
    rewrite !lookup_insert_ne by done. by rewrite (proj1 Hs3), (proj1 Hs2), (proj1 Hs1).
Qed.

Lemma issueOrReuse_again cfg ca cn org dns ips now t cert key ct : calm t ->
  holds (rt_Dir cfg +:+ "/node.crt") cert t -> holds (rt_Dir cfg +:+ "/node.key") key t -> current cert ca.1 cn dns ips now ct ->
  exists t', issueOrReuseNodeCert cfg ca cn org dns ips now t = (t', Ok (cert, key)) /\ same t t'.
Proof.
  intros Hq Hc Hk Hcur. unfold issueOrReuseNodeCert. destruct (ensureTLSDir_calm (rt_Dir cfg) t Hq) as (t1 & E1 & Hs1).
  unfold and_do at 1. rewrite E1. pose proof (same_calm _ _ Hs1 Hq) as Hq1. apply (same_holds _ _ _ _ Hs1) in Hc, Hk.
  unfold and_do at 1, reuse_node_cert. unfold and_do at 1. rewrite (fileExists_holds _ _ _ Hc).
  unfold and_do at 1. rewrite (fileExists_holds _ _ _ Hk). cbn [andb].
  destruct (readPEM_holds _ "node cert" _ _ Hq1 Hc) as (t2 & E2 & Hs2). unfold and_do at 1, attempt at 1. rewrite E2.
  rewrite (cu_cert _ _ _ _ _ _ _ Hcur), (proj2 (reusable_current _ _ _ _ _ _ _ (cu_cert _ _ _ _ _ _ _ Hcur)) Hcur).
  pose proof (same_calm _ _ Hs2 Hq1) as Hq2. apply (same_holds _ _ _ _ Hs2) in Hk.
  destruct (readPEM_holds _ "node key" _ _ Hq2 Hk) as (t3 & E3 & Hs3). unfold and_do at 1, attempt at 1. rewrite E3.
  exists t3. split; [done|]. etrans; [exact Hs1|]. by etrans.
Qed.

(** ** A start *)

Definition automatic (cfg : RaftTLSConfig) : Prop := rt_Enabled cfg = true /\ manual_mode cfg = false.

Definition with_loaded (x : res (string * string)) : res (string * string) :=
  match x with Ok ca => Ok ca | Err e => Err (errorf ("raft TLS: load CA: " +:+ err_msg e)) end.

Lemma load_automatic cfg multi clientset fuel clock dns ips cn now t t' c : automatic cfg ->
  LoadOrBuildRaftTLS cfg multi clientset fuel clock dns ips cn now t = (t', Ok c) ->
  multi = false /\ exists ca0 t1 ca leaf, ensureRaftCA (tls_defaults cfg) clientset fuel now clock t = (t1, Ok ca0) /\
    NewMintingCAFromPEM ca0.1 ca0.2 = Ok ca /\
    issueOrReuseNodeCert (tls_defaults cfg) ca cn (rt_Organization (tls_defaults cfg)) dns ips now t1 = (t', Ok leaf) /\
    pk_key_pair leaf.1 leaf.2 = None /\ pk_has_cert ca0.1 = true /\ c = Some (mkTlsConfig leaf ca0.1 (rt_ClientAuth cfg)).
Proof.
  intros [He Hm]. unfold LoadOrBuildRaftTLS. rewrite He. cbn [negb]. change (manual_mode (tls_defaults cfg)) with (manual_mode cfg).
  rewrite Hm. destruct multi; [done|]. split; [done|]. revert H2.
  intros (t1 & [cc ck] & E1 & (t2 & ca & E2 & (t3 & [lc lk] & E3 & (t4 & m & E4 & E5)%and_do_Ok)%and_do_Ok)%and_do_Ok)%and_do_Ok.
  unfold of_res in E2, E4. destruct (NewMintingCAFromPEM cc ck) as [ca'|] eqn:En; [|done]. injection E2 as <- <-.
  revert E4. unfold buildRaftTLSMaterial. destruct (pk_key_pair lc lk) eqn:Ek; [done|]. destruct (pk_has_cert cc) eqn:Eh; [|done].
  intros [= <- <-]. injection E5 as <- <-. by exists (cc, ck), t1, ca', (lc, lk).
Qed.

Lemma minting_cert ca0 ca : NewMintingCAFromPEM ca0.1 ca0.2 = Ok ca -> ca.1 = ca0.1.
Proof.
  unfold NewMintingCAFromPEM. destruct (pk_load_ca _ _); [|by intros [= <-]]. destruct (fixPKCS1KeyWithWrongHeader _); [|done].
  destruct (pk_load_ca _ _); [done|]. by intros [= <-].
Qed.

(** A start that finds a CA and a current certificate on its volume uses them and
    writes nothing. *)
Lemma load_kept cfg clientset fuel clock dns ips cn now t ca0 ca cert key ct : automatic cfg -> rt_CABootstrap cfg = true -> calm t ->
  (exists r c, pk_new_ca "gohookbridge-raft-ca" (rt_Organization (tls_defaults cfg)) (te_rand t) = (r, Ok c)) ->
  ca_kept (tls_defaults cfg) clientset ca0 t -> NewMintingCAFromPEM ca0.1 ca0.2 = Ok ca ->
  holds (rt_Dir cfg +:+ "/node.crt") cert t -> holds (rt_Dir cfg +:+ "/node.key") key t -> current cert ca0.1 cn dns ips now ct ->
  exists t', same t t' /\ LoadOrBuildRaftTLS cfg false clientset fuel clock dns ips cn now t =
    (t', match buildRaftTLSMaterial ca0.1 cert key with Ok m => Ok (Some (buildRaftTLSConfig m (rt_ClientAuth cfg))) | Err e => Err e end).
Proof.
  intros [He Hm] Hboot Hq Hnew Hca Hmint Hc Hk Hcur. unfold LoadOrBuildRaftTLS. rewrite He. cbn [negb].
  change (manual_mode (tls_defaults cfg)) with (manual_mode cfg). rewrite Hm.
  destruct (ensureRaftCA_again (tls_defaults cfg) clientset fuel now clock t ca0 Hboot Hq Hnew Hca) as (t1 & E1 & Hs1).
  unfold and_do at 1. rewrite E1. destruct ca0 as [cc ck]. cbn [fst snd] in *. unfold and_do at 1. rewrite Hmint. cbn [of_res].
  assert (ca.1 = cc) as Hcc by exact (minting_cert (cc, ck) ca Hmint). rewrite <- Hcc in Hcur.
  destruct (issueOrReuse_again (tls_defaults cfg) ca cn (rt_Organization (tls_defaults cfg)) dns ips now t1 cert key ct) as (t2 & E2 & Hs2);
    [exact (same_calm _ _ Hs1 Hq)|exact (same_holds _ _ _ _ Hs1 Hc)|exact (same_holds _ _ _ _ Hs1 Hk)|exact Hcur|].
  unfold and_do at 1. cbn in E2 |- *. rewrite E2. exists t2. split; [by etrans|]. unfold and_do, of_res.
  by destruct (buildRaftTLSMaterial _ _ _).
Qed.

(** C20. In the automatic mode a node that starts serves a certificate its peers accept:
    signed by the CA of the pool it serves it with, in its own name, covering its
    names and addresses, not expiring within a week, and with the key it matches;
    several nodes are refused. *)
Theorem identity_current cfg multi clientset fuel clock dns ips cn now t t' tc
  (Hauto : automatic cfg) (Hval : (nodeCertSafetyMargin < rt_Validity (tls_defaults cfg))%Z)
  (Hrun : LoadOrBuildRaftTLS cfg multi clientset fuel clock dns ips cn now t = (t', Ok (Some tc))) :
  multi = false /\ tc_clientAuth tc = rt_ClientAuth cfg /\ pk_key_pair (tc_leaf tc).1 (tc_leaf tc).2 = None /\
  exists ct, current (tc_leaf tc).1 (tc_pool tc) cn dns ips now ct.
Proof.
  apply load_automatic in Hrun as (-> & ca0 & t1 & ca & [lc lk] & _ & Hmint & Hissue & Hkp & _ & [= ->]); [|done].
  apply issueOrReuse_Ok in Hissue as (Hcur & _); [|done]. rewrite (minting_cert _ _ Hmint) in Hcur. done.
Qed.

(** C21. A restart keeps the node's identity: until a week before its certificate expires
    the next start, on the same volume and Secret, serves the same certificate under
    the same CA and writes nothing. *)
Theorem restart_keeps_identity cfg clientset fuel clock dns ips cn now t t' tc fuel2 clock2 now2 t2
  (Hauto : automatic cfg /\ rt_CABootstrap cfg = true) (Hval : (nodeCertSafetyMargin < rt_Validity (tls_defaults cfg))%Z)
  (Hrun : LoadOrBuildRaftTLS cfg false clientset fuel clock dns ips cn now t = (t', Ok (Some tc)))
  (Hkept : files t2 = files t' /\ sx_data (te_secrets t2) = sx_data (te_secrets t') /\ calm t2)
  (Hnew : exists r c, pk_new_ca "gohookbridge-raft-ca" (rt_Organization (tls_defaults cfg)) (te_rand t2) = (r, Ok c))
  (Hlater : (now <= now2)%Z /\ forall ct, pk_cert (tc_leaf tc).1 = Ok ct -> (now2 + nodeCertSafetyMargin < ct_NotAfter ct)%Z) :
  exists t3, LoadOrBuildRaftTLS cfg false clientset fuel2 clock2 dns ips cn now2 t2 = (t3, Ok (Some tc)) /\ same t2 t3.
Proof.
  destruct Hauto as [Hauto Hboot], Hkept as (Hf & Hsd & Hq), Hlater as [Hle Hexp].
  apply load_automatic in Hrun as (_ & ca0 & t1 & ca & [lc lk] & Hca & Hmint & Hissue & Hkp & Hpool & [= ->]); [|done].
  apply ensureRaftCA_keeps in Hca; [|done]. apply issueOrReuse_Ok in Hissue as ((ct & Hcur) & Hc & Hk & Hx & Hothers); [|done].
  rewrite (minting_cert _ _ Hmint) in Hcur. cbn [tc_leaf fst snd] in *.
  assert (forall path data, holds path data t' -> holds path data t2) as Hh by (intros path data [m Hm]; exists m; by rewrite Hf).
  assert (ca_kept (tls_defaults cfg) clientset ca0 t2) as Hca2.
  { revert Hca. unfold ca_kept. destruct (shared _ _); [by rewrite Hsd, Hx|].
    intros [[m1 H1'] [m2 H2']]. split; apply Hh; [exists m1|exists m2]; (rewrite Hothers; [done|intros E%app_str_inj; discriminate E..]). }
  destruct (load_kept cfg clientset fuel2 clock2 dns ips cn now2 t2 ca0 ca lc lk ct Hauto Hboot Hq Hnew Hca2 Hmint (Hh _ _ Hc) (Hh _ _ Hk))
    as (t3 & Hs & E).
  { destruct Hcur as [Hcert ? ? ? ? [Hnb _]]. split; try done. split; [lia|by apply Hexp]. }
  exists t3. split; [|done]. rewrite E. unfold buildRaftTLSMaterial. cbn in Hkp. by rewrite Hkp, Hpool.
Qed.

(** C22. A renewal cut between its two files is fatal: once the volume holds a current
    certificate beside a key that is not its own, every start fails and leaves the
    volume as it is. *)
Theorem torn_renewal_stuck cfg clientset fuel clock dns ips cn now t ca0 ca cert key ct e
  (Hauto : automatic cfg /\ rt_CABootstrap cfg = true) (Hcalm : calm t)
  (Hnew : exists r c, pk_new_ca "gohookbridge-raft-ca" (rt_Organization (tls_defaults cfg)) (te_rand t) = (r, Ok c))
  (Hca : ca_kept (tls_defaults cfg) clientset ca0 t /\ NewMintingCAFromPEM ca0.1 ca0.2 = Ok ca)
  (Htorn : holds (rt_Dir cfg +:+ "/node.crt") cert t /\ holds (rt_Dir cfg +:+ "/node.key") key t /\ pk_key_pair cert key = Some e)
  (Hcur : current cert ca0.1 cn dns ips now ct) :
  exists t' e', LoadOrBuildRaftTLS cfg false clientset fuel clock dns ips cn now t = (t', Err e') /\ same t t'.
Proof.
  destruct Hauto as [Hauto Hboot], Hca as [Hca Hmint], Htorn as (Hc & Hk & Hkp).
  destruct (load_kept cfg clientset fuel clock dns ips cn now t ca0 ca cert key ct Hauto Hboot Hcalm Hnew Hca Hmint Hc Hk Hcur) as (t' & Hs & E).
  unfold buildRaftTLSMaterial in E. rewrite Hkp in E. eauto.
Qed.
End tls.

(** ** Waiting for the Secret *)

(** The poll ends: at two reads a second it answers within the timeout. *)
Theorem poll_secret_ends `{!Net} `{!Pki} (name : string) (clock : nat -> Z) (start timeout : Z) (s : SecretStore)
  (Hclock : forall n, (start + Z.of_nat (S n) * secretPollInterval <= clock (S n))%Z) (Hpos : (0 <= timeout)%Z) :
  is_Some (poll_secret (2 + Z.to_nat (timeout / secretPollInterval)) 0 name clock (start + timeout) s).2.
Proof.
  set (k := Z.to_nat (timeout / secretPollInterval)).
  assert (Z.of_nat k = timeout / secretPollInterval)%Z as Hk by (apply Z2Nat.id, Z.div_pos; [lia|done]).
  assert (forall fuel n s, (n + fuel = 2 + k)%nat -> (0 < fuel)%nat -> is_Some (poll_secret fuel n name clock (start + timeout) s).2) as Hgen.
  { induction fuel as [|fuel IH]; intros n s1 Hn Hf; [lia|]. cbn [poll_secret].
    destruct (readRaftCASecret name n s1) as [s2 [| |]]; [|by eexists..].
    destruct (start + timeout <? clock n)%Z eqn:E; [by eexists|]. apply IH; [lia|].
    destruct fuel; [|lia]. exfalso. assert (n = S k) as -> by lia. apply Z.ltb_ge in E. specialize (Hclock k).
    pose proof (Z.mul_succ_div_gt timeout secretPollInterval eq_refl). lia. }
  apply Hgen; lia.
Qed.

(** ** Dials *)

(** What an attempt decides: nothing when the name does not resolve or the peer
    refuses the connection. *)
Definition dial_outcome `{!Net} (lookup : nat -> res (list string)) (dial : nat -> string -> res string) (port : string) (n : nat) : option (res string) :=
  match lookup n with
  | Ok (ip :: _) => match dial n (JoinHostPort ip port) with
                    | Ok conn => Some (Ok conn)
                    | Err e => if isConnRefused e then None else Some (Err e)
                    end
  | _ => None
  end.

Section dial.
Context `{!Net} `{!Pki} (lookup : nat -> res (list string)) (dial : nat -> string -> res string) (port : string).

Definition undecided (n : nat) : Prop := forall m, (m < n)%nat -> dial_outcome lookup dial port m = None.
Definition decided (n : nat) (r : res string) : Prop :=
  (exists m, (m < n)%nat /\ dial_outcome lookup dial port m = Some r /\ undecided m) \/ is_ok r = false /\ undecided n.

Lemma undecided_S n : undecided n -> dial_outcome lookup dial port n = None -> undecided (S n).
Proof. intros Hu Hn m Hm. destruct (decide (m = n)) as [->|]; [done|]. apply Hu. lia. Qed.

Lemma dial_loop_decides left attempt last slept0 slept r :
  dial_loop left attempt lookup dial port last slept0 = (slept, r) -> undecided attempt ->
  (slept0 <= slept /\ 2 * slept <= 2 * slept0 + dialRetryBackoff * (Z.of_nat left * (2 * Z.of_nat attempt + Z.of_nat left - 1)))%Z /\
  decided (attempt + left) r.
Proof.
  revert attempt last slept0. induction left as [|left IH]; intros attempt last slept0; cbn [dial_loop].
  { intros [= <- <-] Hu. split; [lia|]. right. by rewrite Nat.add_0_r. }
  set (slept1 := if (0 <? attempt)%nat then _ else slept0).
  assert (slept1 = slept0 + dialRetryBackoff * Z.of_nat attempt)%Z as -> by (subst slept1; destruct attempt; cbn [Nat.ltb Nat.leb]; lia).
  intros Hrun Hu.
  assert (forall last', dial_outcome lookup dial port attempt = None ->
    dial_loop left (S attempt) lookup dial port last' (slept0 + dialRetryBackoff * Z.of_nat attempt) = (slept, r) ->
    (slept0 <= slept /\ 2 * slept <= 2 * slept0 + dialRetryBackoff * (Z.of_nat (S left) * (2 * Z.of_nat attempt + Z.of_nat (S left) - 1)))%Z /\
    decided (attempt + S left) r) as Hnext.
  { intros last' Hout E. destruct (IH _ _ _ E (undecided_S _ Hu Hout)) as [Hs Hd].
    replace (attempt + S left)%nat with (S attempt + left)%nat by lia. split; [|exact Hd]. unfold dialRetryBackoff in *. nia. }
  assert (forall x, dial_outcome lookup dial port attempt = Some x -> (slept0 + dialRetryBackoff * Z.of_nat attempt, x)%Z = (slept, r) ->
    (slept0 <= slept /\ 2 * slept <= 2 * slept0 + dialRetryBackoff * (Z.of_nat (S left) * (2 * Z.of_nat attempt + Z.of_nat (S left) - 1)))%Z /\
    decided (attempt + S left) r) as Hend.
  { intros x Hout [= <- <-]. split; [unfold dialRetryBackoff; nia|]. left. exists attempt. split_and!; [lia|done|done]. }
  unfold dial_outcome in Hnext, Hend. destruct (lookup attempt) as [[|ip ips]|e]; [by apply (Hnext _ eq_refl Hrun)| |by apply (Hnext _ eq_refl Hrun)].
  destruct (dial attempt (JoinHostPort ip port)) as [conn|e]; [by apply (Hend _ eq_refl Hrun)|].
  destruct (isConnRefused e); [by apply (Hnext _ eq_refl Hrun)|by apply (Hend _ eq_refl Hrun)].
Qed.
(** A dial answers with the first of five attempts that decides, and fails when none
    does; it sleeps five seconds in all at most. *)
Theorem Dial_decides addr host slept r (Haddr : SplitHostPort addr = Some (host, port)) (Hdial : Dial addr lookup dial = (slept, r)) :
  (0 <= slept <= 5 * second)%Z /\ decided (S maxDialRetries) r.
Proof.
  revert Hdial. unfold Dial. rewrite Haddr. intros [Hs Hd]%dial_loop_decides; [|intros m Hm; lia]. split; [|exact Hd].
  unfold dialRetryBackoff, maxDialRetries, second in *. lia.
Qed.
End dial.

(** ** A node with a volume *)

Definition year : Z := 8760 * 3600 * second.
Definition demo_leaf (now : Z) : Certificate := mkCertificate (now - 5 * minute)%Z (now + year)%Z "node1" ["node1"; "localhost"] ["127.0.0.1"].
Definition demo_serial (s : string) : option Z := if HasPrefix s "leaf" then parse_digits 0 (drop_str 4 s) else None.

(** A PKI with one CA, that only knows one node. *)
#[export] Instance demo_pki : Pki := {|
  pk_cert s := match demo_serial s with Some n => Ok (demo_leaf n) | None => Err (errorf "no PEM block found") end;
  pk_signed _ ca := bool_decide (ca = "ca");
  pk_new_ca _ _ r := (r, Ok ("ca", "cakey"));
  pk_load_ca c k := if bool_decide (c = "ca") && bool_decide (k = "cakey") then None else Some (errorf "not a CA");
  pk_issue ca cn _ dns ips ttl now r :=
    (r, if bool_decide (ca.1 = "ca") && bool_decide (cn = "node1") && bool_decide (dns = ["node1"; "localhost"]) &&
           bool_decide (ips = ["127.0.0.1"]) && (ttl =? year)%Z && (0 <=? now)%Z
        then Ok ("leaf" +:+ Itoa now, "key" +:+ Itoa now) else Err (errorf "refused"));
  pk_key_pair c k := if bool_decide (drop_str 4 c = drop_str 3 k) then None else Some (errorf "private key does not match public key");
  pk_has_cert s := bool_decide (s = "ca");
  pk_block _ := None;
  pk_PKCS8 _ := false;
  pk_PKCS1 _ := false;
  pk_encode _ s := s |}.

Lemma prefix_nil_true s : String.prefix "" s = true.
Proof. by destruct s. Qed.

#[export] Instance demo_pki_laws : PkiLaws.
Proof.
  split.
  - intros ca cn org dns ips ttl now r r' cert key. unfold pk_issue, demo_pki. destruct (_ && _) eqn:E; [|done]. intros [= <- <- <-].
    rewrite !andb_true_iff in E. destruct E as [[[[[Hca%bool_decide_eq_true Hcn%bool_decide_eq_true] Hdns%bool_decide_eq_true]
      Hips%bool_decide_eq_true] Httl%Z.eqb_eq] Hnow%Z.leb_le]. subst cn dns ips ttl. exists (demo_leaf now). cbn [pk_cert pk_signed pk_key_pair].
    rewrite Hca. assert (demo_serial ("leaf" +:+ Itoa now) = Some now) as -> by (unfold demo_serial; change (drop_str 4 ("leaf" +:+ Itoa now)) with (Itoa now);
      change (HasPrefix ("leaf" +:+ Itoa now) "leaf") with (String.prefix "" (Itoa now)); rewrite prefix_nil_true; by apply parse_Itoa).
    change (drop_str 4 ("leaf" +:+ Itoa now)) with (Itoa now). change (drop_str 3 ("key" +:+ Itoa now)) with (Itoa now).
    split_and!; try done; [by rewrite (bool_decide_true (Itoa now = Itoa now))|]. intros ip Hin%list_elem_of_singleton. by subst ip.
  - intros a b c Ha%bool_decide_eq_true Hb%bool_decide_eq_true. apply bool_decide_eq_true. congruence.
Qed.

Definition demo_dns : list string := ["node1"; "localhost"].
Definition demo_ips : list IP := ["127.0.0.1"].
Definition demo_tls : RaftTLSConfig := mkTLSConfig true "/raft/tls" 0 "" "" "" "" "" true true 0.
Definition demo_env (h : Host) : TlsEnv := mkTlsEnv h (mkRand (fun _ _ => None) 0) (mkSecrets None 0 (fun _ => None) (fun _ => None)).
Abbreviation demo_start now h := (LoadOrBuildRaftTLS demo_tls false false 0 (fun _ => 0%Z) demo_dns demo_ips "node1" now (demo_env h)).
Definition served (now : Z) : tls_Config := mkTlsConfig ("leaf" +:+ Itoa now, "key" +:+ Itoa now) "ca" true.

Lemma identity_current_witness : (demo_start year demo_host).2 = Ok (Some (served year)) /\
  exists ct, current ("leaf" +:+ Itoa year) "ca" "node1" demo_dns demo_ips year ct.
Proof.
  assert (demo_start year demo_host = ((demo_start year demo_host).1, Ok (Some (served year)))) as E by (vm_compute; reflexivity).
  split; [by rewrite E|].
  exact (proj2 (proj2 (proj2 (identity_current demo_tls false false 0 (fun _ => 0%Z) demo_dns demo_ips "node1" year
    (demo_env demo_host) (demo_start year demo_host).1 (served year) (conj eq_refl eq_refl) eq_refl E)))).
Defined.

(** Ten months later. *)
Definition restarted_host : Host := te_host (demo_start year demo_host).1.

Lemma restart_keeps_identity_witness : exists t3,
  demo_start (year + 300 * 24 * 3600 * second)%Z restarted_host = (t3, Ok (Some (served year))).
Proof.
  destruct (restart_keeps_identity demo_tls false 0 (fun _ => 0%Z) demo_dns demo_ips "node1" year
    (demo_env demo_host) (demo_start year demo_host).1 (served year) 0 (fun _ => 0%Z) (year + 300 * 24 * 3600 * second)%Z (demo_env restarted_host)) as (t3 & E & _).
  - split; [split|]; reflexivity.
  - reflexivity.
  - vm_compute. reflexivity.
  - split; [vm_compute; reflexivity|]. split; [vm_compute; reflexivity|].
    split; intros n; vm_compute; reflexivity.
  - eexists _, _. vm_compute. reflexivity.
  - split; [vm_compute; discriminate|]. intros ct Hct. vm_compute in Hct. injection Hct as <-. vm_compute. reflexivity.
  - exists t3. exact E.
Defined.

(** The renewal of a year later, on a disk that is full when the key is written. *)
Definition full_disk : Host :=
  restarted_host <| ho_pos := 0%nat |> <| ho_fault := fun n => if bool_decide (n = 9%nat) then Some (errorf "no space left on device") else None |>.
Definition torn_host : Host := (te_host (demo_start (2 * year)%Z full_disk).1) <| ho_fault := fun _ => None |>.

Lemma torn_renewal_stuck_witness : is_ok (demo_start (2 * year)%Z full_disk).2 = false /\
  exists t' e', demo_start (2 * year + 300 * 24 * 3600 * second)%Z torn_host = (t', Err e') /\ same (demo_env torn_host) t'.
Proof.
  split; [vm_compute; reflexivity|].
  destruct (torn_renewal_stuck demo_tls false 0 (fun _ => 0%Z) demo_dns demo_ips "node1" (2 * year + 300 * 24 * 3600 * second)
    (demo_env torn_host) ("ca", "cakey") ("ca", "cakey") ("leaf" +:+ Itoa (2 * year)) ("key" +:+ Itoa year) (demo_leaf (2 * year))
    (errorf "private key does not match public key")) as (t' & e' & E & Hs).
  - split; [split|]; reflexivity.
  - split; intros n; vm_compute; reflexivity.
  - eexists _, _. vm_compute. reflexivity.
  - split; [|reflexivity]. split; eexists; vm_compute; reflexivity.
  - split; [eexists; vm_compute; reflexivity|]. split; [eexists; vm_compute; reflexivity|]. vm_compute. reflexivity.
  - split; [vm_compute; reflexivity|reflexivity|reflexivity| | |].
    + intros n Hn. exact Hn.
    + intros ip Hip. apply list_elem_of_singleton in Hip. subst ip. reflexivity.
    + split; vm_compute; [discriminate|reflexivity].
  - exists t', e'. split; [exact E|exact Hs].
Defined.
