(* ===== verification/TlsReload.v ===== *)
(** * TlsReload: pkg/tlsreload

    The provider that reloads a key pair and a CA pool when their files change.  A
    state of the files is a function of the path ([Files]); what a method reads one
    call after the other may come from different states.  x509 and crypto/tls are the
    class [Pki] of RaftTls.v, the log is left out. *)

From S2P Require Import Prelude Json Domain Bolt Crypto Store Repo Authorization RateLimit Http Service Cluster Encryption Events Client RaftTls RaftTlsTheory.

(** A file's content and modification time. *)
Definition Files : Type := string -> option (string * Z).

Record reload_state := mkReloaded { rs_cert : string * string; rs_pool : string; rs_modTime : Z }.
Record Provider := mkProvider { pv_certFile : string; pv_keyFile : string; pv_caFile : string; pv_current : option reload_state }.
#[export] Instance eta_provider : Eta Provider := fun x => mkProvider (pv_certFile x) (pv_keyFile x) (pv_caFile x) (pv_current x).

Definition NewProvider (certFile keyFile caFile : string) : Provider := mkProvider certFile keyFile caFile None.

Section reload.
Context `{!Net} `{!Pki}.

(** The zero time is before every modification time. *)
Definition latestModTime (p : Provider) (fs : Files) : option Z :=
  c ← fs (pv_certFile p); k ← fs (pv_keyFile p); a ← fs (pv_caFile p); Some (Z.max (Z.max (Z.max 0 c.2) k.2) a.2).

(** The key pair is read from [fs1], the CA from [fs2] and the times from [fs3]. *)
Definition readState (p : Provider) (fs1 fs2 fs3 : Files) (now : Z) : res reload_state :=
  match fs1 (pv_certFile p), fs1 (pv_keyFile p) with
  | Some (cert, _), Some (key, _) =>
      match pk_key_pair cert key with
      | Some e => Err (errorf ("load key pair: " +:+ err_msg e))
      | None =>
          match pk_cert cert with
          | Err e => Err (errorf ("parse leaf certificate: " +:+ err_msg e))
          | Ok leaf =>
              if (now <? ct_NotBefore leaf)%Z then Err (errorf "certificate not yet valid")
              else if (ct_NotAfter leaf <? now)%Z then Err (errorf "certificate expired")
              else
                match fs2 (pv_caFile p) with
                | None => Err (errorf "read CA: no such file")
                | Some (ca, _) =>
                    if negb (pk_has_cert ca) then Err (errorf ("no CA certificate found in " +:+ pv_caFile p))
                    else match latestModTime p fs3 with
                         | None => Err (errorf "stat: no such file")
                         | Some modTime => Ok (mkReloaded (cert, key) ca modTime)
                         end
                end
          end
      end
  | _, _ => Err (errorf "load key pair: no such file")
  end.

Definition Load (p : Provider) (fs1 fs2 fs3 : Files) (now : Z) : Provider * res unit :=
  match readState p fs1 fs2 fs3 now with
  | Ok st => (p <| pv_current := Some st |>, Ok tt)
  | Err e => (p, Err e)
  end.

Definition GetCertificate (p : Provider) : res (string * string) :=
  match pv_current p with Some st => Ok (rs_cert st) | None => Err (errorf "tlsreload: no certificate loaded") end.

(** TLSConfig: the leaf is asked of the provider at each handshake, the pool is the
    one of this moment. *)
Definition TLSConfig (p : Provider) : option string := rs_pool <$> pv_current p.

(** [fs0] is what the first stat sees. *)
Definition reload (p : Provider) (fs0 fs1 fs2 fs3 : Files) (now : Z) : Provider :=
  match latestModTime p fs0 with
  | None => p
  | Some modTime =>
      let unchanged := match pv_current p with Some st => negb (rs_modTime st <? modTime)%Z | None => false end in
      if unchanged then p
      else match readState p fs1 fs2 fs3 now with Ok st => p <| pv_current := Some st |> | Err _ => p end
  end.

(** Start: one reload a tick, on files that do not change meanwhile. *)
Definition polls (p : Provider) (ticks : list (Files * Z)) : Provider :=
  foldl (fun p '(fs, now) => reload p fs fs fs fs now) p ticks.

(** ** What it promises *)

(** The material of a state of the files, when it is valid. *)
Definition material (p : Provider) (fs : Files) (now : Z) : option ((string * string) * string) :=
  match readState p fs fs fs now with Ok st => Some (rs_cert st, rs_pool st) | Err _ => None end.

Definition serving (p : Provider) : option ((string * string) * string) := (fun st => (rs_cert st, rs_pool st)) <$> pv_current p.

(** A change of the files moves their modification time forward. *)
Definition honest (p : Provider) (fs1 fs2 : Files) : Prop :=
  forall m1 m2, latestModTime p fs1 = Some m1 -> latestModTime p fs2 = Some m2 -> (m2 <= m1)%Z ->
  forall path, path ∈ [pv_certFile p; pv_keyFile p; pv_caFile p] -> fs2 path = fs1 path.

(** [fs] is where the provider's state comes from. *)
Definition loaded_from (p : Provider) (fs : Files) : Prop := exists now st, pv_current p = Some st /\ readState p fs fs fs now = Ok st.

Lemma readState_inv p fs now st : readState p fs fs fs now = Ok st ->
  latestModTime p fs = Some (rs_modTime st) /\ exists t1 t2 t3, fs (pv_certFile p) = Some ((rs_cert st).1, t1) /\
    fs (pv_keyFile p) = Some ((rs_cert st).2, t2) /\ fs (pv_caFile p) = Some (rs_pool st, t3).
Proof.
  unfold readState. destruct (fs (pv_certFile p)) as [[c t1]|] eqn:Ec; [|done]. destruct (fs (pv_keyFile p)) as [[k t2]|] eqn:Ek; [|done].
  destruct (pk_key_pair c k); [done|]. destruct (pk_cert c) as [leaf|]; [|done]. destruct (_ <? _)%Z; [done|].
  destruct (_ <? _)%Z; [done|]. destruct (fs (pv_caFile p)) as [[a t3]|] eqn:Ea; [|done]. destruct (negb _); [done|].
  destruct (latestModTime p fs) eqn:El; [|done]. intros [= <-]. split; [done|]. by exists t1, t2, t3.
Qed.

(** One tick: the material on disk is served when it is valid, what was served before
    otherwise. *)
Lemma reload_tick p fs0 fs now : loaded_from p fs0 -> honest p fs0 fs ->
  let p' := reload p fs fs fs fs now in
  serving p' = (match material p fs now with Some m => Some m | None => serving p end) /\
  (exists c, p' = p <| pv_current := c |>) /\
  (loaded_from p' fs0 \/ loaded_from p' fs).
Proof.
  intros (now0 & st & Hcur & Hread0) Hh. assert (p = p <| pv_current := pv_current p |>) as Hself by (by destruct p).
  unfold reload, material. destruct (latestModTime p fs) as [m|] eqn:Em; cbv zeta.
  2:{ destruct (readState p fs fs fs now) as [st'|] eqn:Er; [|split_and!; [done|by exists (pv_current p)|left; by exists now0, st]].
      apply readState_inv in Er as [Hm _]. congruence. }
  rewrite Hcur. destruct (rs_modTime st <? m)%Z eqn:Elt; cbn [negb].
  - destruct (readState p fs fs fs now) as [st'|] eqn:Er.
    + split_and!; [done|by eexists|right; by exists now, st'].
    + split_and!; [done|by exists (pv_current p)|left; by exists now0, st].
  - split_and!; [|by exists (pv_current p)|left; by exists now0, st].
    destruct (readState p fs fs fs now) as [st'|] eqn:Er; [|done]. unfold serving. rewrite Hcur. cbn.
    apply readState_inv in Hread0 as (Hm0 & a1 & a2 & a3 & Ha1 & Ha2 & Ha3). apply readState_inv in Er as (Hm & b1 & b2 & b3 & Hb1 & Hb2 & Hb3).
    assert (forall path, path ∈ [pv_certFile p; pv_keyFile p; pv_caFile p] -> fs path = fs0 path) as Hsame by (apply (Hh _ _ Hm0 Em); lia).
    rewrite Hsame in Hb1, Hb2, Hb3 by (rewrite !elem_of_cons; auto). destruct (rs_cert st), (rs_cert st'). cbn in *. congruence.
Qed.


(** A replacement that falls between the reads of the files and the stat that follows
    is never noticed: the old certificate is kept with the new time. *)
Theorem update_missed p fs1 fs2 fs3 now st (Hload : Load p fs1 fs2 fs3 now = (p <| pv_current := Some st |>, Ok tt)) (nows : list Z) :
  polls (p <| pv_current := Some st |>) ((fun n => (fs3, n)) <$> nows) = p <| pv_current := Some st |> /\
  exists t, fs1 (pv_certFile p) = Some ((rs_cert st).1, t).
Proof.
  revert Hload. unfold Load. destruct (readState p fs1 fs2 fs3 now) as [st'|] eqn:E; [|done]. intros [= ->].
  revert E. unfold readState. destruct (fs1 (pv_certFile p)) as [[c t1]|] eqn:Ec; [|done]. destruct (fs1 (pv_keyFile p)) as [[k t2]|]; [|done].
  destruct (pk_key_pair c k); [done|]. destruct (pk_cert c) as [leaf|]; [|done]. destruct (_ <? _)%Z; [done|].
  destruct (_ <? _)%Z; [done|]. destruct (fs2 (pv_caFile p)) as [[a t3]|]; [|done]. destruct (negb _); [done|].
  destruct (latestModTime p fs3) as [m|] eqn:El; [|done]. intros [= <-]. split; [|by exists t1].
  induction nows as [|n nows IH]; [done|]. cbn [fmap list_fmap polls foldl].
  assert (forall q, pv_current q = Some (mkReloaded (c, k) a m) -> latestModTime q fs3 = Some m -> reload q fs3 fs3 fs3 fs3 n = q) as Hkeep.
  { intros q Hq Hm. unfold reload. rewrite Hm, Hq. cbn [rs_modTime]. by rewrite Z.ltb_irrefl. }
  rewrite Hkeep; [exact IH|done|exact El].
Qed.
End reload.

(** ** A rotation *)

(** The certificate is replaced before its key: the tick in between changes nothing. *)
Definition pair_files (cert key : Z) (time : Z) : Files := fun path =>
  if bool_decide (path = "tls.crt") then Some ("leaf" +:+ Itoa cert, time)
  else if bool_decide (path = "tls.key") then Some ("key" +:+ Itoa key, time)
  else if bool_decide (path = "ca.crt") then Some ("ca", 0%Z) else None.
Definition demo_provider : Provider := (Load (NewProvider "tls.crt" "tls.key" "ca.crt") (pair_files 1 1 1) (pair_files 1 1 1) (pair_files 1 1 1) 10).1.
Definition demo_ticks : list (Files * Z) := [(pair_files 1 1 1, 20); (pair_files 2 1 2, 30); (pair_files 2 2 3, 40)]%Z.

