(* ===== verification/Migrate.v ===== *)
(** * Migrate: internal/server/migrate.go

    The command that turns the environment variables of the former version into a
    bootstrap file, and what becomes of a deployment that starts from it.  YAML is
    left out: the command's result is the document it prints. *)

From S2P Require Import Prelude Json Domain Bolt Fsm Crypto Store Repo Authorization RateLimit Http Service ServiceTheory Buffer Broker Encryption Middleware Webhook WebhookTheory Cluster Bootstrap.

(** One variable: left alone when it is empty. *)
Definition migrate_var (getenv : string -> string) (name : string) (f : string -> GlobalConfig -> res GlobalConfig)
  (x : GlobalConfig * bool) : res (GlobalConfig * bool) :=
  let '(global, hasConfig) := x in
  let v := getenv name in
  if bool_decide (v = "") then Ok (global, hasConfig) else res_bind (f v global) (fun global => Ok (global, true)).

Definition on_server (f : ServerConfig -> ServerConfig) (g : GlobalConfig) : GlobalConfig := g <| gc_Server := f (gc_Server g) |>.
Definition on_defaults (f : DefaultChannelConfig -> DefaultChannelConfig) (g : GlobalConfig) : GlobalConfig := g <| gc_Defaults := f (gc_Defaults g) |>.

(** migrateConfig: None when no variable is set. *)
Definition migrateConfig (getenv : string -> string) : res (option BootstrapConfig) :=
  res_bind (migrate_var getenv "GOSMEE_MAX_BODY_SIZE" (fun v g =>
    match Atoi v with
    | Some size => Ok (on_server (fun s => s <| sc_MaxBodySize := size |>) g)
    | None => Err (errorf ("GOSMEE_MAX_BODY_SIZE: invalid integer " +:+ v))
    end) (gc_zero, false)) (fun x =>
  res_bind (migrate_var getenv "GOSMEE_CORS_ORIGIN" (fun v g => Ok (on_server (fun s => s <| sc_CORSOrigin := v |>) g)) x) (fun x =>
  res_bind (migrate_var getenv "GOSMEE_TRUST_PROXY" (fun v g =>
    Ok (on_server (fun s => s <| sc_BehindReverseProxy := bool_decide (v = "true") || bool_decide (v = "1") |>) g)) x) (fun x =>
  res_bind (migrate_var getenv "GOSMEE_FOOTER" (fun v g => Ok (on_server (fun s => s <| sc_Footer := v |>) g)) x) (fun x =>
  res_bind (migrate_var getenv "GOSMEE_AUTH_SESSION_SECRET" (fun v g => Ok (on_server (fun s => s <| sc_SessionSecret := v |>) g)) x) (fun x =>
  res_bind (migrate_var getenv "GOSMEE_WEBHOOK_SIGNATURE" (fun v g => Ok (on_defaults (fun d => d <| dc_WebhookSecret := v |>) g)) x) (fun x =>
  res_bind (migrate_var getenv "GOSMEE_ALLOWED_IPS" (fun v g => Ok (on_defaults (fun d => d <| dc_AllowedIPs := Split v "," |>) g)) x) (fun x =>
  let '(global, hasConfig) := x in
  Ok (if (hasConfig : bool) then Some (mkBootstrap (Some global) [] [] None) else None)))))))).

(** The limit on bodies is zero unless its own variable was set. *)
Lemma migrate_var_limit getenv name f x y : migrate_var getenv name f x = Ok y ->
  (forall v g g', f v g = Ok g' -> sc_MaxBodySize (gc_Server g') = sc_MaxBodySize (gc_Server g)) ->
  sc_MaxBodySize (gc_Server y.1) = sc_MaxBodySize (gc_Server x.1).
Proof.
  destruct x as [g b]. unfold migrate_var. destruct (bool_decide _); [by intros [= <-]|]. destruct (f _ g) as [g'|] eqn:E; [|done].
  intros [= <-] Hf. cbn. by apply Hf in E.
Qed.

Lemma migrated_limit getenv cfg : migrateConfig getenv = Ok (Some cfg) -> getenv "GOSMEE_MAX_BODY_SIZE" = "" ->
  exists g, bs_Global cfg = Some g /\ sc_MaxBodySize (gc_Server g) = 0%Z.
Proof.
  intros Hm Hunset. unfold migrateConfig in Hm.
  apply res_bind_Ok in Hm as (x1 & E1 & (x2 & E2 & (x3 & E3 & (x4 & E4 & (x5 & E5 & (x6 & E6 & (x7 & E7 & E8)%res_bind_Ok)%res_bind_Ok)%res_bind_Ok)%res_bind_Ok)%res_bind_Ok)%res_bind_Ok).
  unfold migrate_var in E1. rewrite bool_decide_true in E1 by done. injection E1 as <-.
  apply migrate_var_limit in E2; [|by intros v g g' [= <-]]. apply migrate_var_limit in E3; [|by intros v g g' [= <-]].
  apply migrate_var_limit in E4; [|by intros v g g' [= <-]]. apply migrate_var_limit in E5; [|by intros v g g' [= <-]].
  apply migrate_var_limit in E6; [|by intros v g g' [= <-]]. apply migrate_var_limit in E7; [|by intros v g g' [= <-]].
  destruct x7 as [g [|]]; [|done]. injection E8 as <-. exists g. split; [done|].
  rewrite E6, E5, E4, E3, E2 in E7. exact E7.
Qed.

Section refused.
Context {R : Type} `{!Repository R} `{!Net} `{!Url} `{!Crypto} `{!JsonText} `{!Box} (version : string).

(** A deployment started from a migrated file whose environment did not set the body
    limit accepts no webhook: on any channel without a limit of its own every request
    with a body is refused, and changes nothing. *)
Theorem migrated_refuses getenv cfg g (w : World R) r body
  (Hmigrated : migrateConfig getenv = Ok (Some cfg) /\ getenv "GOSMEE_MAX_BODY_SIZE" = "")
  (Happlied : bs_Global cfg = Some g /\ repo_GetGlobalConfig (svc_repo (w_svc w)) = Ok g)
  (Hchannel : forall ch, repo_GetChannel (URLParam r "channel") (svc_repo (w_svc w)) = Ok ch -> ch_MaxBodySize ch = 0%Z)
  (Hbody : rq_Body r = Ok body /\ body <> "") :
  (HandleWebhookPost version r w).1 = w /\ (400 <= rp_Status (HandleWebhookPost version r w).2)%Z.
Proof.
  destruct Hmigrated as [Hm Hunset], Happlied as [Hg Hglobal], Hbody as [Hb Hne].
  destruct (migrated_limit _ _ Hm Hunset) as (g' & Hg' & Hlim). rewrite Hg in Hg'. injection Hg' as <-.
  assert (forall m, ResolveChannelMaxBodySize (w_svc w) (URLParam r "channel") = Ok m -> m = 0%Z) as Hfield.
  { intros m. unfold ResolveChannelMaxBodySize, resolve_field, globalOrFail. rewrite Hglobal. cbn [res_bind].
    destruct (repo_GetChannel _ _) as [ch|e]; [rewrite (Hchannel ch eq_refl); cbn; by intros [= <-]|].
    destruct (negb _); [done|]. by intros [= <-]. }
  assert (match webhook_config (URLParam r "channel") w with inl (_, n, _) => (n <= 0)%Z | inr resp => (400 <= rp_Status resp)%Z end) as Hzero.
  { unfold webhook_config. destruct (svc_ResolveChannelConfig _ _) as [c|e] eqn:Ec.
    2:{ unfold config_error. by destruct (errors_Is _ _). }
    destruct (resolvers_agree _ _ _ Ec) as (_ & _ & m & Em & Hm'). pose proof (Hfield m Em) as ->. rewrite Em.
    destruct (bool_decide (ch_MaxBodySize c = 0%Z)); (destruct (ResolveChannelWebhookSecret _ _); [|done]); rewrite Hglobal;
      (destruct (_ && _); [done|lia]). }
  unfold HandleWebhookPost. destruct (negb _); [done|]. cbv zeta. destruct (webhook_config _ _) as [[[c n] s]|resp]; [|done].
  unfold read_limited. rewrite Hb. rewrite (proj2 (Z.ltb_lt _ _)); [done|]. destruct body; [done|]. cbn [String.length]. lia.
Qed.
End refused.

(** ** A migrated footer *)

Definition migrated_env (name : string) : string := if bool_decide (name = "GOSMEE_FOOTER") then "hello" else "".
Definition migrated_global : GlobalConfig := on_server (fun s => s <| sc_Footer := "hello" |>) gc_zero.
Definition migrated_world : World (RaftStore mapdb) :=
  demo_world {[ "/global/server/" := jenc (gc_Server migrated_global); "/global/defaults/" := jenc (gc_Defaults migrated_global) ]}.

Lemma migrated_refuses_witness : (HandleWebhookPost "1" signed_post migrated_world).1 = migrated_world /\ (400 <= rp_Status (HandleWebhookPost "1" signed_post migrated_world).2)%Z.
Proof.
  apply (migrated_refuses "1" migrated_env (mkBootstrap (Some migrated_global) [] [] None) migrated_global migrated_world signed_post demo_body).
  - split; vm_compute; reflexivity.
  - split; [reflexivity|]. vm_compute. reflexivity.
  - intros ch Hch. vm_compute in Hch. discriminate.
  - split; [reflexivity|]. intros E. apply (f_equal String.length) in E. vm_compute in E. discriminate.
Defined.
