(* ===== verification/ClientRun.v ===== *)
(** * ClientRun: a run of the client command

    internal/client/command.go and the rest of client.go: the targets of the command
    line, the identifier a client resumes with, and clientSetup from the subscription
    to the last event of its stream.  The SSE library hands the messages over. *)

From S2P Require Import Prelude Json Domain Bolt Crypto Store Repo Authorization RateLimit Http Service Encryption Events Client ClientTheory.

(** ** The command line *)

(** The server's URL, the target and whether replaying is off. *)
Definition client_targets (envURL envTarget exec : string) (noReplay : bool) (args : list string) : res (string * string * bool) :=
  if negb (bool_decide (envURL = "")) && negb (bool_decide (envTarget = "")) then Ok (envURL, envTarget, noReplay)
  else match args with
  | [smee] => if negb (bool_decide (exec = "")) then Ok (smee, "", true)
              else Err (errorf "need at least a smeeURL and a targetURL as arguments")
  | [smee; target] => Ok (smee, target, noReplay)
  | _ => Err (errorf "need at least a smeeURL and a targetURL as arguments")
  end.

(** [valid] is url.Parse. *)
Definition clientAction (valid : string -> bool) (envURL envTarget exec : string) (noReplay : bool) (args : list string)
  : res (string * string * bool) :=
  match client_targets envURL envTarget exec noReplay args with
  | Err e => Err e
  | Ok (smee, target, noReplay) =>
      if negb (valid smee) then Err (errorf ("smeeURL " +:+ smee +:+ " is not a valid url"))
      else if negb (bool_decide (target = "")) && negb (valid target) then Err (errorf ("target url " +:+ target +:+ " is not a valid url"))
      else Ok (smee, target, noReplay)
  end.

(** ** The client's identifier *)

Section run.
Context `{!Crypto} `{!JsonText} `{!MapOrder} `{!Scripts} `{!Box} `{!Titler} `{!MapDecode} `{!RawText} `{!UrlQuery}.

Definition client_dir (home : string) : string := (if bool_decide (home = "") then "." else home) +:+ "/.gohookbridge".
Definition id_file (home : string) : string := client_dir home +:+ "/client-id".

(** The write of the file, whose errors are ignored. *)
Definition write_ignored (path data : string) (mode : Z) (h : Host) : Host :=
  let '(h, e) := io h in
  match e with
  | Some _ => h
  | None => let h := truncate path mode h in
            let '(h, e) := io h in match e with Some _ => h | None => fill path data h end
  end.

(** [home] is os.UserHomeDir, "" when it fails; uuid.MustGenerateUUID panics without
    entropy. *)
Definition getOrCreateClientID (home : string) (r : Rand) (h : Host) : Host * Rand * res string :=
  let '(h, e) := io h in
  let h := match e with Some _ => h | None => h <| ho_dirs := {[ client_dir home ]} ∪ ho_dirs h |> end in
  let '(h, e) := io h in
  match (match e with Some _ => None | None => ho_files h !! id_file home end) with
  | Some f => (h, r, Ok (TrimSpace (fl_data f)))
  | None =>
      match MustGenerateUUID r with
      | (r, Err e) => (h, r, Err e)
      | (r, Ok id) => (write_ignored (id_file home) id 384 h, r, Ok id)
      end
  end.

(** ** clientSetup *)

(** What a run is started with besides the options: [cl_keys] reads the key file. *)
Record ClientFlags := mkFlags {
  cl_smeeURL : string; cl_encryptionKeyFile : string; cl_resume : bool; cl_clientID : string; cl_token : string; cl_keys : res (string * string) }.

(** The stored identifier is only asked for by a run that resumes without one. *)
Definition asks_identifier (fl : ClientFlags) : bool :=
  cl_resume fl && bool_decide (cl_clientID fl = "") && negb (HasPrefix (cl_smeeURL fl) "https://smee.io").

(** The subscription; the outcome of checkServerVersion is only logged. *)
Definition subscription (fl : ClientFlags) (home : string) (r : Rand) (h : Host) : Host * Rand * res (string * string * option string) :=
  let '(h, r, stored) := if asks_identifier fl then getOrCreateClientID home r h else (h, r, Ok "") in
  (h, r, res_bind stored (fun stored =>
    prepareSubscription (cl_smeeURL fl) (cl_encryptionKeyFile fl) (cl_resume fl) (cl_clientID fl) stored (cl_token fl) (cl_keys fl))).

(** [stream] is what the server at a URL sends. *)
Definition clientSetup (rd : replayDataOpts) (fl : ClientFlags) (home : string) (stream : string -> list (Z * sse_Event)) (r : Rand) (h : Host)
  : Host * Rand * res (list Verdict) :=
  let '(h, r, sub) := subscription fl home r h in
  match sub with
  | Err e => (h, r, Err e)
  | Ok (channel, sseURL, privateKey) =>
      let '(h, vs) := on_events rd channel privateKey (stream sseURL) h in (h, r, Ok vs)
  end.

End run.

(** ** Resuming *)

Definition no_space (c : ascii) : bool := negb (is_space_ascii c).

Lemma TrimSpace_id s : all_str no_space s = true -> TrimSpace s = s.
Proof.
  unfold TrimSpace. intros Hs. assert (TrimLeftSpace s = s) as ->.
  { destruct s as [|c s]; [done|]. cbn in Hs |- *. apply andb_true_iff in Hs as [Hc _]. unfold no_space in Hc. by destruct (is_space_ascii c). }
  induction s as [|c s IH]; [done|]. cbn in Hs |- *. apply andb_true_iff in Hs as [Hc Hs]. rewrite (IH Hs).
  unfold no_space in Hc. destruct s; [|done]. by destruct (is_space_ascii c).
Qed.

Lemma hex_no_space s : all_str no_space (hex_encode s) = true.
Proof.
  assert (forall n, (0 <= n < 16)%Z -> no_space (hex_digit n) = true) as Hd.
  { intros n Hn. unfold hex_digit, no_space. assert (n ∈ seqZ 0 16) as Hin by (apply elem_of_seqZ; lia). revert Hin.
    generalize n. apply Forall_forall. vm_compute. repeat constructor. }
  induction s as [|c s IH]; [done|]. cbn [hex_encode all_str]. pose proof (byte_val_bound c).
  rewrite !Hd, IH; [done|apply Z.mod_pos_bound; lia|]. split; [apply Z.div_pos; lia|apply Z.div_lt_upper_bound; lia].
Qed.

Lemma uuid_no_space r r' id : MustGenerateUUID r = (r', Ok id) -> TrimSpace id = id.
Proof.
  unfold MustGenerateUUID, GenerateUUID. destruct (rand_Read 16 r) as [r1 [b|]]; [|done]. intros [= _ <-]. apply TrimSpace_id.
  unfold uuid_text. cbv zeta. rewrite !all_str_app, !hex_no_space. done.
Qed.

Section resume.
Context `{!Crypto} `{!JsonText} `{!UrlQuery}.

(** No call fails. *)
Definition working (h : Host) : Prop := forall n, ho_fault h n = None.

Lemma identifier_kept home r h h1 r1 id : working h -> getOrCreateClientID home r h = (h1, r1, Ok id) ->
  exists f, ho_files h1 !! id_file home = Some f /\ TrimSpace (fl_data f) = id.
Proof.
  intros Hq. unfold getOrCreateClientID, io. rewrite Hq. cbn [ho_pos set_fld ho_fault ho_files]. rewrite Hq.
  destruct (ho_files h !! id_file home) as [f|] eqn:Ef; [intros [= <- _ <-]; by exists f|].
  destruct (MustGenerateUUID r) as [r2 [id2|]] eqn:Eu; [|done]. intros [= <- _ <-]. unfold write_ignored, io, truncate, fill.
  cbn [ho_fault set_fld ho_pos]. rewrite !Hq. cbn [ho_files set_fld]. rewrite Ef, lookup_alter, decide_True, lookup_insert_eq by done.
  eexists. split; [reflexivity|]. by eapply uuid_no_space.
Qed.

(** A client that resumes asks for its stream under the same identifier in every run:
    once a run has subscribed, the next one with the same flags and home directory
    subscribes to the same URL, whatever entropy it has. *)
Theorem client_resumes fl home r h h1 r1 sub r2 h2 :
  working h -> subscription fl home r h = (h1, r1, Ok sub) ->
  working h2 -> ho_files h2 !! id_file home = ho_files h1 !! id_file home -> (subscription fl home r2 h2).2 = Ok sub.
Proof.
  intros Hq. unfold subscription. destruct (asks_identifier fl) eqn:Eask; [|intros Hs _ _; by injection Hs as _ _ Hs].
  destruct (getOrCreateClientID home r h) as [[h3 r3] [id|]] eqn:Ei; [|done]. intros Hs Hq2 Hfile. injection Hs as <- _ Hs.
  destruct (identifier_kept _ _ _ _ _ _ Hq Ei) as (f & Hf & Hid). rewrite Hf in Hfile.
  assert (exists h4, getOrCreateClientID home r2 h2 = (h4, r2, Ok id)) as [h4 ->]; [|exact Hs].
  unfold getOrCreateClientID, io. rewrite Hq2. cbn [ho_pos set_fld ho_fault ho_files]. rewrite Hq2, Hfile, Hid. by eexists.
Qed.
End resume.
