(* ===== verification/Keygen.v ===== *)
(** * Keygen: the keys of a client

    SaveKeyPair of pkg/crypto/crypto.go and the keygen command of internal/app/app.go,
    on the [Host] of Client.v, with the theorem that what is encrypted for the printed
    key is opened with the saved file. *)

From S2P Require Import Prelude Json Domain Bolt Crypto Store Repo Authorization RateLimit Http Service Encryption Client.

(** ** filepath.Dir *)

Fixpoint clean_path (rooted : bool) (elems stack : list string) : list string :=
  match elems with
  | [] => reverse stack
  | e :: elems =>
      if bool_decide (e = "") || bool_decide (e = ".") then clean_path rooted elems stack
      else if bool_decide (e = "..") then
        match stack with
        | [] => clean_path rooted elems (if rooted then [] else [".."])
        | d :: up => clean_path rooted elems (if bool_decide (d = "..") then ".." :: stack else up)
        end
      else clean_path rooted elems (e :: stack)
  end.
Definition file_Clean (p : string) : string :=
  if HasPrefix p "/" then "/" +:+ Join (clean_path true (Split p "/") []) "/"
  else match clean_path false (Split p "/") [] with [] => "." | l => Join l "/" end.

(** The path up to its last slash. *)
Fixpoint dir_part (s : string) : string :=
  match s with
  | String c s' => if elem_str "/" s then String c (dir_part s') else ""
  | EmptyString => ""
  end.
Definition file_Dir (p : string) : string := file_Clean (dir_part p).

(** ** The key file *)

Section keygen.
Context `{!JsonText} `{!Box}.

Definition ReadFile (h : Host) (path : string) : res string :=
  match ho_files h !! path with Some f => Ok (fl_data f) | None => Err (errorf ("open " +:+ path +:+ ": no such file or directory")) end.

Definition SaveKeyPair (path publicKey privateKey : string) (h : Host) : Host * res unit :=
  and_then (io h) (fun h =>
  let h := h <| ho_dirs := {[ file_Dir path ]} ∪ ho_dirs h |> in
  and_then (io h) (fun h =>
  let h := truncate path 384 h in
  and_then (io h) (fun h => (fill path (key_document publicKey privateKey) h, Ok tt)))).

(** The line it prints. *)
Definition keygen (path : string) (r : Rand) (h : Host) : Host * Rand * res string :=
  match GenerateKeyPair r with
  | (r, Err e) => (h, r, Err e)
  | (r, Ok (publicKey, privateKey)) =>
      let '(h, x) := SaveKeyPair path publicKey privateKey h in (h, r, res_bind x (fun _ => Ok (EncodePublicKey publicKey)))
  end.
End keygen.

(** ** What a key is good for *)

Section keys.
Context `{!JsonText} `{!JsonTextLaws} `{!Box} `{!BoxLaws}.

Lemma SaveKeyPair_cases path pub priv h h' x : SaveKeyPair path pub priv h = (h', x) ->
  (x = Ok tt -> exists f, ho_files h' !! path = Some f /\ fl_data f = key_document pub priv) /\
  forall q, q <> path -> ho_files h' !! q = ho_files h !! q.
Proof.
  unfold SaveKeyPair, and_then, io. destruct (ho_fault h _); [by intros [= <- <-]|]. cbn [ho_fault ho_pos set_fld].
  destruct (ho_fault h _); [by intros [= <- <-]|]. unfold truncate, fill. cbn [ho_fault ho_pos set_fld ho_files].
  destruct (ho_fault h _); intros [= <- <-]; cbn [ho_files set_fld].
  - split; [done|]. intros q Hq. by apply lookup_insert_ne.
  - split; [intros _; rewrite lookup_alter, decide_True, lookup_insert_eq by done; by eexists|].
    intros q Hq. rewrite lookup_alter_ne, lookup_insert_ne by done. done.
Qed.

(** What anyone encrypts for the printed key, on any channel, the client that loads the
    saved file opens; no other file of the host is touched. *)
Theorem keygen_opens path r h h' r' printed : rand_fills r -> path <> "" -> keygen path r h = (h', r', Ok printed) ->
  (forall q, q <> path -> ho_files h' !! q = ho_files h !! q) /\
  exists pub priv, ParsePublicKey printed = Ok pub /\ LoadKeyPair (ReadFile h') path = Ok (pub, priv) /\
    forall plain channel r1 r2 envelope, rand_fills r1 -> EncryptWithContext plain pub (ChannelContext channel) r1 = (r2, Ok envelope) ->
      DecryptWithContext envelope priv (ChannelContext channel) = Ok plain.
Proof.
  intros Hr Hp. unfold keygen, GenerateKeyPair. destruct (rand_Read 32 r) as [r1 [priv|]] eqn:Er; [|done]. cbn [res_bind].
  destruct (SaveKeyPair _ _ _ h) as [h1 x] eqn:Es. destruct (SaveKeyPair_cases _ _ _ _ _ _ Es) as [Hok Hother].
  destruct x as [[]|]; [|done]. intros [= <- _ <-]. split; [exact Hother|]. destruct (Hok eq_refl) as (f & Hf & Hdoc).
  assert (String.length priv = 32) as Hlen by (eapply (rand_Read_fills 32 r Hr); by rewrite Er).
  pose proof (key_file_roundtrip _ _ (box_public_length _ Hlen) Hlen) as [Hload Hparse].
  exists (box_public priv), priv. split; [exact Hparse|]. split.
  - unfold LoadKeyPair, ReadFile. rewrite bool_decide_false by done. rewrite Hf. cbn [res_bind]. by rewrite Hdoc.
  - intros plain channel ra rb envelope Hra Henc. destruct (e2e_opens _ _ _ channel _ _ _ Hra Henc) as [_ ->]. by rewrite decide_True.
Qed.

(** The key file is emptied before it is written: a write that fails leaves nothing of
    the key that was there. *)
Theorem failed_keygen_loses_key path pub priv h e :
  ho_fault h (ho_pos h) = None -> ho_fault h (S (ho_pos h)) = None -> ho_fault h (S (S (ho_pos h))) = Some e ->
  (SaveKeyPair path pub priv h).2 = Err e /\ ReadFile (SaveKeyPair path pub priv h).1 path = Ok "".
Proof.
  intros H1' H2' H3'. unfold SaveKeyPair, and_then, io. rewrite H1'. cbn [ho_fault ho_pos set_fld]. rewrite H2'.
  unfold truncate. cbn [ho_fault ho_pos set_fld ho_files]. rewrite H3'. split; [done|]. unfold ReadFile. cbn [fst ho_files set_fld].
  by rewrite lookup_insert_eq.
Qed.
End keys.

Example Dir_examples : (file_Dir <$> ["/home/me/.ghb/key.json"; "key.json"; "a/../b//key"; "/key"; "../x/"]) =
  ["/home/me/.ghb"; "."; "b"; "/"; "../x"].
Proof. vm_compute. reflexivity. Qed.
