(* ===== verification/Transport.v ===== *)
(** * Transport: the address a node advertises

    newStreamTransport, withDefaults and legacyResolver of internal/repository/raft.go
    and newHostAddr of raft_streamlayer.go: what becomes of the configured addresses
    before the listener is bound.  The listener itself is the operating system's. *)

From S2P Require Import Prelude Json Domain Bolt Crypto Store RateLimit Http Cluster ClusterTheory Recovery RecoveryTheory.

Section transport.
Context `{!Net}.

(** The part of RaftConfig withDefaults fills and the legacy resolver reads, but for
    the floating-point multiplier; durations are nanoseconds. *)
Record RaftAddrs := mkRaftAddrs {
  ra_Dir : string; ra_NodeID : string; ra_BindAddr : string; ra_AdvertiseAddr : string; ra_Peers : list string; ra_ApplyTimeout : Z }.
#[export] Instance eta_addrs : Eta RaftAddrs := fun x =>
  mkRaftAddrs (ra_Dir x) (ra_NodeID x) (ra_BindAddr x) (ra_AdvertiseAddr x) (ra_Peers x) (ra_ApplyTimeout x).

Definition withDefaults (cfg : RaftAddrs) : RaftAddrs :=
  let cfg := if bool_decide (ra_Dir cfg = "") then cfg <| ra_Dir := "./raft-data" |> else cfg in
  let cfg := if bool_decide (ra_BindAddr cfg = "") then cfg <| ra_BindAddr := "127.0.0.1:6001" |> else cfg in
  if (ra_ApplyTimeout cfg =? 0)%Z then cfg <| ra_ApplyTimeout := (5 * second)%Z |> else cfg.

Definition legacyResolver (cfg : RaftAddrs) (hostname : string) : PeerResolver :=
  NewPeerResolver (mkDiscovery (ra_NodeID cfg) (ra_AdvertiseAddr cfg) (ra_BindAddr cfg) (toRaftPeers (ra_Peers cfg)) 0 "" "" "" "" 0) hostname.

(** hostAddr keeps the name unresolved. *)
Record hostAddr := mkHostAddr { ha_host : string; ha_port : Z }.
Definition hostAddr_String (a : hostAddr) : string := JoinHostPort (ha_host a) (Itoa (ha_port a)).
Definition newHostAddr (addr : string) : res hostAddr :=
  match SplitHostPort addr with
  | None => Err (errorf ("address " +:+ addr +:+ ": missing port in address"))
  | Some (host, portStr) =>
      match Atoi portStr with
      | None => Err (errorf "invalid port: invalid syntax")
      | Some port => Ok (mkHostAddr host port)
      end
  end.

(** The address the transport advertises; [lookup] and [clock] are those of
    resolveAdvertiseAddr, [listen] the bind. *)
Definition newStreamTransport (bindAddr advertiseAddr : string) (fuel : nat) (start : Z) (lookup : string -> nat -> res string)
  (clock : nat -> Z) (listen : string -> option goerr) : option (res string) :=
  match SplitHostPort bindAddr with
  | None => Some (Err (errorf ("parse raft bind_addr " +:+ bindAddr)))
  | Some (host, port) =>
      let host := if bool_decide (host = "") || bool_decide (host = "0.0.0.0") || bool_decide (host = "::") then "127.0.0.1" else host in
      let advertiseAddr := if bool_decide (advertiseAddr = "") then JoinHostPort host port else advertiseAddr in
      match resolveAdvertiseAddr fuel defaultAdvertiseResolveTimeout start (lookup advertiseAddr) clock with
      | None => None
      | Some (Err e) => Some (Err (errorf ("resolve raft advertise addr " +:+ advertiseAddr +:+ ": " +:+ err_msg e)))
      | Some (Ok _) =>
          Some (match newHostAddr advertiseAddr with
                | Err e => Err (errorf ("parse advertise addr " +:+ advertiseAddr +:+ ": " +:+ err_msg e))
                | Ok advertise =>
                    match listen bindAddr with Some e => Err e | None => Ok (hostAddr_String advertise) end
                end)
      end
  end.

(** ** The advertised address is the listed one *)

(** What net.SplitHostPort says of a host without colons. *)
Class HostPort : Prop := split_host_port : forall h p,
  elem_str ":" h = false -> elem_str ":" p = false -> SplitHostPort (h +:+ ":" +:+ p) = Some (h, p).

Lemma Contains_colon s : Contains s ":" = elem_str ":" s.
Proof.
  induction s as [|c s IH]; [done|]. cbn [Contains elem_str]. rewrite IH. f_equal. rewrite Bolt.prefix_cons.
  destruct s; cbn; by rewrite andb_true_r.
Qed.

(** The transport writes the port again: the address it advertises is the configured
    one when its port is printed in decimal, as that of a pod's is. *)
Theorem transport_advertises `{!HostPort} bindAddr host port fuel start lookup clock listen addr :
  elem_str ":" host = false -> elem_str ":" (Itoa port) = false -> (0 <= port)%Z -> int64_range port = true ->
  newStreamTransport bindAddr (host +:+ ":" +:+ Itoa port) fuel start lookup clock listen = Some (Ok addr) ->
  addr = host +:+ ":" +:+ Itoa port.
Proof.
  intros Hh Hp Hpos Hr. unfold newStreamTransport. destruct (SplitHostPort bindAddr) as [[h p]|]; [|done].
  rewrite bool_decide_false by (destruct host; discriminate). destruct (resolveAdvertiseAddr _ _ _ _ _) as [[|]|]; [|done..].
  unfold newHostAddr. rewrite split_host_port by done. rewrite Atoi_Itoa by done. destruct (listen bindAddr); [done|].
  intros [= <-]. unfold hostAddr_String, JoinHostPort. cbn [ha_host ha_port]. by rewrite Contains_colon, Hh.
Qed.

(** The seed of a StatefulSet writes, into a store that has none, the configuration of
    itself alone under the very address the resolver lists for it, so that the first
    reconciliation has nothing to correct. *)
Theorem seed_configuration_listed `{!HostPort} {D} `{!RaftDisk D} `{!RaftDiskLaws D} cfg env (d d' : D) id single bindAddr fuel start lookup clock listen :
  rd_Peers cfg = [] -> rd_StatefulSetName cfg <> "" -> rd_HeadlessService cfg <> "" -> rd_Namespace cfg <> "" ->
  (1 <= rd_Replicas cfg)%Z -> rd_AdvertiseAddr cfg = "" -> (0 <= raftPort cfg)%Z -> int64_range (raftPort cfg) = true ->
  let host := pod_host cfg 0 in
  (exists name, podAddress cfg (rd_ClusterDomain cfg) host = name +:+ ":" +:+ Itoa (raftPort cfg) /\ elem_str ":" name = false) ->
  elem_str ":" (Itoa (raftPort cfg)) = false ->
  newStreamTransport bindAddr (deriveAdvertiseAddr cfg host) fuel start lookup clock listen = Some (bt_transport env) ->
  rk_config d = None ->
  NewRaftStore (mkRaftConfig "" (NewPeerResolver cfg host) false single) env d = (d', Ok id) ->
  id = host /\ forall V, rk_config d' = Some V -> exists p peers, Resolve (NewPeerResolver cfg host) = Ok peers /\ p ∈ peers /\
    V = [mkServer Voter (rp_ID p) (rp_Address p)].
Proof.
  intros Hp Hs Hh Hn Hr Ha Hport Hrange host (name & Hname & Hcolon) Hdigits Htrans Hfresh Hstart.
  destruct (statefulset_seed cfg "" 0 Hp Hs Hh Hn Hr Ha eq_refl) as (Hboot & Hself & Hlisted). fold host in Hboot, Hself, Hlisted.
  destruct (Hlisted ltac:(lia)) as (peers & Hres & Hin). rewrite !bool_decide_true in Hboot by done.
  assert (deriveAdvertiseAddr cfg host = podAddress cfg (rd_ClusterDomain cfg) host) as Hderive.
  { unfold deriveAdvertiseAddr. rewrite Ha. unfold host at 1, pod_host. rewrite podOrdinal_host by done.
    rewrite bool_decide_true by done. cbn [negb]. by rewrite !bool_decide_false by done. }
  rewrite Hderive, Hname in Htrans. rewrite Hderive in Hin.
  revert Hstart. unfold NewRaftStore. destruct (failed (bt_dir env)) as [[]|]; cbn [res_bind rg_NodeID rg_resolver]; [|done].
  rewrite Hboot. unfold clearStaleRaftState. cbn [rg_RecoveryMode andb]. destruct (failed (bt_open env)) as [[]|]; cbn [res_bind]; [|done].
  destruct (bt_transport env) as [addr|]; [|done]. apply transport_advertises in Htrans as ->; [|done..]. rewrite <- Hname.
  set (V0 := raftConfigurationFromPeers _).
  assert (V0 = [mkServer Voter host (podAddress cfg (rd_ClusterDomain cfg) host)]) as HV.
  { unfold V0, raftConfigurationFromPeers. cbn [raft_servers rp_ID rp_Address]. rewrite !bool_decide_false; [done|..].
    - apply not_elem_of_nil.
    - rewrite Hname. by destruct name.
    - unfold host, pod_host. by destruct (rd_StatefulSetName cfg). }
  assert (forall d1, rk_config d1 = None \/ rk_config d1 = Some V0 -> forall V, rk_config d1 = Some V -> exists p peers,
    Resolve (NewPeerResolver cfg host) = Ok peers /\ p ∈ peers /\ V = [mkServer Voter (rp_ID p) (rp_Address p)]) as Hlist.
  { intros d1 Hd1 V HV1. destruct Hd1 as [E|E]; rewrite E in HV1; [done|]. injection HV1 as <-. rewrite HV. by eexists _, peers. }
  assert (forall d1 b, recover_single (mkRaftConfig "" (NewPeerResolver cfg host) false single) true V0 d = (d1, b) ->
    rk_config d1 = None \/ rk_config d1 = Some V0) as Hrec.
  { intros d1 b. unfold recover_single. destruct (_ && _ && _); [|intros [= <- _]; by left].
    destruct (rk_HasExistingState d) as [[|]|]; [|intros [= <- _]; by left..].
    destruct (law_recover V0 d) as (_ & Hc & _). rewrite Hfresh in Hc.
    destruct (rk_RecoverCluster V0 d) as [d2 [|]]; intros [= <- _]; exact Hc. }
  destruct (recover_single _ true V0 d) as [d1 [recovered|]] eqn:Er; [|done]. specialize (Hrec _ _ eq_refl).
  unfold bootstrap_seed. destruct recovered; cbn [andb negb].
  { destruct (bt_raft env); [done|]. intros [= <- <-]. by split; [|apply Hlist]. }
  assert (rk_config (rk_BootstrapCluster V0 d1).1 = None \/ rk_config (rk_BootstrapCluster V0 d1).1 = Some V0) as Hb.
  { destruct (law_bootstrap V0 d1) as (_ & _ & Hc). destruct Hrec as [E|E]; rewrite E in Hc; tauto. }
  destruct (rk_BootstrapCluster V0 d1) as [d2 [[|]|]]; [done|..]; (destruct (bt_raft env); [done|]; intros [= <- <-]; split; [done|by apply Hlist]).
Qed.
End transport.

#[export] Instance toy_host_port : HostPort (H := toy_net).
Proof. intros h p Hh _. cbn. by apply Cut_app. Qed.
