(* ===== verification/Startup.v ===== *)
(** * Startup: from a raft store to a server that answers

    The second half of NewServer (internal/server/server.go), from the waits for raft
    to the session key, with the waits of internal/repository/raft.go and the options
    of pkg/nats/broker.go.  The first half, up to the raft store, is Recovery.v; the
    routers that come after are Server.v.  A phase answers nothing while it waits. *)

From S2P Require Import Prelude Json Domain Bolt Fsm Crypto Store Repo Authorization RateLimit Http Service Cluster Buffer Broker.
From S2P Require Import Middleware Server Bootstrap.

(** ** Waiting for raft *)

(** What ends a turn of the wait: the ticker, a change of leadership, the end of the
    node, the end of the context. *)
Inductive wake := WTick | WLeaderCh | WShutdown | WDone.

(** The turns so far, each with the answer of [ready]. *)
Fixpoint waitForLeaderCondition (label : string) (turns : list (bool * wake)) : option (res unit) :=
  match turns with
  | [] => None
  | (true, _) :: _ => Some (Ok tt)
  | (false, WDone) :: _ => Some (Err (errorf (label +:+ ": context deadline exceeded")))
  | (false, WShutdown) :: _ => Some (Err (errorf (label +:+ ": raft is already shutdown")))
  | (false, _) :: turns => waitForLeaderCondition label turns
  end.

Definition WaitForLeader (turns : list (string * wake)) : option (res unit) :=
  waitForLeaderCondition "wait for raft leader" ((fun '(leader, w) => (negb (bool_decide (leader = "")), w)) <$> turns).
Definition WaitForSelfLeadership (turns : list (bool * wake)) : option (res unit) :=
  waitForLeaderCondition "wait for self leadership" turns.
Definition WaitForCleanState (parse_duration : string -> option Z) (turns : list (gmap string string * wake)) : option (res unit) :=
  waitForLeaderCondition "wait for raft clean state" ((fun '(stats, w) => (cleanStateFromStats parse_duration stats, w)) <$> turns).

(** ** The options of the embedded NATS server *)

(** The part of Config the options are made of; [nc_ClusterTLS] names the TLS
    configuration. *)
Record NatsConfig := mkNats {
  nc_NodeID : string; nc_Port : Z; nc_ClusterPort : Z; nc_Routes : list string; nc_ClusterName : string;
  nc_ClusterUsername : string; nc_ClusterPassword : string; nc_ClusterTLS : option string; nc_DisableCluster : bool;
  nc_MaxPayload : Z; nc_MaxPending : Z }.

Record ClusterOpts := mkCluster {
  co_Host : string; co_Port : Z; co_Name : string; co_Username : string; co_Password : string; co_TLSConfig : option string }.
Record Options := mkOptions {
  so_ServerName : string; so_Host : string; so_Port : Z; so_Routes : list (string * option (string * string));
  so_MaxPayload : Z; so_MaxPending : Z; so_Cluster : option ClusterOpts }.

(** [parse] is url.Parse; a route is a URL and the credentials set on it. *)
Definition buildServerOptions (parse : string -> res string) (cfg : NatsConfig) : res Options :=
  let user := if bool_decide (nc_ClusterUsername cfg = "") then None else Some (nc_ClusterUsername cfg, nc_ClusterPassword cfg) in
  let route r := match parse r with
                 | Ok u => Ok (u, user)
                 | Err e => Err (errorf ("invalid route URL " +:+ r +:+ ": " +:+ err_msg e))
                 end in
  res_bind (if nc_DisableCluster cfg then Ok [] else res_map route (nc_Routes cfg)) (fun routes =>
  Ok (mkOptions (nc_NodeID cfg) "127.0.0.1" (nc_Port cfg) routes
        (if (0 <? nc_MaxPayload cfg)%Z && (nc_MaxPayload cfg <=? 2147483647)%Z then nc_MaxPayload cfg else 0)
        (if (0 <? nc_MaxPending cfg)%Z then nc_MaxPending cfg else 0)
        (if nc_DisableCluster cfg then None
         else Some (mkCluster "0.0.0.0" (nc_ClusterPort cfg) (nc_ClusterName cfg) (nc_ClusterUsername cfg)
                      (if bool_decide (nc_ClusterUsername cfg = "") then "" else nc_ClusterPassword cfg) (nc_ClusterTLS cfg))))).

(** ** NewServer, after the raft store *)

Section startup.
Context {DB B : Type} `{!Bolt DB B} `{!Crypto} `{!JsonText}.
Abbreviation St := (RaftStore DB).
Abbreviation W := (World St).

(** What the start meets.  [se_tls] are the files of the NATS cluster's TLS material with
    the outcome of loading them, [se_broker] is nats.New, [se_passwordFile] the write of the
    development password; [se_views n] is the store as replication has left it at the
    n-th poll for the session secret, [se_clock n] the time of its n-th test. *)
Record StartEnv := mkStart {
  se_leaders : list (string * wake); se_stats : list (gmap string string * wake); se_parse : string -> option Z;
  se_bootstrapPath : string; se_namespace : string; se_file : res BootstrapConfig; se_clientset : res Clientset;
  se_tls : (string * string * string) * option goerr; se_broker : res Broker; se_devAdmin : option (string * string); se_passwordFile : option goerr;
  se_views : nat -> St; se_clock : nat -> Z; se_deadline : Z; se_fuel : nat }.

(** Up to the initial content of the store; the waits leave it alone. *)
Definition start_store (env : StartEnv) (rs : St) : St * option (res unit) :=
  match WaitForLeader (se_leaders env) with
  | None => (rs, None)
  | Some (Err e) => (rs, Some (Err (errorf ("wait for raft leader: " +:+ err_msg e))))
  | Some (Ok _) =>
      match WaitForCleanState (se_parse env) (se_stats env) with
      | None => (rs, None)
      | Some (Err e) => (rs, Some (Err (errorf ("wait for raft clean state: " +:+ err_msg e))))
      | Some (Ok _) =>
          match applyBootstrapOnce (se_bootstrapPath env) (se_namespace env) (se_file env) (se_clientset env) rs with
          | (rs, Err e) => (rs, Some (Err e))
          | (rs, Ok _) => (if IsLeader rs then (MigrateRBAC rs).1 else rs, Some (Ok tt))
          end
      end
  end.

(** The TLS material of the NATS cluster, then its broker. *)
Definition cluster_tls (env : StartEnv) : res unit :=
  let '((ca, cert, key), load) := se_tls env in
  let given f := negb (bool_decide (f = "")) in
  if negb (given ca || given cert || given key) then Ok tt
  else if negb (given ca && given cert && given key) then Err (errorf "nats cluster TLS: ca/cert/key must all be set together")
  else match load with Some e => Err (wrap_err "nats cluster TLS: " e) | None => Ok tt end.

Definition start_broker (env : StartEnv) : res Broker :=
  res_bind (cluster_tls env) (fun _ =>
  match se_broker env with
  | Ok b => Ok b
  | Err e => Err (wrap_err "init nats broker: " e)
  end).

(** initDevAdmin with its password file. *)
Definition dev_admin (env : StartEnv) (w : W) : W * res unit :=
  match se_devAdmin env with
  | None => (w, Ok tt)
  | Some (salt, password) =>
      match initDevAdmin salt password w with
      | (w, Err e) => (w, Err (wrap_err "dev admin: " e))
      | (w, Ok None) => (w, Ok tt)
      | (w, Ok (Some _)) =>
          (w, match se_passwordFile env with Some e => Err (wrap_err "dev admin: write password file: " e) | None => Ok tt end)
      end
  end.

(** A node that does not lead polls until its store has a secret or the deadline is
    past; [fuel] bounds the polls. *)
Fixpoint poll_session_secret (env : StartEnv) (fuel n : nat) (s : Service St) : Service St * option string :=
  let secret := SessionSecret s in
  if negb (bool_decide (secret = "")) || negb (se_clock env n <? se_deadline env)%Z then (s, Some secret)
  else match fuel with
       | O => (s, None)
       | S fuel' => poll_session_secret env fuel' (S n) (s <| svc_repo := se_views env n |>)
       end.

Definition session_secret (env : StartEnv) (w : W) : W * option (res string) :=
  if negb (bool_decide (SessionSecret (w_svc w) = "")) then (w, Some (Ok (SessionSecret (w_svc w))))
  else if IsLeader (svc_repo (w_svc w)) then let (w, x) := leader_session_secret w in (w, Some x)
  else
    match poll_session_secret env (se_fuel env) 0 (w_svc w) with
    | (s, None) => (w <| w_svc := s |>, None)
    | (s, Some secret) =>
        let accounts := (0 <? length (users_or_empty s))%nat || (0 <? length (providers_or_empty s))%nat in
        (w <| w_svc := s |>,
         Some (if bool_decide (secret = "") && accounts
               then Err (errorf "no session secret configured and node is not the leader: set session_secret via bootstrap.yaml or on the leader node") else Ok secret))
    end.

(** var sessionSecret [32]byte: the zero value without a secret. *)
Definition no_secret_key : string := Nat.iter 32 (String "000") "".
Definition session_key (secret : string) : string := if bool_decide (secret = "") then no_secret_key else DeriveSessionSecret secret.

(** The server's state and its session key. *)
Definition NewServer_services (env : StartEnv) (rnd : Rand) (now : Z) (rs : St) : W * option (res string) :=
  let world rs b := mkWorld (mkService rs (Some [])) NewBanTracker NewRateLimiter ∅ ∅ b [] true rnd now in
  let nothing := New (mkConfig 0 0 0 0) ∅ in
  match start_store env rs with
  | (rs, None) => (world rs nothing, None)
  | (rs, Some (Err e)) => (world rs nothing, Some (Err e))
  | (rs, Some (Ok _)) =>
      match start_broker env with
      | Err e => (world rs nothing, Some (Err e))
      | Ok b =>
          let w := world rs b in
          let channels := match repo_ListChannels rs with Ok l => l | Err _ => [] end in
          match restore_ttls (w_svc w) channels b with
          | Err e => (w, Some (Err e))
          | Ok b =>
              match dev_admin env (w <| w_broker := b |>) with
              | (w, Err e) => (w, Some (Err e))
              | (w, Ok _) =>
                  match session_secret env w with
                  | (w, None) => (w, None)
                  | (w, Some (Err e)) => (w, Some (Err e))
                  | (w, Some (Ok secret)) =>
                      (w, Some (match ValidateAuthConfig (w_svc w) with
                                | Some e => Err (wrap_err "auth configuration: " e)
                                | None => Ok (session_key secret)
                                end))
                  end
              end
          end
      end
  end.
End startup.
Arguments mkStart {DB}. Arguments StartEnv DB : clear implicits.
