(* ===== verification/StartupTheory.v ===== *)
(** * StartupTheory: what a start keeps

    Startup.v: a restart changes nothing and keeps the session key, so that sessions
    survive it; a leader that cannot read the configuration replaces it; a node that
    gives up waiting for the secret accepts sessions anyone can make. *)

From S2P Require Import Prelude Json Domain Bolt Fsm Crypto Store Repo Authorization StoreTheory RateLimit Http Service ServiceTheory.
From S2P Require Import Governance Cluster Buffer Broker Middleware AuthHandler Server Bootstrap BootstrapTheory LoginTheory Startup.

#[local] Arguments jenc : simpl never.
#[local] Arguments jdec : simpl never.

(** ** What a phase may have written *)

Section frames.
Context {DB B : Type} `{!Bolt DB B} `{!BoltLaws DB B} `{!Crypto} `{!JsonText} `{!CryptoLaws} `{!JsonTextLaws}.
Implicit Types (rs : RaftStore DB) (P : string -> bool).

(** Only keys in [P] differ. *)
Record same_but P rs rs' : Prop := {
  sb_get : forall k, P k = false -> store_get rs' k = store_get rs k;
  sb_ready : fsm_ready (rs_db rs');
  sb_keeper : rs_keeper rs' = rs_keeper rs }.

(** ... and the node is the same otherwise, but for the entropy consumed. *)
Record framed P rs rs' : Prop := {
  fr_same : same_but P rs rs';
  fr_src : rnd_src (rs_rand rs') = rnd_src (rs_rand rs);
  fr_leader : rf_leader (rs_raft rs') = rf_leader (rs_raft rs) }.

Lemma framed_refl P rs : fsm_ready (rs_db rs) -> framed P rs rs.
Proof. intros Hr. split; [by split|done..]. Qed.

Lemma same_but_trans P rs1 rs2 rs3 : same_but P rs1 rs2 -> same_but P rs2 rs3 -> same_but P rs1 rs3.
Proof. intros [G1 R1 K1] [G2 R2 K2]. split; [|done|congruence]. intros k Hk. by rewrite G2, G1 by done. Qed.

Lemma framed_trans P rs1 rs2 rs3 : framed P rs1 rs2 -> framed P rs2 rs3 -> framed P rs1 rs3.
Proof. intros [S1 E1 L1] [S2 E2 L2]. split; [by eapply same_but_trans|congruence..]. Qed.

Lemma same_but_mono P Q rs rs' : (forall k, Q k = false -> P k = false) -> same_but P rs rs' -> same_but Q rs rs'.
Proof. intros Hpq [G R K]. split; [|done..]. intros k Hk. by apply G, Hpq. Qed.

Lemma framed_mono P Q rs rs' : (forall k, Q k = false -> P k = false) -> framed P rs rs' -> framed Q rs rs'.
Proof. intros Hpq [S E L]. split; [by eapply same_but_mono|done..]. Qed.

Lemma framed_ready P rs rs' : store_ready rs -> framed P rs rs' -> store_ready rs'.
Proof. intros (_ & Hk & Hf) [[_ R K] E _]. split; [exact R|]. split; [by rewrite K|]. unfold rand_fills. by rewrite E. Qed.

Lemma framed_rand P rs r rs' : rnd_src r = rnd_src (rs_rand rs) -> framed P (rs <| rs_rand := r |>) rs' -> framed P rs rs'.
Proof. intros Hr [[G R K] E L]. split; [by split|cbn in E; congruence|done]. Qed.

Lemma submit_leader cmd rs : rf_leader (rs_raft (submit cmd rs).1) = rf_leader (rs_raft rs).
Proof.
  unfold submit, Apply. destruct (negb _); [done|]. destruct (FSM_Apply _ _). by destruct (rf_fate _ _).
Qed.

Lemma submit_framed P cmd rs : fsm_ready (rs_db rs) -> Forall (fun w => P w.1 = true) (command_writes cmd) ->
  framed P rs (submit cmd rs).1.
Proof.
  intros Hr Hw. pose proof (submit_leader cmd rs) as Hl.
  assert (forall ws, wrote_store rs (submit cmd rs).1 ws -> Forall (fun w => P w.1 = true) ws -> framed P rs (submit cmd rs).1) as Hwrote.
  { intros ws [G R K E] Hin. split; [split; [|done..]|done..]. intros k Hk. rewrite G. apply writes_other.
    eapply Forall_impl; [exact Hin|]. cbn beta. intros w Hp Heq. congruence. }
  destruct (submit_either cmd rs Hr) as [H0'|H1']; [by apply (Hwrote [])|by apply (Hwrote _ H1')].
Qed.

Lemma command_framed P op key v rs : fsm_ready (rs_db rs) -> op = "set" \/ op = "delete" -> P key = true ->
  framed P rs (applyCommand op key v rs).1.
Proof. intros Hr Hop Hk. apply submit_framed; [exact Hr|]. destruct Hop as [-> | ->]; by repeat constructor. Qed.

(** ** Reads *)

Definition global_key (k : string) : bool := HasPrefix k "/global/".

Lemma GetGlobalConfig_same P rs rs' : fsm_ready (rs_db rs) -> same_but P rs rs' ->
  P "/global/server/" = false -> P "/global/defaults/" = false -> GetGlobalConfig rs' = GetGlobalConfig rs.
Proof.
  intros Hr [G R K] Hs Hd. unfold GetGlobalConfig. rewrite !getFSMValue_ready by done.
  change (fsm_get (rs_db ?s)) with (store_get s). by rewrite (G _ Hs), (G _ Hd), K.
Qed.

Lemma filter_key_lt (Q : string -> Prop) `{!forall x, Decision (Q x)} l : StronglySorted key_lt l -> StronglySorted key_lt (filter Q l).
Proof.
  induction 1 as [|x l Hl IH Hx]; [constructor|]. rewrite filter_cons. destruct (decide (Q x)); [|exact IH].
  constructor; [exact IH|]. apply Forall_forall. intros y [_ Hy]%list_elem_of_filter. by eapply Forall_forall in Hx.
Qed.

Lemma key_lt_NoDup l : StronglySorted key_lt l -> NoDup l.
Proof.
  induction 1 as [|x l _ IH Hx]; constructor; [|done]. intros Hin. eapply Forall_forall in Hx; [|exact Hin]. by destruct Hx.
Qed.

Lemma keys_same P rs rs' p : fsm_ready (rs_db rs) -> same_but P rs rs' -> (forall k, HasPrefix k p = true -> P k = false) ->
  listFSMKeys (rs_db rs') p = listFSMKeys (rs_db rs) p.
Proof.
  intros [Hb _] [G [Hb' _] K] Hp. rewrite !listFSMKeys_filter by done. f_equal.
  assert (forall db : DB, StronglySorted key_lt (filter (fun k => HasPrefix k p = true) (fsm_keys db))) as Hsorted
    by (intros db; apply filter_key_lt, keys_sorted_fsm).
  apply (StronglySorted_unique_strong key_lt); [|by apply Hsorted..|].
  - intros x y _ _ [Hxy _] [Hyx _]. by apply (anti_symm String.le).
  - apply NoDup_Permutation; [by apply key_lt_NoDup, Hsorted..|]. intros k. rewrite !list_elem_of_filter, !fsm_keys_elem.
    split; (intros [Hk Hs]; split; [exact Hk|]); change (is_Some (store_get rs' k)) in Hs || change (is_Some (store_get rs k)) in Hs.
    + by rewrite (G k (Hp k Hk)) in Hs.
    + change (is_Some (store_get rs' k)). by rewrite (G k (Hp k Hk)).
Qed.

Definition channel_keys_kept P : Prop := forall k, HasPrefix k "/channels/" = true -> P k = false.

Lemma channel_key_prefix id : HasPrefix (channel_key id) "/channels/" = true.
Proof. unfold channel_key, HasPrefix. apply prefix_app. Qed.

Lemma GetChannel_same P rs rs' id : fsm_ready (rs_db rs) -> same_but P rs rs' -> channel_keys_kept P ->
  GetChannel id rs' = GetChannel id rs.
Proof.
  intros Hr [G R K] Hp. destruct (decide (id = "")) as [->|Hid]; [done|]. rewrite !GetChannel_stored by done.
  by rewrite (G _ (Hp _ (channel_key_prefix id))), K.
Qed.

Lemma ListChannels_same P rs rs' : fsm_ready (rs_db rs) -> same_but P rs rs' -> channel_keys_kept P ->
  ListChannels rs' = ListChannels rs.
Proof.
  intros Hr Hs Hp. unfold ListChannels. rewrite (keys_same P rs rs') by done. destruct Hs as [G R K].
  destruct (listFSMKeys (rs_db rs) "/channels/") as [keys|]; [|done]. cbn [res_bind]. generalize (∅ : gset string).
  induction keys as [|key keys IH]; intros seen; [done|]. cbn [list_channels].
  destruct (bool_decide _); [apply IH|]. destruct (bool_decide _); [apply IH|]. rewrite !getFSMValue_ready by done.
  change (fsm_get (rs_db ?s)) with (store_get s). rewrite (G _ (Hp _ (channel_key_prefix _))), K. cbn [res_bind].
  destruct (store_get rs _) as [val|]; [|apply IH]. destruct (Unmarshal val) as [ch|]; [|done].
  destruct (openChannel _ ch); [|done]. cbn [res_bind]. by rewrite IH.
Qed.

Lemma auth_same P rs rs' : fsm_ready (rs_db rs) -> same_but P rs rs' -> P providers_key = false -> P internal_key = false ->
  InternalAuthEnabled rs' = InternalAuthEnabled rs /\ OIDCProviders rs' = OIDCProviders rs.
Proof.
  intros Hr [G R K] Hp Hi. rewrite !InternalAuthEnabled_stored, !OIDCProviders_stored by done. by rewrite (G _ Hp), (G _ Hi), K.
Qed.
(** ** The phases *)

(** The bootstrap file may write anything. *)
Definition any_key (k : string) : bool := true.
(** The migration of roles and the development account leave the configuration alone. *)
Definition ungoverned_key (k : string) : bool := negb (global_key k).

(** A fresh record under a drawn UUID. *)
Lemma draw_framed P rs (k : RaftStore DB -> res string -> RaftStore DB) : fsm_ready (rs_db rs) ->
  (forall rs id, fsm_ready (rs_db rs) -> framed P rs (k rs id)) -> framed P rs (k (draw_uuid rs).1 (draw_uuid rs).2).
Proof. intros Hr Hk. destruct (draw_uuid_src rs) as [-> Hs]. eapply framed_rand; [exact Hs|]. by apply Hk. Qed.

Lemma CreateRoleMapping_framed m rs : fsm_ready (rs_db rs) -> framed ungoverned_key rs (CreateRoleMapping m rs).1.1.
Proof.
  intros Hr. unfold CreateRoleMapping. destruct (any _ _); [by apply framed_refl|].
  pose proof (draw_framed ungoverned_key rs (fun rs id => (match id with Err e => (rs, m, Err e) | Ok id =>
    let m := m <| rm_ID := id |> in
    let (rs, x) := applyCommand "set" ("/rbac/mappings/" +:+ rm_ID m +:+ "/") (Some (jenc m)) rs in (rs, m, x) end).1.1) Hr) as Hd.
  destruct (draw_uuid rs) as [rs1 id]. apply Hd. clear rs rs1 id Hr Hd. intros rs id Hr. destruct id as [id|]; [|by apply framed_refl].
  cbv zeta. pose proof (command_framed ungoverned_key "set" ("/rbac/mappings/" +:+ rm_ID (m <| rm_ID := id |>) +:+ "/")
    (Some (jenc (m <| rm_ID := id |>))) rs Hr (or_introl eq_refl) eq_refl) as Hf.
  destruct (applyCommand _ _ _ _). exact Hf.
Qed.

Lemma CreateChannelRoleMapping_framed m rs : fsm_ready (rs_db rs) -> framed ungoverned_key rs (CreateChannelRoleMapping m rs).1.1.
Proof.
  intros Hr. unfold CreateChannelRoleMapping. destruct (any _ _); [by apply framed_refl|].
  pose proof (draw_framed ungoverned_key rs (fun rs id => (match id with Err e => (rs, m, Err e) | Ok id =>
    let m := m <| acl_ID := id |> in
    if bool_decide (acl_ChannelID m = "") then (rs, m, Err (mkErr KInvalidArgument "channel_id required")) else
    let (rs, x) := applyCommand "set" (acl_prefix (acl_ChannelID m) +:+ acl_ID m +:+ "/") (Some (jenc m)) rs in (rs, m, x) end).1.1) Hr) as Hd.
  destruct (draw_uuid rs) as [rs1 id]. apply Hd. clear rs rs1 id Hr Hd. intros rs id Hr. destruct id as [id|]; [|by apply framed_refl].
  cbv zeta. case_bool_decide; [by apply framed_refl|].
  pose proof (command_framed ungoverned_key "set" (acl_prefix (acl_ChannelID (m <| acl_ID := id |>)) +:+ acl_ID (m <| acl_ID := id |>) +:+ "/")
    (Some (jenc (m <| acl_ID := id |>))) rs Hr (or_introl eq_refl) eq_refl) as Hf.
  destruct (applyCommand _ _ _ _). exact Hf.
Qed.

Lemma migrate_users_framed users rs : fsm_ready (rs_db rs) -> framed ungoverned_key rs (migrate_users users rs).
Proof.
  assert (forall id roles rs, fsm_ready (rs_db rs) -> framed ungoverned_key rs (migrate_user_roles id roles rs)) as Hroles.
  { intros id roles. induction roles as [|role roles IH]; intros r Hr; [by apply framed_refl|]. cbn [migrate_user_roles].
    pose proof (CreateRoleMapping_framed (mkRoleMapping "" "user" id role "*") r Hr) as Hf. destruct (CreateRoleMapping _ r) as [[r1 ?] ?].
    eapply framed_trans; [exact Hf|]. apply IH, Hf. }
  assert (forall id chs rs, fsm_ready (rs_db rs) -> framed ungoverned_key rs (migrate_user_channels id chs rs)) as Hchs.
  { intros id chs. induction chs as [|ch chs IH]; intros r Hr; [by apply framed_refl|]. cbn [migrate_user_channels].
    case_bool_decide; [by apply IH|].
    pose proof (CreateChannelRoleMapping_framed (mkACL "" ch "user" id "write") r Hr) as Hf.
    destruct (CreateChannelRoleMapping _ r) as [[r1 ?] ?]. eapply framed_trans; [exact Hf|]. apply IH, Hf. }
  revert rs. induction users as [|u users IH]; intros rs Hr; [by apply framed_refl|]. cbn [migrate_users fold_left].
  pose proof (Hroles (u_ID u) (u_Roles u) rs Hr) as H1'. pose proof (Hchs (u_ID u) (u_Channels u) _ (sb_ready _ _ _ (fr_same _ _ _ H1'))) as H2'.
  eapply framed_trans; [exact H1'|]. eapply framed_trans; [exact H2'|]. apply IH, H2'.
Qed.

Lemma MigrateRBAC_framed rs : fsm_ready (rs_db rs) -> framed ungoverned_key rs (MigrateRBAC rs).1.
Proof.
  intros Hr. unfold MigrateRBAC.
  assert (framed ungoverned_key rs (match ListUsers rs with
    | Err e => (rs, Err (mkErr (err_is e) ("list users for migration: " +:+ err_msg e)))
    | Ok [] => (rs, Ok tt)
    | Ok users =>
        let (rs, x) := applyCommand "set" "/meta/rbac_migrated" (Some (JBool true)) (migrate_users users rs) in
        (rs, match x with Ok _ => Ok tt | Err e => Err (mkErr (err_is e) ("mark migration complete: " +:+ err_msg e)) end)
    end).1) as Hmain.
  { destruct (ListUsers rs) as [[|u users]|e]; [by apply framed_refl| |by apply framed_refl].
    pose proof (migrate_users_framed (u :: users) rs Hr) as Hm.
    pose proof (command_framed ungoverned_key "set" "/meta/rbac_migrated" (Some (JBool true)) _ (sb_ready _ _ _ (fr_same _ _ _ Hm)) (or_introl eq_refl) eq_refl) as Hc.
    destruct (applyCommand _ _ _ _) as [rs2 x]. eapply framed_trans; [exact Hm|exact Hc]. }
  destruct (getFSMValue _ _) as [[v|]|]; [by apply framed_refl|exact Hmain..].
Qed.

Lemma seal_payload_src ko r p : keeper_opt_ok ko -> rand_fills r -> rnd_src (seal_payload ko r p).1 = rnd_src r.
Proof.
  intros Hk Hr. unfold seal_payload.
  assert (rnd_src (seal_global ko r (bp_Global p)).1 = rnd_src r) as Hg.
  { unfold seal_global. destruct (bp_Global p) as [g|]; [|done]. pose proof (sealConfig_src ko r g). by destruct (sealConfig ko r g). }
  destruct (seal_global _ _ _) as [r1 [g|]]; [|done]. cbn [fst] in Hg.
  assert (forall l r, rnd_src (seal_channels ko r l).1 = rnd_src r) as Hchs.
  { induction l as [|ch l IH]; intros r0; [done|]. cbn [seal_channels]. pose proof (sealChannel_src ko r0 ch) as Hc.
    destruct (sealChannel ko r0 ch) as [[r2 ch'] [|]]; [|done]. specialize (IH r2). destruct (seal_channels ko r2 l). cbn in *. congruence. }
  specialize (Hchs (omap id (bp_Channels p)) r1). destruct (seal_channels _ _ _) as [r2 [chs|]]; cbn [fst] in *; [|congruence].
  assert (rand_fills r2) as Hr2 by (unfold rand_fills; rewrite Hchs, Hg; exact Hr).
  destruct (seal_providers_spec ko (bp_OIDCProviders p) r2 Hk Hr2) as [Hp _]. destruct (seal_providers _ _ _). cbn in *. congruence.
Qed.

Lemma Apply_framed (cmd : fsmCommand) rs : fsm_ready (rs_db rs) ->
  framed any_key rs (let (rs, x) := Apply (jenc cmd) rs in (rs, res_bind x (fun _ => Ok tt))).1.
Proof.
  intros Hr. pose proof (submit_framed any_key cmd rs Hr) as Hs. unfold submit in Hs. destruct (Apply _ rs). by apply Hs, Forall_true.
Qed.

Lemma ApplyBootstrap_framed cfg rs : store_ready rs -> framed any_key rs (ApplyBootstrap cfg rs).1.
Proof.
  intros (Hr & Hk & Hf). unfold ApplyBootstrap. destruct (HasData rs) as [[|]|]; [by apply framed_refl| |by apply framed_refl].
  assert (rnd_src (plain_payload cfg (rs_rand rs)).1 = rnd_src (rs_rand rs)) as Hp.
  { unfold plain_payload. pose proof (hash_users_src (bs_Users cfg) (rs_rand rs)). by destruct (hash_users _ _). }
  destruct (plain_payload _ _) as [r1 [plain|]]; cbn [fst] in Hp; [|by apply (framed_rand _ _ r1); [exact Hp|apply framed_refl]].
  assert (rand_fills r1) as Hf1 by (unfold rand_fills; rewrite Hp; exact Hf).
  pose proof (seal_payload_src (rs_keeper rs) r1 plain Hk Hf1) as Hs. destruct (seal_payload _ _ _) as [r2 payload]. cbn [fst] in Hs.
  apply (framed_rand _ _ r2); [congruence|]. cbv zeta. destruct payload as [payload|]; [|by apply framed_refl].
  apply Apply_framed, Hr.
Qed.

Lemma applyBootstrapOnce_framed path ns file cs rs : store_ready rs -> framed any_key rs (applyBootstrapOnce path ns file cs rs).1.
Proof.
  intros Hr. pose proof (framed_refl any_key rs (proj1 Hr)) as Hrefl. unfold applyBootstrapOnce. destruct (_ || _); [done|].
  destruct (HasData rs) as [[|]|]; [done| |done]. destruct file as [cfg|]; [|done]. cbv zeta.
  destruct (if hasBootstrapSecretRefs cfg then _ else _) as [cfg'|]; [|done]. destruct (match bs_Global cfg' with Some _ => _ | None => _ end); [done|].
  pose proof (ApplyBootstrap_framed cfg' rs Hr) as Ha. by destruct (ApplyBootstrap cfg' rs).
Qed.

(** On a store with data it does nothing. *)
Lemma applyBootstrapOnce_data path ns file cs rs : HasData rs = Ok true -> applyBootstrapOnce path ns file cs rs = (rs, Ok tt).
Proof. intros Hd. unfold applyBootstrapOnce. destruct (_ || _); [done|]. by rewrite Hd. Qed.

Lemma start_store_framed env rs : store_ready rs -> framed any_key rs (start_store env rs).1.
Proof.
  intros Hr. pose proof (framed_refl any_key rs (proj1 Hr)) as Hrefl. unfold start_store.
  destruct (WaitForLeader _) as [[|]|]; [|done..]. destruct (WaitForCleanState _ _) as [[|]|]; [|done..].
  pose proof (applyBootstrapOnce_framed (se_bootstrapPath env) (se_namespace env) (se_file env) (se_clientset env) rs Hr) as Ha.
  destruct (applyBootstrapOnce _ _ _ _ rs) as [rs1 [|]]; [|exact Ha]. cbn [fst] in *. destruct (IsLeader rs1); [|exact Ha].
  eapply framed_trans; [exact Ha|]. eapply framed_mono, MigrateRBAC_framed; [done|apply Ha].
Qed.
(** The development account, and the configuration. *)
Definition users_key (k : string) : bool := HasPrefix k "/users/".

Lemma CreateUser_framed u rs : fsm_ready (rs_db rs) -> framed users_key rs (CreateUser u rs).1.1.
Proof.
  intros Hr. unfold CreateUser. fold (Governance.named u). generalize (Governance.named u). clear u. intros u. case_bool_decide; [by apply framed_refl|].
  pose proof (submit_framed users_key (mkCommand "create-user" (user_key (u_ID u)) (Raw (Some (jenc u)))) rs Hr) as Hf.
  rewrite create_user_writes in Hf. unfold applyCommand. destruct (submit _ rs). apply Hf.
  constructor; [unfold users_key, user_key, HasPrefix; apply prefix_app|]. constructor; [|constructor].
  unfold users_key, index_key, HasPrefix. apply (prefix_app "/users/" ("by-username/" +:+ u_Username u +:+ "/")).
Qed.

Lemma UpdateGlobalConfig_framed c rs : fsm_ready (rs_db rs) -> framed global_key rs (UpdateGlobalConfig c rs).1.
Proof.
  intros Hr. unfold UpdateGlobalConfig. destruct c as [c|]; [|by apply framed_refl].
  pose proof (sealConfig_src (rs_keeper rs) (rs_rand rs) c) as Hs. destruct (sealConfig _ _ c) as [r sealed]. cbn [fst] in Hs.
  apply (framed_rand _ _ r); [exact Hs|]. destruct sealed as [sealed|]; [|by apply framed_refl].
  unfold applyMulti. apply submit_framed; [exact Hr|]. rewrite applyMulti_writes. by repeat constructor.
Qed.
End frames.

(** ** What is read of the configuration *)

Lemma Unmarshal_sc_wf j c : Unmarshal (A := ServerConfig) j = Some c -> sc_wf c.
Proof.
  unfold Unmarshal. destruct j; try done; [by intros [= <-]|].
  apply (dec_fields_inv sc_wf sc_fields); [|by repeat split].
  unfold sc_wf. intros f Hf j y y' Hwf. decompose [and] Hwf.
  repeat (apply elem_of_cons in Hf as [->|Hf];
    [cbn [f_dec fld_gen]; destruct (jdec j _) eqn:E; [|done]; intros [= <-]; cbn;
     split_and!; solve [assumption | eapply jdec_int_range; [|exact E]; assumption] |]).
  by apply not_elem_of_nil in Hf.
Qed.

Lemma Unmarshal_dc_wf j c : Unmarshal (A := DefaultChannelConfig) j = Some c -> int64_range (dc_MessageTTLSeconds c) = true.
Proof.
  unfold Unmarshal. destruct j; try done; [by intros [= <-]|].
  apply (dec_fields_inv (fun c => int64_range (dc_MessageTTLSeconds c) = true) dc_fields); [|done].
  intros f Hf j y y' Hwf.
  repeat (apply elem_of_cons in Hf as [->|Hf];
    [cbn [f_dec fld_gen]; destruct (jdec j _) eqn:E; [|done]; intros [= <-]; cbn;
     solve [assumption | eapply jdec_int_range; [|exact E]; assumption] |]).
  by apply not_elem_of_nil in Hf.
Qed.

Section phases.
Context {DB B : Type} `{!Bolt DB B} `{!BoltLaws DB B} `{!Crypto} `{!JsonText} `{!CryptoLaws} `{!JsonTextLaws}.
Implicit Types (rs : RaftStore DB) (w : World (RaftStore DB)).
Abbreviation repo w := (svc_repo (w_svc w)).

Lemma GetGlobalConfig_wf rs g : fsm_ready (rs_db rs) -> GetGlobalConfig rs = Ok g -> global_wf g.
Proof.
  intros Hr. unfold GetGlobalConfig. rewrite !getFSMValue_ready by exact Hr. cbn [res_bind].
  intros (g1 & Hg1 & (g2 & Hg2 & Ho)%res_bind_Ok)%res_bind_Ok.
  assert (global_wf g1) as Hwf1.
  { destruct (fsm_get _ "/global/server/") as [j|]; [|by injection Hg1 as <-; repeat split].
    revert Hg1. destruct (Unmarshal (A := ServerConfig) j) as [c|] eqn:E; [|done]. intros [= <-].
    split; [by eapply Unmarshal_sc_wf|done]. }
  assert (global_wf g2) as Hwf2.
  { destruct (fsm_get _ "/global/defaults/") as [j|]; [|by injection Hg2 as <-].
    revert Hg2. destruct (Unmarshal (A := DefaultChannelConfig) j) as [c|] eqn:E; [|done]. intros [= <-].
    split; [apply Hwf1|by eapply Unmarshal_dc_wf]. }
  revert Ho. unfold openConfig. destruct (rs_keeper rs); [|by intros [= <-]].
  by intros (? & _ & (? & _ & [= <-])%res_bind_Ok)%res_bind_Ok.
Qed.

(** The configuration a new secret is stored in. *)
Definition with_secret (secret : string) (g : GlobalConfig) : GlobalConfig :=
  g <| gc_Server := (gc_Server g) <| sc_SessionSecret := secret |> |>.
Definition config_or_default rs : GlobalConfig := match GetGlobalConfig rs with Ok g => g | Err _ => DefaultGlobalConfig end.

Lemma SetSessionSecret_reads rs rs' n secret : store_ready rs -> SetSessionSecret (mkService rs n) secret = (mkService rs' n, Ok tt) ->
  GetGlobalConfig rs' = Ok (with_secret secret (config_or_default rs)).
Proof.
  intros Hr. unfold SetSessionSecret, on_repo. cbn [svc_repo repo_GetGlobalConfig repo_UpdateGlobalConfig raft_repository]. fold (config_or_default rs).
  fold (with_secret secret (config_or_default rs)).
  destruct (UpdateGlobalConfig _ rs) as [rs1 x] eqn:Eu. intros Heq. injection Heq as -> ->.
  apply (config_write_read rs _ rs') in Eu; [exact Eu|exact Hr|].
  assert (global_wf (config_or_default rs)) as [Hs Hd].
  { unfold config_or_default. destruct (GetGlobalConfig rs) eqn:E; [eapply GetGlobalConfig_wf; [apply Hr|exact E]|]. by repeat split. }
  split; [|exact Hd]. exact Hs.
Qed.

Lemma SessionSecret_reads rs n : SessionSecret (mkService rs n) = match GetGlobalConfig rs with Ok g => sc_SessionSecret (gc_Server g) | Err _ => "" end.
Proof. done. Qed.

(** The session secret of a node that leads: it keeps the one it reads, or stores a
    fresh one in the configuration it could read, or in the default one. *)
Lemma session_secret_leader env w : IsLeader (repo w) = true -> store_ready (repo w) -> rand_fills (w_rand w) ->
  exists w' r, session_secret env w = (w', Some r) /\ framed global_key (repo w) (repo w') /\
    forall secret, r = Ok secret -> secret <> "" /\ SessionSecret (w_svc w') = secret /\
      (w' = w \/ SessionSecret (w_svc w) = "" /\ GetGlobalConfig (repo w') = Ok (with_secret secret (config_or_default (repo w)))).
Proof.
  intros Hl Hr Hf. unfold session_secret. rewrite Hl. unfold leader_session_secret.
  destruct (decide (SessionSecret (w_svc w) = "")) as [Es|Es].
  2:{ rewrite bool_decide_false by exact Es. exists w, (Ok (SessionSecret (w_svc w))). split; [done|]. split; [apply framed_refl, Hr|].
      intros secret [= <-]. by auto. }
  rewrite bool_decide_true by exact Es. cbn [negb]. destruct (rand_Read_fills 32 (w_rand w) Hf) as [_ Hlen].
  destruct (rand_Read 32 (w_rand w)) as [rnd b]. cbn [snd] in Hlen. destruct b as [b|e].
  2:{ eexists _, _. split; [done|]. split; [apply framed_refl, Hr|done]. }
  assert (hex_encode b <> "") as Hne.
  { intros E. pose proof (length_hex b) as Hh. rewrite E, (Hlen b eq_refl) in Hh. discriminate Hh. }
  change (w_svc (w <| w_rand := rnd |>)) with (w_svc w). destruct (w_svc w) as [rs n] eqn:Ew. cbn [svc_repo] in *.
  pose proof (SetSessionSecret_reads rs) as Hset.
  assert (exists rs', (SetSessionSecret (mkService rs n) (hex_encode b)).1 = mkService rs' n /\ framed global_key rs rs') as (rs' & Hrs' & Hframe).
  { unfold SetSessionSecret, on_repo. cbn [svc_repo repo_GetGlobalConfig repo_UpdateGlobalConfig raft_repository].
    match goal with |- context [UpdateGlobalConfig ?c rs] => pose proof (UpdateGlobalConfig_framed c rs (proj1 Hr)); destruct (UpdateGlobalConfig c rs) as [rs' x] end.
    by exists rs'. }
  destruct (SetSessionSecret (mkService rs n) (hex_encode b)) as [s x] eqn:Eset. cbn [fst] in Hrs'. subst s.
  eexists _, _. split; [reflexivity|]. split; [exact Hframe|]. destruct x as [[]|e]; [|done]. intros secret [= <-].
  pose proof (Hset rs' n (hex_encode b) Hr Eset) as Hg. split; [exact Hne|]. split.
  - change (SessionSecret (mkService rs' n) = hex_encode b). by rewrite SessionSecret_reads, Hg.
  - right. split; [exact Es|]. exact Hg.
Qed.

Lemma dev_admin_spec env w : fsm_ready (rs_db (repo w)) -> rand_fills (w_rand w) ->
  framed users_key (repo w) (repo (dev_admin env w).1) /\ rand_fills (w_rand (dev_admin env w).1).
Proof.
  intros Hr Hf. unfold dev_admin. destruct (se_devAdmin env) as [[salt password]|]; [|by split; [apply framed_refl|]].
  unfold initDevAdmin. destruct (negb _); [by split; [apply framed_refl|]|].
  assert (exists w1 pw, (if bool_decide (password = "") then let (rnd, x) := GenerateRandomHex (w_rand w) in (w <| w_rand := rnd |>, x)
    else (w, Ok password)) = (w1, pw) /\ w_svc w1 = w_svc w /\ rand_fills (w_rand w1)) as (w1 & pw & -> & Hs & Hf1).
  { destruct (bool_decide _); [|by exists w, (Ok password)]. destruct (GenerateRandomHex (w_rand w)) as [rnd x] eqn:E.
    exists (w <| w_rand := rnd |>), x. split; [done|]. split; [done|]. cbn. revert E. unfold GenerateRandomHex, rand_Read.
    intros [= <- _]. exact Hf. }
  destruct pw as [pw|e]; [|cbn; rewrite Hs; by split; [apply framed_refl|]].
  unfold CreateDevAdmin. rewrite Hs. destruct (negb _); [cbn; split; [by apply framed_refl|done]|].
  destruct (bcrypt_hash salt pw) as [hash|]; [|cbn; split; [by apply framed_refl|done]]. unfold on_repo'.
  cbn [repo_CreateUser raft_repository].
  match goal with |- context [CreateUser ?u ?rs] => pose proof (CreateUser_framed u rs Hr) as Hu; destruct (CreateUser u rs) as [[rs' u'] x] end.
  destruct x; [destruct (se_passwordFile env)|]; split; [exact Hu|exact Hf1|exact Hu|exact Hf1|exact Hu|exact Hf1].
Qed.

(** A start that succeeds, phase by phase. *)
Definition started (rs : RaftStore DB) (b : Broker) (rnd : Rand) (now : Z) : World (RaftStore DB) :=
  mkWorld (mkService rs (Some [])) NewBanTracker NewRateLimiter ∅ ∅ b [] true rnd now.
Definition channels_of rs : list Channel := match ListChannels rs with Ok l => l | Err _ => [] end.

Lemma start_ok env rnd now rs w key : NewServer_services env rnd now rs = (w, Some (Ok key)) ->
  exists rs1 b b1 w2 secret, start_store env rs = (rs1, Some (Ok tt)) /\ start_broker env = Ok b /\
    restore_ttls (mkService rs1 (Some [])) (channels_of rs1) b = Ok b1 /\ dev_admin env (started rs1 b1 rnd now) = (w2, Ok tt) /\
    session_secret env w2 = (w, Some (Ok secret)) /\ ValidateAuthConfig (w_svc w) = None /\ key = session_key secret.
Proof.
  unfold NewServer_services. destruct (start_store env rs) as [rs1 [[[]|]|]]; [|done..]. destruct (start_broker env) as [b|]; [|done].
  cbv zeta. change (match repo_ListChannels rs1 with Ok l => l | Err _ => [] end) with (channels_of rs1). cbn [w_svc].
  destruct (restore_ttls _ _ b) as [b1|] eqn:Er; [|done].
  change ((started rs1 b rnd now) <| w_broker := b1 |>) with (started rs1 b1 rnd now).
  destruct (dev_admin env _) as [w2 [[]|]] eqn:Ed; [|done]. destruct (session_secret env w2) as [w3 [[secret|]|]] eqn:Es; [|done..].
  intros Heq. injection Heq as -> Hv. destruct (ValidateAuthConfig (w_svc w)) eqn:Ev; [done|]. injection Hv as <-.
  exists rs1, b, b1, w2, secret. by split_and!.
Qed.

(** Conversely, a start whose phases write nothing. *)
Lemma start_quiet env rnd now rs b b1 secret :
  start_store env rs = (rs, Some (Ok tt)) -> start_broker env = Ok b ->
  restore_ttls (mkService rs (Some [])) (channels_of rs) b = Ok b1 -> se_devAdmin env = None ->
  SessionSecret (mkService rs (Some [])) = secret -> secret <> "" -> ValidateAuthConfig (mkService rs (Some [])) = None ->
  NewServer_services env rnd now rs = (started rs b1 rnd now, Some (Ok (session_key secret))).
Proof.
  intros Hs Hb Hr Hd Hsec Hne Hv.
  assert (forall w, w_svc w = mkService rs (Some []) -> session_secret env w = (w, Some (Ok secret))) as Hsecret.
  { intros w Hw. unfold session_secret. rewrite Hw, Hsec. by rewrite bool_decide_false by exact Hne. }
  unfold NewServer_services. rewrite Hs, Hb. cbv zeta.
  change (match repo_ListChannels rs with Ok l => l | Err _ => [] end) with (channels_of rs). cbn [w_svc]. rewrite Hr.
  unfold dev_admin. rewrite Hd, Hsecret by done. cbn iota beta.
  match goal with |- context [ValidateAuthConfig ?s] => change s with (mkService rs (Some [])) end. by rewrite Hv.
Qed.

Lemma restore_ttls_resolves s l b :
  (exists b', restore_ttls s l b = Ok b') <-> Forall (fun ch => is_ok (svc_ResolveChannelConfig (R := RaftStore DB) s (ch_ID ch)) = true) l.
Proof.
  revert b. induction l as [|ch l IH]; intros b; [split; [constructor|by eexists]|]. cbn [restore_ttls]. rewrite Forall_cons.
  destruct (svc_ResolveChannelConfig s (ch_ID ch)) as [c|e]; [rewrite IH; cbn; tauto|]. split; [by intros [b' ?]|by intros [? _]].
Qed.

(** A configuration that only got a secret resolves the same channels. *)
Lemma resolve_kept rs1 rs2 n1 n2 id secret : GetChannel id rs2 = GetChannel id rs1 ->
  GetGlobalConfig rs2 = GetGlobalConfig rs1 \/ GetGlobalConfig rs2 = Ok (with_secret secret (config_or_default rs1)) ->
  is_ok (svc_ResolveChannelConfig (mkService rs1 n1) id) = true -> is_ok (svc_ResolveChannelConfig (mkService rs2 n2) id) = true.
Proof.
  intros Hch Hg. unfold svc_ResolveChannelConfig, globalOrFail. cbn [svc_repo repo_GetChannel repo_GetGlobalConfig raft_repository].
  rewrite Hch. assert (forall g1, GetGlobalConfig rs1 = Ok g1 -> exists g2, GetGlobalConfig rs2 = Ok g2 /\
    sc_RequireKnownChannels (gc_Server g2) = sc_RequireKnownChannels (gc_Server g1)) as Hkept.
  { intros g1 E. unfold config_or_default in Hg. rewrite E in Hg. destruct Hg as [-> | ->]; (eexists; split; reflexivity). }
  destruct (GetGlobalConfig rs1) as [g1|e]; cbn [res_bind].
  - destruct (Hkept g1 eq_refl) as (g2 & -> & Hk). cbn [res_bind]. rewrite Hk.
    destruct (GetChannel id rs1); [done|]. destruct (negb _); [done|]. by destruct (sc_RequireKnownChannels (gc_Server g1)).
  - destruct (GetChannel id rs1); [done|]. by destruct (negb _).
Qed.

Lemma prefix_other (p q k : string) : HasPrefix k p = true -> (forall k', HasPrefix (p +:+ k') q = false) -> HasPrefix k q = false.
Proof. intros (k' & ->)%prefix_spec Hq. apply Hq. Qed.

(** A store that has a session secret has data. *)
Lemma secret_has_data rs n : fsm_ready (rs_db rs) -> SessionSecret (mkService rs n) <> "" -> HasData rs = Ok true.
Proof.
  intros Hr Hs. unfold HasData. rewrite listFSMKeys_filter by apply Hr. cbn [res_bind].
  assert (is_Some (store_get rs "/global/server/")) as Hkey.
  { destruct (store_get rs "/global/server/") as [v|] eqn:E; [by eexists|exfalso]. apply Hs. rewrite SessionSecret_reads.
    destruct (GetGlobalConfig rs) as [g|] eqn:Eg; [|done]. revert Eg. unfold GetGlobalConfig. rewrite !getFSMValue_ready by exact Hr.
    change (fsm_get (rs_db rs) "/global/server/") with (store_get rs "/global/server/"). rewrite E. cbn [res_bind].
    intros (g2 & Hg2 & Ho)%res_bind_Ok. assert (sc_SessionSecret (gc_Server g2) = "") as Hempty.
    { destruct (fsm_get _ _) as [j|]; [|by injection Hg2 as <-]. destruct (Unmarshal j) as [c|]; [|discriminate Hg2]. by injection Hg2 as <-. }
    revert Ho. unfold openConfig. destruct (rs_keeper rs) as [k|]; [|by intros [= <-]]. rewrite Hempty. unfold openString at 1.
    cbn [bool_decide decide_rel]. intros (s1 & Hs1 & (s2 & _ & [= <-])%res_bind_Ok)%res_bind_Ok. by injection Hs1 as <-. }
  assert ("/global/server/" ∈ filter (fun k => HasPrefix k "/" = true) (fsm_keys (rs_db rs))) as Hin
    by (apply list_elem_of_filter; split; [done|by apply fsm_keys_elem]).
  destruct (filter _ _); [by apply not_elem_of_nil in Hin|done].
Qed.

(** What a start of a leader leaves, beside the store the waits end with. *)
Definition data_key (k : string) : bool := users_key k || global_key k.

Lemma data_key_channels : channel_keys_kept data_key.
Proof. intros k Hk. unfold data_key, users_key, global_key. by rewrite !(prefix_other _ _ _ Hk) by done. Qed.

Lemma leader_start env rnd now rs w key : store_ready rs -> rand_fills rnd -> (forall n, rf_leader (rs_raft rs) n = true) ->
  NewServer_services env rnd now rs = (w, Some (Ok key)) ->
  exists rs1 b b1 secret, start_store env rs = (rs1, Some (Ok tt)) /\ store_ready rs1 /\
    restore_ttls (mkService rs1 (Some [])) (channels_of rs1) b = Ok b1 /\ framed data_key rs1 (repo w) /\
    secret <> "" /\ SessionSecret (w_svc w) = secret /\ key = DeriveSessionSecret secret /\ ValidateAuthConfig (w_svc w) = None /\
    (GetGlobalConfig (repo w) = GetGlobalConfig rs1 \/
     SessionSecret (mkService rs1 (Some [])) = "" /\ GetGlobalConfig (repo w) = Ok (with_secret secret (config_or_default rs1))).
Proof.
  intros Hr Hf Hl Hstart. destruct (start_ok _ _ _ _ _ _ Hstart) as (rs1 & b & b1 & w2 & secret & Hs & Hb & Hrt & Hd & Hsec & Hv & Hkey).
  pose proof (start_store_framed env rs Hr) as Hframe1. rewrite Hs in Hframe1. cbn [fst] in Hframe1.
  pose proof (framed_ready _ _ _ Hr Hframe1) as Hr1.
  destruct (dev_admin_spec env (started rs1 b1 rnd now) (proj1 Hr1) Hf) as [Hframe2 Hf2]. rewrite Hd in Hframe2, Hf2. cbn [fst] in Hframe2, Hf2.
  change (repo (started rs1 b1 rnd now)) with rs1 in Hframe2. pose proof (framed_ready _ _ _ Hr1 Hframe2) as Hr2.
  assert (IsLeader (repo w2) = true) as Hlead by (unfold IsLeader; rewrite (fr_leader _ _ _ Hframe2), (fr_leader _ _ _ Hframe1); apply Hl).
  destruct (session_secret_leader env w2 Hlead Hr2 Hf2) as (w3 & r & E & Hframe3 & Hspec). rewrite E in Hsec. injection Hsec as -> ->.
  destruct (Hspec secret eq_refl) as (Hne & Hread & Hcase).
  assert (GetGlobalConfig (repo w2) = GetGlobalConfig rs1) as Hcfg by (eapply GetGlobalConfig_same; [apply Hr1|apply Hframe2|done..]).
  exists rs1, b, b1, secret. split; [exact Hs|]. split; [exact Hr1|]. split; [exact Hrt|]. split.
  { eapply framed_trans; (eapply framed_mono; [|eassumption]); unfold data_key; intros k Hk%orb_false_iff; tauto. }
  split; [exact Hne|]. split; [exact Hread|]. split; [rewrite Hkey; unfold session_key; by rewrite bool_decide_false by exact Hne|].
  split; [exact Hv|]. destruct Hcase as [-> | [Hempty Hset]]; [by left|right]. split.
  - revert Hempty. destruct (w_svc w2) as [rs2 n2]. rewrite !SessionSecret_reads. cbn [svc_repo] in Hcfg. by rewrite Hcfg.
  - rewrite Hset. unfold config_or_default. by rewrite Hcfg.
Qed.


(** ** The configuration of a leader that cannot read it *)

(** A configuration without its secrets. *)
Definition settings (g : GlobalConfig) : GlobalConfig := set_default_secret "" (set_session_secret "" g).

Lemma openConfig_settings ko g g' : openConfig ko g = Ok g' -> settings g' = settings g.
Proof.
  unfold openConfig. destruct ko; [|by intros [= <-]]. by intros (? & _ & (? & _ & [= <-])%res_bind_Ok)%res_bind_Ok.
Qed.

(** The settings do not depend on the key they are read with. *)
Lemma settings_stored rs rs' g g' : rs_db rs' = rs_db rs -> GetGlobalConfig rs = Ok g -> GetGlobalConfig rs' = Ok g' -> settings g' = settings g.
Proof.
  intros Hdb. unfold GetGlobalConfig. rewrite Hdb. destruct (getFSMValue (rs_db rs) "/global/server/") as [v|]; [|done]. cbn [res_bind].
  destruct (match v with Some val => _ | None => _ end) as [g1|]; [|done]. cbn [res_bind].
  destruct (getFSMValue (rs_db rs) "/global/defaults/") as [v2|]; [|done]. cbn [res_bind].
  destruct (match v2 with Some val => _ | None => _ end) as [g2|]; [|done]. cbn [res_bind].
  intros ->%openConfig_settings ->%openConfig_settings. done.
Qed.

(** C27. A leader that comes up on a configuration it cannot read, for want of the at-rest
    key it was sealed with, has replaced it: whatever key the stored configuration is
    read with afterwards, it holds the default settings. *)
Theorem unreadable_configuration_replaced env rnd now rs w key e
  (Hready : store_ready rs /\ rand_fills rnd) (Hleads : forall n, rf_leader (rs_raft rs) n = true)
  (Hunread : HasData rs = Ok true /\ GetGlobalConfig rs = Err e) (Hstart : NewServer_services env rnd now rs = (w, Some (Ok key))) :
  forall rs' g, rs_db rs' = rs_db (repo w) -> GetGlobalConfig rs' = Ok g -> settings g = DefaultGlobalConfig.
Proof.
  destruct Hready as [Hr Hf], Hunread as [Hdata Hbad].
  destruct (leader_start _ _ _ _ _ _ Hr Hf Hleads Hstart) as (rs1 & b0 & b1 & secret & Hs & Hr1 & _ & _ & Hne & Hread & _ & _ & Hcfg).
  assert (GetGlobalConfig rs1 = Err e) as Hbad1.
  { rewrite <- Hbad. revert Hs. unfold start_store. destruct (WaitForLeader _) as [[|]|]; [|done..].
    destruct (WaitForCleanState _ _) as [[|]|]; [|done..]. rewrite applyBootstrapOnce_data by exact Hdata. intros [= <-].
    destruct (IsLeader rs); [|done]. eapply GetGlobalConfig_same; [apply Hr|apply MigrateRBAC_framed, Hr|done..]. }
  assert (GetGlobalConfig (repo w) = Ok (with_secret secret DefaultGlobalConfig)) as Hset.
  { destruct Hcfg as [E|[_ E]]; [|unfold config_or_default in E; by rewrite Hbad1 in E]. exfalso. apply Hne. rewrite <- Hread.
    destruct (w_svc w) as [rs2 n2]. rewrite SessionSecret_reads. cbn [svc_repo] in E. by rewrite E, Hbad1. }
  intros rs' g Hdb Hg. by rewrite (settings_stored (repo w) rs' _ g Hdb Hset Hg).
Qed.

(** ** A node without a secret *)

Lemma poll_gives_up env fuel n s : SessionSecret s = "" -> (forall n, SessionSecret (mkService (se_views env n) (svc_notified s)) = "") ->
  forall s' secret, poll_session_secret env fuel n s = (s', Some secret) -> secret = "".
Proof.
  revert n s. induction fuel as [|fuel IH]; intros n s Hs Hviews s' secret; cbn [poll_session_secret]; rewrite Hs; cbn [negb bool_decide decide_rel].
  - destruct (_ || _); [by intros [= _ <-]|done].
  - destruct (_ || _); [by intros [= _ <-]|]. apply IH; [apply Hviews|exact Hviews].
Qed.

(** The poll ends: at ten reads a second it answers by the deadline. *)
Theorem poll_session_secret_ends env (start : Z) fuel s
  (Hclock : forall n, (start + Z.of_nat n * 100000000 <= se_clock env n)%Z) (Hfuel : (se_deadline env <= start + Z.of_nat fuel * 100000000)%Z) :
  is_Some (poll_session_secret env fuel 0 s).2.
Proof.
  assert (forall left n s, (n + left = fuel)%nat -> is_Some (poll_session_secret env left n s).2) as Hgen; [|by apply Hgen].
  induction left as [|left IH]; intros n s1 Hn; cbn [poll_session_secret]; (destruct (_ || _) eqn:E; [by eexists|]).
  - apply orb_false_iff in E as [_ E]. apply negb_false_iff, Z.ltb_lt in E. specialize (Hclock n). replace n with fuel in * by lia. lia.
  - apply IH. lia.
Qed.

(** C28. A node that does not lead and finds no secret in time, in a deployment without
    accounts, comes up with the all-zero key and keeps it: whatever accounts are made
    later, it takes a session anyone can sign for a login of theirs. *)
Theorem zero_key_forged env rnd now rs w key
  (Hfollows : forall n, rf_leader (rs_raft rs) n = false)
  (Hsecret : SessionSecret (mkService rs (Some [])) = "" /\ forall n, SessionSecret (mkService (se_views env n) (Some [])) = "")
  (Hquiet : se_devAdmin env = None) (Hstart : NewServer_services env rnd now rs = (w, Some (Ok key))) :
  key = no_secret_key /\ users_or_empty (w_svc w) = [] /\
  forall secure r w' user sid expires,
    (ascii_str (u_ID user) = true /\ ascii_str (u_Username user) = true /\ ascii_str sid = true /\ u_ID user <> "") ->
    int64_range (svc_GetAuthEpoch (w_svc w')) = true /\ int64_range expires = true /\ (time_Unix (w_now w') <= expires)%Z ->
    repo_GetUser (u_ID user) (repo w') = Ok user ->
    rq_Cookies r !! sessionCookieName =
      Some (EncodeSession (login_token user sid (svc_GetAuthEpoch (w_svc w')) expires) (Nat.iter 32 (String "000") "")) ->
    RequireAuth key secure r w' = Next (r <| rq_Ctx := withPrincipal (rq_Ctx r) user [] |>) w'.
Proof.
  destruct (start_ok _ _ _ _ _ _ Hstart) as (rs1 & b & b1 & w2 & secret & Hs & _ & _ & Hd & Hsec & _ & Hkey).
  assert (rs1 = rs) as ->.
  { revert Hs. unfold start_store, applyBootstrapOnce, IsLeader. destruct (WaitForLeader _) as [[|]|]; [|done..].
    destruct (WaitForCleanState _ _) as [[|]|]; [|done..]. rewrite !Hfollows, orb_true_r, Hfollows. by intros [= <-]. }
  revert Hd. unfold dev_admin. rewrite Hquiet. intros [= <-]. destruct Hsecret as [Hempty Hviews].
  revert Hsec. unfold session_secret. change (w_svc (started rs b1 rnd now)) with (mkService rs (Some [])).
  rewrite Hempty, bool_decide_true by done. cbn [negb svc_repo]. unfold IsLeader. rewrite Hfollows.
  destruct (poll_session_secret env (se_fuel env) 0 (mkService rs (Some []))) as [s [secret'|]] eqn:Ep; [|done].
  pose proof (poll_gives_up _ _ _ _ Hempty Hviews _ _ Ep) as ->. rewrite bool_decide_true by done. cbn [andb].
  destruct (0 <? length (users_or_empty s))%nat eqn:Eu; [done|]. cbn [orb]. destruct (0 <? length (providers_or_empty s))%nat; [done|].
  intros Heq. injection Heq as <- <-.
  split; [exact Hkey|]. split.
  { cbn [w_svc set_fld]. apply Nat.ltb_ge in Eu. by destruct (users_or_empty s); [|cbn in Eu; lia]. }
  intros secure r w' user sid expires (Hi & Hu & Hsid & Hne) (He & Hx & Ht) Hg Hc. rewrite Hkey. unfold session_key. cbn [bool_decide decide_rel].
  rewrite (RequireAuth_login no_secret_key secure user sid (svc_GetAuthEpoch (w_svc w')) expires r w') by done.
  by rewrite (bool_decide_true _ Ht), bool_decide_true by done.
Qed.
End phases.

(** ** Starts *)

(** A node whose raft is ready, without a bootstrap file or a development account, that
    polls four times for a secret its store never gets. *)
Definition clean_stats : gmap string string :=
  {[ "state" := "Leader"; "commit_index" := "7"; "applied_index" := "7"; "fsm_pending" := "0" ]}.
Definition quiet_start (views : RaftStore mapdb) : StartEnv mapdb :=
  mkStart [("", WTick); ("node-0", WTick)] [(clean_stats, WTick)] (fun _ => None) "" "" (Err (errorf "no file")) (Err (errorf "no cluster"))
    ("", "", "", None) (Ok demo_broker) None None (fun _ => views) (fun n => Z.of_nat n) 4 8.

Abbreviation first_start := (NewServer_services (quiet_start (demo_store ∅)) zero_rand 1 (demo_store ∅)).


(** The deployment only serves known channels; the node has another at-rest key. *)
Definition strict_config : GlobalConfig :=
  DefaultGlobalConfig <| gc_Server := (gc_Server DefaultGlobalConfig) <| sc_RequireKnownChannels := true |> <| sc_SessionSecret := "0123456789" |> |>.
Definition other_keeper : CryptoKeeper := mkKeeper {[ "k2" := demo_key ]} "k2".
Definition locked_store : RaftStore mapdb := (UpdateGlobalConfig (Some strict_config) (sealing_store ∅)).1 <| rs_keeper := Some other_keeper |>.

Lemma locked_store_ready : store_ready locked_store.
Proof.
  destruct (UpdateGlobalConfig_framed (Some strict_config) (sealing_store ∅) (proj1 (sealing_store_ready ∅))) as [[_ R _] S _].
  split; [exact R|]. split; [|unfold rand_fills; change (rs_rand locked_store) with (rs_rand (UpdateGlobalConfig (Some strict_config) (sealing_store ∅)).1); rewrite S; apply zero_rand_fills].
  split; [|reflexivity]. intros kid key. unfold other_keeper; cbn [ck_keys]. rewrite lookup_singleton. case_decide; [by intros [= <-] | done].
Qed.
Abbreviation locked_start := (NewServer_services (quiet_start locked_store) zero_rand 1 locked_store).

Lemma unreadable_configuration_replaced_witness :
  GetGlobalConfig (locked_store <| rs_keeper := Some demo_keeper |>) = Ok strict_config /\
  forall rs' g, rs_db rs' = rs_db (svc_repo (w_svc locked_start.1)) -> GetGlobalConfig rs' = Ok g -> settings g = DefaultGlobalConfig.
Proof.
  split; [vm_compute; reflexivity|]. destruct locked_start.2 as [[key|e]|] eqn:E; [|vm_compute in E; discriminate E..].
  destruct (GetGlobalConfig locked_store) as [g|e] eqn:Eg; [vm_compute in Eg; discriminate Eg|].
  apply (unreadable_configuration_replaced (quiet_start locked_store) zero_rand 1 locked_store locked_start.1 key e).
  - split; [apply locked_store_ready|apply zero_rand_fills].
  - reflexivity.
  - split; [vm_compute; reflexivity|exact Eg].
  - rewrite <- E. apply surjective_pairing.
Defined.

(** A follower, and root created later. *)
Definition follower_store : RaftStore mapdb := (demo_store ∅) <| rs_raft := mkRaft (fun _ => false) (fun _ => Committed) 0 |>.
Abbreviation follower_start := (NewServer_services (quiet_start follower_store) zero_rand 1 follower_store).
Definition root_user : User := mkUser "root" "root" "$2a$pw" [] [] ["admin"] ["*"].
Definition root_world : World (RaftStore mapdb) := demo_world {[ user_key "root" := jenc root_user ]}.
Definition forged : string := EncodeSession (login_token root_user "sid" 0 4000000000) (Nat.iter 32 (String "000") "").
Definition forged_request : Request := demo_request <| rq_Cookies := {[ sessionCookieName := forged ]} |>.

Lemma zero_key_forged_witness : exists key, follower_start.2 = Some (Ok key) /\
  RequireAuth key true forged_request root_world =
    Next (forged_request <| rq_Ctx := withPrincipal (rq_Ctx forged_request) root_user [] |>) root_world.
Proof.
  destruct follower_start.2 as [[key|e]|] eqn:E; [|vm_compute in E; discriminate E..]. exists key. split; [done|].
  destruct (zero_key_forged (quiet_start follower_store) zero_rand 1 follower_store follower_start.1 key) as (_ & _ & Hforged).
  - reflexivity.
  - split; [vm_compute; reflexivity|]. intros n. vm_compute. reflexivity.
  - reflexivity.
  - rewrite <- E. apply surjective_pairing.
  - apply (Hforged true forged_request root_world root_user "sid" 4000000000%Z).
    + split_and!; [reflexivity..|discriminate].
    + split_and!; vm_compute; (reflexivity || discriminate).
    + vm_compute. reflexivity.
    + vm_compute. reflexivity.
Defined.
